(* ===== verification/_CoqProject ===== *)
-Q . S2P
Prelude.v
GoStd.v
NetUrl.v
GoJson.v
GoFmt.v
KubeTypes.v
APITypes.v
Kube.v
Reference.v
ResCommon.v
KineRes.v
PostgresRes.v
SecondaryRes.v
MetricsRes.v
OtelRes.v
Certs.v
Aggregation.v
Registration.v
ClientProvider.v
ApiShardSteps.v
ApiShard.v
ApiShardLemmas.v
Tracking.v
Rbac.v
Typing.v
LiveRule.v
ApiShardProps.v
Progress.v
Lifecycle.v
TypeProps.v
NamespaceSync.v
WebhookSync.v
WebhookStore.v
RbacProps.v
Predicates.v
Ticker.v
Discovery.v
GoSlice.v
GoHeap.v
DeepCopyTypes.v
DeepCopy.v
DeepCopyProps.v
Manager.v
Setup.v
Scheme.v
Startup.v
Workloads.v
Volumes.v
StorageProps.v
CertProps.v
DSNProps.v
Mappers.v
Watches.v
ControlLoop.v
Health.v
Tekton.v
Generator.v
Bundle.v
LoadMain.v
ScriptProps.v
BundleProps.v
LoadProps.v
LoadDivergences.v
Divergences.v
