(* ===== verification/Prelude.v ===== *)
(** * kube-shard: a verification development of the operator

    kube-shard offloads API groups of a Kubernetes cluster (the primary) to a
    second kube-apiserver (the secondary) with a storage of its own.  For each
    APIShard resource the operator provisions storage (an in-cluster PostgreSQL or
    an external one), Kine, which serves the etcd protocol on top of it, the
    certificates of three separate chains of trust, and the secondary API server;
    it then registers the groups of the shard as APIServices of the primary, copies
    conflicting CRDs, and creates a NamespaceSync and a WebhookSync resource whose
    controllers mirror namespaces and admission webhooks onto the secondary.

    ** How programs are modelled

    A function of the operator that only computes is a Rocq function.  A function
    that talks to the API server, the clock, the entropy source or API discovery is
    a program of the type [kprog] (Prelude, Kube): a tree of calls, each continued by
    its response.  [run p tr a] says that [p] can perform exactly the calls and
    responses [tr] and return [a]; the responses are arbitrary, so a theorem over all
    runs holds whatever the API server answers, errors at every call included.
    [exec] runs a program against a handler of calls, and [exec_run] turns such an
    execution into a run.  All loops of the code are over finite lists and are
    structural recursions, so every program is total.
    Mutation is explicit: a function that changes the shard it was given returns it,
    and the client provider's map is passed and returned.  A Go error is its text
    with its apimachinery class; it is returned as an option or in a [result].

    Safety properties of whole reconciliations are stated with monitors: a ghost
    state updated by each call and response, and a condition each call must satisfy
    in the state it is made in ([allowed]); [wp] is the corresponding weakest
    precondition, with rules for sequencing, loops and steps that only read.

    Code outside the repository is not given a definition.  The pure helpers of
    apimachinery, controller-runtime, crypto/sha256, net/netip, encoding/json's
    diagnostics, the YAML codec and the container registry are parameters: the class
    [ThirdParty] of Kube, [ControllerRuntime] of Manager, [WorkQueue] of ControlLoop,
    [ForeignTypes] and [ForeignCopying] of DeepCopyTypes, [Codec] of Tekton, and
    section variables; the documented behaviour that proofs rely on is a class of
    laws or a named hypothesis.  Reference, Watches, ControlLoop and DeepCopyProps hold
    instances with their laws proved, and an in-memory pair of API servers, on which
    the witnesses are executed.
    The Go language and standard library, as far as the source uses them, are
    modelled: GoStd, NetUrl, GoJson, GoFmt, GoSlice for slices that share a backing
    array, and GoHeap for memory that is shared through pointers, slices and maps.

    An object that a controller reads, changes and writes is a value, since the code
    never changes one it shares; that the copies it takes for this are deep is itself
    proved, on the heap (C15).

    ** Files and what they model (paths under src/operator unless said otherwise)

    - Prelude: errors, results, programs, runs, executions, monitors and their
      logic, nil-able maps, tactics and hint databases.
    - GoStd, NetUrl, GoJson, GoFmt, GoSlice: strings, fmt, hex, base64, durations;
      net/url's Parse; json.Unmarshal into a slice of strings and into a struct;
      splitting, scanning and formatting; slices, append and the heap they live in.
    - KubeTypes: the Kubernetes objects; APITypes: api/v1alpha1 (APIShard,
      NamespaceSync, WebhookSync, phases, condition types).
    - GoHeap: memory and what it means to copy in it; DeepCopyTypes: the structures of
      api/v1alpha1 as they lie in memory; DeepCopy: zz_generated.deepcopy.go, all its
      functions; DeepCopyProps: what they are worth.
    - Scheme: api/v1alpha1/groupversion_info.go and the schemes that cmd/main.go fills.
    - Kube: the calls and third-party helpers; Reference: their reference instance.
    - ResCommon, KineRes, PostgresRes, SecondaryRes, MetricsRes, OtelRes:
      internal/resources, all builders of the objects of a shard, with
      AlignPostgreSQLVolumeClaims and ParsePostgreSQLDSN.
    - Certs: internal/certs.  Aggregation: internal/aggregation, and Registration: what
      a registration leaves on the primary.
    - ClientProvider: internal/secondary/client.go; the interleaving of goroutines
      on its cache is the step relation [shared_step].  Health: its HealthChecker.
    - ApiShardSteps and ApiShard: internal/controller/apishard/reconciler.go, its
      steps and then Reconcile, deletion, health, status and the event mappers.
      Discovery: internal/controller/apishard/discovery.go.
    - NamespaceSync, WebhookSync: internal/controller/namespacesync and
      internal/controller/webhooksync, with their properties.
    - Predicates: internal/predicate and internal/condition.  Ticker:
      internal/periodic, the statements of its goroutine and what is around it as the
      step relation [ticker_step].
    - Manager: what the program hands to controller-runtime.  Setup: SetupWithManager
      of the three controllers, handler.go, and cmd/main.go.
    - Rbac: the kubebuilder markers above the three Reconcile functions and
      config/rbac/metrics_reader_role.yaml and metrics_auth_role.yaml, as rules, with
      what the API server checks of roles that are written and bound.
      Typing: the API version, kind and scope of each Go type.
    - Tekton, Generator, Bundle, LoadMain: the load-test tool of
      src/tools/generate-from-pipeline: its environment, generator.go, bundle.go with
      its goroutines, their calls, mutex, map and WaitGroup as the step relation
      [pool_step], and main.go.
    - ApiShardLemmas, Tracking, LiveRule: the proof rules for a reconciliation, shared
      by ApiShardProps, Lifecycle, TypeProps and RbacProps.
    - ControlLoop: a controller as controller-runtime drives it, with its queue of
      requests, as the step relation [loop_step].
    - ApiShardProps, Progress, Lifecycle, TypeProps, RbacProps, WebhookStore, Startup, Watches,
      Workloads, Volumes, StorageProps, CertProps, DSNProps, Mappers, ScriptProps,
      BundleProps, LoadProps: specifications and properties.  Divergences and
      LoadDivergences: executions in which the code departs from what the
      repository's comments and documents say.

    ** What is proved

    - C1 to C8: the life cycle of a shard.  The cleanup finalizer leaves only after
      deregistration (C1); Reconcile refines an abstract life cycle of a shard, given
      by its stages, transitions and permitted effects (C2); Ready means observed
      health (C3) and, conversely, a healthy cluster makes a shard Ready (C4); in the
      control loop no change is lost, and a shard is left alone only in a stage where
      nothing is left to do (C5); orphan cleanup spares what the shard needs (C6); what
      is applied is well typed and of a kind that cleanup looks through (C7); the role
      the operator runs with permits all its calls, with what the API server checks of
      the roles it writes and binds (C8).
    - C9, C10: namespaces converge, and the primary is not written to.
    - C11, C12: the secondary's webhook configurations converge to copies with URLs for
      services; each single write is such a copy, without metadata of the primary's
      cluster when it creates and with the metadata just read when it updates.
    - C13, C14: registration of watches, predicates and mappers together deliver every
      change that matters; start-up fails fast and in order.
    - C15: deep copies show the same value and share no memory with the original.
    - C16 to C18: what a registration of APIServices leaves on the primary; it deletes
      only what is stale; the copies of CRDs are complete.
    - C19 to C21: the right client, created once, always verifying and with the
      credentials just read, whatever the cache holds.
    - C22 to C25: the storage steps, on every branch; the password over any number of
      reconciliations.
    - C26, C27: well-formed pods, exact selectors.
    - C28 to C30: the chains of trust of all shards of a cluster and what their
      certificates may be used for, names of servers, mounted secrets.
    - C31, C32: the connection string round trip; no injection into the collector's
      configuration.
    - C33: the ticker never blocks, and ends when its context is cancelled.
    - C34 to C36, C40: the load-test generator: counting of matrices at the width of
      Go's integers, the size and shape of what is generated, the command's effects.
    - C37 to C39: the goroutines that resolve bundles refine the sequential program,
      never race or deadlock, and terminate in every schedule; what is resolved on every
      branch.
    - Without a number: which outcomes requeue ([requeue_iff_provisioning]), that the
      error of a failed step is reported ([failed_step_reported]), that discovery
      answers what the primary serves ([discovery_correct]), and that the scheme knows
      every kind the operator uses ([scheme_complete]).

    ** What is relied on

    Beside the laws of the classes above, some theorems have a hypothesis on the
    environment, each named and documented where it is defined: that the reads of a
    pass are truthful (C11, C16, C25), that a failed apply does not change the type
    or key of its object ([serverKeeps], C7), that system:auth-delegator has its
    documented rules ([documentedDelegator], C8), that the hash tells two inputs apart
    (C19, C21).  Lifecycle, Watches and Registration state what the API server stores
    and delivers in terms of the objects written, not of the code's helpers.

    ** Bounds and fuel

    Integers are of [Z]; the counters of the WebhookSync status are wrapped to 32
    bits where the code converts to int32, and the generator's arithmetic on int to
    64 bits ([int64]).  Fuel occurs where recursion is not structural: trimming of
    strings has the length of the string, the JSON parser twice the length of the
    text and two, which GoJson proves to be enough ([value_fuel]) below the nesting
    depth that encoding/json itself refuses, and the splitting into lines of DSNProps
    holds for every fuel from the 63 lines of the template on.

    ** What is not modelled

    Log output, the splitting of command lines into flags by package flag (the parsed
    flags are an input), and the end-to-end test support.  The scheduling of workers
    is the work queue's of controller-runtime, which never reconciles one resource
    twice at a time: it is the class [WorkQueue], and [loop_step] interleaves changes and
    reconciliations in every order the queue permits.  The only state shared between
    reconciliations, the client cache, is modelled with its interleavings.

    Planned extensions: the periodic sources of the two sync controllers in the control
    loop, so that their convergence, which is proved of one reconciliation, can be
    stated of the loop. *)

From stdpp Require Export base gmap strings list option pretty.
From Stdlib Require Export ZArith Lia Ascii.

#[global] Set Default Goal Selector "!".

Declare Scope go_scope.
Delimit Scope go_scope with go.
Open Scope go_scope.

(** ** Go error values

    A Go [error] is observed by the operator in two ways only: through its text
    and through the classification functions of apimachinery
    ([apierrors.IsNotFound], [meta.IsNoMatchError], ...), which look through
    [%w] wrapping.  An error is therefore its text with its class. *)
Inductive errclass :=
  | ClassNotFound
  | ClassAlreadyExists
  | ClassInvalid
  | ClassConflict
  | ClassNoMatch
  | ClassPlain.

#[export] Instance errclass_eq_dec : EqDecision errclass.
Proof. solve_decision. Defined.

Record error := mkError { Error : string; errClass : errclass }.

#[export] Instance error_eq_dec : EqDecision error.
Proof. solve_decision. Defined.

Definition IsNotFound (e : error) : bool := bool_decide (errClass e = ClassNotFound).
Definition IsAlreadyExists (e : error) : bool := bool_decide (errClass e = ClassAlreadyExists).
Definition IsInvalid (e : error) : bool := bool_decide (errClass e = ClassInvalid).
Definition IsNoMatchError (e : error) : bool := bool_decide (errClass e = ClassNoMatch).

(** [fmt.Errorf(text)] without [%w]: a fresh error no classifier recognises. *)
Definition Errorf (text : string) : error := mkError text ClassPlain.

(** [fmt.Errorf("prefix: %w", err)]: the class of [err] stays visible. *)
Definition Wrapf (prefix : string) (e : error) : error :=
  mkError (prefix +:+ ": " +:+ Error e) (errClass e).

Lemma Wrapf_class p e : errClass (Wrapf p e) = errClass e.
Proof. done. Qed.

(** [errors.Join]: nil for no errors; the texts on separate lines; a classifier
    finds the first joined error it recognises. *)
Definition LF : string := String "010"%char "".

Fixpoint join_text (es : list error) : string :=
  match es with
  | [] => ""
  | [e] => Error e
  | e :: es => Error e +:+ LF +:+ join_text es
  end.

Fixpoint join_class (es : list error) : errclass :=
  match es with
  | [] => ClassPlain
  | e :: es => if bool_decide (errClass e = ClassPlain) then join_class es else errClass e
  end.

Definition Join (es : list error) : option error :=
  match es with
  | [] => None
  | _ => Some (mkError (join_text es) (join_class es))
  end.

(** The (value, error) pairs of Go, for calls whose value is only read when the
    error is nil. *)
Inductive result (A : Type) :=
  | Ok (a : A)
  | Err (e : error).
Arguments Ok {A} a.
Arguments Err {A} e.

Definition is_ok {A} (r : result A) : bool :=
  match r with Ok _ => true | Err _ => false end.

(** ** Programs

    A function of the operator that talks to its environment (the primary API
    server, a secondary API server, the clock, the entropy source, ...) is a
    finite tree: it returns, or it performs one call and continues with the
    environment's response.  Nothing is assumed of a response, so a theorem about
    all runs of a program holds in every environment; where a property depends on
    the environment's behaviour, the program is executed against a handler. *)
Section Programs.
Context {Call : Type} {Resp : Call -> Type}.

Inductive prog (A : Type) :=
  | Ret (a : A)
  | Do (c : Call) (k : Resp c -> prog A).
Arguments Ret {A} a.
Arguments Do {A} c k.

Fixpoint bind {A B} (p : prog A) (f : A -> prog B) : prog B :=
  match p with
  | Ret a => f a
  | Do c k => Do c (fun r => bind (k r) f)
  end.

Definition perform (c : Call) : prog (Resp c) := Do c Ret.

(** One performed call with the response it got. *)
Record event := Ev { ev_call : Call; ev_resp : Resp ev_call }.

(** [run p tr a]: [p] may perform exactly the calls of [tr], in order, with the
    responses of [tr], and return [a]. *)
Fixpoint run {A} (p : prog A) (tr : list event) (a : A) : Prop :=
  match p with
  | Ret b => tr = [] /\ a = b
  | Do c k => exists r tr', tr = Ev c r :: tr' /\ run (k r) tr' a
  end.

(** [reaches p tr c]: [p] may perform the calls of [tr], and then performs [c]; the
    response to [c] may never come. *)
Fixpoint reaches {A} (p : prog A) (tr : list event) (c : Call) : Prop :=
  match p, tr with
  | Ret _, _ => False
  | Do c' _, [] => c' = c
  | Do c' k, e :: tr => exists r, e = Ev c' r /\ reaches (k r) tr c
  end.

(** Execution against a handler with state [W]: the result, the final state
    and the trace. *)
Fixpoint exec {W A} (h : forall c, W -> Resp c * W) (p : prog A) (w : W)
  : A * W * list event :=
  match p with
  | Ret a => (a, w, [])
  | Do c k =>
      let '(r, w1) := h c w in
      let '(a, w2, tr) := exec h (k r) w1 in
      (a, w2, Ev c r :: tr)
  end.

Definition result_of {W A} (x : A * W * list event) : A := x.1.1.
Definition world_of {W A} (x : A * W * list event) : W := x.1.2.
Definition trace_of {W A} (x : A * W * list event) : list event := x.2.

(** [every P p]: every call [p] may perform, whatever the responses, is in [P]. *)
Fixpoint every {A} (P : Call -> Prop) (p : prog A) : Prop :=
  match p with
  | Ret _ => True
  | Do c k => P c /\ forall r, every P (k r)
  end.

Lemma run_ret {A} (a b : A) tr : run (Ret a) tr b <-> tr = [] /\ b = a.
Proof. done. Qed.

Lemma run_bind {A B} (p : prog A) (f : A -> prog B) tr b :
  run (bind p f) tr b <->
  exists tr1 tr2 a, tr = tr1 ++ tr2 /\ run p tr1 a /\ run (f a) tr2 b.
Proof.
  revert tr. induction p as [a|c k IH]; intros tr; simpl.
  - split; [intros H; by exists [], tr, a | by intros (?&?&?&->&[-> ->]&?)].
  - split.
    + intros (r&tr'&->&H). apply IH in H as (tr1&tr2&a&->&?&?).
      exists (Ev c r :: tr1), tr2, a. split; [done|]. split; [|done]. eauto.
    + intros (tr1&tr2&a&->&(r&tr'&->&?)&?).
      exists r, (tr' ++ tr2). split; [done|]. apply IH. eauto 10.
Qed.

Lemma exec_bind {W A B} (h : forall c, W -> Resp c * W) (p : prog A) (f : A -> prog B) w :
  exec h (bind p f) w =
  let '(a, w1, tr1) := exec h p w in
  let '(b, w2, tr2) := exec h (f a) w1 in (b, w2, tr1 ++ tr2).
Proof.
  revert w. induction p as [a|c k IH]; intros w; simpl.
  - by destruct (exec h (f a) w) as [[??]?].
  - destruct (h c w) as [r w1]. rewrite IH.
    destruct (exec h (k r) w1) as [[a w2] tr1].
    by destruct (exec h (f a) w2) as [[??]?].
Qed.

Lemma exec_run {W A} (h : forall c, W -> Resp c * W) (p : prog A) w :
  run p (trace_of (exec h p w)) (result_of (exec h p w)).
Proof.
  revert w. induction p as [a|c k IH]; intros w; simpl; [done|].
  destruct (h c w) as [r w1]. specialize (IH r w1).
  destruct (exec h (k r) w1) as [[a w2] tr]. simpl in *. eauto.
Qed.

Lemma every_bind {A B} (P : Call -> Prop) (p : prog A) (f : A -> prog B) :
  every P p -> (forall a, every P (f a)) -> every P (bind p f).
Proof. induction p as [a|c k IH]; simpl; [auto|]. intros [??]; split; auto. Qed.

Lemma every_mono {A} (P Q : Call -> Prop) (p : prog A) :
  (forall c, P c -> Q c) -> every P p -> every Q p.
Proof. intros HPQ. induction p; simpl; [done|]. intros [??]; split; auto. Qed.

Lemma every_reaches {A} (P : Call -> Prop) (p : prog A) tr c : every P p -> reaches p tr c -> P c.
Proof.
  revert tr. induction p as [b|c' k IH]; intros [|e tr]; simpl; try done.
  - by intros [? _] <-.
  - intros [_ HP] (r&->&?). eauto.
Qed.

Lemma every_run {A} (P : Call -> Prop) (p : prog A) tr a :
  every P p -> run p tr a -> Forall (fun e => P (ev_call e)) tr.
Proof.
  revert tr. induction p as [b|c k IH]; intros tr; simpl.
  - by intros _ [-> _].
  - intros [? HP] (r&tr'&->&?). constructor; eauto.
Qed.

(** A Go [for] loop over a slice whose body may return early with an error. *)
Fixpoint for_each {X} (f : X -> prog (option error)) (l : list X) : prog (option error) :=
  match l with
  | [] => Ret None
  | x :: l =>
      bind (f x) (fun e =>
        match e with Some err => Ret (Some err) | None => for_each f l end)
  end.

Lemma every_for_each {X} (P : Call -> Prop) (f : X -> prog (option error)) l :
  (forall x, x ∈ l -> every P (f x)) -> every P (for_each f l).
Proof.
  induction l as [|x l IH]; intros H; simpl; [done|].
  apply every_bind; [apply H; set_solver|].
  intros [?|]; [done|]. apply IH. set_solver.
Qed.

(** A loop that completes ran its body once per element, each time without an
    error, in the order of the slice. *)
Lemma run_for_each_ok {X} (f : X -> prog (option error)) l tr :
  run (for_each f l) tr None <->
  exists trs, tr = concat trs /\ Forall2 (fun x t => run (f x) t None) l trs.
Proof.
  revert tr. induction l as [|x l IH]; intros tr; simpl.
  - split; [intros [-> _]; by exists [] | intros (?&->&H); by inversion H].
  - rewrite run_bind. split.
    + intros (tr1&tr2&[e|]&->&H1&H2); [by destruct H2|].
      apply IH in H2 as (trs&->&?). exists (tr1 :: trs). split; [done|]. by constructor.
    + intros (trs&->&H). inversion H as [|? t ? ts ?? Heq1 Heq2]; subst.
      exists t, (concat ts), None. split; [done|]. split; [done|]. apply IH. eauto.
Qed.

(** An early return of the loop: the elements before the failing one succeeded. *)
Lemma run_for_each_err {X} (f : X -> prog (option error)) l tr err :
  run (for_each f l) tr (Some err) ->
  exists l1 x l2 tr1 tr2, l = l1 ++ x :: l2 /\ tr = tr1 ++ tr2 /\
    run (for_each f l1) tr1 None /\ run (f x) tr2 (Some err).
Proof.
  revert tr. induction l as [|x l IH]; intros tr; simpl; [by intros [_ ?]|].
  rewrite run_bind. intros (tr1&tr2&[e|]&->&H1&H2).
  - destruct H2 as [-> [= ->]]. exists [], x, l, [], tr1.
    by rewrite app_nil_r.
  - apply IH in H2 as (l1&y&l2&t1&t2&->&->&H3&H4).
    exists (x :: l1), y, l2, (tr1 ++ t1), t2. split; [done|].
    split; [by rewrite app_assoc|]. split; [|done].
    simpl. apply run_bind. exists tr1, t1, None. done.
Qed.
(** A loop that collects the errors of its body and goes on. *)
Fixpoint collect {X} (f : X -> prog (option error)) (l : list X) : prog (list error) :=
  match l with
  | [] => Ret []
  | x :: l =>
      bind (f x) (fun e => bind (collect f l) (fun es =>
        Ret (match e with Some err => err :: es | None => es end)))
  end.

Lemma every_collect {X} (P : Call -> Prop) (f : X -> prog (option error)) l :
  (forall x, x ∈ l -> every P (f x)) -> every P (collect f l).
Proof.
  induction l as [|x l IH]; intros H; simpl; [done|].
  apply every_bind; [apply H; set_solver|]. intros e. apply every_bind; [apply IH; set_solver|done].
Qed.

Lemma run_collect {X} (f : X -> prog (option error)) l tr es :
  run (collect f l) tr es <->
  exists ps, tr = concat (fst <$> ps) /\ es = omap snd ps /\
             Forall2 (fun x (p : list event * option error) => run (f x) p.1 p.2) l ps.
Proof.
  revert tr es. induction l as [|x l IH]; intros tr es; simpl.
  - split; [intros [-> ->]; by exists [] | intros (?&->&->&H); by inversion H].
  - rewrite run_bind. setoid_rewrite run_bind. split.
    + intros (t1&t2&e&->&H1&t3&t4&es'&->&H2&->&->). apply IH in H2 as (ps&->&->&H2).
      exists ((t1, e) :: ps). simpl. rewrite app_nil_r. split; [done|].
      split; [by destruct e|]. by constructor.
    + intros (ps&->&->&H). inversion H as [|? [t e] ? ps' H1 H2]; subst. simpl.
      exists t, (concat (fst <$> ps')), e. split; [done|]. split; [done|].
      exists (concat (fst <$> ps')), [], (omap snd ps'). rewrite app_nil_r. split; [done|].
      split; [apply IH; by exists ps'|]. split; [done|]. by destruct e.
Qed.

(** [always Q p]: every result of [p] is in [Q], whatever the responses. *)
Fixpoint always {A} (Q : A -> Prop) (p : prog A) : Prop :=
  match p with
  | Ret a => Q a
  | Do c k => forall r, always Q (k r)
  end.

Lemma always_run {A} (Q : A -> Prop) (p : prog A) tr a : always Q p -> run p tr a -> Q a.
Proof.
  revert tr. induction p as [b|c k IH]; intros tr; simpl.
  - by intros ? [_ ->].
  - intros H (r&tr'&->&?). eauto.
Qed.

Lemma always_bind {A B} (P : A -> Prop) (Q : B -> Prop) (p : prog A) (f : A -> prog B) :
  always P p -> (forall a, P a -> always Q (f a)) -> always Q (bind p f).
Proof. induction p as [a|c k IH]; simpl; auto. Qed.

Lemma always_mono {A} (P Q : A -> Prop) (p : prog A) :
  always P p -> (forall a, P a -> Q a) -> always Q p.
Proof. induction p; simpl; auto. Qed.

Lemma always_true {A} (p : prog A) : always (fun _ => True) p.
Proof. induction p; simpl; auto. Qed.

Lemma every_bind_always {A B} (P : Call -> Prop) (Q : A -> Prop) (p : prog A) (f : A -> prog B) :
  every P p -> always Q p -> (forall a, Q a -> every P (f a)) -> every P (bind p f).
Proof. induction p as [a|c k IH]; simpl; [auto|]. intros [??] ??; split; auto. Qed.

(** Both: all calls in [P], all results in [Q]. *)
Definition safe {A} (P : Call -> Prop) (Q : A -> Prop) (p : prog A) : Prop := every P p /\ always Q p.

Lemma safe_bind {A B} (P : Call -> Prop) (R : A -> Prop) (Q : B -> Prop) (p : prog A) (f : A -> prog B) :
  safe P R p -> (forall a, R a -> safe P Q (f a)) -> safe P Q (bind p f).
Proof.
  intros [H1 H2] Hf. split; [eapply every_bind_always|eapply always_bind]; try done; intros a Ha; by apply Hf.
Qed.

Lemma safe_seq {A B} (P : Call -> Prop) (Q : B -> Prop) (p : prog A) (f : A -> prog B) :
  every P p -> (forall a, safe P Q (f a)) -> safe P Q (bind p f).
Proof. intros Hp Hf. apply (safe_bind _ (fun _ => True)); [split; [done|apply always_true]|auto]. Qed.

Lemma safe_ret {A} (P : Call -> Prop) (Q : A -> Prop) a : Q a -> safe P Q (Ret a).
Proof. by split. Qed.

(** *** Monitors

    A safety property of the calls of a program is a monitor: a ghost state
    that every event updates, and what must hold of the ghost state for a call
    to be allowed.  [env] is what is relied on of the responses.  [wp] is the
    verification condition of a program for a monitor and a postcondition on
    its result and the final ghost state. *)
Section Monitor.
Context {S : Type} (env : forall c, Resp c -> Prop)
  (step : S -> forall c, Resp c -> S) (pre : S -> Call -> Prop).

Fixpoint ghost (s : S) (tr : list event) : S :=
  match tr with
  | [] => s
  | e :: tr => ghost (step s (ev_call e) (ev_resp e)) tr
  end.

Fixpoint allowed (s : S) (tr : list event) : Prop :=
  match tr with
  | [] => True
  | e :: tr => pre s (ev_call e) /\ allowed (step s (ev_call e) (ev_resp e)) tr
  end.

Definition relied (tr : list event) : Prop := Forall (fun e => env (ev_call e) (ev_resp e)) tr.

Fixpoint wp {A} (p : prog A) (s : S) (Q : A -> S -> Prop) : Prop :=
  match p with
  | Ret a => Q a s
  | Do c k => pre s c /\ forall r, env c r -> wp (k r) (step s c r) Q
  end.

Lemma wp_sound {A} (p : prog A) s Q tr a :
  wp p s Q -> relied tr -> run p tr a -> allowed s tr /\ Q a (ghost s tr).
Proof.
  revert s tr. induction p as [b|c k IH]; intros s tr; simpl.
  - by intros HQ _ [-> ->].
  - intros [Hpre Hk] Henv (r & tr' & -> & Hrun). apply Forall_cons in Henv as [He Henv]. simpl in *.
    destruct (IH r _ _ (Hk r He) Henv Hrun). auto.
Qed.

(** The same for a program that has performed [tr] and is about to perform [c]. *)
Lemma wp_reaches {A} (p : prog A) s Q tr c :
  wp p s Q -> relied tr -> reaches p tr c -> allowed s tr /\ pre (ghost s tr) c.
Proof.
  revert s tr. induction p as [b|c' k IH]; intros s [|e tr]; simpl; try done.
  - by intros [Hpre _] _ ->.
  - intros [Hpre Hk] Henv (r & -> & Hrun). apply Forall_cons in Henv as [He Henv]. simpl in *.
    destruct (IH r _ _ (Hk r He) Henv Hrun). auto.
Qed.

Lemma wp_mono {A} (p : prog A) s (Q Q' : A -> S -> Prop) :
  wp p s Q -> (forall a s, Q a s -> Q' a s) -> wp p s Q'.
Proof.
  intros H HQ. revert s H. induction p; simpl; intros s; [auto|].
  intros [??]; split; auto.
Qed.

Lemma wp_bind {A B} (p : prog A) (f : A -> prog B) s Q :
  wp p s (fun a s => wp (f a) s Q) -> wp (bind p f) s Q.
Proof. revert s. induction p; simpl; intros s; [auto|]. intros [??]; split; auto. Qed.

Lemma wp_seq {A B} (p : prog A) (f : A -> prog B) s P Q :
  wp p s P -> (forall a s, P a s -> wp (f a) s Q) -> wp (bind p f) s Q.
Proof. intros Hp Hf. apply wp_bind. eapply wp_mono; eauto. Qed.

(** A loop with an invariant on the elements still to come. *)
Lemma wp_for_each {X} (f : X -> prog (option error)) (I : list X -> S -> Prop) (E : error -> S -> Prop) l s :
  I l s ->
  (forall x l s, I (x :: l) s ->
     wp (f x) s (fun r s => match r with None => I l s | Some e => E e s end)) ->
  wp (for_each f l) s (fun r s => match r with None => I [] s | Some e => E e s end).
Proof.
  intros HI Hf. revert s HI. induction l as [|x l IH]; intros s HI; simpl; [done|].
  eapply wp_seq; [by apply Hf|]. intros [e|] s' Hs'; simpl; auto.
Qed.

(** Calls in [P] are allowed and take the ghost state up along a preorder. *)
Lemma wp_grow {A} (p : prog A) s (P : Call -> Prop) (R : S -> S -> Prop) `{!PreOrder R} :
  every P p -> (forall s' c, R s s' -> P c -> pre s' c /\ forall r, env c r -> R s' (step s' c r)) ->
  wp p s (fun _ s' => R s s').
Proof.
  intros HP Hs. assert (Hr : R s s) by reflexivity. revert Hr. generalize s at 2 3.
  induction p as [a|c k IH]; intros s' Hr; simpl in *; [done|].
  destruct HP as [Hc Hk]. destruct (Hs s' c Hr Hc) as [Hpre Hstep]. split; [done|].
  intros r He. apply IH; [auto|]. etransitivity; eauto.
Qed.

Lemma wp_frame {A} (p : prog A) s (P : Call -> Prop) :
  every P p -> (forall c, P c -> pre s c /\ forall r, env c r -> step s c r = s) ->
  wp p s (fun _ s' => s' = s).
Proof.
  intros HP Hs. eapply wp_mono; [apply (wp_grow p s P eq HP)|by intros].
  intros s' c <- Hc. destruct (Hs c Hc) as [? Hst]. split; [done|]. intros r He. by rewrite Hst.
Qed.

Lemma wp_always {A} (p : prog A) s Q (R : A -> Prop) :
  wp p s Q -> always R p -> wp p s (fun a s' => Q a s' /\ R a).
Proof. revert s. induction p; simpl; intros s; [auto|]. intros [??] ?; split; auto. Qed.

Lemma allowed_app s tr1 tr2 : allowed s (tr1 ++ tr2) <-> allowed s tr1 /\ allowed (ghost s tr1) tr2.
Proof. revert s. induction tr1 as [|e tr1 IH]; intros s; simpl; [tauto|]. rewrite IH. tauto. Qed.

Lemma ghost_app s tr1 tr2 : ghost s (tr1 ++ tr2) = ghost (ghost s tr1) tr2.
Proof. revert s. induction tr1 as [|e tr1 IH]; intros s; simpl; auto. Qed.

Lemma ghost_fixed s tr : Forall (fun e => step s (ev_call e) (ev_resp e) = s) tr -> ghost s tr = s.
Proof. induction 1 as [|e tr He _ IH]; cbn; [done|]. by rewrite He. Qed.
End Monitor.

(** What is returned when all responses are as [env] says. *)
Section Under.
Context (env : forall c, Resp c -> Prop).

Fixpoint under {A} (Q : A -> Prop) (p : prog A) : Prop :=
  match p with
  | Ret a => Q a
  | Do c k => forall r, env c r -> under Q (k r)
  end.

Lemma under_run {A} (Q : A -> Prop) (p : prog A) tr a : under Q p -> relied env tr -> run p tr a -> Q a.
Proof.
  revert tr. induction p as [b|c k IH]; intros tr; simpl.
  - by intros HQ _ [_ ->].
  - intros Hk Henv (r & tr' & -> & Hrun). apply Forall_cons in Henv as [He Henv]. by eapply IH; [apply Hk|..].
Qed.

Lemma under_mono {A} (P Q : A -> Prop) (p : prog A) : under P p -> (forall a, P a -> Q a) -> under Q p.
Proof. intros H HQ. induction p; simpl in *; auto. Qed.

Lemma under_bind {A B} (P : A -> Prop) (Q : B -> Prop) (p : prog A) (f : A -> prog B) :
  under P p -> (forall a, P a -> under Q (f a)) -> under Q (bind p f).
Proof. intros H HQ. induction p; simpl in *; auto. Qed.

Lemma under_always {A} (P Q : A -> Prop) (p : prog A) :
  under P p -> always Q p -> under (fun a => P a /\ Q a) p.
Proof. intros H HQ. induction p; simpl in *; auto. Qed.

Lemma under_true {A} (p : prog A) : under (fun _ => True) p.
Proof. induction p; simpl; auto. Qed.

Lemma under_for_each {X} (f : X -> prog (option error)) l :
  (forall x, x ∈ l -> under (fun e => e = None) (f x)) -> under (fun e => e = None) (for_each f l).
Proof.
  induction l as [|x l IH]; intros H; simpl; [done|].
  eapply under_bind; [apply H; left|]. intros _ ->. apply IH. intros y Hy. apply H. by right.
Qed.

Lemma under_collect {X} (f : X -> prog (option error)) l :
  (forall x, under (fun e => e = None) (f x)) -> under (fun es => es = []) (collect f l).
Proof.
  intros H. induction l as [|x l IH]; simpl; [done|].
  eapply under_bind; [apply H|]. intros _ ->. eapply under_bind; [exact IH|]. by intros _ ->.
Qed.
End Under.

(** Nothing is relied on. *)
Definition any_env (c : Call) (r : Resp c) : Prop := True.

Lemma wp_any_always {S A} (step : S -> forall c, Resp c -> S) (pre : S -> Call -> Prop) (R : A -> Prop) (p : prog A) s :
  wp any_env step pre p s (fun a _ => R a) -> always R p.
Proof. revert s. induction p as [a|c k IH]; intros s; simpl; [auto|]. intros [_ H] r. by eapply IH, H. Qed.

Lemma relied_any tr : relied any_env tr.
Proof. apply Forall_true. done. Qed.
End Programs.

Arguments prog {Call} Resp A.
Arguments Ret {Call Resp A} a.
Arguments Do {Call Resp A} c k.
Arguments Ev {Call Resp} ev_call ev_resp.
Arguments event {Call} Resp.

Notation "'let*' x := p 'in' q" := (bind p (fun x => q))
  (at level 10, x pattern, p at level 200, q at level 200) : go_scope.
(** [if err := p; err != nil { return h(err) }; q] *)
Notation "'check' p 'orelse' h 'in' q" :=
  (bind p (fun x => match x with Some err => h err | None => q end))
  (at level 10, p at level 200, h at level 0, q at level 200) : go_scope.

(** ** Machine integers *)
Definition int32 (z : Z) : Z := (z + 2 ^ 31) `mod` 2 ^ 32 - 2 ^ 31.

Lemma int32_id z : (- 2 ^ 31 <= z < 2 ^ 31)%Z -> int32 z = z.
Proof. intros H. unfold int32. rewrite Z.mod_small; lia. Qed.

Lemma int32_range z : (- 2 ^ 31 <= int32 z < 2 ^ 31)%Z.
Proof. unfold int32. pose proof (Z.mod_pos_bound (z + 2 ^ 31) (2 ^ 32)). lia. Qed.

(** Go's [int] on the platforms the repository is built for. *)
Definition int64 (z : Z) : Z := (z + 2 ^ 63) `mod` 2 ^ 64 - 2 ^ 63.

Lemma int64_id z : (- 2 ^ 63 <= z < 2 ^ 63)%Z -> int64 z = z.
Proof. intros H. unfold int64. rewrite Z.mod_small; lia. Qed.

Lemma int64_range z : (- 2 ^ 63 <= int64 z < 2 ^ 63)%Z.
Proof. unfold int64. pose proof (Z.mod_pos_bound (z + 2 ^ 63) (2 ^ 64)). lia. Qed.

Lemma int64_mul_l a b : int64 (int64 a * b) = int64 (a * b).
Proof.
  unfold int64. f_equal. replace (((a + 2 ^ 63) `mod` 2 ^ 64 - 2 ^ 63) * b + 2 ^ 63)%Z
    with ((a + 2 ^ 63) `mod` 2 ^ 64 * b + (2 ^ 63 - 2 ^ 63 * b))%Z by lia.
  rewrite <- Zplus_mod_idemp_l, Zmult_mod_idemp_l, Zplus_mod_idemp_l. f_equal. lia.
Qed.

(** ** Nil-able Go maps with string keys *)
Abbreviation gomap := (option (gmap string string)).

(** [m[k]] with the zero value for a missing key or a nil map. *)
Definition mget (m : gomap) (k : string) : string :=
  default "" (m ≫= fun m => m !! k).

Definition mok (m : gomap) (k : string) : bool :=
  bool_decide (is_Some (m ≫= fun m => m !! k)).

Definition mlit (l : list (string * string)) : gomap := Some (list_to_map l).

(** [maps.Equal]: nil and empty maps are equal. *)
Definition maps_Equal (a b : gomap) : bool :=
  bool_decide (default ∅ a = default ∅ b).

(** ** Automation *)
Create HintDb kube discriminated.
Create Rewrite HintDb go_strings.

(** Split the runs in the context into the runs of their parts. *)
Ltac run_inv :=
  repeat match goal with
  | H : run (bind _ _) _ _ |- _ => apply run_bind in H as (?&?&?&?&?&?)
  | H : run (Ret _) _ _ |- _ => destruct H as [? ?]
  | H : run (perform _) _ _ |- _ => destruct H as (?&?&?&?&?)
  | H : run (match ?x with _ => _ end) _ _ |- _ => destruct x eqn:?
  | H : run (Do _ _) _ _ |- _ => destruct H as (?&?&?&?)
  | H : _ /\ _ |- _ => destruct H
  end; simplify_eq/=.

(** Prove [every P p] by walking through the code of [p]; the calls left open are
    the ones the caller must justify. *)
Ltac every_step :=
  first
    [ progress cbn [every]
    | apply every_bind
    | apply every_for_each; intros ? ?
    | apply every_collect; intros ? ?
    | progress intros
    | match goal with
      | |- every _ (perform _) => unfold perform
      | |- every _ (match ?x with _ => _ end) => destruct x
      | |- _ /\ _ => split
      end
    | solve [eauto with kube] ].
Ltac every_tac := repeat every_step; try done.

(** ** Strings *)
Lemma app_string_inj_l (a b c : string) : a +:+ b = a +:+ c <-> b = c.
Proof. split; [apply (inj (String.append a)) | by intros ->]. Qed.

Lemma app_cons (x : ascii) (a b : string) : String x a +:+ b = String x (a +:+ b).
Proof. done. Qed.

Lemma app_nil_string_l (a : string) : "" +:+ a = a.
Proof. done. Qed.

Lemma app_nil_string_r (a : string) : a +:+ "" = a.
Proof. induction a as [|x a IH]; [done|]. by rewrite app_cons, IH. Qed.

Lemma string_app_assoc (a b c : string) : a +:+ (b +:+ c) = (a +:+ b) +:+ c.
Proof. induction a as [|x a IH]; [done|]. by rewrite !app_cons, IH. Qed.

(** Common prefix and suffix cancellation decides the equality of two object
    names built from the same shard name. *)
Lemma app_string_inj_r (a b c : string) : a +:+ c = b +:+ c <-> a = b.
Proof.
  split; [|by intros ->].
  assert (Hlen : forall x y, String.length (x +:+ y) = String.length x + String.length y).
  { intros x y. induction x as [|? x IH]; [done|]. rewrite app_cons. simpl. lia. }
  revert b. induction a as [|x a IH]; intros [|y b]; rewrite ?app_cons, ?app_nil_string_l; try done.
  - intros H. apply (f_equal String.length) in H. simpl in H. rewrite Hlen in H. lia.
  - intros H. apply (f_equal String.length) in H. simpl in H. rewrite Hlen in H. lia.
  - intros [= -> H]. f_equal. by apply IH.
Qed.

#[export] Hint Rewrite app_cons app_nil_string_l app_nil_string_r : go_strings.

(** ** Counting in 32 bits *)
Lemma int32_succ z : int32 (int32 z + 1) = int32 (z + 1).
Proof.
  unfold int32. replace ((z + 2 ^ 31) `mod` 2 ^ 32 - 2 ^ 31 + 1 + 2 ^ 31)%Z
    with ((z + 2 ^ 31) `mod` 2 ^ 32 + 1)%Z by lia.
  rewrite Zplus_mod_idemp_l. f_equal. f_equal. lia.
Qed.
