(* ===== verification/GoStd.v ===== *)
(** * The parts of the Go standard library the operator uses

    Strings are byte sequences, as in Go.  [itoa] is [%d] and
    [strconv.FormatInt(_, 10)]; [quote] is [%q]; the rest keep their Go names
    ([strings.Join], [strings.Contains], [hex.EncodeToString],
    [base64.StdEncoding.EncodeToString], [time.Duration.String],
    [net.JoinHostPort]).  NetUrl and GoJson hold net/url and encoding/json. *)
From S2P Require Import Prelude.

Definition itoa (z : Z) : string := pretty z.

(** ** Package strings *)
Definition HasPrefix (s p : string) : bool := String.prefix p s.

Fixpoint Contains (s sub : string) : bool :=
  String.prefix sub s ||
  match s with EmptyString => false | String _ s' => Contains s' sub end.

(** The part of [s] after the prefix [p]; [s] itself when it has no such prefix. *)
Fixpoint drop_prefix (p s : string) : option string :=
  match p, s with
  | EmptyString, _ => Some s
  | String a p', String b s' => if Ascii.eqb a b then drop_prefix p' s' else None
  | String _ _, EmptyString => None
  end.

Definition TrimPrefix (s p : string) : string := default s (drop_prefix p s).

Fixpoint Join_strings (l : list string) (sep : string) : string :=
  match l with
  | [] => ""
  | [x] => x
  | x :: l => x +:+ sep +:+ Join_strings l sep
  end.

Fixpoint has_char (c : ascii) (s : string) : bool :=
  match s with
  | EmptyString => false
  | String a s' => Ascii.eqb a c || has_char c s'
  end.

Definition ContainsAny (s chars : string) : bool :=
  existsb (fun c => has_char c s) (String.list_ascii_of_string chars).

Lemma has_char_app c (a b : string) : has_char c (a +:+ b) = has_char c a || has_char c b.
Proof. induction a as [|x a IH]; [done|]. rewrite app_cons. cbn. by rewrite IH, orb_assoc. Qed.

Lemma drop_prefix_app p s : drop_prefix p (p +:+ s) = Some s.
Proof. induction p as [|a p IH]; [done|]. rewrite app_cons. cbn. by rewrite Ascii.eqb_refl. Qed.

Lemma drop_prefix_Some p s r : drop_prefix p s = Some r <-> s = p +:+ r.
Proof.
  split; [|intros ->; apply drop_prefix_app].
  revert s. induction p as [|a p IH]; intros s; cbn; [by intros [=->]|].
  destruct s as [|b s]; [done|].
  destruct (Ascii.eqb_spec a b) as [->|]; [|done]. intros H. rewrite app_cons. f_equal. by apply IH.
Qed.

Lemma HasPrefix_true s p : HasPrefix s p = true <-> exists r, s = p +:+ r.
Proof.
  unfold HasPrefix. split.
  - revert s. induction p as [|a p IH]; intros s; [intros _; by exists s|]. destruct s as [|b s]; [done|]. cbn.
    destruct (ascii_dec a b) as [->|]; [|done]. intros (r&->)%IH. by exists r.
  - intros (r&->). induction p as [|a p IH]; [by destruct r|]. rewrite app_cons. cbn. by destruct (ascii_dec a a).
Qed.

(** ** Numbers and bytes as text *)
Definition byte_val (a : ascii) : Z := Z.of_N (N_of_ascii a).

Lemma byte_val_range a : (0 <= byte_val a < 256)%Z.
Proof. unfold byte_val. pose proof (N_ascii_bounded a). lia. Qed.

Definition byte_of (z : Z) : ascii := ascii_of_N (Z.to_N z).

Definition hex_digit (z : Z) : ascii :=
  if decide (z < 10)%Z then byte_of (48 + z) else byte_of (87 + z).

Fixpoint hex_EncodeToString (s : string) : string :=
  match s with
  | EmptyString => ""
  | String a s =>
      String (hex_digit (byte_val a / 16))
        (String (hex_digit (byte_val a `mod` 16)) (hex_EncodeToString s))
  end.

(** [strconv.Quote].  Bytes from 0x80 on are escaped one by one, which is Go's
    treatment of bytes that are not valid UTF-8. *)
Definition quote_byte (a : ascii) : string :=
  let v := byte_val a in
  if decide (v = 34)%Z then "\" +:+ String a ""
  else if decide (v = 92)%Z then "\\"
  else if decide (v = 7)%Z then "\a" else if decide (v = 8)%Z then "\b"
  else if decide (v = 12)%Z then "\f" else if decide (v = 10)%Z then "\n"
  else if decide (v = 13)%Z then "\r" else if decide (v = 9)%Z then "\t"
  else if decide (v = 11)%Z then "\v"
  else if decide (32 <= v < 127)%Z then String a ""
  else "\x" +:+ hex_EncodeToString (String a "").

Fixpoint quote_body (s : string) : string :=
  match s with
  | EmptyString => ""
  | String a s => quote_byte a +:+ quote_body s
  end.

Definition dquote : string := String (byte_of 34) "".
Definition quote (s : string) : string := dquote +:+ quote_body s +:+ dquote.

(** ** encoding/base64, the padded standard alphabet *)
Definition b64_char (z : Z) : ascii :=
  if decide (z < 26)%Z then byte_of (65 + z)
  else if decide (z < 52)%Z then byte_of (71 + z)
  else if decide (z < 62)%Z then byte_of (z - 4)
  else if decide (z = 62)%Z then "+"%char else "/"%char.

Fixpoint base64_EncodeToString (s : string) : string :=
  match s with
  | EmptyString => ""
  | String a EmptyString =>
      let v := (byte_val a * 65536)%Z in
      String (b64_char (v / 262144)) (String (b64_char ((v / 4096) `mod` 64)) "==")
  | String a (String b EmptyString) =>
      let v := (byte_val a * 65536 + byte_val b * 256)%Z in
      String (b64_char (v / 262144)) (String (b64_char ((v / 4096) `mod` 64))
        (String (b64_char ((v / 64) `mod` 64)) "="))
  | String a (String b (String c s)) =>
      let v := (byte_val a * 65536 + byte_val b * 256 + byte_val c)%Z in
      String (b64_char (v / 262144)) (String (b64_char ((v / 4096) `mod` 64))
        (String (b64_char ((v / 64) `mod` 64)) (String (b64_char (v `mod` 64))
          (base64_EncodeToString s))))
  end.

Example base64_1 : base64_EncodeToString "hello" = "aGVsbG8=".
Proof. reflexivity. Qed.

(** ** time.Duration, in nanoseconds *)
Definition Second : Z := 1000000000.

(** The decimal digits of [v mod 10^prec], with trailing zeros dropped. *)
Fixpoint frac_digits (prec : nat) (v : Z) (acc : string) : string :=
  match prec with
  | O => acc
  | S p =>
      let d := (v `mod` 10)%Z in
      frac_digits p (v / 10)
        (if decide (d = 0%Z /\ acc = "") then "" else String (byte_of (48 + d)) acc)
  end.

Definition fmtFrac (prec : nat) (v : Z) : string :=
  match frac_digits prec v "" with
  | "" => ""
  | ds => "." +:+ ds
  end.

Definition micro_sign : string := String (byte_of 194) (String (byte_of 181) "").

Definition Duration_String (d : Z) : string :=
  let u := Z.abs d in
  let body :=
    if decide (u = 0)%Z then "0s"
    else if decide (u < 1000)%Z then itoa u +:+ "ns"
    else if decide (u < 1000000)%Z then itoa (u / 1000) +:+ fmtFrac 3 u +:+ micro_sign +:+ "s"
    else if decide (u < Second)%Z then itoa (u / 1000000) +:+ fmtFrac 6 u +:+ "ms"
    else
      let s := (u / Second)%Z in
      let m := (s / 60)%Z in
      let h := (m / 60)%Z in
      (if decide (0 < h)%Z then itoa h +:+ "h" else "") +:+
      (if decide (0 < m)%Z then itoa (m `mod` 60) +:+ "m" else "") +:+
      itoa (s `mod` 60) +:+ fmtFrac 9 u +:+ "s"
  in if decide (d < 0)%Z then "-" +:+ body else body.

Example Duration_1 : Duration_String (90 * 60 * Second) = "1h30m0s".
Proof. reflexivity. Qed.
Example Duration_2 : Duration_String 1500000000 = "1.5s".
Proof. reflexivity. Qed.

(** ** net.JoinHostPort *)
Definition JoinHostPort (host port : string) : string :=
  if has_char ":"%char host then "[" +:+ host +:+ "]:" +:+ port
  else host +:+ ":" +:+ port.
