(* ===== verification/NetUrl.v ===== *)
(** * net/url and strings.TrimSpace

    The part of net/url that ParsePostgreSQLDSN goes through: [url.Parse] with
    its scheme, authority, host and path parsing and percent-decoding, and the
    accessors [Hostname] and [Port].  Validation of a bracketed IP literal is
    net/netip's and stays a parameter, [ValidIPv6].  The restriction of several
    colons in a host that newer releases apply to the http and https schemes
    concerns no scheme ParsePostgreSQLDSN accepts and is left out. *)
From S2P Require Import Prelude GoStd.

(** ** Cutting strings *)
(** [strings.Cut(s, c)] for a one-byte separator. *)
Fixpoint Cut (c : ascii) (s : string) : option (string * string) :=
  match s with
  | EmptyString => None
  | String a s' =>
      if Ascii.eqb a c then Some ("", s')
      else match Cut c s' with Some (l, r) => Some (String a l, r) | None => None end
  end.

(** The parts around the last occurrence of [c]. *)
Fixpoint CutLast (c : ascii) (s : string) : option (string * string) :=
  match s with
  | EmptyString => None
  | String a s' =>
      match CutLast c s' with
      | Some (l, r) => Some (String a l, r)
      | None => if Ascii.eqb a c then Some ("", s') else None
      end
  end.

Fixpoint all_chars (P : ascii -> bool) (s : string) : bool :=
  match s with EmptyString => true | String a s => P a && all_chars P s end.

(** The parts around the first occurrence of a substring. *)
Fixpoint CutString (sep s : string) : option (string * string) :=
  match drop_prefix sep s with
  | Some r => Some ("", r)
  | None =>
      match s with
      | EmptyString => None
      | String a s' =>
          match CutString sep s' with Some (l, r) => Some (String a l, r) | None => None end
      end
  end.

(** ** strings.TrimSpace: the UTF-8 encodings of the white-space runes *)
Definition bytes (l : list Z) : string := String.string_of_list_ascii (byte_of <$> l).

Definition space_runes : list string :=
  bytes <$> [[9]; [10]; [11]; [12]; [13]; [32]; [194; 133]; [194; 160]; [225; 154; 128];
             [226; 128; 128]; [226; 128; 129]; [226; 128; 130]; [226; 128; 131]; [226; 128; 132];
             [226; 128; 133]; [226; 128; 134]; [226; 128; 135]; [226; 128; 136]; [226; 128; 137];
             [226; 128; 138]; [226; 128; 168]; [226; 128; 169]; [226; 128; 175]; [226; 129; 159];
             [227; 128; 128]]%Z.

Fixpoint drop_any (ps : list string) (s : string) : option string :=
  match ps with
  | [] => None
  | p :: ps => match drop_prefix p s with Some r => Some r | None => drop_any ps s end
  end.

Fixpoint trim_left (fuel : nat) (ps : list string) (s : string) : string :=
  match fuel with
  | O => s
  | S fuel => match drop_any ps s with Some r => trim_left fuel ps r | None => s end
  end.

Definition TrimLeft (ps : list string) (s : string) : string := trim_left (String.length s) ps s.

Definition rev_bytes (s : string) : string :=
  String.string_of_list_ascii (rev (String.list_ascii_of_string s)).

Lemma rev_bytes_app a b : rev_bytes (a +:+ b) = rev_bytes b +:+ rev_bytes a.
Proof.
  unfold rev_bytes.
  assert (Hl : forall x y, String.list_ascii_of_string (x +:+ y) = String.list_ascii_of_string x ++ String.list_ascii_of_string y).
  { intros x y. induction x as [|c x IH]; [done|]. rewrite app_cons. cbn. by rewrite IH. }
  assert (Hs : forall x y, String.string_of_list_ascii (x ++ y) = String.string_of_list_ascii x +:+ String.string_of_list_ascii y).
  { intros x y. induction x as [|c x IH]; [done|]. cbn. by rewrite IH, app_cons. }
  by rewrite Hl, rev_app_distr, Hs.
Qed.

Lemma rev_bytes_involutive s : rev_bytes (rev_bytes s) = s.
Proof.
  unfold rev_bytes. by rewrite String.list_ascii_of_string_of_list_ascii, rev_involutive, String.string_of_list_ascii_of_string.
Qed.

Definition TrimSpace (s : string) : string :=
  rev_bytes (TrimLeft (rev_bytes <$> space_runes) (rev_bytes (TrimLeft space_runes s))).

(** ** Character classes *)
Definition in_range (lo hi : Z) (a : ascii) : bool := (lo <=? byte_val a)%Z && (byte_val a <=? hi)%Z.
Definition is_digit : ascii -> bool := in_range 48 57.
Definition is_letter (a : ascii) : bool := in_range 97 122 a || in_range 65 90 a.
Definition is_alnum (a : ascii) : bool := is_letter a || is_digit a.
Definition is_ctl (a : ascii) : bool := (byte_val a <? 32)%Z || (byte_val a =? 127)%Z.
Definition one_of (chars : string) (a : ascii) : bool := has_char a chars.

Definition lower (a : ascii) : ascii := if in_range 65 90 a then byte_of (byte_val a + 32) else a.
Fixpoint ToLower (s : string) : string :=
  match s with EmptyString => "" | String a s => String (lower a) (ToLower s) end.

Definition unhex (a : ascii) : option Z :=
  if is_digit a then Some (byte_val a - 48)%Z
  else if in_range 97 102 a then Some (byte_val a - 87)%Z
  else if in_range 65 70 a then Some (byte_val a - 55)%Z
  else None.

(** The bytes below 0x80 that [shouldEscape] leaves alone in a host or zone. *)
Definition host_char (a : ascii) : bool :=
  is_alnum a || one_of ("!$&'()*+,;=:[]<>-_.~" +:+ dquote) a.

Definition validUserinfo (s : string) : bool :=
  all_chars (fun a => is_alnum a || one_of "-._:~!$&'()*+,;=%@" a) s.

(** ** Percent-decoding *)
Inductive encoding := encodePath | encodeUserPassword | encodeHost | encodeZone | encodeFragment.

Definition is_host_mode (m : encoding) : bool :=
  match m with encodeHost | encodeZone => true | _ => false end.

Definition EscapeError (s : string) : error := Errorf ("invalid URL escape " +:+ quote s).
Definition InvalidHostError (s : string) : error :=
  Errorf ("invalid character " +:+ quote s +:+ " in host name").

(** Whether the escape [%hl] with value [v] is rejected by the mode. *)
Definition escape_rejected (m : encoding) (h v : Z) : bool :=
  match m with
  | encodeHost => (h <? 8)%Z && negb (v =? 37)%Z
  | encodeZone => negb (v =? 37)%Z && negb (v =? 32)%Z && negb (host_char (byte_of v))
  | _ => false
  end.

Fixpoint unescape (m : encoding) (s : string) : result string :=
  match s with
  | EmptyString => Ok ""
  | String a s' =>
      if Ascii.eqb a "%"%char then
        match s' with
        | String h (String l s'') =>
            match unhex h, unhex l with
            | Some x, Some y =>
                let v := (16 * x + y)%Z in
                if escape_rejected m x v then Err (EscapeError (String a (String h (String l ""))))
                else match unescape m s'' with
                     | Ok r => Ok (String (byte_of v) r)
                     | Err e => Err e
                     end
            | _, _ => Err (EscapeError (String a (String h (String l ""))))
            end
        | _ => Err (EscapeError (String a s'))
        end
      else if is_host_mode m && (byte_val a <? 128)%Z && negb (host_char a) then
        Err (InvalidHostError (String a ""))
      else match unescape m s' with Ok r => Ok (String a r) | Err e => Err e end
  end.

(** ** URLs *)
Record URL := {
  Scheme : string; Opaque : string;
  User : option (string * option string);  (* user name, password if present *)
  Host : string; Path : string; RawQuery : string }.

Fixpoint scheme_rest (s : string) : option (string * string) :=
  match s with
  | EmptyString => None
  | String a s' =>
      if Ascii.eqb a ":"%char then Some ("", s')
      else if is_alnum a || one_of "+-." a then
        match scheme_rest s' with Some (l, r) => Some (String a l, r) | None => None end
      else None
  end.

(** getScheme: a letter, then letters, digits, [+], [-] or [.], up to a colon. *)
Definition getScheme (s : string) : result (string * string) :=
  match s with
  | String a _ =>
      if Ascii.eqb a ":"%char then Err (Errorf "missing protocol scheme")
      else if is_letter a then Ok (default ("", s) (scheme_rest s))
      else Ok ("", s)
  | EmptyString => Ok ("", s)
  end.

Definition validOptionalPort (port : string) : bool :=
  match port with
  | EmptyString => true
  | String a r => Ascii.eqb a ":"%char && all_chars is_digit r
  end.

Section Parse.
Variable ValidIPv6 : string -> bool.

Definition parseHost (host : string) : result string :=
  match CutLast "["%char host with
  | Some (String _ _, _) => Err (Errorf "invalid IP-literal")
  | Some (EmptyString, inner) =>
      match CutLast "]"%char inner with
      | None => Err (Errorf "missing ']' in host")
      | Some (hostname, colonPort) =>
          if negb (validOptionalPort colonPort)
          then Err (Errorf ("invalid port " +:+ quote colonPort +:+ " after host"))
          else
            let unescaped :=
              match CutString "%25" hostname with
              | Some (h, z) =>
                  match unescape encodeHost h, unescape encodeZone ("%25" +:+ z) with
                  | Ok a, Ok b => Ok (a +:+ b)
                  | Err e, _ | _, Err e => Err e
                  end
              | None => unescape encodeHost hostname
              end in
            match unescaped with
            | Err e => Err e
            | Ok a => if ValidIPv6 a then Ok ("[" +:+ a +:+ "]" +:+ colonPort)
                      else Err (Errorf "invalid host")
            end
      end
  | None =>
      match CutLast ":"%char host with
      | Some (_, port) =>
          if validOptionalPort (":" +:+ port) then unescape encodeHost host
          else Err (Errorf ("invalid port " +:+ quote (":" +:+ port) +:+ " after host"))
      | None => unescape encodeHost host
      end
  end.

Definition parseUserinfo (info : string) : result (string * option string) :=
  if negb (validUserinfo info) then Err (Errorf "net/url: invalid userinfo")
  else match Cut ":"%char info with
       | None => match unescape encodeUserPassword info with
                 | Ok u => Ok (u, None)
                 | Err e => Err e
                 end
       | Some (u, p) =>
           match unescape encodeUserPassword u with
           | Err e => Err e
           | Ok u =>
               match unescape encodeUserPassword p with
               | Err e => Err e
               | Ok p => Ok (u, Some p)
               end
           end
       end.

Definition parseAuthority (authority : string) : result (option (string * option string) * string) :=
  match CutLast "@"%char authority with
  | None => match parseHost authority with Ok h => Ok (None, h) | Err e => Err e end
  | Some (info, host) =>
      match parseHost host with
      | Err e => Err e
      | Ok h => match parseUserinfo info with Ok u => Ok (Some u, h) | Err e => Err e end
      end
  end.

(** The path-and-authority part of a URL with a scheme or a rooted path. *)
Definition parseRest (scheme query rest : string) : result URL :=
  let finish u h p :=
    match unescape encodePath p with
    | Ok path => Ok {| Scheme := scheme; Opaque := ""; User := u; Host := h; Path := path; RawQuery := query |}
    | Err e => Err e
    end in
  if HasPrefix rest "//" && (negb (bool_decide (scheme = "")) || negb (HasPrefix rest "///")) then
    let '(authority, p) :=
      match Cut "/"%char (TrimPrefix rest "//") with
      | Some (a, p) => (a, "/" +:+ p)
      | None => (TrimPrefix rest "//", "")
      end in
    match parseAuthority authority with
    | Ok (u, h) => finish u h p
    | Err e => Err e
    end
  else finish None "" rest.

(** [rest, query]: a trailing question mark that is the only one is dropped,
    which is what cutting at the first one does too. *)
Definition cutQuery (s : string) : string * string := default (s, "") (Cut "?"%char s).

Definition parse (raw : string) : result URL :=
  if negb (all_chars (fun a => negb (is_ctl a)) raw)
  then Err (Errorf "net/url: invalid control character in URL")
  else if decide (raw = "*")
  then Ok {| Scheme := ""; Opaque := ""; User := None; Host := ""; Path := "*"; RawQuery := "" |}
  else match getScheme raw with
       | Err e => Err e
       | Ok (sch, rest) =>
           let sch := ToLower sch in
           let '(rest, query) := cutQuery rest in
           if HasPrefix rest "/" then parseRest sch query rest
           else if negb (bool_decide (sch = ""))
           then Ok {| Scheme := sch; Opaque := rest; User := None; Host := ""; Path := ""; RawQuery := query |}
           else if has_char ":"%char (fst (default (rest, "") (Cut "/"%char rest)))
           then Err (Errorf "first path segment in URL cannot contain colon")
           else parseRest sch query rest
       end.

Definition url_Parse (raw : string) : result URL :=
  let '(u, frag) := default (raw, "") (Cut "#"%char raw) in
  match parse u with
  | Err e => Err (Errorf ("parse " +:+ quote u +:+ ": " +:+ Error e))
  | Ok url =>
      match unescape encodeFragment frag with
      | Err e => Err (Errorf ("parse " +:+ quote raw +:+ ": " +:+ Error e))
      | Ok _ => Ok url
      end
  end.
End Parse.

(** [splitHostPort]; the brackets of an IP literal are dropped from the host. *)
Definition splitHostPort (hostPort : string) : string * string :=
  let '(host, port) :=
    match CutLast ":"%char hostPort with
    | Some (h, p) => if all_chars is_digit p then (h, p) else (hostPort, "")
    | None => (hostPort, "")
    end in
  match drop_prefix "[" host with
  | Some inner =>
      match CutLast "]"%char inner with
      | Some (h, "") => (h, port)
      | _ => (host, port)
      end
  | None => (host, port)
  end.

Definition Hostname (u : URL) : string := (splitHostPort (Host u)).1.
Definition Port (u : URL) : string := (splitHostPort (Host u)).2.

Example TrimSpace_1 : TrimSpace (" a b " +:+ LF) = "a b".
Proof. reflexivity. Qed.
Example Parse_1 :
  url_Parse (fun _ => true) "postgres://u%40:p@h.ns.svc:5432/db%20x?sslmode=require#f" =
  Ok {| Scheme := "postgres"; Opaque := ""; User := Some ("u@", Some "p"); Host := "h.ns.svc:5432";
        Path := "/db x"; RawQuery := "sslmode=require" |}.
Proof. reflexivity. Qed.
Example Parse_2 :
  url_Parse (fun _ => true) "postgres://u:p@h:54a/db" =
  Err (Errorf ("parse " +:+ quote "postgres://u:p@h:54a/db" +:+ ": invalid port " +:+ quote ":54a" +:+ " after host")).
Proof. reflexivity. Qed.
