(* ===== verification/GoJson.v ===== *)
(** * encoding/json: [json.Unmarshal] into a [[]string] and into a struct

    A JSON text is checked for syntax as a whole and then stored element by
    element: strings are appended, null appends the empty string, anything else
    is a type error.  In a struct with one string field, a member whose key is the
    field's name, or differs from it in case only, is stored, null is skipped and
    anything else is a type error.  The wording of the decoder's diagnostics is a
    parameter.  The parser runs on fuel; [value_fuel] shows that what [parse_json]
    gives it is enough. *)
From S2P Require Import Prelude GoStd NetUrl.

#[warnings="-register-all"]
Inductive jvalue :=
  | VNull
  | VBool
  | VNumber
  | VString (s : string)
  | VArray (l : list jvalue)
  | VObject (members : list (string * jvalue)).

(** ** UTF-8 *)
Definition utf8_tail (s : string) (ranges : list (Z * Z)) : option string :=
  foldl (fun acc r =>
    match acc with
    | Some (String a s) => if in_range r.1 r.2 a then Some s else None
    | _ => None
    end) (Some s) ranges.

(** The continuation bytes a lead byte asks for. *)
Definition utf8_ranges (a : ascii) : option (list (Z * Z)) :=
  let c := (128, 191)%Z in
  if in_range 0 127 a then Some []
  else if in_range 194 223 a then Some [c]
  else if in_range 224 224 a then Some [(160, 191)%Z; c]
  else if in_range 237 237 a then Some [(128, 159)%Z; c]
  else if in_range 225 239 a then Some [c; c]
  else if in_range 240 240 a then Some [(144, 191)%Z; c; c]
  else if in_range 241 243 a then Some [c; c; c]
  else if in_range 244 244 a then Some [(128, 143)%Z; c; c]
  else None.

Definition replacement : string := bytes [239; 191; 189]%Z.

(** Bytes that are not part of a valid sequence become U+FFFD; [n] counts the
    continuation bytes still to be copied. *)
Fixpoint utf8_fix (n : nat) (s : string) : string :=
  match s with
  | EmptyString => ""
  | String a s' =>
      match n with
      | S n => String a (utf8_fix n s')
      | O =>
          match utf8_ranges a with
          | Some rs => if bool_decide (is_Some (utf8_tail s' rs)) then String a (utf8_fix (length rs) s')
                       else replacement +:+ utf8_fix 0 s'
          | None => replacement +:+ utf8_fix 0 s'
          end
      end
  end.

Definition utf8_encode (r : Z) : string :=
  if (r <? 128)%Z then bytes [r]
  else if (r <? 2048)%Z then bytes [192 + r / 64; 128 + r `mod` 64]%Z
  else if (r <? 65536)%Z then bytes [224 + r / 4096; 128 + (r / 64) `mod` 64; 128 + r `mod` 64]%Z
  else bytes [240 + r / 262144; 128 + (r / 4096) `mod` 64; 128 + (r / 64) `mod` 64; 128 + r `mod` 64]%Z.

(** ** Lexical parts *)
Fixpoint skip_ws (s : string) : string :=
  match s with
  | String a s' => if one_of (bytes [32; 9; 10; 13]%Z) a then skip_ws s' else s
  | EmptyString => ""
  end.

Definition hex4 (s : string) : option (Z * string) :=
  match s with
  | String a (String b (String c (String d s))) =>
      match unhex a, unhex b, unhex c, unhex d with
      | Some a, Some b, Some c, Some d => Some ((4096 * a + 256 * b + 16 * c + d)%Z, s)
      | _, _, _, _ => None
      end
  | _ => None
  end.

Definition is_high (r : Z) : bool := (55296 <=? r)%Z && (r <? 56320)%Z.
Definition is_low (r : Z) : bool := (56320 <=? r)%Z && (r <? 57344)%Z.

(** [\uXXXX] after the [u]; a surrogate pair is combined, a lone surrogate is
    replaced. *)
Definition unicode_escape (s : string) : option (string * string) :=
  match hex4 s with
  | None => None
  | Some (r, s') =>
      if is_high r then
        match drop_prefix "\u" s' ≫= hex4 with
        | Some (r2, s'') =>
            if is_low r2
            then Some (utf8_encode (65536 + (r - 55296) * 1024 + (r2 - 56320))%Z, s'')
            else Some (replacement, s')
        | None => Some (replacement, s')
        end
      else if is_low r then Some (replacement, s')
      else Some (utf8_encode r, s')
  end.

Definition simple_escape (a : ascii) : option string :=
  if Ascii.eqb a (byte_of 34) then Some (bytes [34]%Z)
  else if Ascii.eqb a "\"%char then Some "\"
  else if Ascii.eqb a "/"%char then Some "/"
  else if Ascii.eqb a "b"%char then Some (bytes [8]%Z)
  else if Ascii.eqb a "f"%char then Some (bytes [12]%Z)
  else if Ascii.eqb a "n"%char then Some (bytes [10]%Z)
  else if Ascii.eqb a "r"%char then Some (bytes [13]%Z)
  else if Ascii.eqb a "t"%char then Some (bytes [9]%Z)
  else None.

(** The rest of a string literal after its opening quote. *)
Fixpoint string_body (fuel : nat) (s : string) : option (string * string) :=
  match fuel with
  | O => None
  | S fuel =>
      match s with
      | EmptyString => None
      | String a s' =>
          if Ascii.eqb a (byte_of 34) then Some ("", s')
          else if Ascii.eqb a "\"%char then
            match s' with
            | String b s'' =>
                match (if Ascii.eqb b "u"%char then unicode_escape s''
                       else (fun x => (x, s'')) <$> simple_escape b) with
                | Some (x, rest) =>
                    (fun '(y, rest) => (x +:+ y, rest)) <$> string_body fuel rest
                | None => None
                end
            | EmptyString => None
            end
          else if (byte_val a <? 32)%Z then None
          else (fun '(y, rest) => (String a y, rest)) <$> string_body fuel s'
      end
  end.

Definition string_literal (s : string) : option (string * string) :=
  (fun '(x, rest) => (utf8_fix 0 x, rest)) <$> string_body (S (String.length s)) s.

Fixpoint drop_digits (s : string) : string :=
  match s with
  | String a s' => if is_digit a then drop_digits s' else s
  | EmptyString => ""
  end.

(** At least one digit. *)
Definition digits1 (s : string) : option string :=
  match s with
  | String a s' => if is_digit a then Some (drop_digits s') else None
  | EmptyString => None
  end.

Definition number (s : string) : option string :=
  let s := TrimPrefix s "-" in
  match s with
  | String a s' =>
      let int := if Ascii.eqb a "0"%char then Some s' else digits1 s in
      match int with
      | None => None
      | Some s =>
          match (match drop_prefix "." s with Some r => digits1 r | None => Some s end) with
          | None => None
          | Some s =>
              match s with
              | String e r =>
                  if one_of "eE" e then
                    match r with
                    | String sgn r' => digits1 (if one_of "+-" sgn then r' else r)
                    | EmptyString => None
                    end
                  else Some s
              | EmptyString => Some s
              end
          end
      end
  | EmptyString => None
  end.

(** ** Values *)
Fixpoint value (fuel : nat) (s : string) : option (jvalue * string) :=
  match fuel with
  | O => None
  | S fuel =>
      let s := skip_ws s in
      match s with
      | EmptyString => None
      | String a s' =>
          if Ascii.eqb a (byte_of 34) then (fun '(x, r) => (VString x, r)) <$> string_literal s'
          else if Ascii.eqb a "["%char then
            match drop_prefix "]" (skip_ws s') with
            | Some r => Some (VArray [], r)
            | None => (fun '(l, r) => (VArray l, r)) <$> elements fuel s'
            end
          else if Ascii.eqb a "{"%char then
            match drop_prefix "}" (skip_ws s') with
            | Some r => Some (VObject [], r)
            | None => (fun '(l, r) => (VObject l, r)) <$> members fuel s'
            end
          else match drop_prefix "null" s with
               | Some r => Some (VNull, r)
               | None =>
                   match (match drop_prefix "true" s with Some r => Some r | None => drop_prefix "false" s end) with
                   | Some r => Some (VBool, r)
                   | None => (fun r => (VNumber, r)) <$> number s
                   end
               end
      end
  end
with elements (fuel : nat) (s : string) : option (list jvalue * string) :=
  match fuel with
  | O => None
  | S fuel =>
      match value fuel s with
      | None => None
      | Some (v, r) =>
          match skip_ws r with
          | String a r' =>
              if Ascii.eqb a "]"%char then Some ([v], r')
              else if Ascii.eqb a ","%char then (fun '(l, r) => (v :: l, r)) <$> elements fuel r'
              else None
          | EmptyString => None
          end
      end
  end
with members (fuel : nat) (s : string) : option (list (string * jvalue) * string) :=
  match fuel with
  | O => None
  | S fuel =>
      match drop_prefix (bytes [34]%Z) (skip_ws s) ≫= string_literal with
      | None => None
      | Some (key, r) =>
          match drop_prefix ":" (skip_ws r) ≫= value fuel with
          | None => None
          | Some (v, r) =>
              match skip_ws r with
              | String a r' =>
                  if Ascii.eqb a "}"%char then Some ([(key, v)], r')
                  else if Ascii.eqb a ","%char then (fun '(l, r) => ((key, v) :: l, r)) <$> members fuel r'
                  else None
              | EmptyString => None
              end
          end
      end
  end.

(** The nesting and the number of elements are bounded by the length of the
    text; two units of fuel per byte cover the calls between the functions. *)
Fixpoint jdepth (v : jvalue) : nat :=
  match v with
  | VArray l => S ((fix go l := match l with [] => 0 | v :: l => Nat.max (jdepth v) (go l) end) l)
  | VObject l => S ((fix go l := match l with [] => 0 | x :: l => Nat.max (jdepth (snd x)) (go l) end) l)
  | _ => 0
  end.

Definition maxNestingDepth : Z := 10000.

Definition parse_json (s : string) : option jvalue :=
  match value (2 * String.length s + 2) s with
  | Some (v, r) =>
      if decide (skip_ws r = "" /\ (Z.of_nat (jdepth v) <= maxNestingDepth)%Z) then Some v else None
  | None => None
  end.

Definition upper (a : ascii) : ascii := if in_range 97 122 a then byte_of (byte_val a - 32) else a.

Definition element_string (v : jvalue) : option string :=
  match v with VString s => Some s | VNull => Some "" | _ => None end.

(** The decoder's answer: the strings, or the text of its error. *)
Definition Unmarshal_strings (diagnostic : string -> string) (s : string) : result (list string) :=
  match parse_json s with
  | Some VNull => Ok []
  | Some (VArray l) =>
      match mapM element_string l with
      | Some xs => Ok xs
      | None => Err (Errorf (diagnostic s))
      end
  | _ => Err (Errorf (diagnostic s))
  end.

(** *** A struct with one string field *)
(** Keys are compared after folding each rune to the least of its case variants:
    among the variants of ASCII letters are the long s and the Kelvin sign.  For a
    field whose name is ASCII no other rune matters. *)
Fixpoint foldName (s : string) : string :=
  match s with
  | EmptyString => ""
  | String a s' =>
      match s' with
      | String b s2 =>
          if (byte_val a =? 197)%Z && (byte_val b =? 191)%Z then String "S"%char (foldName s2)
          else match s2 with
               | String c s3 =>
                   if (byte_val a =? 226)%Z && (byte_val b =? 132)%Z && (byte_val c =? 170)%Z
                   then String "K"%char (foldName s3)
                   else String (upper a) (foldName s')
               | EmptyString => String (upper a) (foldName s')
               end
      | EmptyString => String (upper a) ""
      end
  end.

(** The field's value after the members, and whether one had a wrong type. *)
Definition storeMember (field : string) (acc : string * bool) (m : string * jvalue) : string * bool :=
  if decide (foldName m.1 = foldName field) then
    match m.2 with
    | VString x => (x, acc.2)
    | VNull => acc
    | _ => (acc.1, true)
    end
  else acc.

Definition Unmarshal_field (diagnostic : string -> string) (field s : string) : result string :=
  match parse_json s with
  | Some VNull => Ok ""
  | Some (VObject ms) =>
      let '(x, mismatch) := foldl (storeMember field) ("", false) ms in
      if mismatch then Err (Errorf (diagnostic s)) else Ok x
  | _ => Err (Errorf (diagnostic s))
  end.

Definition jq (s : string) : string := dquote +:+ s +:+ dquote.

Example Unmarshal_1 :
  Unmarshal_strings (fun _ => "bad") ("[" +:+ jq "a\u0041" +:+ ", " +:+ jq "b\n" +:+ " ] ") = Ok ["aA"; "b" +:+ LF].
Proof. reflexivity. Qed.
Example Unmarshal_2 : Unmarshal_strings (fun _ => "bad") "[1.5e3, {}]" = Err (Errorf "bad").
Proof. reflexivity. Qed.
Example Unmarshal_3 : Unmarshal_strings (fun _ => "bad") " null" = Ok [].
Proof. reflexivity. Qed.
Example Unmarshal_4 : Unmarshal_strings (fun _ => "bad") "[" = Err (Errorf "bad").
Proof. reflexivity. Qed.
Example Unmarshal_5 :
  Unmarshal_field (fun _ => "bad") "issuer"
    ("{" +:+ jq "jwks_uri" +:+ ":[], " +:+ jq "ISSUER" +:+ ": " +:+ jq "https://a" +:+ "}") = Ok "https://a".
Proof. reflexivity. Qed.
Example Unmarshal_6 : Unmarshal_field (fun _ => "bad") "issuer" ("{" +:+ jq "issuer" +:+ ": 1}") = Err (Errorf "bad").
Proof. reflexivity. Qed.

(** ** The fuel is enough *)
Lemma skip_ws_length s : String.length (skip_ws s) <= String.length s.
Proof. induction s as [|a s IH]; cbn; [done|]. case_match; cbn; lia. Qed.

Lemma drop_prefix_length p s r : drop_prefix p s = Some r -> String.length s = String.length p + String.length r.
Proof.
  revert s. induction p as [|a p IH]; intros s; cbn; [by intros [= ->]|]. destruct s as [|b s]; [done|].
  destruct (Ascii.eqb a b); [|done]. intros H. cbn. by rewrite (IH s).
Qed.

Lemma hex4_length s x r : hex4 s = Some (x, r) -> String.length r < String.length s.
Proof.
  unfold hex4. destruct s as [|a [|b [|c [|d s]]]]; try done.
  destruct (unhex a), (unhex b), (unhex c), (unhex d); try done. intros [= _ <-]. cbn. lia.
Qed.

Lemma unicode_escape_length s x r : unicode_escape s = Some (x, r) -> String.length r < String.length s.
Proof.
  unfold unicode_escape. destruct (hex4 s) as [[v s']|] eqn:E; [|done]. apply hex4_length in E.
  destruct (is_high v); [|destruct (is_low v); intros [= _ <-]; lia].
  destruct (drop_prefix "\u" s') as [s2|] eqn:E2; cbn; [|intros [= _ <-]; lia].
  apply drop_prefix_length in E2. destruct (hex4 s2) as [[w s3]|] eqn:E3; [|intros [= _ <-]; lia].
  apply hex4_length in E3. destruct (is_low w); intros [= _ <-]; cbn in *; lia.
Qed.

Lemma string_body_length fuel : forall s x r,
  string_body fuel s = Some (x, r) -> String.length r < String.length s.
Proof.
  induction fuel as [|fuel IH]; intros s x r; cbn [string_body]; [done|].
  destruct s as [|a s]; [done|]. destruct (Ascii.eqb a (byte_of 34)); [intros [= _ <-]; cbn; lia|].
  destruct (Ascii.eqb a "\"%char).
  - destruct s as [|b s]; [done|].
    destruct (if Ascii.eqb b "u"%char then _ else _) as [[y rest]|] eqn:E; [|done].
    assert (String.length rest <= String.length s).
    { destruct (Ascii.eqb b "u"%char); [apply unicode_escape_length in E; lia|].
      destruct (simple_escape b); [|done]. cbn in E. by injection E as _ <-. }
    destruct (string_body fuel rest) as [[z t]|] eqn:E2; [|done]. apply IH in E2. intros [= _ <-]. cbn. lia.
  - destruct (byte_val a <? 32)%Z; [done|].
    destruct (string_body fuel s) as [[z t]|] eqn:E2; [|done]. apply IH in E2. intros [= _ <-]. cbn. lia.
Qed.

(** More fuel than the string has bytes changes nothing. *)
Lemma string_body_fuel f1 : forall f2 s,
  String.length s < f1 -> String.length s < f2 -> string_body f1 s = string_body f2 s.
Proof.
  induction f1 as [|f1 IH]; intros [|f2] s H1 H2; try lia. cbn [string_body]. destruct s as [|a s]; [done|]. cbn in H1, H2.
  destruct (Ascii.eqb a (byte_of 34)); [done|]. destruct (Ascii.eqb a "\"%char).
  - destruct s as [|b s]; [done|]. cbn in H1, H2.
    destruct (if Ascii.eqb b "u"%char then _ else _) as [[y rest]|] eqn:E; [|done].
    assert (String.length rest <= String.length s).
    { destruct (Ascii.eqb b "u"%char); [apply unicode_escape_length in E; lia|].
      destruct (simple_escape b); [|done]. cbn in E. by injection E as _ <-. }
    by rewrite (IH f2) by lia.
  - destruct (byte_val a <? 32)%Z; [done|]. by rewrite (IH f2) by lia.
Qed.

Lemma string_literal_length s x r : string_literal s = Some (x, r) -> String.length r < String.length s.
Proof.
  unfold string_literal. destruct (string_body _ s) as [[y t]|] eqn:E; [|done].
  apply string_body_length in E. by intros [= _ <-].
Qed.

Lemma digits1_length s r : digits1 s = Some r -> String.length r < String.length s.
Proof.
  assert (Hd : forall s, String.length (drop_digits s) <= String.length s).
  { intros t. induction t as [|a t IH]; cbn; [done|]. destruct (is_digit a); cbn; lia. }
  destruct s as [|a s]; cbn; [done|]. destruct (is_digit a); [|done]. intros [= <-]. specialize (Hd s). lia.
Qed.

Lemma exponent_length s r :
  match s with
  | String e r =>
      if one_of "eE" e then
        match r with String sgn r' => digits1 (if one_of "+-" sgn then r' else r) | EmptyString => None end
      else Some s
  | EmptyString => Some s
  end = Some r -> String.length r <= String.length s.
Proof.
  destruct s as [|e q]; [by intros [= <-]|]. destruct (one_of "eE" e); [|by intros [= <-]].
  destruct q as [|sgn q']; [done|]. intros H. apply digits1_length in H. destruct (one_of "+-" sgn); cbn in *; lia.
Qed.

Lemma number_length s r : number s = Some r -> String.length r < String.length s.
Proof.
  unfold number. assert (Ht : String.length (TrimPrefix s "-") <= String.length s).
  { unfold TrimPrefix. destruct (drop_prefix "-" s) eqn:E; cbn; [apply drop_prefix_length in E; lia|done]. }
  destruct (TrimPrefix s "-") as [|a t]; [done|]. cbn in Ht.
  destruct (if Ascii.eqb a "0"%char then _ else _) as [s1|] eqn:E1; [|done].
  assert (H1 : String.length s1 <= String.length t).
  { destruct (Ascii.eqb a "0"%char); [by injection E1 as <-|]. apply digits1_length in E1. cbn in E1. lia. }
  destruct (drop_prefix "." s1) as [t1|] eqn:E3.
  - destruct (digits1 t1) as [s2|] eqn:E2; [|done]. apply drop_prefix_length in E3. apply digits1_length in E2.
    intros H. apply exponent_length in H. cbn in *. lia.
  - intros H. apply exponent_length in H. lia.
Qed.

Lemma value_length fuel :
  (forall s v r, value fuel s = Some (v, r) -> String.length r < String.length s) /\
  (forall s l r, elements fuel s = Some (l, r) -> String.length r < String.length s) /\
  (forall s l r, members fuel s = Some (l, r) -> String.length r < String.length s).
Proof.
  induction fuel as [|fuel (IHv&IHe&IHm)]; [by repeat split|]. split; [|split]; intros s.
  - intros v r. cbn [value]. pose proof (skip_ws_length s) as Hs. destruct (skip_ws s) as [|a s'] eqn:Es; [done|]. cbn in Hs.
    destruct (Ascii.eqb a (byte_of 34)).
    { destruct (string_literal s') as [[x t]|] eqn:E; [|done]. apply string_literal_length in E. intros [= _ <-]. lia. }
    pose proof (skip_ws_length s') as Hs'.
    destruct (Ascii.eqb a "["%char).
    { destruct (drop_prefix "]" (skip_ws s')) eqn:E; [apply drop_prefix_length in E; intros [= _ <-]; lia|].
      destruct (elements fuel s') as [[l t]|] eqn:E2; [|done]. apply IHe in E2. intros [= _ <-]. lia. }
    destruct (Ascii.eqb a "{"%char).
    { destruct (drop_prefix "}" (skip_ws s')) eqn:E; [apply drop_prefix_length in E; intros [= _ <-]; lia|].
      destruct (members fuel s') as [[l t]|] eqn:E2; [|done]. apply IHm in E2. intros [= _ <-]. lia. }
    destruct (drop_prefix "null" (String a s')) eqn:E; [apply drop_prefix_length in E; cbn in E; intros [= _ <-]; lia|].
    destruct (drop_prefix "true" (String a s')) eqn:E1; [apply drop_prefix_length in E1; cbn in E1; intros [= _ <-]; lia|].
    destruct (drop_prefix "false" (String a s')) eqn:E2; [apply drop_prefix_length in E2; cbn in E2; intros [= _ <-]; lia|].
    destruct (number (String a s')) eqn:E3; [|done]. apply number_length in E3. cbn in E3. intros [= _ <-]. lia.
  - intros l r. cbn [elements]. destruct (value fuel s) as [[v t]|] eqn:E; [|done]. apply IHv in E.
    pose proof (skip_ws_length t) as Ht. destruct (skip_ws t) as [|a t']; [done|]. cbn in Ht.
    destruct (Ascii.eqb a "]"%char); [intros [= _ <-]; lia|]. destruct (Ascii.eqb a ","%char); [|done].
    destruct (elements fuel t') as [[l' q]|] eqn:E2; [|done]. apply IHe in E2. intros [= _ <-]. lia.
  - intros l r. cbn [members]. pose proof (skip_ws_length s) as Hs.
    destruct (drop_prefix (bytes [34]%Z) (skip_ws s)) as [s1|] eqn:E; [|done]. apply drop_prefix_length in E. cbn [mbind option_bind].
    destruct (string_literal s1) as [[key t]|] eqn:E1; [|done]. apply string_literal_length in E1.
    pose proof (skip_ws_length t) as Ht.
    destruct (drop_prefix ":" (skip_ws t)) as [t1|] eqn:E2; [|done]. apply drop_prefix_length in E2. cbn [mbind option_bind].
    destruct (value fuel t1) as [[v t2]|] eqn:E3; [|done]. apply IHv in E3.
    pose proof (skip_ws_length t2) as Ht2. destruct (skip_ws t2) as [|a t3]; [done|]. cbn in Ht2, E, E2.
    destruct (Ascii.eqb a "}"%char); [intros [= _ <-]; lia|]. destruct (Ascii.eqb a ","%char); [|done].
    destruct (members fuel t3) as [[l' q]|] eqn:E4; [|done]. apply IHm in E4. intros [= _ <-]. lia.
Qed.

(** Two units of fuel per byte are enough: more change nothing, so no text is
    rejected for want of fuel. *)
Lemma value_fuel f1 : forall f2,
  (forall s, 2 * String.length s < f1 -> 2 * String.length s < f2 -> value f1 s = value f2 s) /\
  (forall s, 2 * String.length s + 1 < f1 -> 2 * String.length s + 1 < f2 -> elements f1 s = elements f2 s) /\
  (forall s, 2 * String.length s + 1 < f1 -> 2 * String.length s + 1 < f2 -> members f1 s = members f2 s).
Proof.
  induction f1 as [|f1 IH]; intros f2; [repeat split; intros; lia|].
  destruct f2 as [|f2]; [repeat split; intros; lia|]. destruct (IH f2) as (IHv&IHe&IHm). split; [|split]; intros s H1 H2.
  - cbn [value]. pose proof (skip_ws_length s) as Hs. destruct (skip_ws s) as [|a s']; [done|]. cbn in Hs.
    destruct (Ascii.eqb a (byte_of 34)); [done|].
    destruct (Ascii.eqb a "["%char).
    { destruct (drop_prefix "]" (skip_ws s')); [done|]. by rewrite IHe by lia. }
    destruct (Ascii.eqb a "{"%char); [|done].
    destruct (drop_prefix "}" (skip_ws s')); [done|]. by rewrite IHm by lia.
  - cbn [elements]. rewrite IHv by lia. destruct (value f2 s) as [[v t]|] eqn:E; [|done].
    apply value_length in E. pose proof (skip_ws_length t) as Ht. destruct (skip_ws t) as [|a t']; [done|]. cbn in Ht.
    destruct (Ascii.eqb a "]"%char); [done|]. destruct (Ascii.eqb a ","%char); [|done]. by rewrite IHe by lia.
  - cbn [members]. pose proof (skip_ws_length s) as Hs.
    destruct (drop_prefix (bytes [34]%Z) (skip_ws s)) as [s1|] eqn:E; [|done]. apply drop_prefix_length in E. cbn [mbind option_bind].
    destruct (string_literal s1) as [[key t]|] eqn:E1; [|done]. apply string_literal_length in E1.
    pose proof (skip_ws_length t) as Ht.
    destruct (drop_prefix ":" (skip_ws t)) as [t1|] eqn:E2; [|done]. apply drop_prefix_length in E2. cbn [mbind option_bind].
    cbn in E, E2. rewrite IHv by lia. destruct (value f2 t1) as [[v t2]|] eqn:E3; [|done]. apply value_length in E3.
    pose proof (skip_ws_length t2) as Ht2. destruct (skip_ws t2) as [|a t3]; [done|]. cbn in Ht2.
    destruct (Ascii.eqb a "}"%char); [done|]. destruct (Ascii.eqb a ","%char); [|done]. by rewrite IHm by lia.
Qed.
