(* ===== verification/GoFmt.v ===== *)
(** * More of the Go standard library: splitting, scanning and formatting

    What the command-line tool uses of packages strings and fmt:
    [strings.Split], [strings.SplitN], [strings.HasSuffix], [fmt.Sscanf] with the
    verb [%d], and the padded verbs of [fmt.Printf]. *)
From S2P Require Import Prelude GoStd NetUrl GoJson.

(** ** strings *)
Definition HasSuffix (s suffix : string) : bool := HasPrefix (rev_bytes s) (rev_bytes suffix).

(** [s[i:j]]; callers stay within the bounds. *)
Definition slice (s : string) (i j : nat) : string := String.substring i (j - i) s.

Lemma HasSuffix_true s p : HasSuffix s p = true <-> exists r, s = r +:+ p.
Proof.
  unfold HasSuffix. rewrite HasPrefix_true. split.
  - intros (r&H). exists (rev_bytes r). rewrite <- (rev_bytes_involutive s), H, rev_bytes_app.
    by rewrite rev_bytes_involutive.
  - intros (r&->). rewrite rev_bytes_app. by eexists.
Qed.

Lemma substring_0 a b : String.substring 0 (String.length a) (a +:+ b) = a.
Proof. induction a as [|x a IH]; [by destruct b|]. rewrite app_cons. cbn. by rewrite IH. Qed.

(** What lies between a prefix and a suffix. *)
Lemma slice_between p n q : slice (p +:+ n +:+ q) (String.length p) (String.length (p +:+ n)) = n.
Proof.
  unfold slice. induction p as [|x p IH].
  - rewrite !app_nil_string_l. cbn [String.length]. rewrite Nat.sub_0_r. apply substring_0.
  - rewrite !app_cons. cbn. exact IH.
Qed.

(** [strings.Split(s, sep)] for a one-byte separator: never empty. *)
Fixpoint Split (sep : ascii) (s : string) : list string :=
  match s with
  | EmptyString => [""]
  | String a s' =>
      if Ascii.eqb a sep then "" :: Split sep s'
      else match Split sep s' with
           | x :: l => String a x :: l
           | [] => [String a ""]
           end
  end.

(** [strings.SplitN(s, sep, 2)] *)
Definition SplitN2 (sep : ascii) (s : string) : list string :=
  match Cut sep s with Some (l, r) => [l; r] | None => [s] end.

Lemma Split_not_nil sep s : Split sep s <> [].
Proof. destruct s as [|a s]; cbn; [done|]. destruct (Ascii.eqb a sep); [done|]. by destruct (Split sep s). Qed.

(** Splitting inverts joining, for parts without the separator. *)
Lemma Split_Join sep l :
  l <> [] -> Forall (fun x => has_char sep x = false) l -> Split sep (Join_strings l (String sep "")) = l.
Proof.
  assert (Hone : forall x rest, has_char sep x = false ->
    Split sep (x +:+ String sep rest) = x :: Split sep rest).
  { intros x rest. induction x as [|a x IH]; cbn [has_char]; intros Hx.
    - rewrite app_nil_string_l. cbn. by rewrite Ascii.eqb_refl.
    - apply orb_false_iff in Hx as [H1 H2]. rewrite app_cons. cbn. rewrite H1, IH by done. done. }
  assert (Hlast : forall x, has_char sep x = false -> Split sep x = [x]).
  { intros x. induction x as [|a x IH]; cbn; intros Hx; [done|].
    apply orb_false_iff in Hx as [H1 H2]. rewrite H1, IH by done. done. }
  induction l as [|x l IH]; intros Hnil Hl; [done|].
  apply Forall_cons in Hl as [Hx Hl]. destruct l as [|y l]; [by apply Hlast|].
  change (Join_strings (x :: y :: l) (String sep "")) with (x +:+ String sep "" +:+ Join_strings (y :: l) (String sep "")).
  rewrite app_cons, app_nil_string_l, Hone by done. f_equal. by apply IH.
Qed.

(** Joining inverts splitting. *)
Lemma Join_Split sep s : Join_strings (Split sep s) (String sep "") = s.
Proof.
  induction s as [|a s IH]; [done|]. cbn [Split].
  destruct (Split sep s) as [|x l] eqn:E; [by apply Split_not_nil in E|].
  destruct (Ascii.eqb_spec a sep) as [->|Hne].
  - change (Join_strings ("" :: x :: l) (String sep "")) with ("" +:+ String sep "" +:+ Join_strings (x :: l) (String sep "")).
    by rewrite IH.
  - destruct l as [|y l].
    + cbn in *. by rewrite IH.
    + change (Join_strings (String a x :: y :: l) (String sep ""))
        with (String a x +:+ String sep "" +:+ Join_strings (y :: l) (String sep "")).
      rewrite app_cons. f_equal. exact IH.
Qed.

Lemma Split_no_sep sep s : Forall (fun x => has_char sep x = false) (Split sep s).
Proof.
  induction s as [|a s IH]; cbn; [by repeat constructor|].
  destruct (Ascii.eqb a sep) eqn:E; [by constructor|].
  destruct (Split sep s) as [|x l]; apply Forall_cons; inversion IH; subst; cbn; rewrite ?E; auto.
Qed.

(** ** fmt.Sscanf with %d *)
(** The white space skipped before an operand; a line feed is an error, unless a
    carriage return precedes it. *)
Fixpoint scan_space (fuel : nat) (s : string) : option string :=
  match fuel with
  | O => None
  | S fuel =>
      match drop_prefix (bytes [13; 10]%Z) s with
      | Some r => scan_space fuel r
      | None =>
          match drop_prefix LF s with
          | Some _ => None
          | None =>
              match drop_any space_runes s with
              | Some r => scan_space fuel r
              | None => Some s
              end
          end
      end
  end.

Fixpoint scan_digits (acc : Z) (s : string) : Z :=
  match s with
  | String a s' => if is_digit a then scan_digits (10 * acc + (byte_val a - 48)) s' else acc
  | EmptyString => acc
  end.

(** An optional sign and at least one digit; the rest of the text is ignored. *)
Definition scan_int (s : string) : option Z :=
  let sign := match s with String a _ => if one_of "+-" a then String a "" else "" | EmptyString => "" end in
  let digits := TrimPrefix s sign in
  match digits1 digits with
  | None => None
  | Some _ =>
      let v := scan_digits 0 digits in
      let v := if decide (sign = "-") then (- v)%Z else v in
      if (- 2 ^ 63 <=? v)%Z && (v <? 2 ^ 63)%Z then Some v else None
  end.

(** [fmt.Sscanf(s, "%d", &v)]: the new value of [v], unchanged on an error. *)
Definition Sscanf_d (s : string) (v : Z) : Z :=
  default v (scan_space (S (String.length s)) s ≫= scan_int).

Example Sscanf_1 : Sscanf_d " 12abc" 1 = 12%Z.
Proof. reflexivity. Qed.
Example Sscanf_2 : Sscanf_d "x" 1 = 1%Z.
Proof. reflexivity. Qed.
Example Sscanf_3 : Sscanf_d "-3" 1 = (-3)%Z.
Proof. reflexivity. Qed.
Example Sscanf_4 : Sscanf_d "9223372036854775808" 7 = 7%Z.
Proof. reflexivity. Qed.

(** ** fmt.Printf *)
Fixpoint spaces (n : nat) : string := match n with O => "" | S n => String " "%char (spaces n) end.

(** [utf8.RuneCountInString]: an invalid byte counts as one rune; [n] bytes of the
    current rune are still to be skipped. *)
Fixpoint rune_count (n : nat) (s : string) : nat :=
  match s with
  | EmptyString => 0
  | String a s' =>
      match n with
      | S n => rune_count n s'
      | O =>
          S (match utf8_ranges a with
             | Some rs => rune_count (if decide (is_Some (utf8_tail s' rs)) then length rs else 0) s'
             | None => rune_count 0 s'
             end)
      end
  end.

(** [%-Ns] and [%Nd] *)
Definition pad_right (n : nat) (s : string) : string := s +:+ spaces (n - rune_count 0 s).
Definition pad_left (n : nat) (s : string) : string := spaces (n - rune_count 0 s) +:+ s.

(** [%.1f] of [float64(size)/1024]: for sizes below 2^53, which a float holds
    exactly, the quotient is exact and is rounded to even. *)
Definition fmt_KB (size : Z) : string :=
  let a := Z.abs size in
  let q := (10 * a / 1024)%Z in
  let r := ((10 * a) `mod` 1024)%Z in
  let tenths := if (512 <? r)%Z || ((r =? 512)%Z && Z.odd q) then (q + 1)%Z else q in
  (if (size <? 0)%Z then "-" else "") +:+ itoa (tenths / 10) +:+ "." +:+ itoa (tenths `mod` 10).

Example fmt_KB_1 : fmt_KB 17408 = "17.0".
Proof. reflexivity. Qed.
Example fmt_KB_2 : fmt_KB 256 = "0.2".
Proof. reflexivity. Qed.
