(* ===== verification/KubeTypes.v ===== *)
(** * Kubernetes API objects

    The data the operator builds, reads and sends.  A record holds the fields of
    the Go struct that the operator sets or reads; a field it never touches keeps
    its zero value everywhere and is left out.  Pointers and optional fields are
    options, slices are lists, [map[string]string] and [map[string][]byte] are
    nil-able maps, machine integers are integers of [Z]. *)
From S2P Require Import Prelude.

(** ** metav1 *)
Record TypeMeta := { APIVersion : string; TypeKind : string }.

Record OwnerReference := { owner_APIVersion : string; owner_Kind : string; owner_Name : string; owner_UID : string;
                           owner_Controller : bool }.

Record ObjectMeta := {
  meta_Name : string;
  meta_Namespace : string;
  meta_Labels : gomap;
  meta_Annotations : gomap;
  meta_OwnerReferences : list OwnerReference;
  meta_Finalizers : list string;
  meta_Generation : Z;
  meta_UID : string;
  meta_ResourceVersion : string;
  meta_DeletionTimestamp : option Z;
  meta_ManagedFields : list string }.

(** [metav1.ObjectMeta{Name: n, Namespace: ns, Labels: l}] *)
Definition newMeta (n ns : string) (l : gomap) : ObjectMeta :=
  {| meta_Name := n; meta_Namespace := ns; meta_Labels := l; meta_Annotations := None;
     meta_OwnerReferences := []; meta_Finalizers := []; meta_Generation := 0;
     meta_UID := ""; meta_ResourceVersion := ""; meta_DeletionTimestamp := None;
     meta_ManagedFields := [] |}.

Record NamespacedName := { nn_Namespace : string; nn_Name : string }.

Inductive ConditionStatus := ConditionTrue | ConditionFalse | ConditionUnknown.

(** [metav1.Condition] without [LastTransitionTime], which the operator neither
    sets nor reads. *)
Record Condition := {
  cond_Type : string;
  cond_Status : ConditionStatus;
  cond_Reason : string;
  cond_Message : string;
  cond_ObservedGeneration : Z }.

Record LabelSelectorRequirement := { req_Key : string; req_Operator : string; req_Values : list string }.
Record LabelSelector := { MatchLabels : gomap; MatchExpressions : list LabelSelectorRequirement }.

Record GroupVersionKind := { gvk_Group : string; gvk_Version : string; gvk_Kind : string }.

(** ** resource.Quantity: the exact value and the canonical text *)
Record Quantity := { q_Value : Z; q_String : string }.
Definition ResourceList := list (string * Quantity).
Record ResourceRequirements := { Requests : option ResourceList; Limits : option ResourceList }.

(** [list[name]], with the zero Quantity for a missing entry. *)
Definition zeroQuantity : Quantity := {| q_Value := 0; q_String := "0" |}.

Fixpoint resource_get (l : ResourceList) (n : string) : Quantity :=
  match l with
  | [] => zeroQuantity
  | (m, q) :: l => if decide (m = n) then q else resource_get l n
  end.

Definition QuantityCmp (a b : Quantity) : comparison := Z.compare (q_Value a) (q_Value b).

(** ** corev1 pods *)
Record Toleration := { tol_Key : string; tol_Operator : string; tol_Value : string; tol_Effect : string }.
Record TopologySpreadConstraint := { tsc_MaxSkew : Z; tsc_TopologyKey : string;
  tsc_WhenUnsatisfiable : string; tsc_LabelSelector : option LabelSelector }.

Record KeyToPath := { kp_Key : string; kp_Path : string; kp_Mode : option Z }.

Inductive VolumeSource :=
  | EmptyDir
  | SecretVolume (secretName : string) (items : list KeyToPath)
  | ConfigMapVolume (name : string) (optional : option bool)
  | OtherVolume (kind : string).
Record Volume := { vol_Name : string; vol_Source : VolumeSource }.
Record VolumeMount := { vm_Name : string; vm_MountPath : string; vm_ReadOnly : bool }.

Record SecretKeySelector := { sks_Name : string; sks_Key : string }.
Inductive EnvValue := EnvLiteral (v : string) | EnvFromSecret (s : SecretKeySelector).
Record EnvVar := { env_Name : string; env_Value : EnvValue }.

Record ContainerPort := { cp_Name : string; cp_ContainerPort : Z; cp_Protocol : string }.

Inductive ProbeHandler :=
  | TCPSocket (port : Z)
  | HTTPGet (path : string) (port : Z) (scheme : string).
Record Probe := { probe_Handler : ProbeHandler; probe_InitialDelaySeconds : Z; probe_PeriodSeconds : Z }.

Record PodSecurityContext := {
  psc_RunAsNonRoot : option bool;
  psc_SeccompProfile : option string;
  psc_RunAsUser : option Z;
  psc_FSGroup : option Z }.
Record Capabilities := { cap_Drop : list string; cap_Add : list string }.
Record SecurityContext := { sc_AllowPrivilegeEscalation : option bool; sc_Capabilities : option Capabilities }.

Record Container := {
  c_Name : string;
  c_Image : string;
  c_Command : list string;
  c_Args : list string;
  c_Env : list EnvVar;
  c_EnvFrom : list string;
  c_Resources : ResourceRequirements;
  c_SecurityContext : option SecurityContext;
  c_Ports : list ContainerPort;
  c_VolumeMounts : list VolumeMount;
  c_ReadinessProbe : option Probe;
  c_LivenessProbe : option Probe }.

Record WeightedPodAffinityTerm := { wt_Weight : Z; wt_LabelSelector : LabelSelector; wt_TopologyKey : string }.
Record Affinity := { aff_PodAffinity : option (list WeightedPodAffinityTerm);
                     aff_PodAntiAffinity : option (list WeightedPodAffinityTerm) }.

Record PodSpec := {
  pod_ServiceAccountName : string;
  pod_TerminationGracePeriodSeconds : option Z;
  pod_SecurityContext : PodSecurityContext;
  pod_NodeSelector : gomap;
  pod_Tolerations : list Toleration;
  pod_TopologySpreadConstraints : list TopologySpreadConstraint;
  pod_Affinity : option Affinity;
  pod_Containers : list Container;
  pod_Volumes : list Volume }.
Record PodTemplateSpec := { tmpl_Labels : gomap; tmpl_Spec : PodSpec }.

(** ** appsv1 *)
Record RollingUpdate := { ru_MaxUnavailable : Z; ru_MaxSurge : Z }.
Record DeploymentSpec := {
  dep_Replicas : option Z;
  dep_Strategy : option RollingUpdate;
  dep_Selector : LabelSelector;
  dep_Template : PodTemplateSpec }.
Record WorkloadStatus := {
  st_Replicas : Z; st_ReadyReplicas : Z; st_AvailableReplicas : Z; st_UpdatedReplicas : Z }.
Definition zeroWorkloadStatus : WorkloadStatus :=
  {| st_Replicas := 0; st_ReadyReplicas := 0; st_AvailableReplicas := 0; st_UpdatedReplicas := 0 |}.
Record Deployment := {
  d_TypeMeta : TypeMeta; d_Meta : ObjectMeta; d_Spec : DeploymentSpec; d_Status : WorkloadStatus }.

Record PersistentVolumeClaim := {
  pvc_Name : string;
  pvc_AccessModes : list string;
  pvc_StorageClassName : option string;
  pvc_Requests : ResourceList }.
Record StatefulSetSpec := {
  sts_Replicas : option Z;
  sts_ServiceName : string;
  sts_Selector : LabelSelector;
  sts_Template : PodTemplateSpec;
  sts_VolumeClaimTemplates : list PersistentVolumeClaim }.
Record StatefulSet := {
  s_TypeMeta : TypeMeta; s_Meta : ObjectMeta; s_Spec : StatefulSetSpec; s_Status : WorkloadStatus }.

(** ** corev1 services, secrets, config maps, accounts, namespaces *)
Record ServicePort := { sp_Name : string; sp_Port : Z; sp_TargetPort : Z; sp_Protocol : string }.
Record Service := {
  svc_TypeMeta : TypeMeta; svc_Meta : ObjectMeta;
  svc_Selector : gomap; svc_Ports : list ServicePort; svc_TrafficDistribution : option string }.

Record Secret := {
  sec_TypeMeta : TypeMeta; sec_Meta : ObjectMeta; sec_Type : string;
  sec_Data : gomap; sec_StringData : gomap }.
Record ConfigMap := { cm_TypeMeta : TypeMeta; cm_Meta : ObjectMeta; cm_Data : gomap }.
Record ServiceAccount := { sa_TypeMeta : TypeMeta; sa_Meta : ObjectMeta }.
Record Namespace := { ns_TypeMeta : TypeMeta; ns_Meta : ObjectMeta }.

(** ** rbacv1 *)
Record PolicyRule := {
  rule_APIGroups : list string; rule_Resources : list string; rule_ResourceNames : list string;
  rule_NonResourceURLs : list string; rule_Verbs : list string }.
Record RoleRef := { rr_APIGroup : string; rr_Kind : string; rr_Name : string }.
Record Subject := { subj_Kind : string; subj_Name : string; subj_Namespace : string }.
(** ClusterRole and Role, ClusterRoleBinding and RoleBinding: told apart by their
    TypeMeta. *)
Record Role := { role_TypeMeta : TypeMeta; role_Meta : ObjectMeta; role_Rules : list PolicyRule }.
Record RoleBinding := {
  rb_TypeMeta : TypeMeta; rb_Meta : ObjectMeta; rb_RoleRef : RoleRef; rb_Subjects : list Subject }.

(** ** policyv1, monitoringv1 *)
Record PodDisruptionBudget := {
  pdb_TypeMeta : TypeMeta; pdb_Meta : ObjectMeta;
  pdb_MaxUnavailable : option Z; pdb_Selector : option LabelSelector }.

Record SafeTLSConfig := { tls_CA : SecretKeySelector; tls_ServerName : string }.
Record SafeAuthorization := { auth_Type : string; auth_Credentials : SecretKeySelector }.
Record Endpoint := {
  ep_Port : string; ep_Path : string; ep_Scheme : option string; ep_Interval : string;
  ep_Authorization : option SafeAuthorization; ep_TLSConfig : option SafeTLSConfig }.
Record ServiceMonitor := {
  sm_TypeMeta : TypeMeta; sm_Meta : ObjectMeta; sm_Selector : LabelSelector; sm_Endpoints : list Endpoint }.

(** ** Unstructured objects: metadata through the accessors, the rest as JSON *)
#[warnings="-register-all"]
Inductive json :=
  | JNull
  | JBool (b : bool)
  | JString (s : string)
  | JList (l : list json)
  | JMap (m : list (string * json)).

Fixpoint jfield (m : list (string * json)) (k : string) : option json :=
  match m with
  | [] => None
  | (k', v) :: m => if decide (k' = k) then Some v else jfield m k
  end.

(** The value under a path of map keys. *)
Fixpoint jpath (v : json) (ks : list string) : option json :=
  match ks with
  | [] => Some v
  | k :: ks => match v with JMap m => jfield m k ≫= fun v' => jpath v' ks | _ => None end
  end.

Record Unstructured := { u_GVK : GroupVersionKind; u_Meta : ObjectMeta; u_Content : list (string * json) }.

(** ** apiregistrationv1 *)
Record APIServiceCondition := { asc_Type : string; asc_Status : string; asc_Message : string }.
Record APIService := {
  as_TypeMeta : TypeMeta; as_Meta : ObjectMeta;
  as_Group : string; as_Version : string;
  as_GroupPriorityMinimum : Z; as_VersionPriority : Z;
  as_Service : option (string * string);  (* name, namespace *)
  as_CABundle : string; as_InsecureSkipTLSVerify : bool;
  as_Conditions : list APIServiceCondition }.

(** ** apiextensionsv1 and admissionregistrationv1: webhook client configurations *)
Record ServiceRef := { sr_Name : string; sr_Namespace : string; sr_Port : option Z; sr_Path : option string }.
Record WebhookClientConfig := { wcc_URL : option string; wcc_Service : option ServiceRef; wcc_CABundle : string }.

(** [cv_Webhook]: the conversion webhook, whose client configuration may be nil. *)
Record CRConversion := { cv_Strategy : string; cv_Webhook : option (option WebhookClientConfig) }.
Record CustomResourceDefinition := {
  crd_TypeMeta : TypeMeta; crd_Meta : ObjectMeta; crd_Group : string;
  crd_Conversion : option CRConversion; crd_Versions : list string }.

(** A webhook of a Validating- or MutatingWebhookConfiguration: the API groups of
    its rules and its client configuration; [wh_Rest] stands for the fields that
    are copied unread. *)
Record Webhook := {
  wh_Name : string; wh_ClientConfig : WebhookClientConfig;
  wh_Rules : list (list string); wh_Rest : string }.
Record WebhookConfiguration := { wc_TypeMeta : TypeMeta; wc_Meta : ObjectMeta; wc_Webhooks : list Webhook }.

(** ** Decidable equality of the objects that are compared *)
#[export] Instance TypeMeta_eq_dec : EqDecision TypeMeta.
Proof. solve_decision. Defined.
#[export] Instance OwnerReference_eq_dec : EqDecision OwnerReference.
Proof. solve_decision. Defined.
#[export] Instance ObjectMeta_eq_dec : EqDecision ObjectMeta.
Proof. solve_decision. Defined.
#[export] Instance NamespacedName_eq_dec : EqDecision NamespacedName.
Proof. solve_decision. Defined.
#[export] Instance GroupVersionKind_eq_dec : EqDecision GroupVersionKind.
Proof. solve_decision. Defined.
#[export] Instance ConditionStatus_eq_dec : EqDecision ConditionStatus.
Proof. solve_decision. Defined.
#[export] Instance Condition_eq_dec : EqDecision Condition.
Proof. solve_decision. Defined.
#[export] Instance APIServiceCondition_eq_dec : EqDecision APIServiceCondition.
Proof. solve_decision. Defined.
#[export] Instance APIService_eq_dec : EqDecision APIService.
Proof. solve_decision. Defined.
