(* ===== verification/APITypes.v ===== *)
(** * The kube-shard API, group kube-shard.konflux-ci.dev/v1alpha1

    src/operator/api/v1alpha1: the APIShard, NamespaceSync and WebhookSync
    resources, their phases and condition types, and setters for the status
    fields the controllers assign. *)
From S2P Require Import Prelude KubeTypes.

(** ** Storage *)
Inductive StorageType :=
  | StorageTypeSQLite
  | StorageTypeInClusterPostgreSQL
  | StorageTypePostgreSQL
  | StorageTypeOther (s : string).

#[export] Instance StorageType_eq_dec : EqDecision StorageType.
Proof. solve_decision. Defined.

Record APIGroupSpec := { Group : string; Versions : list string }.

Record SecretKeyReference := { skr_Name : string; skr_Key : string }.

Record PersistenceSpec := { StorageClassName : option string; Size : Quantity }.

Record InClusterStorage := { ics_Resources : ResourceRequirements; Persistence : option PersistenceSpec }.

Record PostgreSQLMonitoringSpec := { BloatInterval : string }.

Record StorageMonitoringSpec := {
  Enabled : bool;
  CollectionInterval : string;
  CACertSecret : option SecretKeyReference;
  PostgreSQL : option PostgreSQLMonitoringSpec }.

Record StorageSpec := {
  Type_ : StorageType;
  ConnectionSecretRef : option SecretKeyReference;
  InCluster : option InClusterStorage;
  StorageMonitoring : option StorageMonitoringSpec }.

(** ** Workloads *)
Record SecondarySpec := {
  sec_Replicas : Z;
  sec_Image : string;
  sec_Resources : ResourceRequirements;
  sec_NodeSelector : gomap;
  sec_Tolerations : list Toleration;
  sec_TopologySpreadConstraints : list TopologySpreadConstraint }.

Record ConnectionPoolConfig := {
  MaxIdleConnections : option Z; MaxOpenConnections : option Z; MaxLifetime : option Z }.

Record CompactionConfig := {
  Interval : option Z; MinRetain : option Z; BatchSize : option Z; Timeout_ : option Z }.

Record KineSpec := {
  kine_Replicas : Z;
  kine_Image : string;
  kine_Resources : ResourceRequirements;
  kine_NodeSelector : gomap;
  kine_Tolerations : list Toleration;
  kine_TopologySpreadConstraints : list TopologySpreadConstraint;
  ConnectionPool : option ConnectionPoolConfig;
  Compaction : option CompactionConfig;
  PollBatchSize : option Z;
  WatchProgressNotifyInterval : option Z }.

Record MonitoringSpec := { PrometheusServiceAccountName : string; PrometheusNamespace : string }.

(** ** APIShard *)
Record APIShardSpec := {
  TargetNamespace : string;
  APIGroups : list APIGroupSpec;
  Storage : StorageSpec;
  NamespaceSyncSelector : LabelSelector;
  Secondary : SecondarySpec;
  Kine : KineSpec;
  Monitoring : option MonitoringSpec;
  ColocateComponents : option bool }.

Record ConnectionSecretReference := { csr_Name : string; csr_Namespace : string }.

Record APIShardStatus := {
  Phase : string;
  Message : string;
  ConnectionSecret : option ConnectionSecretReference;
  SecondaryEndpointField : string;
  RegisteredAPIServices : list string;
  Conditions : list Condition;
  ObservedGeneration : Z }.

Record APIShard := { shard_Meta : ObjectMeta; Spec : APIShardSpec; Status : APIShardStatus }.

(** [shard.Name], [shard.Spec.TargetNamespace], [shard.Generation] *)
Definition shardName (s : APIShard) : string := meta_Name (shard_Meta s).
Definition shardNS (s : APIShard) : string := TargetNamespace (Spec s).
Definition shardGeneration (s : APIShard) : Z := meta_Generation (shard_Meta s).
Definition storageType (s : APIShard) : StorageType := Type_ (Storage (Spec s)).

(** ** Phases and condition types (conditions.go) *)
Definition PhaseProvisioning : string := "Provisioning".
Definition PhaseReady : string := "Ready".
Definition PhaseDegraded : string := "Degraded".
Definition PhaseError : string := "Error".
Definition PhaseWaiting : string := "Waiting".

Definition ConditionSecondaryHealthy : string := "SecondaryHealthy".
Definition ConditionCRDsInstalled : string := "CRDsInstalled".
Definition ConditionAPIServicesRegistered : string := "APIServicesRegistered".
Definition ConditionCRDConflictDetected : string := "CRDConflict".
Definition ConditionNamespaceSyncReady : string := "NamespaceSyncReady".
Definition ConditionWebhookSyncReady : string := "WebhookSyncReady".
Definition ConditionStorageReady : string := "StorageReady".
Definition ConditionReconciled : string := "Reconciled".
Definition ConditionMonitoringDegraded : string := "MonitoringDegraded".

(** ** Assignments to status fields *)
Definition with_status (f : APIShardStatus -> APIShardStatus) (s : APIShard) : APIShard :=
  {| shard_Meta := shard_Meta s; Spec := Spec s; Status := f (Status s) |}.

Definition with_meta (f : ObjectMeta -> ObjectMeta) (s : APIShard) : APIShard :=
  {| shard_Meta := f (shard_Meta s); Spec := Spec s; Status := Status s |}.

Definition set_Phase (p : string) (st : APIShardStatus) : APIShardStatus :=
  {| Phase := p; Message := Message st; ConnectionSecret := ConnectionSecret st;
     SecondaryEndpointField := SecondaryEndpointField st;
     RegisteredAPIServices := RegisteredAPIServices st; Conditions := Conditions st;
     ObservedGeneration := ObservedGeneration st |}.

Definition set_Message (m : string) (st : APIShardStatus) : APIShardStatus :=
  {| Phase := Phase st; Message := m; ConnectionSecret := ConnectionSecret st;
     SecondaryEndpointField := SecondaryEndpointField st;
     RegisteredAPIServices := RegisteredAPIServices st; Conditions := Conditions st;
     ObservedGeneration := ObservedGeneration st |}.

Definition set_ConnectionSecret (c : option ConnectionSecretReference) (st : APIShardStatus) : APIShardStatus :=
  {| Phase := Phase st; Message := Message st; ConnectionSecret := c;
     SecondaryEndpointField := SecondaryEndpointField st;
     RegisteredAPIServices := RegisteredAPIServices st; Conditions := Conditions st;
     ObservedGeneration := ObservedGeneration st |}.

Definition set_SecondaryEndpoint (e : string) (st : APIShardStatus) : APIShardStatus :=
  {| Phase := Phase st; Message := Message st; ConnectionSecret := ConnectionSecret st;
     SecondaryEndpointField := e;
     RegisteredAPIServices := RegisteredAPIServices st; Conditions := Conditions st;
     ObservedGeneration := ObservedGeneration st |}.

Definition set_RegisteredAPIServices (l : list string) (st : APIShardStatus) : APIShardStatus :=
  {| Phase := Phase st; Message := Message st; ConnectionSecret := ConnectionSecret st;
     SecondaryEndpointField := SecondaryEndpointField st;
     RegisteredAPIServices := l; Conditions := Conditions st;
     ObservedGeneration := ObservedGeneration st |}.

Definition set_Conditions (cs : list Condition) (st : APIShardStatus) : APIShardStatus :=
  {| Phase := Phase st; Message := Message st; ConnectionSecret := ConnectionSecret st;
     SecondaryEndpointField := SecondaryEndpointField st;
     RegisteredAPIServices := RegisteredAPIServices st; Conditions := cs;
     ObservedGeneration := ObservedGeneration st |}.

Definition set_ObservedGeneration (g : Z) (st : APIShardStatus) : APIShardStatus :=
  {| Phase := Phase st; Message := Message st; ConnectionSecret := ConnectionSecret st;
     SecondaryEndpointField := SecondaryEndpointField st;
     RegisteredAPIServices := RegisteredAPIServices st; Conditions := Conditions st;
     ObservedGeneration := g |}.

(** ** NamespaceSync and WebhookSync *)
Record ServiceReference := { ref_Name : string; ref_Namespace : string; ref_Port : Z }.

Record SecondaryConnectionSpec := {
  ServiceRef_ : ServiceReference;
  AuthSecretRef : string;
  CASecretRef : string }.

Record NamespaceSyncSpec := {
  nss_Connection : SecondaryConnectionSpec;
  nss_LabelSelector : LabelSelector;
  nss_ExcludeNamespaces : list string }.

Record NamespaceSyncStatus := {
  nss_Conditions : list Condition;
  nss_SyncedNamespaces : Z;
  nss_LastSyncTime : option Z;
  nss_ObservedGeneration : Z }.

Record NamespaceSync := { nsync_Meta : ObjectMeta; nsync_Spec : NamespaceSyncSpec; nsync_Status : NamespaceSyncStatus }.

Record WebhookSyncSpec := {
  whs_Connection : SecondaryConnectionSpec;
  whs_APIGroups : list string }.

Record WebhookSyncStatus := {
  whs_Conditions : list Condition;
  whs_Validating : Z;
  whs_Mutating : Z;
  whs_LastSyncTime : option Z;
  whs_ObservedGeneration : Z }.

Record WebhookSync := { wsync_Meta : ObjectMeta; wsync_Spec : WebhookSyncSpec; wsync_Status : WebhookSyncStatus }.
