(* ===== verification/Kube.v ===== *)
(** * The environment of the operator

    What the operator calls and cannot see the code of: the Kubernetes API
    through controller-runtime clients, the tracking client of konflux-ci, the
    clock, the entropy source and API discovery are the calls of its programs;
    the pure helpers of apimachinery and controller-runtime are the operations of
    the class [ThirdParty], with their documented behaviour in [ThirdPartyLaws].
    The module [Reference] instantiates the class and gives a small in-memory API
    server, on which programs and witnesses are executed. *)
From S2P Require Import Prelude KubeTypes APITypes.

(** ** Kinds and their objects *)
Inductive Kind :=
  | KAPIShard | KNamespaceSync | KWebhookSync | KAPIService | KCRD
  | KDeployment | KStatefulSet | KService | KSecret | KConfigMap | KServiceAccount | KNamespace
  | KClusterRole | KRole | KClusterRoleBinding | KRoleBinding
  | KPDB | KServiceMonitor | KUnstructured | KVWHC | KMWHC.

#[export] Instance Kind_eq_dec : EqDecision Kind.
Proof. solve_decision. Defined.

Definition obj (k : Kind) : Type :=
  match k with
  | KAPIShard => APIShard
  | KNamespaceSync => NamespaceSync
  | KWebhookSync => WebhookSync
  | KAPIService => APIService
  | KCRD => CustomResourceDefinition
  | KDeployment => Deployment
  | KStatefulSet => StatefulSet
  | KService => Service
  | KSecret => Secret
  | KConfigMap => ConfigMap
  | KServiceAccount => ServiceAccount
  | KNamespace => Namespace
  | KClusterRole | KRole => Role
  | KClusterRoleBinding | KRoleBinding => RoleBinding
  | KPDB => PodDisruptionBudget
  | KServiceMonitor => ServiceMonitor
  | KUnstructured => Unstructured
  | KVWHC | KMWHC => WebhookConfiguration
  end.

Definition obj_meta (k : Kind) : obj k -> ObjectMeta :=
  match k return obj k -> ObjectMeta with
  | KAPIShard => shard_Meta
  | KNamespaceSync => nsync_Meta
  | KWebhookSync => wsync_Meta
  | KAPIService => as_Meta
  | KCRD => crd_Meta
  | KDeployment => d_Meta
  | KStatefulSet => s_Meta
  | KService => svc_Meta
  | KSecret => sec_Meta
  | KConfigMap => cm_Meta
  | KServiceAccount => sa_Meta
  | KNamespace => ns_Meta
  | KClusterRole | KRole => role_Meta
  | KClusterRoleBinding | KRoleBinding => rb_Meta
  | KPDB => pdb_Meta
  | KServiceMonitor => sm_Meta
  | KUnstructured => u_Meta
  | KVWHC | KMWHC => wc_Meta
  end.

Definition obj_key (k : Kind) (o : obj k) : NamespacedName :=
  {| nn_Namespace := meta_Namespace (obj_meta k o); nn_Name := meta_Name (obj_meta k o) |}.

(** The name of an object of any kind. *)
Definition obj_name (k : Kind) (o : obj k) : string := meta_Name (obj_meta k o).

(** ** Clients *)
(** [rest.Config], the fields buildRESTConfig fills in. *)
Record RESTConfig := {
  rc_Host : string; rc_CAData : string; rc_Insecure : bool;
  rc_BearerToken : string; rc_CertData : string; rc_KeyData : string }.

(** A controller-runtime client: the manager's, or one built by [client.New]. *)
Inductive client := PrimaryC | RemoteC (cfg : RESTConfig).

#[export] Instance RESTConfig_eq_dec : EqDecision RESTConfig.
Proof. solve_decision. Defined.
#[export] Instance client_eq_dec : EqDecision client.
Proof. solve_decision. Defined.

(** [tracking.OwnershipConfig] *)
Record TrackingClient := {
  tc_OwnerName : string; tc_OwnerLabelKey : string; tc_ComponentLabelKey : string;
  tc_Component : string; tc_FieldManager : string }.

Inductive ListOptions :=
  | ListAll
  | ListMatching (selector : LabelSelector)
  | ListInNamespace (ns : string).

(** ** Calls and responses

    A call that takes a pointer to an object may change it (the API server's
    answer is decoded into it): its response is the object after the call with
    the error returned. *)
Inductive call :=
  | Get (c : client) (k : Kind) (key : NamespacedName)
  | ListObjs (c : client) (k : Kind) (opts : ListOptions)
  | Create (c : client) (k : Kind) (o : obj k)
  | Update (c : client) (k : Kind) (o : obj k)
  | StatusUpdate (c : client) (k : Kind) (o : obj k)
  | PatchMergeFrom (c : client) (k : Kind) (o base : obj k)
  | PatchApply (c : client) (k : Kind) (o : obj k) (fieldOwner : string) (forceOwnership : bool)
  | Delete (c : client) (k : Kind) (o : obj k)
  | ApplyOwned (tc : TrackingClient) (k : Kind) (o : obj k)
  | CreateOrUpdate (c : client) (k : Kind) (o : obj k) (mutate : obj k -> obj k * option error)
  | CleanupOrphans (tc : TrackingClient) (labelKey owner : string) (gvks : list GroupVersionKind)
  | NewClient (cfg : RESTConfig)
  | RandRead (n : nat)
  | Now
  | ServerResourcesForGroupVersion (gv : string)
  | OIDCDiscovery.

Definition resp (c : call) : Type :=
  match c with
  | Get _ k _ => result (obj k)
  | ListObjs _ k _ => result (list (obj k))
  | Create _ k _ | Update _ k _ | StatusUpdate _ k _ | PatchMergeFrom _ k _ _
  | PatchApply _ k _ _ _ | ApplyOwned _ k _ | CreateOrUpdate _ k _ _ => obj k * option error
  | Delete _ _ _ => option error
  | CleanupOrphans _ _ _ _ => option error
  | NewClient _ => option error
  | RandRead _ => result string
  | Now => Z
  | ServerResourcesForGroupVersion _ => result (list string)
  | OIDCDiscovery => result string
  end.

Abbreviation kprog := (prog resp).
Abbreviation kevent := (event resp).

(** The calls, as programs. *)
Definition get (c : client) (k : Kind) (ns n : string) : kprog (result (obj k)) :=
  perform (Get c k {| nn_Namespace := ns; nn_Name := n |}).
Definition list_objs (c : client) (k : Kind) (opts : ListOptions) : kprog (result (list (obj k))) :=
  perform (ListObjs c k opts).
Definition create (c : client) (k : Kind) (o : obj k) : kprog (obj k * option error) :=
  perform (Create c k o).
Definition update (c : client) (k : Kind) (o : obj k) : kprog (obj k * option error) :=
  perform (Update c k o).
Definition status_update (c : client) (k : Kind) (o : obj k) : kprog (obj k * option error) :=
  perform (StatusUpdate c k o).
Definition patch_apply (c : client) (k : Kind) (o : obj k) (owner : string) : kprog (obj k * option error) :=
  perform (PatchApply c k o owner true).
Definition delete_obj (c : client) (k : Kind) (o : obj k) : kprog (option error) :=
  perform (Delete c k o).

(** [tc.ApplyOwned(ctx, o)] where the object is not used afterwards. *)
Definition apply_owned (tc : TrackingClient) (k : Kind) (o : obj k) : kprog (option error) :=
  let* r := perform (ApplyOwned tc k o) in Ret r.2.

(** [if err := tc.ApplyOwned(ctx, o); err != nil { return fmt.Errorf("what: %w", err) }] *)
Definition apply_or (what : string) (tc : TrackingClient) (k : Kind) (o : obj k) : kprog (option error) :=
  let* e := apply_owned tc k o in Ret (Wrapf what <$> e).

(** Calls that change the state of a cluster. *)
Definition is_write (c : call) : bool :=
  match c with
  | Create _ _ _ | Update _ _ _ | StatusUpdate _ _ _ | PatchMergeFrom _ _ _ _
  | PatchApply _ _ _ _ _ | Delete _ _ _ | ApplyOwned _ _ _ | CreateOrUpdate _ _ _ _
  | CleanupOrphans _ _ _ _ => true
  | _ => false
  end.

(** ** Pure third-party helpers *)
Class ThirdParty := {
  (** k8s.io/apimachinery/pkg/api/meta *)
  SetStatusCondition : list Condition -> Condition -> list Condition;
  FindStatusCondition : list Condition -> string -> option Condition;
  RemoveStatusCondition : list Condition -> string -> list Condition;
  (** sigs.k8s.io/controller-runtime/pkg/controller/controllerutil *)
  ContainsFinalizer : ObjectMeta -> string -> bool;
  AddFinalizer : ObjectMeta -> string -> ObjectMeta;
  RemoveFinalizer : ObjectMeta -> string -> ObjectMeta;
  SetControllerReference : APIShard -> ObjectMeta -> ObjectMeta * option error;
  (** metav1.LabelSelectorAsSelector: the error for an invalid selector *)
  LabelSelectorAsSelector : LabelSelector -> option error;
  (** resource.MustParse *)
  MustParse : string -> Quantity;
  (** konflux-ci/operator/pkg/tracking and hashedconfigmap *)
  SetOwnership : TrackingClient -> ObjectMeta -> ObjectMeta * option error;
  BuildConfigMapName : string -> string -> string;
  (** standard library: crypto/sha256, the net/netip check of an IPv6 literal, and
      the wording of encoding/json's diagnostics *)
  SHA256 : string -> string;
  ValidIPv6 : string -> bool;
  JSONDiagnostic : string -> string }.

(** The documented behaviour the operator relies on. *)
Class ThirdPartyLaws (T : ThirdParty) : Prop := {
  find_set_same cs c : FindStatusCondition (SetStatusCondition cs c) (cond_Type c) = Some c;
  find_set_other cs c t :
    cond_Type c <> t -> FindStatusCondition (SetStatusCondition cs c) t = FindStatusCondition cs t;
  find_remove_same cs t : FindStatusCondition (RemoveStatusCondition cs t) t = None;
  find_remove_other cs t t' :
    t <> t' -> FindStatusCondition (RemoveStatusCondition cs t) t' = FindStatusCondition cs t';
  contains_finalizer m f : ContainsFinalizer m f = true <-> f ∈ meta_Finalizers m;
  add_finalizer m f g : g ∈ meta_Finalizers (AddFinalizer m f) <-> g = f \/ g ∈ meta_Finalizers m;
  remove_finalizer m f g : g ∈ meta_Finalizers (RemoveFinalizer m f) <-> g <> f /\ g ∈ meta_Finalizers m;
  set_controller_name s m m' : SetControllerReference s m = (m', None) -> meta_Name m' = meta_Name m;
  set_controller_namespace s m m' :
    SetControllerReference s m = (m', None) -> meta_Namespace m' = meta_Namespace m;
  set_controller_labels s m m' : SetControllerReference s m = (m', None) -> meta_Labels m' = meta_Labels m;
  set_controller_owner s m m' :
    SetControllerReference s m = (m', None) ->
    exists r, r ∈ meta_OwnerReferences m' /\ owner_UID r = meta_UID (shard_Meta s) }.

(** Setting a condition on the shard: [meta.SetStatusCondition(&shard.Status.Conditions, c)]. *)
Definition set_condition `{ThirdParty} (c : Condition) (s : APIShard) : APIShard :=
  with_status (fun st => set_Conditions (SetStatusCondition (Conditions st) c) st) s.
Definition remove_condition `{ThirdParty} (t : string) (s : APIShard) : APIShard :=
  with_status (fun st => set_Conditions (RemoveStatusCondition (Conditions st) t) st) s.
Definition find_condition `{ThirdParty} (t : string) (s : APIShard) : option Condition :=
  FindStatusCondition (Conditions (Status s)) t.

(** The conditions of a shard carry the shard's generation. *)
Definition shardCondition (s : APIShard) (t : string) (st : ConditionStatus) (reason message : string)
  : Condition :=
  {| cond_Type := t; cond_Status := st; cond_Reason := reason; cond_Message := message;
     cond_ObservedGeneration := shardGeneration s |}.

Section Conditions.
Context {T : ThirdParty} {L : ThirdPartyLaws T}.

Lemma find_set_condition c s t :
  find_condition t (set_condition c s) = if decide (cond_Type c = t) then Some c else find_condition t s.
Proof.
  unfold find_condition, set_condition. simpl. case_decide as E.
  - subst t. apply find_set_same.
  - by apply find_set_other.
Qed.

Lemma find_remove_condition t t' s :
  find_condition t' (remove_condition t s) = if decide (t = t') then None else find_condition t' s.
Proof.
  unfold find_condition, remove_condition. simpl. case_decide as E.
  - subst t'. apply find_remove_same.
  - by apply find_remove_other.
Qed.
End Conditions.
