(* ===== verification/Reference.v ===== *)
(** * A reference environment

    An instance of the third-party helpers that satisfies their laws, and an
    in-memory API server pair (primary and secondary) as a handler of the calls.
    Witnesses and executable examples run on it; no theorem depends on it. *)
From S2P Require Import Prelude GoStd KubeTypes APITypes Kube.

(** ** The pure helpers *)
Fixpoint ref_set_condition (cs : list Condition) (c : Condition) : list Condition :=
  match cs with
  | [] => [c]
  | d :: cs => if decide (cond_Type d = cond_Type c) then c :: cs else d :: ref_set_condition cs c
  end.

Definition ref_find_condition (cs : list Condition) (t : string) : option Condition :=
  List.find (fun c => bool_decide (cond_Type c = t)) cs.

Definition ref_remove_condition (cs : list Condition) (t : string) : list Condition :=
  List.filter (fun c => negb (bool_decide (cond_Type c = t))) cs.

Definition meta_with_finalizers (m : ObjectMeta) (fs : list string) : ObjectMeta :=
  {| meta_Name := meta_Name m; meta_Namespace := meta_Namespace m; meta_Labels := meta_Labels m;
     meta_Annotations := meta_Annotations m; meta_OwnerReferences := meta_OwnerReferences m;
     meta_Finalizers := fs; meta_Generation := meta_Generation m; meta_UID := meta_UID m;
     meta_ResourceVersion := meta_ResourceVersion m;
     meta_DeletionTimestamp := meta_DeletionTimestamp m; meta_ManagedFields := meta_ManagedFields m |}.

Definition meta_with_owner (m : ObjectMeta) (r : OwnerReference) : ObjectMeta :=
  {| meta_Name := meta_Name m; meta_Namespace := meta_Namespace m; meta_Labels := meta_Labels m;
     meta_Annotations := meta_Annotations m; meta_OwnerReferences := meta_OwnerReferences m ++ [r];
     meta_Finalizers := meta_Finalizers m; meta_Generation := meta_Generation m;
     meta_UID := meta_UID m; meta_ResourceVersion := meta_ResourceVersion m;
     meta_DeletionTimestamp := meta_DeletionTimestamp m; meta_ManagedFields := meta_ManagedFields m |}.

Definition ref_quantity (s : string) : Quantity :=
  {| q_Value := Z.of_nat (String.length s); q_String := s |}.

#[export] Instance ref_third_party : ThirdParty := {
  SetStatusCondition := ref_set_condition;
  FindStatusCondition := ref_find_condition;
  RemoveStatusCondition := ref_remove_condition;
  ContainsFinalizer m f := bool_decide (f ∈ meta_Finalizers m);
  AddFinalizer m f :=
    if decide (f ∈ meta_Finalizers m) then m else meta_with_finalizers m (meta_Finalizers m ++ [f]);
  RemoveFinalizer m f :=
    meta_with_finalizers m (List.filter (fun g => negb (bool_decide (g = f))) (meta_Finalizers m));
  SetControllerReference s m :=
    (meta_with_owner m {| owner_APIVersion := "kube-shard.konflux-ci.dev/v1alpha1"; owner_Kind := "APIShard"; owner_Name := shardName s;
                          owner_UID := meta_UID (shard_Meta s); owner_Controller := true |}, None);
  LabelSelectorAsSelector _ := None;
  MustParse := ref_quantity;
  SetOwnership _ m := (m, None);
  BuildConfigMapName base content := base +:+ "-" +:+ itoa (Z.of_nat (String.length content));
  SHA256 s := s;
  ValidIPv6 s := has_char ":"%char s;
  JSONDiagnostic _ := "invalid JSON" }.

#[export] Instance ref_laws : ThirdPartyLaws ref_third_party.
Proof.
  split; simpl.
  - intros cs c. induction cs as [|d cs IH]; simpl.
    + by rewrite bool_decide_eq_true_2.
    + case_decide; simpl; [by rewrite bool_decide_eq_true_2|].
      by rewrite bool_decide_eq_false_2.
  - intros cs c t Hne. induction cs as [|d cs IH]; simpl.
    + by rewrite bool_decide_eq_false_2.
    + case_decide as E; simpl.
      * by rewrite !bool_decide_eq_false_2 by congruence.
      * by rewrite IH.
  - intros cs t. induction cs as [|d cs IH]; simpl; [done|].
    case_bool_decide as E; simpl; [done|]. by rewrite bool_decide_eq_false_2.
  - intros cs t t' Hne. induction cs as [|d cs IH]; simpl; [done|].
    case_bool_decide as E; simpl.
    + by rewrite IH, bool_decide_eq_false_2 by congruence.
    + by rewrite IH.
  - intros m f. apply bool_decide_eq_true.
  - intros m f g. case_decide; simpl; set_solver.
  - intros m f g. rewrite !list_elem_of_In, filter_In.
    rewrite negb_true_iff, bool_decide_eq_false. naive_solver.
  - intros s m m'. by intros [= <-].
  - intros s m m'. by intros [= <-].
  - intros s m m'. by intros [= <-].
  - intros s m m'. intros [= <-]. simpl.
    eexists. split; [apply elem_of_app; right; by apply list_elem_of_singleton|done].
Qed.

(** ** The API servers *)
Definition object : Type := {k : Kind & obj k}.

Definition as_kind (k : Kind) (o : object) : option (obj k) :=
  match decide (projT1 o = k) with
  | left e => Some (eq_rect _ obj (projT2 o) _ e)
  | right _ => None
  end.

Record world := { w_primary : list object; w_secondary : list object; w_clock : Z }.

Definition store_of (c : client) (w : world) : list object :=
  match c with PrimaryC => w_primary w | RemoteC _ => w_secondary w end.

Definition with_store (c : client) (l : list object) (w : world) : world :=
  match c with
  | PrimaryC => {| w_primary := l; w_secondary := w_secondary w; w_clock := w_clock w |}
  | RemoteC _ => {| w_primary := w_primary w; w_secondary := l; w_clock := w_clock w |}
  end.

Definition key_eqb (a b : NamespacedName) : bool :=
  bool_decide (nn_Namespace a = nn_Namespace b) && bool_decide (nn_Name a = nn_Name b).

Definition of_kind (k : Kind) (l : list object) : list (obj k) := omap (as_kind k) l.

Definition store_get (k : Kind) (key : NamespacedName) (l : list object) : option (obj k) :=
  List.find (fun o => key_eqb (obj_key k o) key) (of_kind k l).

Definition store_delete (k : Kind) (key : NamespacedName) (l : list object) : list object :=
  List.filter (fun o =>
    match as_kind k o with Some x => negb (key_eqb (obj_key k x) key) | None => true end) l.

Definition store_put (k : Kind) (o : obj k) (l : list object) : list object :=
  store_delete k (obj_key k o) l ++ [existT k o].

Definition not_found (n : string) : error := mkError (quote n +:+ " not found") ClassNotFound.
Definition already_exists (n : string) : error := mkError (quote n +:+ " already exists") ClassAlreadyExists.

Definition selects (opts : ListOptions) (m : ObjectMeta) : bool :=
  match opts with
  | ListAll => true
  | ListMatching s =>
      bool_decide (default ∅ (MatchLabels s) ⊆ default ∅ (meta_Labels m))
  | ListInNamespace ns => bool_decide (meta_Namespace m = ns)
  end.

(** Replace an existing object, or report NotFound. *)
Definition ref_replace (c : client) (k : Kind) (o : obj k) (w : world) : (obj k * option error) * world :=
  match store_get k (obj_key k o) (store_of c w) with
  | Some _ => ((o, None), with_store c (store_put k o (store_of c w)) w)
  | None => ((o, Some (not_found (obj_name k o))), w)
  end.

Definition ref_put (c : client) (k : Kind) (o : obj k) (w : world) : (obj k * option error) * world :=
  ((o, None), with_store c (store_put k o (store_of c w)) w).

Definition ref_handler (c : call) (w : world) : resp c * world :=
  match c return resp c * world with
  | Get c k key =>
      match store_get k key (store_of c w) with
      | Some o => (Ok o, w)
      | None => (Err (not_found (nn_Name key)), w)
      end
  | ListObjs c k opts =>
      (Ok (List.filter (fun o => selects opts (obj_meta k o)) (of_kind k (store_of c w))), w)
  | Create c k o =>
      match store_get k (obj_key k o) (store_of c w) with
      | Some _ => ((o, Some (already_exists (obj_name k o))), w)
      | None => ref_put c k o w
      end
  | Update c k o | StatusUpdate c k o | PatchMergeFrom c k o _ => ref_replace c k o w
  | PatchApply c k o _ _ => ref_put c k o w
  | Delete c k o =>
      match store_get k (obj_key k o) (store_of c w) with
      | Some _ => (None, with_store c (store_delete k (obj_key k o) (store_of c w)) w)
      | None => (Some (not_found (obj_name k o)), w)
      end
  | ApplyOwned _ k o =>
      match store_get k (obj_key k o) (w_primary w) with
      | Some o' => ((o', None), w)
      | None => ref_put PrimaryC k o w
      end
  | CreateOrUpdate c k o mutate =>
      let o := default o (store_get k (obj_key k o) (store_of c w)) in
      match mutate o with
      | (o', Some e) => ((o', Some e), w)
      | (o', None) => ref_put c k o' w
      end
  | CleanupOrphans _ _ _ _ => (None, w)
  | NewClient _ => (None, w)
  | RandRead n => (Ok (String.string_of_list_ascii (repeat "a"%char n)), w)
  | Now => (w_clock w, {| w_primary := w_primary w; w_secondary := w_secondary w;
                          w_clock := w_clock w + 1 |})
  | ServerResourcesForGroupVersion _ => (Ok [], w)
  | OIDCDiscovery => (Err (Errorf "no issuer"), w)
  end.

(** Run a program on the reference environment. *)
Definition ref_exec {A} (p : kprog A) (w : world) : A * world * list kevent := exec ref_handler p w.

(** ** A concrete shard and clusters around it *)
Definition noSelector : LabelSelector := {| MatchLabels := None; MatchExpressions := [] |}.
Definition noResources : ResourceRequirements := {| Requests := None; Limits := None |}.

Definition demoSpec (storage : StorageSpec) : APIShardSpec :=
  {| TargetNamespace := "shard-ns";
     APIGroups := [ {| Group := "tekton.dev"; Versions := ["v1"; "v1beta1"] |} ];
     Storage := storage;
     NamespaceSyncSelector := noSelector;
     Secondary := {| sec_Replicas := 2; sec_Image := ""; sec_Resources := noResources; sec_NodeSelector := None;
                     sec_Tolerations := []; sec_TopologySpreadConstraints := [] |};
     Kine := {| kine_Replicas := 2; kine_Image := ""; kine_Resources := noResources; kine_NodeSelector := None;
                kine_Tolerations := []; kine_TopologySpreadConstraints := []; ConnectionPool := None;
                Compaction := None; PollBatchSize := None; WatchProgressNotifyInterval := None |};
     Monitoring := None;
     ColocateComponents := None |}.

Definition sqliteStorage : StorageSpec :=
  {| Type_ := StorageTypeSQLite; ConnectionSecretRef := None; InCluster := None; StorageMonitoring := None |}.
Definition inClusterStorage : StorageSpec :=
  {| Type_ := StorageTypeInClusterPostgreSQL; ConnectionSecretRef := None;
     InCluster := Some {| ics_Resources := noResources;
                          Persistence := Some {| StorageClassName := None;
                                                 Size := {| q_Value := 10; q_String := "10" |} |} |};
     StorageMonitoring := None |}.

Definition emptyStatus : APIShardStatus :=
  {| Phase := ""; Message := ""; ConnectionSecret := None; SecondaryEndpointField := "";
     RegisteredAPIServices := []; Conditions := []; ObservedGeneration := 0 |}.

Definition demoMeta (finalizers : list string) (deletion : option Z) : ObjectMeta :=
  {| meta_Name := "demo"; meta_Namespace := ""; meta_Labels := None; meta_Annotations := None;
     meta_OwnerReferences := []; meta_Finalizers := finalizers; meta_Generation := 3; meta_UID := "uid-1";
     meta_ResourceVersion := "7"; meta_DeletionTimestamp := deletion; meta_ManagedFields := [] |}.

Definition demoFinalizer : string := "kube-shard.konflux-ci.dev/apiservice-cleanup".

Definition demoShard (storage : StorageSpec) : APIShard :=
  {| shard_Meta := demoMeta [] None; Spec := demoSpec storage; Status := emptyStatus |}.

Definition deletedShard : APIShard :=
  {| shard_Meta := demoMeta [demoFinalizer] (Some 1%Z); Spec := demoSpec sqliteStorage;
     Status := {| Phase := "Ready"; Message := ""; ConnectionSecret := None; SecondaryEndpointField := "";
                  RegisteredAPIServices := ["v1.tekton.dev"; "v1beta1.tekton.dev"]; Conditions := [];
                  ObservedGeneration := 3 |} |}.

Definition demoAPIService (n : string) : APIService :=
  {| as_TypeMeta := {| APIVersion := "apiregistration.k8s.io/v1"; TypeKind := "APIService" |};
     as_Meta := newMeta n "" None; as_Group := "tekton.dev"; as_Version := "v1"; as_GroupPriorityMinimum := 1000;
     as_VersionPriority := 100; as_Service := None; as_CABundle := ""; as_InsecureSkipTLSVerify := false;
     as_Conditions := [] |}.

Definition demoSecret (n : string) (data : list (string * string)) : Secret :=
  {| sec_TypeMeta := {| APIVersion := "v1"; TypeKind := "Secret" |}; sec_Meta := newMeta n "shard-ns" None;
     sec_Type := ""; sec_Data := mlit data; sec_StringData := None |}.

Definition readyStatus : WorkloadStatus :=
  {| st_Replicas := 2; st_ReadyReplicas := 2; st_AvailableReplicas := 2; st_UpdatedReplicas := 2 |}.

Definition emptyPod : PodSpec :=
  {| pod_ServiceAccountName := ""; pod_TerminationGracePeriodSeconds := None;
     pod_SecurityContext := {| psc_RunAsNonRoot := None; psc_SeccompProfile := None; psc_RunAsUser := None;
                               psc_FSGroup := None |};
     pod_NodeSelector := None; pod_Tolerations := []; pod_TopologySpreadConstraints := []; pod_Affinity := None;
     pod_Containers := []; pod_Volumes := [] |}.

Definition readyDeployment (n : string) : Deployment :=
  {| d_TypeMeta := {| APIVersion := "apps/v1"; TypeKind := "Deployment" |}; d_Meta := newMeta n "shard-ns" None;
     d_Spec := {| dep_Replicas := Some 2%Z; dep_Strategy := None; dep_Selector := noSelector;
                  dep_Template := {| tmpl_Labels := None; tmpl_Spec := emptyPod |} |};
     d_Status := readyStatus |}.

Definition authCM : ConfigMap :=
  {| cm_TypeMeta := {| APIVersion := "v1"; TypeKind := "ConfigMap" |};
     cm_Meta := newMeta "extension-apiserver-authentication" "kube-system" None;
     cm_Data := mlit [("requestheader-client-ca-file", "CA")] |}.

(** A cluster in which the certificates are issued and the workloads run. *)
Definition runningCluster (shard : APIShard) : world :=
  {| w_primary :=
       [ existT KAPIShard shard; existT KConfigMap authCM;
         existT KSecret (demoSecret "demo-pki" [("ca.crt", "CA"); ("tls.crt", "S"); ("tls.key", "K")]);
         existT KSecret (demoSecret "demo-admin-client-cert" [("tls.crt", "C"); ("tls.key", "K")]);
         existT KDeployment (readyDeployment "demo-kine");
         existT KDeployment (readyDeployment "demo-apiserver") ];
     w_secondary := []; w_clock := 0 |}.

(** A cluster in which the shard is being deleted and one APIService is left. *)
Definition deletingCluster : world :=
  {| w_primary := [ existT KAPIShard deletedShard; existT KAPIService (demoAPIService "v1.tekton.dev") ];
     w_secondary := []; w_clock := 0 |}.

Definition demoKey : NamespacedName := {| nn_Namespace := ""; nn_Name := "demo" |}.

(** Whether a trace contains a call. *)
Definition performs (P : call -> bool) (tr : list kevent) : bool := existsb (fun e => P (ev_call e)) tr.
