(* ===== verification/ResCommon.v ===== *)
(** * Shared resource builders

    src/operator/internal/resources: scheduling.go (labels, affinity), security.go
    (security contexts) and pdb.go (disruption budgets). *)
From S2P Require Import Prelude GoStd KubeTypes APITypes.

(** ** Label keys and values (scheduling.go) *)
Definition LabelName : string := "app.kubernetes.io/name".
Definition LabelInstance : string := "app.kubernetes.io/instance".
Definition LabelManagedBy : string := "app.kubernetes.io/managed-by".
Definition LabelComponent : string := "app.kubernetes.io/component".
Definition ManagedByValue : string := "kube-shard-operator".
Definition ComponentAPIServer : string := "apiserver".
Definition ComponentStorage : string := "storage".
Definition ComponentDatabase : string := "database".
Definition ComponentMonitoring : string := "monitoring".
Definition NameKine : string := "kine".
Definition NameAPIServer : string := "kube-apiserver".
Definition NameOTelCollector : string := "otel-collector".
Definition CACertKey : string := "ca.crt".
Definition LabelOTelConfig : string := "kube-shard.konflux-ci.dev/otel-config".

(** The label map every workload builder writes out: name, instance, managed-by
    and component. *)
Definition workloadLabels (name component : string) (shard : APIShard) : gomap :=
  mlit [(LabelName, name); (LabelInstance, shardName shard);
        (LabelManagedBy, ManagedByValue); (LabelComponent, component)].

(** ** Affinity *)
Definition isColocateEnabled (shard : APIShard) : bool :=
  match ColocateComponents (Spec shard) with None => true | Some b => b end.

(** [replicas := spec.Replicas; if replicas == 0 { replicas = 1 }] *)
Definition orOne (replicas : Z) : Z := if decide (replicas = 0)%Z then 1%Z else replicas.

(** One preferred affinity term on the pods of a component, by hostname. *)
Definition affinityTerm (weight : Z) (component : string) (shard : APIShard)
  : list WeightedPodAffinityTerm :=
  [ {| wt_Weight := weight;
       wt_LabelSelector :=
         {| MatchLabels := mlit [(LabelInstance, shardName shard); (LabelComponent, component)];
            MatchExpressions := [] |};
       wt_TopologyKey := "kubernetes.io/hostname" |} ].

Definition BuildSecondaryAffinity (shard : APIShard) : option Affinity :=
  let replicas := orOne (sec_Replicas (Secondary (Spec shard))) in
  let colocate := isColocateEnabled shard in
  if (replicas <=? 1)%Z && negb colocate then None
  else Some
    {| aff_PodAntiAffinity :=
         if (1 <? replicas)%Z then Some (affinityTerm 100 ComponentAPIServer shard) else None;
       aff_PodAffinity :=
         if colocate then Some (affinityTerm 80 ComponentStorage shard) else None |}.

Definition BuildKineAffinity (shard : APIShard) : option Affinity :=
  let replicas := orOne (kine_Replicas (Kine (Spec shard))) in
  if (replicas <=? 1)%Z then None
  else Some {| aff_PodAntiAffinity := Some (affinityTerm 100 ComponentStorage shard);
               aff_PodAffinity := None |}.

(** ** Security contexts (security.go) *)
Definition RestrictedPodSecurityContext : PodSecurityContext :=
  {| psc_RunAsNonRoot := Some true; psc_SeccompProfile := Some "RuntimeDefault";
     psc_RunAsUser := None; psc_FSGroup := None |}.

Definition RestrictedContainerSecurityContext : SecurityContext :=
  {| sc_AllowPrivilegeEscalation := Some false;
     sc_Capabilities := Some {| cap_Drop := ["ALL"]; cap_Add := [] |} |}.

Definition APIServerPodSecurityContext : PodSecurityContext :=
  {| psc_RunAsNonRoot := None; psc_SeccompProfile := Some "RuntimeDefault";
     psc_RunAsUser := None; psc_FSGroup := None |}.

Definition APIServerContainerSecurityContext : SecurityContext :=
  {| sc_AllowPrivilegeEscalation := Some true;
     sc_Capabilities := Some {| cap_Drop := ["ALL"]; cap_Add := ["NET_BIND_SERVICE"] |} |}.

(** ** Disruption budgets (pdb.go) *)
Definition BuildPDB (name namespace : string) (replicas : Z) (selector : gomap)
  : option PodDisruptionBudget :=
  if (replicas <? 2)%Z then None
  else Some
    {| pdb_TypeMeta := {| APIVersion := "policy/v1"; TypeKind := "PodDisruptionBudget" |};
       pdb_Meta := newMeta name namespace selector;
       pdb_MaxUnavailable := Some 1%Z;
       pdb_Selector := Some {| MatchLabels := selector; MatchExpressions := [] |} |}.

(** ** Well-formed pods

    Every mount of every container refers to a volume of the pod (or, for a
    StatefulSet, to a volume claim template), volume names are pairwise distinct
    and so are the mount paths of a container. *)
Definition vol_names (vs : list Volume) : list string := vol_Name <$> vs.
Definition mount_names (c : Container) : list string := vm_Name <$> c_VolumeMounts c.
Definition mount_paths (c : Container) : list string := vm_MountPath <$> c_VolumeMounts c.

Definition pod_wf (claims : list string) (p : PodSpec) : Prop :=
  NoDup (claims ++ vol_names (pod_Volumes p)) /\
  Forall (fun c => mount_names c ⊆ claims ++ vol_names (pod_Volumes p) /\ NoDup (mount_paths c))
         (pod_Containers p).

#[export] Instance pod_wf_dec claims p : Decision (pod_wf claims p).
Proof.
  apply and_dec; [apply _|]. apply Forall_dec. intros c.
  apply and_dec; [|apply _].
  destruct (decide (Forall (fun x => x ∈ claims ++ vol_names (pod_Volumes p)) (mount_names c))) as [H|H].
  - left. intros x Hx. rewrite Forall_forall in H. auto.
  - right. intros H'. apply H. apply Forall_forall. auto.
Defined.

(** A Service reaches the pods of a template: its selector is the template's
    labels and each of its target ports is a port of a container. *)
Definition service_reaches (svc : Service) (t : PodTemplateSpec) : Prop :=
  svc_Selector svc = tmpl_Labels t /\
  Forall (fun p => exists c cp, c ∈ pod_Containers (tmpl_Spec t) /\ cp ∈ c_Ports c /\
                                cp_ContainerPort cp = sp_TargetPort p /\
                                cp_Protocol cp = sp_Protocol p) (svc_Ports svc).
