(* ===== verification/KineRes.v ===== *)
(** * The Kine deployment and service

    src/operator/internal/resources/kine.go: Kine translates etcd calls of the
    secondary API server into SQL against the configured storage. *)
From S2P Require Import Prelude GoStd KubeTypes APITypes ResCommon.

Definition DefaultKineImage : string := "ghcr.io/k3s-io/kine:v0.16.3".
Definition KinePort : Z := 2379.
Definition KineMetricsPort : Z := 8080.
Definition dataVolumeName : string := "data".
Definition tmpVolumeName : string := "tmp".
Definition kineServingCertVolumeName : string := "kine-serving-cert".
Definition postgresqlCAVolumeName : string := "postgresql-ca".
Definition postgresqlCAMountPath : string := "/etc/kine/pg-ca".

Definition KineDeploymentName (shard : APIShard) : string := shardName shard +:+ "-kine".
Definition KineServiceName (shard : APIShard) : string := shardName shard +:+ "-kine".

(** postgresql.go, PostgreSQLSecretName *)
Definition PostgreSQLSecretName (shard : APIShard) : string :=
  shardName shard +:+ "-postgresql-credentials".

Definition KineEndpoint (shard : APIShard) : string :=
  match storageType shard with
  | StorageTypeSQLite => "sqlite:///data/kine.db"
  | StorageTypeInClusterPostgreSQL | StorageTypePostgreSQL => "$(KINE_ENDPOINT)"
  | StorageTypeOther _ => "sqlite:///data/kine.db"
  end.

(** [if p != nil { args = append(args, flag, show( *p)) }] *)
Definition flagArg {A} (flag : string) (show : A -> string) (p : option A) : list string :=
  match p with Some v => [flag; show v] | None => [] end.

(** The command line of the Kine container. *)
Definition kineArgs (shard : APIShard) : list string :=
  let k := Kine (Spec shard) in
  ["--endpoint"; KineEndpoint shard;
   "--listen-address"; "tcp://0.0.0.0:" +:+ itoa KinePort;
   "--metrics-bind-address"; ":" +:+ itoa KineMetricsPort;
   "--server-cert-file"; "/etc/kine/tls/tls.crt";
   "--server-key-file"; "/etc/kine/tls/tls.key";
   "--trusted-ca-file"; "/etc/kine/tls/ca.crt"] ++
  match ConnectionPool k with
  | Some cp =>
      flagArg "--datastore-max-idle-connections" itoa (MaxIdleConnections cp) ++
      flagArg "--datastore-max-open-connections" itoa (MaxOpenConnections cp) ++
      flagArg "--datastore-connection-max-lifetime" Duration_String (MaxLifetime cp)
  | None => []
  end ++
  match Compaction k with
  | Some c =>
      flagArg "--compact-interval" Duration_String (Interval c) ++
      flagArg "--compact-min-retain" itoa (MinRetain c) ++
      flagArg "--compact-batch-size" itoa (BatchSize c) ++
      flagArg "--compact-timeout" Duration_String (Timeout_ c)
  | None => []
  end ++
  flagArg "--poll-batch-size" itoa (PollBatchSize k) ++
  flagArg "--watch-progress-notify-interval" Duration_String (WatchProgressNotifyInterval k).

Definition kineVolumes (shard : APIShard) : list Volume :=
  [ {| vol_Name := tmpVolumeName; vol_Source := EmptyDir |};
    {| vol_Name := kineServingCertVolumeName;
       vol_Source := SecretVolume (shardName shard +:+ "-kine-serving-cert") [] |} ] ++
  (if decide (storageType shard = StorageTypeSQLite)
   then [ {| vol_Name := dataVolumeName; vol_Source := EmptyDir |} ] else []) ++
  match storageType shard with
  | StorageTypeInClusterPostgreSQL =>
      [ {| vol_Name := postgresqlCAVolumeName;
           vol_Source := SecretVolume (shardName shard +:+ "-postgresql-ca-keypair")
             [ {| kp_Key := CACertKey; kp_Path := CACertKey; kp_Mode := None |} ] |} ]
  | _ => []
  end.

Definition kineVolumeMounts (shard : APIShard) : list VolumeMount :=
  [ {| vm_Name := tmpVolumeName; vm_MountPath := "/tmp"; vm_ReadOnly := false |};
    {| vm_Name := kineServingCertVolumeName; vm_MountPath := "/etc/kine/tls"; vm_ReadOnly := true |} ] ++
  (if decide (storageType shard = StorageTypeSQLite)
   then [ {| vm_Name := dataVolumeName; vm_MountPath := "/data"; vm_ReadOnly := false |} ] else []) ++
  match storageType shard with
  | StorageTypeInClusterPostgreSQL =>
      [ {| vm_Name := postgresqlCAVolumeName; vm_MountPath := postgresqlCAMountPath; vm_ReadOnly := true |} ]
  | _ => []
  end.

(** The source of KINE_ENDPOINT: a key of the user's Secret, or every key of the
    generated credentials Secret. *)
Definition kineEnv (shard : APIShard) : list EnvVar :=
  match storageType shard, ConnectionSecretRef (Storage (Spec shard)) with
  | StorageTypePostgreSQL, Some ref =>
      [ {| env_Name := "KINE_ENDPOINT";
           env_Value := EnvFromSecret {| sks_Name := skr_Name ref; sks_Key := skr_Key ref |} |} ]
  | _, _ => []
  end.

Definition kineEnvFrom (shard : APIShard) : list string :=
  match storageType shard with
  | StorageTypeInClusterPostgreSQL => [PostgreSQLSecretName shard]
  | _ => []
  end.

Definition kineLabels (shard : APIShard) : gomap := workloadLabels NameKine ComponentStorage shard.

Definition kineContainer (shard : APIShard) : Container :=
  let k := Kine (Spec shard) in
  {| c_Name := NameKine;
     c_Image := if decide (kine_Image k = "") then DefaultKineImage else kine_Image k;
     c_Command := [];
     c_Args := kineArgs shard;
     c_Env := kineEnv shard;
     c_EnvFrom := kineEnvFrom shard;
     c_Resources := kine_Resources k;
     c_SecurityContext := Some RestrictedContainerSecurityContext;
     c_VolumeMounts := kineVolumeMounts shard;
     c_Ports :=
       [ {| cp_Name := "grpc"; cp_ContainerPort := KinePort; cp_Protocol := "TCP" |};
         {| cp_Name := "metrics"; cp_ContainerPort := KineMetricsPort; cp_Protocol := "TCP" |} ];
     c_ReadinessProbe :=
       Some {| probe_Handler := TCPSocket KinePort; probe_InitialDelaySeconds := 5; probe_PeriodSeconds := 10 |};
     c_LivenessProbe :=
       Some {| probe_Handler := TCPSocket KinePort; probe_InitialDelaySeconds := 15; probe_PeriodSeconds := 20 |} |}.

Definition kineTemplate (shard : APIShard) : PodTemplateSpec :=
  let k := Kine (Spec shard) in
  {| tmpl_Labels := kineLabels shard;
     tmpl_Spec :=
       {| pod_ServiceAccountName := "";
          pod_TerminationGracePeriodSeconds := None;
          pod_SecurityContext := RestrictedPodSecurityContext;
          pod_NodeSelector := kine_NodeSelector k;
          pod_Tolerations := kine_Tolerations k;
          pod_TopologySpreadConstraints := kine_TopologySpreadConstraints k;
          pod_Affinity := BuildKineAffinity shard;
          pod_Containers := [kineContainer shard];
          pod_Volumes := kineVolumes shard |} |}.

Definition BuildKineDeployment (shard : APIShard) : Deployment :=
  {| d_TypeMeta := {| APIVersion := "apps/v1"; TypeKind := "Deployment" |};
     d_Meta := newMeta (KineDeploymentName shard) (shardNS shard) (kineLabels shard);
     d_Spec :=
       {| dep_Replicas := Some (orOne (kine_Replicas (Kine (Spec shard))));
          dep_Strategy := Some {| ru_MaxUnavailable := 0; ru_MaxSurge := 1 |};
          dep_Selector := {| MatchLabels := kineLabels shard; MatchExpressions := [] |};
          dep_Template := kineTemplate shard |};
     d_Status := zeroWorkloadStatus |}.

Definition BuildKineService (shard : APIShard) : Service :=
  {| svc_TypeMeta := {| APIVersion := "v1"; TypeKind := "Service" |};
     svc_Meta := newMeta (KineServiceName shard) (shardNS shard) (kineLabels shard);
     svc_Selector := kineLabels shard;
     svc_Ports :=
       [ {| sp_Name := "grpc"; sp_Port := KinePort; sp_TargetPort := KinePort; sp_Protocol := "TCP" |};
         {| sp_Name := "metrics"; sp_Port := KineMetricsPort; sp_TargetPort := KineMetricsPort;
            sp_Protocol := "TCP" |} ];
     svc_TrafficDistribution := if isColocateEnabled shard then Some "PreferSameNode" else None |}.

(** Assignments the reconciler makes to the built objects. *)
Definition with_pod_security (f : PodSecurityContext -> PodSecurityContext) (t : PodTemplateSpec)
  : PodTemplateSpec :=
  let p := tmpl_Spec t in
  {| tmpl_Labels := tmpl_Labels t;
     tmpl_Spec :=
       {| pod_ServiceAccountName := pod_ServiceAccountName p;
          pod_TerminationGracePeriodSeconds := pod_TerminationGracePeriodSeconds p;
          pod_SecurityContext := f (pod_SecurityContext p);
          pod_NodeSelector := pod_NodeSelector p;
          pod_Tolerations := pod_Tolerations p;
          pod_TopologySpreadConstraints := pod_TopologySpreadConstraints p;
          pod_Affinity := pod_Affinity p;
          pod_Containers := pod_Containers p;
          pod_Volumes := pod_Volumes p |} |}.

Definition set_RunAsUser (uid : Z) (p : PodSecurityContext) : PodSecurityContext :=
  {| psc_RunAsNonRoot := psc_RunAsNonRoot p; psc_SeccompProfile := psc_SeccompProfile p;
     psc_RunAsUser := Some uid; psc_FSGroup := psc_FSGroup p |}.

Definition set_FSGroup (gid : Z) (p : PodSecurityContext) : PodSecurityContext :=
  {| psc_RunAsNonRoot := psc_RunAsNonRoot p; psc_SeccompProfile := psc_SeccompProfile p;
     psc_RunAsUser := psc_RunAsUser p; psc_FSGroup := Some gid |}.

Definition with_template (f : PodTemplateSpec -> PodTemplateSpec) (d : Deployment) : Deployment :=
  {| d_TypeMeta := d_TypeMeta d; d_Meta := d_Meta d; d_Status := d_Status d;
     d_Spec := {| dep_Replicas := dep_Replicas (d_Spec d); dep_Strategy := dep_Strategy (d_Spec d);
                  dep_Selector := dep_Selector (d_Spec d); dep_Template := f (dep_Template (d_Spec d)) |} |}.

Definition set_TrafficDistribution (t : option string) (s : Service) : Service :=
  {| svc_TypeMeta := svc_TypeMeta s; svc_Meta := svc_Meta s; svc_Selector := svc_Selector s;
     svc_Ports := svc_Ports s; svc_TrafficDistribution := t |}.
