(* ===== verification/PostgresRes.v ===== *)
(** * In-cluster PostgreSQL

    src/operator/internal/resources/postgresql.go and postgresql_volumes.go: the
    credentials Secret, the StatefulSet with or without persistence, its Service,
    and the reconciliation of immutable volume claim templates. *)
From S2P Require Import Prelude GoStd KubeTypes APITypes Kube ResCommon KineRes.

Definition DefaultPostgreSQLImage : string := "registry.access.redhat.com/hi/postgresql:18.4".
Definition PostgreSQLPort : Z := 5432.
Definition postgresqlTLSVolumeName : string := "postgresql-tls".
Definition postgresqlTLSMountPath : string := "/etc/postgresql/tls".
Definition postgresqlTLSCertMode : Z := 420.  (* 0644 *)
Definition postgresqlTLSKeyMode : Z := 416.   (* 0640 *)

Definition PostgreSQLStatefulSetName (shard : APIShard) : string := shardName shard +:+ "-postgresql".
Definition PostgreSQLServiceName (shard : APIShard) : string := shardName shard +:+ "-postgresql".
Definition PostgreSQLInitConfigMapName (shard : APIShard) : string := shardName shard +:+ "-postgresql-init".

Definition PostgreSQLDSN (shard : APIShard) (user password : string) : string :=
  "postgres://" +:+ user +:+ ":" +:+ password +:+ "@" +:+ PostgreSQLServiceName shard +:+ "." +:+
  shardNS shard +:+ ".svc:" +:+ itoa PostgreSQLPort +:+
  "/kine?sslmode=verify-full&sslrootcert=/etc/kine/pg-ca/ca.crt".

(** 16 random bytes, hex-encoded. *)
Definition GeneratePassword : kprog (result string) :=
  let* b := perform (RandRead 16) in
  match b with
  | Ok b => Ret (Ok (hex_EncodeToString b))
  | Err e => Ret (Err (Wrapf "generating random password" e))
  end.

Definition postgresLabels (shard : APIShard) : gomap := workloadLabels "postgresql" ComponentDatabase shard.

Definition persistenceFromShard (shard : APIShard) : option PersistenceSpec :=
  InCluster (Storage (Spec shard)) ≫= Persistence.

Definition StorageMonitoringEnabled (shard : APIShard) : bool :=
  match StorageMonitoring (Storage (Spec shard)) with Some m => Enabled m | None => false end.

Definition BuildPostgreSQLSecret (shard : APIShard) (password : string) : Secret :=
  let user := NameKine in
  {| sec_TypeMeta := {| APIVersion := "v1"; TypeKind := "Secret" |};
     sec_Meta := newMeta (PostgreSQLSecretName shard) (shardNS shard) (postgresLabels shard);
     sec_Type := "";
     sec_Data := None;
     sec_StringData := mlit
       [("POSTGRES_USER", user); ("POSTGRES_PASSWORD", password); ("POSTGRES_DB", NameKine);
        ("KINE_ENDPOINT", PostgreSQLDSN shard user password)] |}.

Definition BuildPostgreSQLInitConfigMap (shard : APIShard) : ConfigMap :=
  {| cm_TypeMeta := {| APIVersion := "v1"; TypeKind := "ConfigMap" |};
     cm_Meta := newMeta (PostgreSQLInitConfigMapName shard) (shardNS shard) (postgresLabels shard);
     cm_Data := mlit [("init-pgstattuple.sql", "CREATE EXTENSION IF NOT EXISTS pgstattuple;" +:+ LF)] |}.

Section StatefulSet.
Context `{ThirdParty}.

(** The container's resources: the spec's, with default requests. *)
Definition postgresResources (shard : APIShard) : ResourceRequirements :=
  let r := match InCluster (Storage (Spec shard)) with
           | Some ic => ics_Resources ic
           | None => {| Requests := None; Limits := None |}
           end in
  match Requests r with
  | Some _ => r
  | None => {| Requests := Some [("cpu", MustParse "100m"); ("memory", MustParse "256Mi")];
               Limits := Limits r |}
  end.

Definition postgresClaimTemplates (shard : APIShard) : list PersistentVolumeClaim :=
  match persistenceFromShard shard with
  | Some p =>
      [ {| pvc_Name := dataVolumeName; pvc_AccessModes := ["ReadWriteOnce"];
           pvc_StorageClassName := StorageClassName p; pvc_Requests := [("storage", Size p)] |} ]
  | None => []
  end.

Definition postgresVolumes (shard : APIShard) : list Volume :=
  match persistenceFromShard shard with
  | Some _ => []
  | None => [ {| vol_Name := dataVolumeName; vol_Source := EmptyDir |} ]
  end ++
  [ {| vol_Name := "tmp"; vol_Source := EmptyDir |};
    {| vol_Name := postgresqlTLSVolumeName;
       vol_Source := SecretVolume (shardName shard +:+ "-postgresql-serving-cert")
         [ {| kp_Key := "tls.crt"; kp_Path := "tls.crt"; kp_Mode := Some postgresqlTLSCertMode |};
           {| kp_Key := "tls.key"; kp_Path := "tls.key"; kp_Mode := Some postgresqlTLSKeyMode |};
           {| kp_Key := CACertKey; kp_Path := CACertKey; kp_Mode := Some postgresqlTLSCertMode |} ] |};
    {| vol_Name := "init-scripts";
       vol_Source := ConfigMapVolume (PostgreSQLInitConfigMapName shard) (Some true) |} ].

Definition postgresContainer (shard : APIShard) : Container :=
  {| c_Name := "postgresql";
     c_Image := DefaultPostgreSQLImage;
     c_Command := [];
     c_Args := ["-c"; "ssl=on";
                "-c"; "ssl_cert_file=" +:+ postgresqlTLSMountPath +:+ "/tls.crt";
                "-c"; "ssl_key_file=" +:+ postgresqlTLSMountPath +:+ "/tls.key";
                "-c"; "ssl_ca_file=" +:+ postgresqlTLSMountPath +:+ "/ca.crt"];
     c_Env := [ {| env_Name := "PGDATA"; env_Value := EnvLiteral "/var/lib/postgresql/data/pgdata" |} ];
     c_EnvFrom := [PostgreSQLSecretName shard];
     c_Resources := postgresResources shard;
     c_SecurityContext := Some RestrictedContainerSecurityContext;
     c_Ports := [ {| cp_Name := "tcp"; cp_ContainerPort := PostgreSQLPort; cp_Protocol := "TCP" |} ];
     c_VolumeMounts :=
       [ {| vm_Name := dataVolumeName; vm_MountPath := "/var/lib/postgresql/data"; vm_ReadOnly := false |};
         {| vm_Name := "tmp"; vm_MountPath := "/tmp"; vm_ReadOnly := false |};
         {| vm_Name := postgresqlTLSVolumeName; vm_MountPath := postgresqlTLSMountPath; vm_ReadOnly := true |};
         {| vm_Name := "init-scripts"; vm_MountPath := "/docker-entrypoint-initdb.d"; vm_ReadOnly := true |} ];
     c_ReadinessProbe :=
       Some {| probe_Handler := TCPSocket PostgreSQLPort;
               probe_InitialDelaySeconds := 10; probe_PeriodSeconds := 10 |};
     c_LivenessProbe :=
       Some {| probe_Handler := TCPSocket PostgreSQLPort;
               probe_InitialDelaySeconds := 30; probe_PeriodSeconds := 30 |} |}.

Definition BuildPostgreSQLStatefulSet (shard : APIShard) : StatefulSet :=
  {| s_TypeMeta := {| APIVersion := "apps/v1"; TypeKind := "StatefulSet" |};
     s_Meta := newMeta (PostgreSQLStatefulSetName shard) (shardNS shard) (postgresLabels shard);
     s_Spec :=
       {| sts_Replicas := Some 1%Z;
          sts_ServiceName := PostgreSQLServiceName shard;
          sts_Selector := {| MatchLabels := postgresLabels shard; MatchExpressions := [] |};
          sts_Template :=
            {| tmpl_Labels := postgresLabels shard;
               tmpl_Spec :=
                 {| pod_ServiceAccountName := "";
                    pod_TerminationGracePeriodSeconds := None;
                    pod_SecurityContext := RestrictedPodSecurityContext;
                    pod_NodeSelector := None;
                    pod_Tolerations := [];
                    pod_TopologySpreadConstraints := [];
                    pod_Affinity := None;
                    pod_Containers := [postgresContainer shard];
                    pod_Volumes := postgresVolumes shard |} |};
          sts_VolumeClaimTemplates := postgresClaimTemplates shard |};
     s_Status := zeroWorkloadStatus |}.
End StatefulSet.

Definition BuildPostgreSQLService (shard : APIShard) : Service :=
  {| svc_TypeMeta := {| APIVersion := "v1"; TypeKind := "Service" |};
     svc_Meta := newMeta (PostgreSQLServiceName shard) (shardNS shard) (postgresLabels shard);
     svc_Selector := postgresLabels shard;
     svc_Ports := [ {| sp_Name := "tcp"; sp_Port := PostgreSQLPort; sp_TargetPort := PostgreSQLPort;
                       sp_Protocol := "TCP" |} ];
     svc_TrafficDistribution := None |}.

(** ** Assignments to a StatefulSet *)
Definition with_sts_template (f : PodTemplateSpec -> PodTemplateSpec) (s : StatefulSet) : StatefulSet :=
  let sp := s_Spec s in
  {| s_TypeMeta := s_TypeMeta s; s_Meta := s_Meta s; s_Status := s_Status s;
     s_Spec := {| sts_Replicas := sts_Replicas sp; sts_ServiceName := sts_ServiceName sp;
                  sts_Selector := sts_Selector sp; sts_Template := f (sts_Template sp);
                  sts_VolumeClaimTemplates := sts_VolumeClaimTemplates sp |} |}.

Definition with_volumes (f : list Volume -> list Volume) (t : PodTemplateSpec) : PodTemplateSpec :=
  let p := tmpl_Spec t in
  {| tmpl_Labels := tmpl_Labels t;
     tmpl_Spec :=
       {| pod_ServiceAccountName := pod_ServiceAccountName p;
          pod_TerminationGracePeriodSeconds := pod_TerminationGracePeriodSeconds p;
          pod_SecurityContext := pod_SecurityContext p;
          pod_NodeSelector := pod_NodeSelector p;
          pod_Tolerations := pod_Tolerations p;
          pod_TopologySpreadConstraints := pod_TopologySpreadConstraints p;
          pod_Affinity := pod_Affinity p;
          pod_Containers := pod_Containers p;
          pod_Volumes := f (pod_Volumes p) |} |}.

Definition with_claim_templates (vcts : list PersistentVolumeClaim) (s : StatefulSet) : StatefulSet :=
  let sp := s_Spec s in
  {| s_TypeMeta := s_TypeMeta s; s_Meta := s_Meta s; s_Status := s_Status s;
     s_Spec := {| sts_Replicas := sts_Replicas sp; sts_ServiceName := sts_ServiceName sp;
                  sts_Selector := sts_Selector sp; sts_Template := sts_Template sp;
                  sts_VolumeClaimTemplates := vcts |} |}.

Definition sts_volumes (s : StatefulSet) : list Volume := pod_Volumes (tmpl_Spec (sts_Template (s_Spec s))).
Definition sts_claims (s : StatefulSet) : list PersistentVolumeClaim := sts_VolumeClaimTemplates (s_Spec s).

(** ** Volume claim templates (postgresql_volumes.go) *)
Definition volumeClaimTemplateNames (vcts : list PersistentVolumeClaim) : gset string :=
  list_to_set (pvc_Name <$> vcts).
Definition volumeNames (vols : list Volume) : gset string := list_to_set (vol_Name <$> vols).

Definition is_emptyDir (v : Volume) : bool :=
  match vol_Source v with EmptyDir => true | _ => false end.

Definition AlignPostgreSQLVolumeClaims (desired existing : StatefulSet) : StatefulSet :=
  let desired := with_claim_templates (sts_claims existing) desired in
  let liveVCTNames := volumeClaimTemplateNames (sts_claims existing) in
  if decide (0 < size liveVCTNames)
  then with_sts_template (with_volumes
         (List.filter (fun v => negb (bool_decide (vol_Name v ∈ liveVCTNames))))) desired
  else
    let desiredNames := volumeNames (sts_volumes desired) in
    with_sts_template (with_volumes (fun vs =>
      vs ++ List.filter (fun v => is_emptyDir v && negb (bool_decide (vol_Name v ∈ desiredNames)))
              (sts_volumes existing))) desired.

Definition storageClassNamesMatch (requested live : option string) : bool :=
  match requested, live with
  | None, None => true
  | None, Some l => negb (bool_decide (l = ""))
  | Some _, None => false
  | Some r, Some l => bool_decide (r = l)
  end.

Definition claimMatches (requested live : PersistentVolumeClaim) : bool :=
  bool_decide (pvc_Name requested = pvc_Name live) &&
  match QuantityCmp (resource_get (pvc_Requests requested) "storage")
                    (resource_get (pvc_Requests live) "storage") with
  | Eq => true
  | _ => false
  end &&
  storageClassNamesMatch (pvc_StorageClassName requested) (pvc_StorageClassName live).

Fixpoint VolumeClaimTemplatesMatch (requested live : list PersistentVolumeClaim) : bool :=
  match requested, live with
  | [], [] => true
  | r :: requested, l :: live => claimMatches r l && VolumeClaimTemplatesMatch requested live
  | _, _ => false
  end.

Definition describeStorageClassName (sc : option string) : string :=
  match sc with
  | None => "<default>"
  | Some "" => "<none>"
  | Some s => s
  end.

Definition DescribeVolumeClaimTemplates (vcts : list PersistentVolumeClaim) : string :=
  match vcts with
  | [] => "emptyDir (no persistent volume)"
  | v :: _ =>
      "size " +:+ q_String (resource_get (pvc_Requests v) "storage") +:+
      ", storageClassName " +:+ describeStorageClassName (pvc_StorageClassName v)
  end.
