(* ===== verification/SecondaryRes.v ===== *)
(** * The secondary API server

    src/operator/internal/resources/secondary.go (ServiceAccount, Deployment and
    Service of the secondary kube-apiserver) and scc.go (the OpenShift security
    context constraints it needs). *)
From S2P Require Import Prelude GoStd KubeTypes APITypes ResCommon KineRes.

Definition DefaultSecondaryImage : string := "registry.k8s.io/kube-apiserver:v1.36.2".
Definition SecondaryPort : Z := 6443.
Definition varRunKubeVolumeName : string := "var-run-kubernetes".
Definition etcdClientCertVolumeName : string := "etcd-client-cert".

Definition SecondaryServiceAccountName (shard : APIShard) : string := shardName shard +:+ "-apiserver".
Definition SecondaryDeploymentName (shard : APIShard) : string := shardName shard +:+ "-apiserver".
Definition SecondaryServiceName (shard : APIShard) : string := shardName shard +:+ "-apiserver".

Definition SecondaryEndpoint (shard : APIShard) : string :=
  "https://" +:+ SecondaryServiceName shard +:+ "." +:+ shardNS shard +:+ ".svc".

Definition secondaryLabels (shard : APIShard) : gomap :=
  workloadLabels NameAPIServer ComponentAPIServer shard.

Definition BuildSecondaryServiceAccount (shard : APIShard) : ServiceAccount :=
  {| sa_TypeMeta := {| APIVersion := "v1"; TypeKind := "ServiceAccount" |};
     sa_Meta := newMeta (SecondaryServiceAccountName shard) (shardNS shard) (secondaryLabels shard) |}.

(** [https://<kine>.<ns>.svc.cluster.local:<port>] *)
Definition etcdServers (shard : APIShard) : string :=
  "https://" +:+ KineServiceName shard +:+ "." +:+ shardNS shard +:+ ".svc.cluster.local:" +:+ itoa KinePort.

(** The issuer of the secondary's own service account tokens. *)
Definition secondaryIssuer (shard : APIShard) : string :=
  "https://" +:+ shardName shard +:+ "-apiserver." +:+ shardNS shard +:+ ".svc".

Definition secondaryArgs (shard : APIShard) (requestHeaderAllowedNames primaryIssuers : list string)
  : list string :=
  [ "--etcd-servers=" +:+ etcdServers shard;
    "--etcd-certfile=/etc/kubernetes/etcd-client/tls.crt";
    "--etcd-keyfile=/etc/kubernetes/etcd-client/tls.key";
    "--etcd-cafile=/etc/kubernetes/etcd-client/ca.crt";
    "--secure-port=" +:+ itoa SecondaryPort;
    "--tls-cert-file=/etc/kubernetes/pki/tls.crt";
    "--tls-private-key-file=/etc/kubernetes/pki/tls.key";
    "--client-ca-file=/etc/kubernetes/pki/ca.crt";
    "--service-account-key-file=/etc/kubernetes/pki/tls.key";
    "--service-account-signing-key-file=/etc/kubernetes/pki/tls.key";
    "--service-account-issuer=" +:+ secondaryIssuer shard;
    "--api-audiences=" +:+ Join_strings (secondaryIssuer shard :: primaryIssuers) ",";
    "--disable-admission-plugins=NamespaceLifecycle,ServiceAccount,ResourceQuota";
    "--requestheader-client-ca-file=/etc/kubernetes/requestheader/requestheader-client-ca-file";
    "--requestheader-allowed-names=" +:+ Join_strings requestHeaderAllowedNames ",";
    "--requestheader-extra-headers-prefix=X-Remote-Extra-";
    "--requestheader-group-headers=X-Remote-Group";
    "--requestheader-username-headers=X-Remote-User";
    "--authorization-mode=Webhook";
    "--authorization-webhook-config-file=/etc/kubernetes/auth/webhook-config.yaml";
    "--authorization-webhook-version=v1";
    "--authentication-token-webhook-config-file=/etc/kubernetes/auth/authn-webhook-config.yaml";
    "--authentication-token-webhook-version=v1";
    "--anonymous-auth=true";
    "--enable-admission-plugins=MutatingAdmissionWebhook,ValidatingAdmissionWebhook";
    "--shutdown-delay-duration=15s";
    "--shutdown-send-retry-after=true" ].

Definition secondaryVolumeMounts : list VolumeMount :=
  [ {| vm_Name := "pki"; vm_MountPath := "/etc/kubernetes/pki"; vm_ReadOnly := true |};
    {| vm_Name := "auth-config"; vm_MountPath := "/etc/kubernetes/auth"; vm_ReadOnly := true |};
    {| vm_Name := "requestheader-ca"; vm_MountPath := "/etc/kubernetes/requestheader"; vm_ReadOnly := true |};
    {| vm_Name := etcdClientCertVolumeName; vm_MountPath := "/etc/kubernetes/etcd-client"; vm_ReadOnly := true |};
    {| vm_Name := tmpVolumeName; vm_MountPath := "/tmp"; vm_ReadOnly := false |};
    {| vm_Name := varRunKubeVolumeName; vm_MountPath := "/var/run/kubernetes"; vm_ReadOnly := false |} ].

Definition secondaryVolumes (shard : APIShard) : list Volume :=
  [ {| vol_Name := "pki"; vol_Source := SecretVolume (shardName shard +:+ "-pki") [] |};
    {| vol_Name := "auth-config"; vol_Source := ConfigMapVolume (shardName shard +:+ "-authz-config") None |};
    {| vol_Name := "requestheader-ca";
       vol_Source := ConfigMapVolume (shardName shard +:+ "-requestheader-ca") None |};
    {| vol_Name := etcdClientCertVolumeName;
       vol_Source := SecretVolume (shardName shard +:+ "-etcd-client-cert") [] |};
    {| vol_Name := tmpVolumeName; vol_Source := EmptyDir |};
    {| vol_Name := varRunKubeVolumeName; vol_Source := EmptyDir |} ].

Definition secondaryContainer (shard : APIShard) (args : list string) : Container :=
  let s := Secondary (Spec shard) in
  {| c_Name := NameAPIServer;
     c_Image := if decide (sec_Image s = "") then DefaultSecondaryImage else sec_Image s;
     c_Command := [NameAPIServer];
     c_Args := args;
     c_Env := [];
     c_EnvFrom := [];
     c_Resources := sec_Resources s;
     c_SecurityContext := Some APIServerContainerSecurityContext;
     c_Ports := [ {| cp_Name := "https"; cp_ContainerPort := SecondaryPort; cp_Protocol := "TCP" |} ];
     c_VolumeMounts := secondaryVolumeMounts;
     c_ReadinessProbe :=
       Some {| probe_Handler := HTTPGet "/healthz" SecondaryPort "HTTPS";
               probe_InitialDelaySeconds := 10; probe_PeriodSeconds := 10 |};
     c_LivenessProbe :=
       Some {| probe_Handler := HTTPGet "/livez" SecondaryPort "HTTPS";
               probe_InitialDelaySeconds := 30; probe_PeriodSeconds := 30 |} |}.

Definition secondaryTemplate (shard : APIShard) (args : list string) : PodTemplateSpec :=
  let s := Secondary (Spec shard) in
  {| tmpl_Labels := secondaryLabels shard;
     tmpl_Spec :=
       {| pod_ServiceAccountName := SecondaryServiceAccountName shard;
          pod_TerminationGracePeriodSeconds := Some 65%Z;
          pod_SecurityContext := APIServerPodSecurityContext;
          pod_NodeSelector := sec_NodeSelector s;
          pod_Tolerations := sec_Tolerations s;
          pod_TopologySpreadConstraints := sec_TopologySpreadConstraints s;
          pod_Affinity := BuildSecondaryAffinity shard;
          pod_Containers := [secondaryContainer shard args];
          pod_Volumes := secondaryVolumes shard |} |}.

Definition BuildSecondaryDeployment (shard : APIShard) (requestHeaderAllowedNames primaryIssuers : list string)
  : Deployment :=
  {| d_TypeMeta := {| APIVersion := "apps/v1"; TypeKind := "Deployment" |};
     d_Meta := newMeta (SecondaryDeploymentName shard) (shardNS shard) (secondaryLabels shard);
     d_Spec :=
       {| dep_Replicas := Some (orOne (sec_Replicas (Secondary (Spec shard))));
          dep_Strategy := Some {| ru_MaxUnavailable := 0; ru_MaxSurge := 1 |};
          dep_Selector := {| MatchLabels := secondaryLabels shard; MatchExpressions := [] |};
          dep_Template := secondaryTemplate shard (secondaryArgs shard requestHeaderAllowedNames primaryIssuers) |};
     d_Status := zeroWorkloadStatus |}.

Definition BuildSecondaryService (shard : APIShard) : Service :=
  {| svc_TypeMeta := {| APIVersion := "v1"; TypeKind := "Service" |};
     svc_Meta := newMeta (SecondaryServiceName shard) (shardNS shard) (secondaryLabels shard);
     svc_Selector := secondaryLabels shard;
     svc_Ports := [ {| sp_Name := "https"; sp_Port := 443; sp_TargetPort := SecondaryPort;
                       sp_Protocol := "TCP" |} ];
     svc_TrafficDistribution := None |}.

(** ** OpenShift (scc.go) *)
Definition rbacAPIVersion : string := "rbac.authorization.k8s.io/v1".
Definition rbacAPIGroup : string := "rbac.authorization.k8s.io".

Definition APIServerSCCName (shard : APIShard) : string := shardName shard +:+ "-apiserver".
Definition APIServerSCCClusterRoleName (shard : APIShard) : string := shardName shard +:+ "-apiserver-scc".

Definition sccLabels (shard : APIShard) : gomap :=
  mlit [(LabelInstance, shardName shard); (LabelManagedBy, ManagedByValue); (LabelComponent, ComponentAPIServer)].

Definition BuildAPIServerSCC (shard : APIShard) : Unstructured :=
  {| u_GVK := {| gvk_Group := "security.openshift.io"; gvk_Version := "v1";
                 gvk_Kind := "SecurityContextConstraints" |};
     u_Meta := newMeta (APIServerSCCName shard) "" (sccLabels shard);
     u_Content :=
       [ ("allowPrivilegeEscalation", JBool true);
         ("allowPrivilegedContainer", JBool false);
         ("allowHostDirVolumePlugin", JBool false);
         ("allowHostIPC", JBool false);
         ("allowHostNetwork", JBool false);
         ("allowHostPID", JBool false);
         ("allowHostPorts", JBool false);
         ("allowedCapabilities", JList [JString "NET_BIND_SERVICE"]);
         ("defaultAddCapabilities", JNull);
         ("requiredDropCapabilities", JList [JString "ALL"]);
         ("readOnlyRootFilesystem", JBool false);
         ("runAsUser", JMap [("type", JString "MustRunAsRange")]);
         ("seLinuxContext", JMap [("type", JString "MustRunAs")]);
         ("fsGroup", JMap [("type", JString "MustRunAs")]);
         ("supplementalGroups", JMap [("type", JString "RunAsAny")]);
         ("seccompProfiles", JList [JString "runtime/default"]);
         ("volumes", JList (JString <$> ["configMap"; "csi"; "downwardAPI"; "emptyDir"; "ephemeral";
                                         "persistentVolumeClaim"; "projected"; "secret"])) ] |}.

Definition BuildAPIServerSCCClusterRole (shard : APIShard) : Role :=
  {| role_TypeMeta := {| APIVersion := rbacAPIVersion; TypeKind := "ClusterRole" |};
     role_Meta := newMeta (APIServerSCCClusterRoleName shard) "" (sccLabels shard);
     role_Rules :=
       [ {| rule_APIGroups := ["security.openshift.io"];
            rule_Resources := ["securitycontextconstraints"];
            rule_ResourceNames := [APIServerSCCName shard];
            rule_NonResourceURLs := [];
            rule_Verbs := ["use"] |} ] |}.

Definition BuildAPIServerSCCRoleBinding (shard : APIShard) : RoleBinding :=
  {| rb_TypeMeta := {| APIVersion := rbacAPIVersion; TypeKind := "RoleBinding" |};
     rb_Meta := newMeta (APIServerSCCClusterRoleName shard) (shardNS shard) (sccLabels shard);
     rb_RoleRef := {| rr_APIGroup := rbacAPIGroup; rr_Kind := "ClusterRole";
                      rr_Name := APIServerSCCClusterRoleName shard |};
     rb_Subjects := [ {| subj_Kind := "ServiceAccount"; subj_Name := SecondaryServiceAccountName shard;
                         subj_Namespace := shardNS shard |} ] |}.
