(* ===== verification/MetricsRes.v ===== *)
(** * Prometheus scraping resources

    src/operator/internal/resources/metrics.go: ServiceMonitors, the
    metrics-reader identity and the Prometheus discovery role. *)
From S2P Require Import Prelude GoStd KubeTypes APITypes ResCommon KineRes SecondaryRes.

Definition MetricsReaderClusterRoleName : string := "kube-shard-metrics-reader".
Definition metricsScrapeInterval : string := "30s".
Definition OTelMetricsPortName : string := "otel-metrics".

Definition pkiSecretName (shard : APIShard) : string := shardName shard +:+ "-pki".
Definition kineServingSecretName (shard : APIShard) : string := shardName shard +:+ "-kine-serving-cert".
Definition MetricsReaderServiceAccountName (shard : APIShard) : string := shardName shard +:+ "-metrics-reader".
Definition MetricsReaderTokenSecretName (shard : APIShard) : string :=
  shardName shard +:+ "-metrics-reader-token".

(** The labels of every scraping resource of a shard. *)
Definition metricsLabels (shard : APIShard) : gomap :=
  mlit [(LabelManagedBy, ManagedByValue); (LabelInstance, shardName shard)].

Definition monitorSelector (name : string) (shard : APIShard) : LabelSelector :=
  {| MatchLabels := mlit [(LabelName, name); (LabelInstance, shardName shard)]; MatchExpressions := [] |}.

Definition monitorTypeMeta : TypeMeta :=
  {| APIVersion := "monitoring.coreos.com/v1"; TypeKind := "ServiceMonitor" |}.

Definition BuildKineServiceMonitor (shard : APIShard) : ServiceMonitor :=
  {| sm_TypeMeta := monitorTypeMeta;
     sm_Meta := newMeta (shardName shard +:+ "-kine-metrics") (shardNS shard) (metricsLabels shard);
     sm_Selector := monitorSelector NameKine shard;
     sm_Endpoints :=
       [ {| ep_Port := "metrics"; ep_Path := "/metrics"; ep_Scheme := Some "https";
            ep_Interval := metricsScrapeInterval; ep_Authorization := None;
            ep_TLSConfig :=
              Some {| tls_CA := {| sks_Name := kineServingSecretName shard; sks_Key := CACertKey |};
                      tls_ServerName := KineServiceName shard +:+ "." +:+ shardNS shard +:+ ".svc" |} |} ] |}.

Definition BuildSecondaryServiceMonitor (shard : APIShard) : ServiceMonitor :=
  {| sm_TypeMeta := monitorTypeMeta;
     sm_Meta := newMeta (shardName shard +:+ "-apiserver-metrics") (shardNS shard) (metricsLabels shard);
     sm_Selector := monitorSelector NameAPIServer shard;
     sm_Endpoints :=
       [ {| ep_Port := "https"; ep_Path := "/metrics"; ep_Scheme := Some "https";
            ep_Interval := metricsScrapeInterval;
            ep_Authorization :=
              Some {| auth_Type := "Bearer";
                      auth_Credentials := {| sks_Name := MetricsReaderTokenSecretName shard;
                                             sks_Key := "token" |} |};
            ep_TLSConfig :=
              Some {| tls_CA := {| sks_Name := pkiSecretName shard; sks_Key := CACertKey |};
                      tls_ServerName := SecondaryServiceName shard +:+ "." +:+ shardNS shard +:+ ".svc" |} |} ] |}.

Definition BuildMetricsReaderServiceAccount (shard : APIShard) : ServiceAccount :=
  {| sa_TypeMeta := {| APIVersion := "v1"; TypeKind := "ServiceAccount" |};
     sa_Meta := newMeta (MetricsReaderServiceAccountName shard) (shardNS shard) (metricsLabels shard) |}.

Definition BuildMetricsReaderClusterRole : Role :=
  {| role_TypeMeta := {| APIVersion := rbacAPIVersion; TypeKind := "ClusterRole" |};
     role_Meta := newMeta MetricsReaderClusterRoleName "" (mlit [(LabelManagedBy, ManagedByValue)]);
     role_Rules :=
       [ {| rule_APIGroups := []; rule_Resources := []; rule_ResourceNames := [];
            rule_NonResourceURLs := ["/metrics"]; rule_Verbs := ["get"] |} ] |}.

Definition BuildMetricsReaderClusterRoleBinding (shard : APIShard) : RoleBinding :=
  {| rb_TypeMeta := {| APIVersion := rbacAPIVersion; TypeKind := "ClusterRoleBinding" |};
     rb_Meta := newMeta (shardName shard +:+ "-metrics-reader") "" (metricsLabels shard);
     rb_RoleRef := {| rr_APIGroup := rbacAPIGroup; rr_Kind := "ClusterRole";
                      rr_Name := MetricsReaderClusterRoleName |};
     rb_Subjects := [ {| subj_Kind := "ServiceAccount"; subj_Name := MetricsReaderServiceAccountName shard;
                         subj_Namespace := shardNS shard |} ] |}.

Definition with_annotations (a : gomap) (m : ObjectMeta) : ObjectMeta :=
  {| meta_Name := meta_Name m; meta_Namespace := meta_Namespace m; meta_Labels := meta_Labels m;
     meta_Annotations := a; meta_OwnerReferences := meta_OwnerReferences m;
     meta_Finalizers := meta_Finalizers m; meta_Generation := meta_Generation m;
     meta_UID := meta_UID m; meta_ResourceVersion := meta_ResourceVersion m;
     meta_DeletionTimestamp := meta_DeletionTimestamp m; meta_ManagedFields := meta_ManagedFields m |}.

Definition BuildMetricsReaderTokenSecret (shard : APIShard) : Secret :=
  {| sec_TypeMeta := {| APIVersion := "v1"; TypeKind := "Secret" |};
     sec_Meta := with_annotations
       (mlit [("kubernetes.io/service-account.name", MetricsReaderServiceAccountName shard)])
       (newMeta (MetricsReaderTokenSecretName shard) (shardNS shard) (metricsLabels shard));
     sec_Type := "kubernetes.io/service-account-token";
     sec_Data := None;
     sec_StringData := None |}.

(** The Prometheus ServiceAccount: (name, namespace). *)
Definition PrometheusServiceAccount (shard : APIShard) : string * string :=
  match Monitoring (Spec shard) with
  | Some m =>
      (if decide (PrometheusServiceAccountName m = "") then "prometheus-k8s"
       else PrometheusServiceAccountName m,
       if decide (PrometheusNamespace m = "") then "openshift-monitoring"
       else PrometheusNamespace m)
  | None => ("prometheus-k8s", "openshift-monitoring")
  end.

Definition prometheusDiscoveryRoleName (shard : APIShard) : string :=
  shardName shard +:+ "-prometheus-discovery".

Definition BuildPrometheusDiscoveryRole (shard : APIShard) : Role :=
  {| role_TypeMeta := {| APIVersion := rbacAPIVersion; TypeKind := "Role" |};
     role_Meta := newMeta (prometheusDiscoveryRoleName shard) (shardNS shard) (metricsLabels shard);
     role_Rules :=
       [ {| rule_APIGroups := [""]; rule_Resources := ["services"; "endpoints"; "pods"];
            rule_ResourceNames := []; rule_NonResourceURLs := [];
            rule_Verbs := ["get"; "list"; "watch"] |};
         {| rule_APIGroups := ["monitoring.coreos.com"]; rule_Resources := ["servicemonitors"];
            rule_ResourceNames := []; rule_NonResourceURLs := [];
            rule_Verbs := ["get"; "list"; "watch"] |} ] |}.

Definition BuildPrometheusDiscoveryRoleBinding (shard : APIShard) : RoleBinding :=
  let '(saName, saNamespace) := PrometheusServiceAccount shard in
  {| rb_TypeMeta := {| APIVersion := rbacAPIVersion; TypeKind := "RoleBinding" |};
     rb_Meta := newMeta (prometheusDiscoveryRoleName shard) (shardNS shard) (metricsLabels shard);
     rb_RoleRef := {| rr_APIGroup := rbacAPIGroup; rr_Kind := "Role";
                      rr_Name := prometheusDiscoveryRoleName shard |};
     rb_Subjects := [ {| subj_Kind := "ServiceAccount"; subj_Name := saName; subj_Namespace := saNamespace |} ] |}.

Definition BuildPostgreSQLMetricsServiceMonitor (shard : APIShard) : ServiceMonitor :=
  {| sm_TypeMeta := monitorTypeMeta;
     sm_Meta := newMeta (shardName shard +:+ "-postgresql-metrics") (shardNS shard) (metricsLabels shard);
     sm_Selector := monitorSelector NameOTelCollector shard;
     sm_Endpoints :=
       [ {| ep_Port := OTelMetricsPortName; ep_Path := "/metrics"; ep_Scheme := None;
            ep_Interval := metricsScrapeInterval; ep_Authorization := None; ep_TLSConfig := None |} ] |}.
