(* ===== verification/OtelRes.v ===== *)
(** * The OpenTelemetry collector

    src/operator/internal/resources/otel_collector.go: the collector that scrapes
    the storage PostgreSQL, its configuration text and the parsing of the
    connection string it is derived from. *)
From S2P Require Import Prelude GoStd NetUrl KubeTypes APITypes Kube ResCommon KineRes PostgresRes.
From S2P Require Import MetricsRes.

Definition DefaultOTelCollectorImage : string :=
  "registry.access.redhat.com/hi/opentelemetry-collector-contrib:0.155.0".
Definition OTelMetricsPort : Z := 9187.
Definition OTelHealthPort : Z := 13133.
Definition defaultCollectionInterval : string := "30s".
Definition defaultBloatInterval : string := "5m".
Definition otelTLSVolumeName : string := "tls-ca".
Definition otelTLSMountPath : string := "/etc/otel/tls".
Definition otelCACertFile : string := "/etc/otel/tls/ca.crt".

Definition OTelCollectorDeploymentName (shard : APIShard) : string := shardName shard +:+ "-postgresql-metrics".
Definition OTelCollectorServiceName (shard : APIShard) : string := shardName shard +:+ "-postgresql-metrics".
Definition OTelCollectorConfigMapBaseName (shard : APIShard) : string :=
  shardName shard +:+ "-postgresql-metrics-config".

Definition BuildOTelCollectorConfigMap (shard : APIShard) (name content : string) : ConfigMap :=
  {| cm_TypeMeta := {| APIVersion := "v1"; TypeKind := "ConfigMap" |};
     cm_Meta := newMeta name (shardNS shard) (mlit [(LabelOTelConfig, "true")]);
     cm_Data := mlit [("config.yaml", content)] |}.

Record OTelConnectionParams := {
  op_Host : string; op_Port : string; op_User : string; op_Password : string; op_DBName : string;
  op_CACertSecretName : string; op_CACertSecretKey : string }.

Definition otelLabels (shard : APIShard) : gomap := workloadLabels NameOTelCollector ComponentMonitoring shard.

(** ** The configuration text *)
Definition orDefault (v d : string) : string := if decide (v = "") then d else v.

Definition collectionInterval (shard : APIShard) : string :=
  match StorageMonitoring (Storage (Spec shard)) with
  | Some m => orDefault (CollectionInterval m) defaultCollectionInterval
  | None => defaultCollectionInterval
  end.

Definition bloatInterval (shard : APIShard) : string :=
  match StorageMonitoring (Storage (Spec shard)) with
  | Some m => match PostgreSQL m with
              | Some p => orDefault (BloatInterval p) defaultBloatInterval
              | None => defaultBloatInterval
              end
  | None => defaultBloatInterval
  end.

(** The lines of the template up to the sqlquery collection interval. *)
Definition otelReceiverLines (shard : APIShard) (p : OTelConnectionParams) : list string :=
  [ "extensions:";
    "  health_check:";
    "    endpoint: " +:+ dquote +:+ "0.0.0.0:" +:+ itoa OTelHealthPort +:+ dquote;
    "";
    "receivers:";
    "  postgresql:";
    "    endpoint: " +:+ JoinHostPort (op_Host p) (op_Port p);
    "    username: ${env:PG_USERNAME}";
    "    password: ${env:PG_PASSWORD}";
    "    databases: [" +:+ op_DBName p +:+ "]";
    "    collection_interval: " +:+ collectionInterval shard;
    "    tls:";
    "      insecure: false";
    "      ca_file: " +:+ otelCACertFile;
    "";
    "  sqlquery:";
    "    driver: postgres";
    "    datasource: " +:+ dquote +:+ "host='" +:+ op_Host p +:+ "' port='" +:+ op_Port p +:+
      "' user='${env:PG_USERNAME}' password='${env:PG_PASSWORD}' dbname='" +:+ op_DBName p +:+
      "' sslmode=verify-full sslrootcert=" +:+ otelCACertFile +:+ dquote;
    "    collection_interval: " +:+ bloatInterval shard ].

(** The constant lines of the bloat query. *)
Definition otelQueryLines : list string :=
  [ "    queries:";
    "      - sql: |";
    "          CREATE EXTENSION IF NOT EXISTS pgstattuple;";
    "          SET statement_timeout = '60s';";
    "          SELECT";
    "            coalesce(sum(dead_tuple_len + approx_free_space), 0)::bigint AS reclaimable_bytes,";
    "            coalesce(sum(approx_tuple_len), 0)::bigint AS live_bytes,";
    "            coalesce(sum(table_len), 0)::bigint AS total_table_bytes";
    "          FROM (";
    "            SELECT (pgstattuple_approx(oid)).*";
    "            FROM pg_class";
    "            WHERE relkind IN ('r', 't')";
    "              AND relnamespace NOT IN (";
    "                SELECT oid FROM pg_namespace";
    "                WHERE nspname IN ('pg_catalog', 'information_schema')";
    "              )";
    "          ) t";
    "        metrics:";
    "          - metric_name: postgresql.tables_reclaimable_bytes";
    "            value_column: reclaimable_bytes";
    "            data_type: gauge";
    "            value_type: int";
    "            description: " +:+ dquote +:+ "Approximate bytes reclaimable by VACUUM FULL across all user tables (dead tuples + free space)" +:+ dquote;
    "          - metric_name: postgresql.tables_live_bytes";
    "            value_column: live_bytes";
    "            data_type: gauge";
    "            value_type: int";
    "            description: " +:+ dquote +:+ "Approximate bytes used by live tuples across all user tables" +:+ dquote;
    "          - metric_name: postgresql.tables_size_bytes";
    "            value_column: total_table_bytes";
    "            data_type: gauge";
    "            value_type: int";
    "            description: " +:+ dquote +:+ "Total bytes on disk across all user tables (live + dead + free)" +:+ dquote ].

Definition otelExporterLines : list string :=
  [ "";
    "exporters:";
    "  prometheus:";
    "    endpoint: " +:+ dquote +:+ "0.0.0.0:" +:+ itoa OTelMetricsPort +:+ dquote;
    "";
    "service:";
    "  extensions: [health_check]";
    "  pipelines:";
    "    metrics:";
    "      receivers: [postgresql, sqlquery]";
    "      exporters: [prometheus]" ].

Definition otelConfigLines (shard : APIShard) (p : OTelConnectionParams) : list string :=
  otelReceiverLines shard p ++ otelQueryLines ++ otelExporterLines.

Definition unlines (l : list string) : string := foldr (fun x acc => x +:+ LF +:+ acc) "" l.

Definition BuildOTelCollectorConfig (shard : APIShard) (p : OTelConnectionParams) : string :=
  unlines (otelConfigLines shard p).

(** ** The workload *)
Section OTelDeployment.
Context `{ThirdParty}.

Definition otelEnvFromSecret (name secret key : string) : EnvVar :=
  {| env_Name := name; env_Value := EnvFromSecret {| sks_Name := secret; sks_Key := key |} |}.

Definition otelProbe (initial period : Z) : Probe :=
  {| probe_Handler := HTTPGet "/" OTelHealthPort "";
     probe_InitialDelaySeconds := initial; probe_PeriodSeconds := period |}.

Definition BuildOTelCollectorDeployment (shard : APIShard) (credentialSecretName configMapName : string)
    (params : OTelConnectionParams) : Deployment :=
  let certKey := orDefault (op_CACertSecretKey params) "ca.crt" in
  {| d_TypeMeta := {| APIVersion := "apps/v1"; TypeKind := "Deployment" |};
     d_Meta := newMeta (OTelCollectorDeploymentName shard) (shardNS shard) (otelLabels shard);
     d_Spec :=
       {| dep_Replicas := Some 1%Z;
          dep_Strategy := None;
          dep_Selector := {| MatchLabels := otelLabels shard; MatchExpressions := [] |};
          dep_Template :=
            {| tmpl_Labels := otelLabels shard;
               tmpl_Spec :=
                 {| pod_ServiceAccountName := "";
                    pod_TerminationGracePeriodSeconds := None;
                    pod_SecurityContext := RestrictedPodSecurityContext;
                    pod_NodeSelector := None;
                    pod_Tolerations := [];
                    pod_TopologySpreadConstraints := [];
                    pod_Affinity := None;
                    pod_Containers :=
                      [ {| c_Name := NameOTelCollector;
                           c_Image := DefaultOTelCollectorImage;
                           c_Command := [];
                           c_Args := ["--config=/etc/otel/config.yaml"];
                           c_Env := [ otelEnvFromSecret "PG_USERNAME" credentialSecretName "POSTGRES_USER";
                                      otelEnvFromSecret "PG_PASSWORD" credentialSecretName "POSTGRES_PASSWORD" ];
                           c_EnvFrom := [];
                           c_Resources :=
                             {| Requests := Some [("cpu", MustParse "50m"); ("memory", MustParse "128Mi")];
                                Limits := Some [("memory", MustParse "256Mi")] |};
                           c_SecurityContext := Some RestrictedContainerSecurityContext;
                           c_Ports :=
                             [ {| cp_Name := OTelMetricsPortName; cp_ContainerPort := OTelMetricsPort;
                                  cp_Protocol := "TCP" |};
                               {| cp_Name := "health"; cp_ContainerPort := OTelHealthPort;
                                  cp_Protocol := "TCP" |} ];
                           c_VolumeMounts :=
                             [ {| vm_Name := "otel-config"; vm_MountPath := "/etc/otel"; vm_ReadOnly := true |};
                               {| vm_Name := otelTLSVolumeName; vm_MountPath := otelTLSMountPath;
                                  vm_ReadOnly := true |} ];
                           c_ReadinessProbe := Some (otelProbe 5 10);
                           c_LivenessProbe := Some (otelProbe 15 30) |} ];
                    pod_Volumes :=
                      [ {| vol_Name := "otel-config"; vol_Source := ConfigMapVolume configMapName None |};
                        {| vol_Name := otelTLSVolumeName;
                           vol_Source := SecretVolume (op_CACertSecretName params)
                             [ {| kp_Key := certKey; kp_Path := "ca.crt"; kp_Mode := None |} ] |} ] |} |} |};
     d_Status := zeroWorkloadStatus |}.
End OTelDeployment.

Definition BuildOTelCollectorService (shard : APIShard) : Service :=
  {| svc_TypeMeta := {| APIVersion := "v1"; TypeKind := "Service" |};
     svc_Meta := newMeta (OTelCollectorServiceName shard) (shardNS shard) (otelLabels shard);
     svc_Selector := otelLabels shard;
     svc_Ports := [ {| sp_Name := OTelMetricsPortName; sp_Port := OTelMetricsPort;
                       sp_TargetPort := OTelMetricsPort; sp_Protocol := "TCP" |} ];
     svc_TrafficDistribution := None |}.

Definition InClusterPostgreSQLConnectionParams (shard : APIShard) : OTelConnectionParams :=
  {| op_Host := PostgreSQLServiceName shard +:+ "." +:+ shardNS shard +:+ ".svc";
     op_Port := itoa PostgreSQLPort; op_User := NameKine; op_Password := ""; op_DBName := NameKine;
     op_CACertSecretName := ""; op_CACertSecretKey := "" |}.

(** ** Connection strings *)
Definition newlines : string := bytes [10; 13]%Z.

(** The first of host, dbname and user with a newline or carriage return. *)
Definition newlineField (p : OTelConnectionParams) : option string :=
  fst <$> List.find (fun x => ContainsAny x.2 newlines)
    [("host", op_Host p); ("dbname", op_DBName p); ("user", op_User p)].

(** The text of the returned error is prefixed with invalid DSN.  The parameters
    returned with an error are not used by the caller. *)
Definition ParsePostgreSQLDSN (ValidIPv6 : string -> bool) (dsn : string) : result OTelConnectionParams :=
  match url_Parse ValidIPv6 (TrimSpace dsn) with
  | Err e => Err (Wrapf "invalid DSN" e)
  | Ok u =>
      if negb (bool_decide (Scheme u = "postgres")) && negb (bool_decide (Scheme u = "postgresql"))
      then Err (Errorf ("invalid DSN: unsupported scheme " +:+ quote (Scheme u)))
      else
        let params :=
          {| op_Host := Hostname u;
             op_Port := if decide (Port u = "") then "5432" else Port u;
             op_User := match User u with Some (n, _) => n | None => "" end;
             op_Password := match User u with Some (_, Some p) => p | _ => "" end;
             op_DBName := let dbName := TrimPrefix (Path u) "/" in
                          if decide (dbName = "") then "kine" else dbName;
             op_CACertSecretName := ""; op_CACertSecretKey := "" |} in
        if decide (op_Host params = "") then Err (Errorf "invalid DSN: host is empty")
        else if decide (op_User params = "") then Err (Errorf "invalid DSN: user is empty")
        else if negb (all_chars is_digit (op_Port params))
        then Err (Errorf ("invalid DSN: port " +:+ quote (op_Port params) +:+ " contains non-digit characters"))
        else match newlineField params with
             | Some name => Err (Errorf ("invalid DSN: " +:+ name +:+ " contains newline characters"))
             | None => Ok params
             end
  end.
