(* ===== verification/Certs.v ===== *)
(** * cert-manager resources

    src/operator/internal/certs/certmanager.go: the Issuers and Certificates of
    the three certificate chains of a shard (front-proxy CA, Kine CA, PostgreSQL
    CA).  The objects are unstructured, so their spec is JSON. *)
From S2P Require Import Prelude GoStd KubeTypes APITypes ResCommon KineRes PostgresRes SecondaryRes.

(** ** Names *)
Definition IssuerName (shard : APIShard) : string := shardName shard +:+ "-ca-issuer".
Definition KineCAIssuerName (shard : APIShard) : string := shardName shard +:+ "-kine-ca-issuer".
Definition KineCACertificateName (shard : APIShard) : string := shardName shard +:+ "-kine-ca".
Definition KineCASecretName (shard : APIShard) : string := shardName shard +:+ "-kine-ca-keypair".
Definition CACertificateName (shard : APIShard) : string := shardName shard +:+ "-front-proxy-ca".
Definition ServingCertificateName (shard : APIShard) : string := shardName shard +:+ "-serving-cert".
Definition PKISecretName (shard : APIShard) : string := shardName shard +:+ "-pki".
Definition KineServingCertificateName (shard : APIShard) : string := shardName shard +:+ "-kine-serving".
Definition KineServingSecretName (shard : APIShard) : string := shardName shard +:+ "-kine-serving-cert".
Definition PostgreSQLCAIssuerName (shard : APIShard) : string := shardName shard +:+ "-postgresql-ca-issuer".
Definition PostgreSQLCACertificateName (shard : APIShard) : string := shardName shard +:+ "-postgresql-ca".
Definition PostgreSQLCASecretName (shard : APIShard) : string := shardName shard +:+ "-postgresql-ca-keypair".
Definition PostgreSQLServingCertificateName (shard : APIShard) : string :=
  shardName shard +:+ "-postgresql-serving".
Definition PostgreSQLServingSecretName (shard : APIShard) : string :=
  shardName shard +:+ "-postgresql-serving-cert".
Definition EtcdClientCertificateName (shard : APIShard) : string := shardName shard +:+ "-etcd-client".
Definition EtcdClientSecretName (shard : APIShard) : string := shardName shard +:+ "-etcd-client-cert".
Definition AdminClientCertificateName (shard : APIShard) : string := shardName shard +:+ "-admin-client".
Definition AdminClientSecretName (shard : APIShard) : string := shardName shard +:+ "-admin-client-cert".

Definition certLabels (shard : APIShard) : gomap :=
  mlit [(LabelManagedBy, ManagedByValue); (LabelInstance, shardName shard); (LabelComponent, "certificates")].

Definition certManagerGVK (kind : string) : GroupVersionKind :=
  {| gvk_Group := "cert-manager.io"; gvk_Version := "v1"; gvk_Kind := kind |}.

(** An Issuer or Certificate of the shard with the given spec. *)
Definition certResource (shard : APIShard) (kind name : string) (spec : list (string * json)) : Unstructured :=
  {| u_GVK := certManagerGVK kind;
     u_Meta := newMeta name (shardNS shard) (certLabels shard);
     u_Content := [("spec", JMap spec)] |}.

Definition issuerRef (name : string) : json :=
  JMap [("name", JString name); ("kind", JString "Issuer"); ("group", JString "cert-manager.io")].

(** ** The shard-wide chain *)
Definition BuildSelfSignedIssuer (shard : APIShard) : Unstructured :=
  certResource shard "Issuer" (shardName shard +:+ "-selfsigned") [("selfSigned", JMap [])].

Definition BuildCACertificate (shard : APIShard) : Unstructured :=
  certResource shard "Certificate" (CACertificateName shard)
    [ ("isCA", JBool true);
      ("commonName", JString (shardName shard +:+ "-ca"));
      ("secretName", JString (shardName shard +:+ "-ca-keypair"));
      ("duration", JString "87600h");
      ("issuerRef", issuerRef (shardName shard +:+ "-selfsigned")) ].

Definition BuildCAIssuer (shard : APIShard) : Unstructured :=
  certResource shard "Issuer" (IssuerName shard)
    [ ("ca", JMap [("secretName", JString (shardName shard +:+ "-ca-keypair"))]) ].

(** ** The Kine chain *)
Definition BuildKineSelfSignedIssuer (shard : APIShard) : Unstructured :=
  certResource shard "Issuer" (shardName shard +:+ "-kine-selfsigned") [("selfSigned", JMap [])].

Definition BuildKineCACertificate (shard : APIShard) : Unstructured :=
  certResource shard "Certificate" (KineCACertificateName shard)
    [ ("isCA", JBool true);
      ("commonName", JString (shardName shard +:+ "-kine-ca"));
      ("secretName", JString (KineCASecretName shard));
      ("duration", JString "87600h");
      ("issuerRef", issuerRef (shardName shard +:+ "-kine-selfsigned")) ].

Definition BuildKineCAIssuer (shard : APIShard) : Unstructured :=
  certResource shard "Issuer" (KineCAIssuerName shard)
    [ ("ca", JMap [("secretName", JString (KineCASecretName shard))]) ].

(** ** Serving certificates *)
Definition servingDNSNames (shard : APIShard) (svcName : string) : list string :=
  let ns := shardNS shard in
  [ svcName;
    svcName +:+ "." +:+ ns;
    svcName +:+ "." +:+ ns +:+ ".svc";
    svcName +:+ "." +:+ ns +:+ ".svc.cluster.local" ].

Definition buildServingCert (shard : APIShard) (certName secretName svcName issuerName : string) : Unstructured :=
  certResource shard "Certificate" certName
    [ ("secretName", JString secretName);
      ("duration", JString "8760h");
      ("renewBefore", JString "720h");
      ("dnsNames", JList (JString <$> servingDNSNames shard svcName));
      ("issuerRef", issuerRef issuerName) ].

Definition BuildServingCertificate (shard : APIShard) : Unstructured :=
  buildServingCert shard (ServingCertificateName shard) (PKISecretName shard)
    (SecondaryServiceName shard) (IssuerName shard).

Definition BuildKineServingCertificate (shard : APIShard) : Unstructured :=
  buildServingCert shard (KineServingCertificateName shard) (KineServingSecretName shard)
    (KineServiceName shard) (KineCAIssuerName shard).

Definition BuildPostgreSQLServingCertificate (shard : APIShard) : Unstructured :=
  buildServingCert shard (PostgreSQLServingCertificateName shard) (PostgreSQLServingSecretName shard)
    (PostgreSQLServiceName shard) (PostgreSQLCAIssuerName shard).

(** ** The PostgreSQL chain *)
Definition BuildPostgreSQLSelfSignedIssuer (shard : APIShard) : Unstructured :=
  certResource shard "Issuer" (shardName shard +:+ "-postgresql-selfsigned") [("selfSigned", JMap [])].

Definition BuildPostgreSQLCACertificate (shard : APIShard) : Unstructured :=
  certResource shard "Certificate" (PostgreSQLCACertificateName shard)
    [ ("isCA", JBool true);
      ("commonName", JString (shardName shard +:+ "-postgresql-ca"));
      ("secretName", JString (PostgreSQLCASecretName shard));
      ("duration", JString "87600h");
      ("issuerRef", issuerRef (shardName shard +:+ "-postgresql-selfsigned")) ].

Definition BuildPostgreSQLCAIssuer (shard : APIShard) : Unstructured :=
  certResource shard "Issuer" (PostgreSQLCAIssuerName shard)
    [ ("ca", JMap [("secretName", JString (PostgreSQLCASecretName shard))]) ].

(** ** Client certificates *)
Definition BuildEtcdClientCertificate (shard : APIShard) : Unstructured :=
  certResource shard "Certificate" (EtcdClientCertificateName shard)
    [ ("secretName", JString (EtcdClientSecretName shard));
      ("commonName", JString (shardName shard +:+ "-etcd-client"));
      ("duration", JString "8760h");
      ("renewBefore", JString "720h");
      ("usages", JList [JString "client auth"]);
      ("issuerRef", issuerRef (KineCAIssuerName shard)) ].

Definition BuildAdminClientCertificate (shard : APIShard) : Unstructured :=
  certResource shard "Certificate" (AdminClientCertificateName shard)
    [ ("secretName", JString (AdminClientSecretName shard));
      ("commonName", JString "kube-shard-admin");
      ("duration", JString "8760h");
      ("renewBefore", JString "720h");
      ("usages", JList [JString "client auth"]);
      ("subject", JMap [("organizations", JList [JString "system:masters"])]);
      ("issuerRef", issuerRef (IssuerName shard)) ].
