(* ===== verification/Aggregation.v ===== *)
(** * APIService registration

    src/operator/internal/aggregation: apiservice.go (registration of the
    aggregated API groups, removal of groups that are no longer wanted,
    availability) and conflict.go (CRDs of the primary that shadow an aggregated
    group). *)
From S2P Require Import Prelude GoStd KubeTypes APITypes Kube Reference SecondaryRes.

Definition AutoManagedLabelKey : string := "kube-aggregator.kubernetes.io/automanaged".

Definition apiServiceName (version group : string) : string := version +:+ "." +:+ group.

(** The (group, version) pairs the two nested loops over the spec go through. *)
Definition groupVersions (shard : APIShard) : list (string * string) :=
  APIGroups (Spec shard) ≫= fun g => (fun v => (Group g, v)) <$> Versions g.

Definition desiredAPIServiceNames (shard : APIShard) : list string :=
  (fun '(g, v) => apiServiceName v g) <$> groupVersions shard.

(** The APIService literal of the loop body, before its owner reference is set. *)
Definition desiredAPIService (shard : APIShard) (caBundle group version : string) : APIService :=
  {| as_TypeMeta := {| APIVersion := "apiregistration.k8s.io/v1"; TypeKind := "APIService" |};
     as_Meta := newMeta (apiServiceName version group) "" (mlit [(AutoManagedLabelKey, "false")]);
     as_Group := group; as_Version := version;
     as_GroupPriorityMinimum := 1000; as_VersionPriority := 100;
     as_Service := Some (SecondaryServiceName shard, shardNS shard);
     as_CABundle := caBundle;
     as_InsecureSkipTLSVerify := bool_decide (caBundle = "");
     as_Conditions := [] |}.

Definition as_with_meta (m : ObjectMeta) (a : APIService) : APIService :=
  {| as_TypeMeta := as_TypeMeta a; as_Meta := m; as_Group := as_Group a; as_Version := as_Version a;
     as_GroupPriorityMinimum := as_GroupPriorityMinimum a; as_VersionPriority := as_VersionPriority a;
     as_Service := as_Service a; as_CABundle := as_CABundle a;
     as_InsecureSkipTLSVerify := as_InsecureSkipTLSVerify a; as_Conditions := as_Conditions a |}.

Section Registration.
Context {T : ThirdParty}.

(** The APIService with the shard as its controller. *)
Definition ownedAPIService (shard : APIShard) (caBundle : string) (gv : string * string)
  : APIService * option error :=
  let apiSvc := desiredAPIService shard caBundle gv.1 gv.2 in
  let '(m, e) := SetControllerReference shard (as_Meta apiSvc) in (as_with_meta m apiSvc, e).

(** One iteration of the apply loop. *)
Definition applyAPIService (c : client) (shard : APIShard) (caBundle fieldManager : string)
    (gv : string * string) : kprog (option error) :=
  let name := apiServiceName gv.2 gv.1 in
  let '(apiSvc, e) := ownedAPIService shard caBundle gv in
  match e with
  | Some e => Ret (Some (Wrapf ("setting owner reference on APIService " +:+ name) e))
  | None =>
      let* r := patch_apply c KAPIService apiSvc fieldManager in
      Ret (Wrapf ("applying APIService " +:+ name) <$> r.2)
  end.

(** One iteration of the orphan loop. *)
Definition deleteOrphan (c : client) (desired : gset string) (name : string) : kprog (option error) :=
  if decide (name ∈ desired) then Ret None
  else
    let* r := get c KAPIService "" name in
    match r with
    | Err e => if IsNotFound e then Ret None
               else Ret (Some (Wrapf ("getting orphaned APIService " +:+ name) e))
    | Ok existing =>
        let* e := delete_obj c KAPIService existing in
        Ret (Wrapf ("deleting orphaned APIService " +:+ name) <$> e)
    end.

(** The names registered on success. *)
Definition Reconcile (c : client) (shard : APIShard) (caBundle : string)
    (previouslyRegistered : list string) (fieldManager : string) : kprog (result (list string)) :=
  let desired := desiredAPIServiceNames shard in
  check for_each (applyAPIService c shard caBundle fieldManager) (groupVersions shard)
    orelse (fun e => Ret (Err e)) in
  check for_each (deleteOrphan c (list_to_set desired)) previouslyRegistered
    orelse (fun e => Ret (Err e)) in
  Ret (Ok desired).
End Registration.

(** ** Availability *)
Definition ownedBy (uid : string) (a : APIService) : bool :=
  existsb (fun r => bool_decide (owner_UID r = uid)) (meta_OwnerReferences (as_Meta a)).

(** The message for an APIService that is not available. *)
Definition unavailable (svc : APIService) : option string :=
  match List.find (fun c => bool_decide (asc_Type c = "Available")) (as_Conditions svc) with
  | None => Some ("APIService " +:+ meta_Name (as_Meta svc) +:+ " has no Available condition yet")
  | Some c =>
      if decide (asc_Status c = "True") then None
      else Some ("APIService " +:+ meta_Name (as_Meta svc) +:+ " not yet available: " +:+ asc_Message c)
  end.

Fixpoint firstUnavailable (l : list APIService) : option string :=
  match l with
  | [] => None
  | svc :: l => match unavailable svc with Some m => Some m | None => firstUnavailable l end
  end.

(** The pure part of CheckAvailability: (available, message). *)
Definition availability (ownerUID : string) (items : list APIService) : bool * string :=
  match List.filter (ownedBy ownerUID) items with
  | [] => (false, "no APIServices owned by shard")
  | owned => match firstUnavailable owned with Some m => (false, m) | None => (true, "") end
  end.

Definition CheckAvailability (c : client) (ownerUID : string) : kprog (result (bool * string)) :=
  let* r := list_objs c KAPIService ListAll in
  match r with
  | Err e => Ret (Err (Wrapf "list APIServices" e))
  | Ok items => Ret (Ok (availability ownerUID items))
  end.

(** ** CRD conflicts *)
Record ConflictResult := { HasConflict : bool; ConflictingCRDs : list string; ConflictMessage : string }.

Definition crdConflicts (shard : APIShard) (crds : list CustomResourceDefinition) : ConflictResult :=
  let aggregated : gset string := list_to_set (Group <$> APIGroups (Spec shard)) in
  match (fun c => meta_Name (crd_Meta c)) <$> List.filter (fun c => bool_decide (crd_Group c ∈ aggregated)) crds with
  | [] => {| HasConflict := false; ConflictingCRDs := []; ConflictMessage := "" |}
  | l => {| HasConflict := true; ConflictingCRDs := l;
            ConflictMessage := "CRDs on primary conflict with aggregation: " +:+ Join_strings l ", " |}
  end.

Definition DetectCRDConflicts (c : client) (shard : APIShard) : kprog (result ConflictResult) :=
  let* r := list_objs c KCRD ListAll in
  match r with
  | Err e => Ret (Err (Wrapf "listing CRDs" e))
  | Ok crds => Ret (Ok (crdConflicts shard crds))
  end.

(** ** Registration: what a pass does *)
Section RegistrationSpec.
Context {T : ThirdParty}.

(** A successful server-side apply of the APIService of a group and version. *)
Definition applied (c : client) (shard : APIShard) (ca fm : string) (gv : string * string) (t : list kevent) : Prop :=
  (ownedAPIService shard ca gv).2 = None /\
  exists o, t = [Ev (PatchApply c KAPIService (ownedAPIService shard ca gv).1 fm true) (o, None)].

(** An orphan is gone: the API server does not know it, or has deleted it. *)
Definition removed (c : client) (name : string) (t : list kevent) : Prop :=
  (exists e, IsNotFound e = true /\ t = [Ev (Get c KAPIService {| nn_Namespace := ""; nn_Name := name |}) (Err e)]) \/
  (exists o, t = [Ev (Get c KAPIService {| nn_Namespace := ""; nn_Name := name |}) (Ok o);
                  Ev (Delete c KAPIService o) None]).

Lemma run_applyAPIService c shard ca fm gv t :
  run (applyAPIService c shard ca fm gv) t None <-> applied c shard ca fm gv t.
Proof.
  unfold applyAPIService, applied.
  destruct (ownedAPIService shard ca gv) as [a [e|]] eqn:E; simpl; [naive_solver|].
  split.
  - intros ([o [e|]]&tr'&->&->&H); [done|]. eauto.
  - intros (_&o&->). by eexists (o, None), [].
Qed.

Lemma run_deleteOrphan c (desired : gset string) name t :
  run (deleteOrphan c desired name) t None <->
  (name ∈ desired /\ t = []) \/ (name ∉ desired /\ removed c name t).
Proof.
  unfold deleteOrphan, removed. case_decide as D; simpl; [naive_solver|].
  split.
  - intros ([o|e]&tr'&->&H); simpl in H.
    + destruct H as ([e|]&tr2&->&->&[=]). right. eauto.
    + destruct (IsNotFound e) eqn:E; simpl in H; destruct H as [-> [=]]. right. eauto 10.
  - intros [[? _]|[_ [(e&He&->)|(o&->)]]]; [done| |].
    + eexists (Err e), []. rewrite He. done.
    + eexists (Ok o), _. split; [done|]. by eexists None, [].
Qed.

(** Exactly what a successful pass performs. *)
Lemma run_Reconcile_ok c shard ca prev fm tr reg :
  run (Reconcile c shard ca prev fm) tr (Ok reg) <->
  reg = desiredAPIServiceNames shard /\
  exists ts us, tr = concat ts ++ concat us /\
    Forall2 (applied c shard ca fm) (groupVersions shard) ts /\
    Forall2 (fun n u => (n ∈ desiredAPIServiceNames shard /\ u = []) \/
                        (n ∉ desiredAPIServiceNames shard /\ removed c n u)) prev us.
Proof.
  unfold Reconcile. split.
  - intros H. run_inv. split; [done|].
    match goal with H1 : run (for_each (applyAPIService _ _ _ _) _) _ _,
                    H2 : run (for_each (deleteOrphan _ _) _) _ _ |- _ =>
      apply run_for_each_ok in H1 as (ts&->&H1); apply run_for_each_ok in H2 as (us&->&H2) end.
    exists ts, us. rewrite app_nil_r. split; [done|]. split.
    + eapply Forall2_impl; [done|]. intros. by apply run_applyAPIService.
    + eapply Forall2_impl; [done|]. intros n u Hu.
      apply run_deleteOrphan in Hu. by rewrite elem_of_list_to_set in Hu.
  - intros (->&ts&us&->&H1&H2).
    apply run_bind. exists (concat ts), (concat us), None. split; [done|]. split.
    { apply run_for_each_ok. exists ts. split; [done|]. eapply Forall2_impl; [done|].
      intros. by apply run_applyAPIService. }
    apply run_bind. exists (concat us), [], None. split; [by rewrite app_nil_r|]. split; [|done].
    apply run_for_each_ok. exists us. split; [done|]. eapply Forall2_impl; [done|].
    intros n u Hu. apply run_deleteOrphan. by rewrite elem_of_list_to_set.
Qed.

(** The monitor of deletions: the ghost state is the last response of a Get,
    with the name asked for. *)
Definition lastGet (s : option (string * APIService)) (c : call) : resp c -> option (string * APIService) :=
  match c return resp c -> _ with
  | Get _ KAPIService key => fun r => match r with Ok o => Some (nn_Name key, o) | Err _ => None end
  | _ => fun _ => None
  end.

Definition deletesOnlyStale (prev desired : list string) (s : option (string * APIService)) (c : call) : Prop :=
  match c with
  | Delete _ KAPIService o => exists n, s = Some (n, o) /\ n ∈ prev /\ n ∉ desired
  | Delete _ _ _ => False
  | _ => True
  end.

Lemma wp_Reconcile c shard ca prev fm s :
  wp any_env lastGet (deletesOnlyStale prev (desiredAPIServiceNames shard)) (Reconcile c shard ca prev fm) s (fun _ _ => True).
Proof.
  unfold Reconcile. eapply wp_seq.
  { apply (wp_for_each _ _ _ _ (fun _ _ => True) (fun _ _ => True)); [done|]. intros gv l s' _.
    unfold applyAPIService. destruct (ownedAPIService shard ca gv) as [a [e|]]; simpl; [done|].
    split; [done|]. intros [o [e|]] _; done. }
  intros [e|] s' _; [done|]. eapply wp_seq.
  { apply (wp_for_each _ _ _ _ (fun l _ => l ⊆ prev) (fun _ _ => True)); [done|]. intros n l s'' Hl.
    assert (l ⊆ prev) by set_solver. assert (n ∈ prev) by set_solver.
    unfold deleteOrphan. case_decide as D; simpl; [done|]. split; [done|].
    rewrite elem_of_list_to_set in D.
    intros [o|e] _; simpl; [|by destruct (IsNotFound e)].
    split; [eauto|]. intros [e|] _; done. }
  by intros [e|] ??.
Qed.
End RegistrationSpec.

(** ** Availability and conflicts: what they decide *)
Lemma firstUnavailable_None l : firstUnavailable l = None <-> Forall (fun a => unavailable a = None) l.
Proof.
  induction l as [|a l IH]; simpl; [done|]. rewrite Forall_cons.
  destruct (unavailable a); naive_solver.
Qed.

Lemma ownedBy_spec uid a :
  ownedBy uid a = true <-> exists r, r ∈ meta_OwnerReferences (as_Meta a) /\ owner_UID r = uid.
Proof.
  unfold ownedBy. rewrite existsb_exists. setoid_rewrite bool_decide_eq_true.
  by setoid_rewrite list_elem_of_In.
Qed.

(** The Available condition the code looks at is the first of its type. *)
Definition isAvailable (a : APIService) : Prop :=
  exists l1 c l2, as_Conditions a = l1 ++ c :: l2 /\ asc_Type c = "Available" /\ asc_Status c = "True" /\
                  Forall (fun d => asc_Type d <> "Available") l1.

Lemma unavailable_None a : unavailable a = None <-> isAvailable a.
Proof.
  unfold unavailable, isAvailable. induction (as_Conditions a) as [|d cs IH]; simpl.
  - split; [done|]. intros (l1&c&l2&H&_). by destruct l1.
  - case_bool_decide as D.
    + case_decide as E; [|split; [done|]].
      * split; [|done]. intros _. by exists [], d, cs.
      * intros (l1&c&l2&H&?&?&Hl). destruct l1 as [|x l1]; simplify_eq/=.
        by apply Forall_cons in Hl as [? _].
    + rewrite IH. split.
      * intros (l1&c&l2&->&?&?&?). exists (d :: l1), c, l2. repeat split; try done. by constructor.
      * intros (l1&c&l2&H&?&?&Hl). destruct l1 as [|x l1]; simplify_eq/=.
        apply Forall_cons in Hl as [??]. by exists l1, c, l2.
Qed.

Lemma availability_true uid items :
  (availability uid items).1 = true <->
  (exists a, a ∈ items /\ ownedBy uid a = true) /\
  (forall a, a ∈ items -> ownedBy uid a = true -> isAvailable a).
Proof.
  unfold availability.
  assert (Hin : forall a, a ∈ List.filter (ownedBy uid) items <-> a ∈ items /\ ownedBy uid a = true).
  { intros a. rewrite !list_elem_of_In. apply filter_In. }
  destruct (List.filter (ownedBy uid) items) as [|x l] eqn:E.
  - split; [done|]. intros [(a&Ha) _]. apply Hin in Ha. by apply elem_of_nil in Ha.
  - destruct (firstUnavailable (x :: l)) eqn:F.
    + split; [done|]. intros [_ H].
      assert (firstUnavailable (x :: l) = None) as F'; [|congruence].
      apply firstUnavailable_None, Forall_forall. intros a Ha.
      apply unavailable_None. apply Hin in Ha. naive_solver.
    + apply firstUnavailable_None in F. split; [|done]. intros _. split.
      * exists x. apply Hin. set_solver.
      * intros a Ha Ho. apply unavailable_None. rewrite Forall_forall in F. apply F, Hin. auto.
Qed.

Lemma crdConflicts_elem shard crds n :
  n ∈ ConflictingCRDs (crdConflicts shard crds) <->
  exists crd, crd ∈ crds /\ meta_Name (crd_Meta crd) = n /\
              exists g, g ∈ APIGroups (Spec shard) /\ Group g = crd_Group crd.
Proof.
  unfold crdConflicts.
  set (l := _ <$> _).
  assert (Hl : n ∈ l <-> exists crd, crd ∈ crds /\ meta_Name (crd_Meta crd) = n /\
              exists g, g ∈ APIGroups (Spec shard) /\ Group g = crd_Group crd).
  { unfold l. rewrite list_elem_of_fmap. split.
    - intros (c&->&Hc). rewrite list_elem_of_In, filter_In, <- list_elem_of_In in Hc.
      destruct Hc as [Hc Hg]. apply bool_decide_eq_true in Hg.
      rewrite elem_of_list_to_set, list_elem_of_fmap in Hg. naive_solver.
    - intros (c&Hc&<-&g&Hg&Hgc). exists c. split; [done|].
      rewrite list_elem_of_In, filter_In, <- list_elem_of_In. split; [done|].
      apply bool_decide_eq_true. rewrite elem_of_list_to_set, list_elem_of_fmap. naive_solver. }
  by destruct l.
Qed.

Lemma crdConflicts_flag shard crds :
  HasConflict (crdConflicts shard crds) = true <-> ConflictingCRDs (crdConflicts shard crds) <> [].
Proof. unfold crdConflicts. by destruct (_ <$> _). Qed.

(** ** Theorems *)
Section Theorems.
Context {T : ThirdParty}.

(** C17: in every run of a registration pass, failed ones included, the only
    objects deleted are APIServices just read under a name that this shard had
    registered before and no longer wants; an APIService that an outsider labels
    or adds is never deleted. *)
Theorem registration_deletes_only_stale c shard ca prev fm tr res :
  run (Reconcile c shard ca prev fm) tr res ->
  allowed lastGet (deletesOnlyStale prev (desiredAPIServiceNames shard)) None tr.
Proof.
  intros H. by apply (wp_sound _ _ _ _ _ _ _ _ (wp_Reconcile c shard ca prev fm None) (relied_any _)) in H as [? _].
Qed.

(** The availability check lists all APIServices once and answers true
    exactly when at least one of them is owned by the shard and every owned one
    has a first Available condition with status True. *)
Theorem availability_exact c uid tr res :
  run (CheckAvailability c uid) tr res <->
  exists answer, tr = [Ev (ListObjs c KAPIService ListAll) answer] /\
    match answer with
    | Err e => res = Err (Wrapf "list APIServices" e)
    | Ok items =>
        exists b msg, res = Ok (b, msg) /\ (b, msg) = availability uid items /\
          (b = true <->
           (exists a, a ∈ items /\ ownedBy uid a = true) /\
           (forall a, a ∈ items -> ownedBy uid a = true -> isAvailable a))
    end.
Proof.
  unfold CheckAvailability. cbn. split.
  - intros (answer&tr'&->&H). exists answer. destruct answer as [items|e]; destruct H as [-> ->]; [|done].
    split; [done|]. destruct (availability uid items) as [b msg] eqn:E. exists b, msg.
    split; [done|]. split; [done|]. rewrite <- availability_true, E. done.
  - intros (answer&->&H). exists answer, []. split; [done|].
    destruct answer as [items|e]; [|by subst]. destruct H as (b&msg&->&->&_). done.
Qed.

(** Conflict detection reports a conflict exactly when some CRD of the
    primary belongs to an API group of the shard, and names exactly those CRDs. *)
Theorem conflicts_exact shard crds :
  (HasConflict (crdConflicts shard crds) = true <->
   exists crd g, crd ∈ crds /\ g ∈ APIGroups (Spec shard) /\ Group g = crd_Group crd) /\
  (forall n, n ∈ ConflictingCRDs (crdConflicts shard crds) <->
   exists crd, crd ∈ crds /\ meta_Name (crd_Meta crd) = n /\
               exists g, g ∈ APIGroups (Spec shard) /\ Group g = crd_Group crd).
Proof.
  split; [|intros n; apply crdConflicts_elem]. rewrite crdConflicts_flag. split.
  - intros Hne. destruct (ConflictingCRDs (crdConflicts shard crds)) as [|n l] eqn:E; [done|].
    assert (n ∈ ConflictingCRDs (crdConflicts shard crds)) as Hn by (rewrite E; left).
    apply crdConflicts_elem in Hn as (crd&?&_&g&?&?). eauto.
  - intros (crd&g&Hc&Hg&Hgc) Hnil.
    assert (meta_Name (crd_Meta crd) ∈ ConflictingCRDs (crdConflicts shard crds)) as Hn
      by (apply crdConflicts_elem; eauto 10).
    rewrite Hnil in Hn. by apply elem_of_nil in Hn.
Qed.
End Theorems.

(** ** Witnesses *)
Definition registrationRun :=
  ref_exec (Reconcile PrimaryC (demoShard sqliteStorage) "CA" ["v1.old.dev"; "v1.tekton.dev"] "fm")
    {| w_primary := [existT KAPIService (demoAPIService "v1.old.dev")]; w_secondary := []; w_clock := 0 |}.

Lemma registration_deletes_only_stale_witness :
  result_of registrationRun = Ok ["v1.tekton.dev"; "v1beta1.tekton.dev"] /\
  performs (fun c => match c with Delete _ KAPIService _ => true | _ => false end) (trace_of registrationRun) = true /\
  allowed lastGet (deletesOnlyStale ["v1.old.dev"; "v1.tekton.dev"] ["v1.tekton.dev"; "v1beta1.tekton.dev"]) None
    (trace_of registrationRun).
Proof.
  split; [vm_compute; reflexivity|]. split; [vm_compute; reflexivity|].
  exact (registration_deletes_only_stale PrimaryC (demoShard sqliteStorage) "CA" ["v1.old.dev"; "v1.tekton.dev"] "fm"
           _ _ (exec_run ref_handler _ _)).
Defined.
