(* ===== verification/Registration.v ===== *)
(** * The APIServices of the primary after a registration

    The APIServices that an API server holds, by name, followed through the calls of a
    registration (Aggregation): what a registration that succeeds leaves there, of the
    groups and versions of the shard, of what was registered before, and of the rest. *)
From S2P Require Import Prelude GoStd KubeTypes APITypes Kube Reference SecondaryRes Aggregation.

Abbreviation services := (gmap string APIService).
Definition svcName (a : APIService) : string := meta_Name (as_Meta a).

(** ** The store *)
Section Store.
Variable c : client.

(** The effect of a call on APIServices that succeeded. *)
Definition svcStep (m : services) (x : call) : resp x -> services :=
  match x return resp x -> services with
  | PatchApply c' k o _ _ =>
      match k return obj k -> obj k * option error -> services with
      | KAPIService => fun o res => if decide (c' = c /\ res.2 = None) then <[svcName o := o]> m else m
      | _ => fun _ _ => m
      end o
  | Delete c' k o =>
      match k return obj k -> option error -> services with
      | KAPIService => fun o res => if decide (c' = c /\ res = None) then delete (svcName o) m else m
      | _ => fun _ _ => m
      end o
  | _ => fun _ => m
  end.

(** What is read is what the API server holds. *)
Definition truthfulGet (m : services) (x : call) : resp x -> Prop :=
  match x return resp x -> Prop with
  | Get c' k key =>
      match k return result (obj k) -> Prop with
      | KAPIService => fun res =>
          c' = c -> match res with
                    | Ok o => svcName o = nn_Name key
                    | Err e => IsNotFound e = true -> m !! nn_Name key = None
                    end
      | _ => fun _ => True
      end
  | _ => fun _ => True
  end.

Fixpoint truthfulReads (m : services) (tr : list kevent) : Prop :=
  match tr with
  | [] => True
  | e :: tr => truthfulGet m (ev_call e) (ev_resp e) /\ truthfulReads (svcStep m (ev_call e) (ev_resp e)) tr
  end.

#[export] Instance truthfulGet_dec m x res : Decision (truthfulGet m x res).
Proof.
  destruct x as [c' k key| | | | | | | | | | | | | | |]; try exact True_dec. destruct k; try exact True_dec.
  cbn. apply impl_dec; [apply _|]. destruct res; apply _.
Defined.

#[export] Instance truthfulReads_dec m tr : Decision (truthfulReads m tr).
Proof.
  revert m. induction tr as [|e tr IH]; intros m; cbn; [apply _|]. apply and_dec; [apply _|apply IH].
Defined.

Local Abbreviation after := (ghost svcStep).

Lemma truthfulReads_app m t1 t2 : truthfulReads m (t1 ++ t2) <-> truthfulReads m t1 /\ truthfulReads (after m t1) t2.
Proof. revert m. induction t1 as [|e t1 IH]; intros m; cbn; [tauto|]. rewrite IH. tauto. Qed.

(** ** What a registration leaves *)
Context {T : ThirdParty} {L : ThirdPartyLaws T}.
Variable shard : APIShard.
Variable ca fm : string.

(** A group and version that the shard serves. *)
Definition wanted (g v : string) : Prop :=
  exists ag, ag ∈ APIGroups (Spec shard) /\ Group ag = g /\ v ∈ Versions ag.

(** An APIService that sends a group and version to the shard's secondary: to its
    service, verified with the CA bundle, or not verified if there is none; owned by the
    shard, and marked as not to be touched by the aggregator's own registration. *)
Definition routed (g v : string) (a : APIService) : Prop :=
  as_Group a = g /\ as_Version a = v /\
  as_Service a = Some (shardName shard +:+ "-apiserver", TargetNamespace (Spec shard)) /\
  as_CABundle a = ca /\ (as_InsecureSkipTLSVerify a = true <-> ca = "") /\
  mget (meta_Labels (as_Meta a)) "kube-aggregator.kubernetes.io/automanaged" = "false" /\
  exists r, r ∈ meta_OwnerReferences (as_Meta a) /\ owner_UID r = meta_UID (shard_Meta shard).

Lemma groupVersions_wanted gv : gv ∈ groupVersions shard <-> wanted gv.1 gv.2.
Proof.
  unfold groupVersions, wanted. rewrite list_elem_of_bind. setoid_rewrite list_elem_of_fmap.
  destruct gv as [g v]. naive_solver.
Qed.

Lemma desired_wanted n :
  n ∈ desiredAPIServiceNames shard <-> exists g v, wanted g v /\ n = v +:+ "." +:+ g.
Proof.
  unfold desiredAPIServiceNames, apiServiceName. rewrite list_elem_of_fmap. split.
  - intros ([g v]&->&H). apply groupVersions_wanted in H. eauto.
  - intros (g&v&H&->). exists (g, v). split; [done|]. by apply groupVersions_wanted.
Qed.

Lemma applied_routed gv t m :
  applied c shard ca fm gv t ->
  exists a, after m t = <[gv.2 +:+ "." +:+ gv.1 := a]> m /\ routed gv.1 gv.2 a.
Proof.
  unfold applied, ownedAPIService. destruct (SetControllerReference _ _) as [meta e] eqn:E. cbn.
  intros (->&o&->). eexists. cbn. rewrite decide_True by done. unfold svcName. cbn.
  rewrite (set_controller_name _ _ _ E). cbn. split; [done|].
  split; [done|]. split; [done|]. split; [done|]. split; [done|]. split; [apply bool_decide_eq_true|].
  cbn. rewrite (set_controller_labels _ _ _ E). split; [done|]. exact (set_controller_owner _ _ _ E).
Qed.

Lemma after_applied gvs ts : forall m,
  Forall2 (applied c shard ca fm) gvs ts -> forall n,
  (exists gv a, gv ∈ gvs /\ n = gv.2 +:+ "." +:+ gv.1 /\ after m (concat ts) !! n = Some a /\ routed gv.1 gv.2 a) \/
  n ∉ (fun gv : string * string => gv.2 +:+ "." +:+ gv.1) <$> gvs /\ after m (concat ts) !! n = m !! n.
Proof.
  intros m HF. revert m. induction HF as [|gv t gvs ts H HF IH]; intros m n; cbn.
  { right. split; [by apply not_elem_of_nil|done]. }
  rewrite ghost_app. destruct (applied_routed gv t m H) as (a&->&Ha).
  destruct (IH (<[gv.2 +:+ "." +:+ gv.1:=a]> m) n) as [(gv'&a'&?&?&?&?)|[Hn Hm]].
  { left. exists gv', a'. split; [by right|done]. }
  destruct (decide (n = gv.2 +:+ "." +:+ gv.1)) as [->|Hne].
  - left. exists gv, a. rewrite Hm, lookup_insert_eq. split; [left|done].
  - right. rewrite Hm, lookup_insert_ne by done. split; [|done]. by rewrite not_elem_of_cons.
Qed.

Lemma after_removed (desired prev : list string) us : forall m,
  truthfulReads m (concat us) ->
  Forall2 (fun n u => (n ∈ desired /\ u = []) \/ (n ∉ desired /\ removed c n u)) prev us -> forall n,
  after m (concat us) !! n = if decide (n ∈ prev /\ n ∉ desired) then None else m !! n.
Proof.
  intros m Ht HF. revert m Ht. induction HF as [|x u prev us H HF IH]; intros m Ht n.
  { cbn. rewrite decide_False; [done|]. intros [?%elem_of_nil _]. done. }
  cbn [concat] in *. apply truthfulReads_app in Ht as [Ht1 Ht2]. rewrite ghost_app, (IH _ Ht2).
  assert (Hx : after m u !! n = if decide (n = x /\ n ∉ desired) then None else m !! n).
  { destruct H as [[Hd ->]|[Hd [(e&He&->)|(o&->)]]]; cbn in *.
    - rewrite decide_False; [done|]. by intros [-> ?].
    - case_decide as Hn; [|done]. destruct Hn as [-> _]. destruct Ht1 as [Hg _]. by apply Hg.
    - rewrite (decide_True (P := c = c /\ _)) by done. destruct Ht1 as [Hg _]. rewrite (Hg eq_refl).
      destruct (decide (n = x)) as [->|]; [by rewrite lookup_delete_eq, decide_True|].
      rewrite lookup_delete_ne, decide_False by (done || by intros []). done. }
  rewrite Hx. repeat case_decide; try done; rewrite elem_of_cons in *; tauto.
Qed.

(** C16: what a registration that succeeds leaves on the primary, whatever it held
    before and provided the reads of the pass are truthful: each group and version of
    the shard is registered under its name, and what is registered there is routed to
    the shard's secondary service, verified with the given CA bundle unless there is
    none, owned by the shard and kept from the aggregator's automatic registration;
    every name registered before that is not among these is gone; every other
    APIService is as it was.  The names reported are exactly those of the groups and
    versions of the shard. *)
Theorem registration_exact prev tr reg m :
  run (Reconcile c shard ca prev fm) tr (Ok reg) -> truthfulReads m tr ->
  (forall n, n ∈ reg <-> exists g v, wanted g v /\ n = v +:+ "." +:+ g) /\
  forall n, let here := ghost svcStep m tr !! n in
    (n ∈ reg -> exists g v a, wanted g v /\ n = v +:+ "." +:+ g /\ here = Some a /\ routed g v a) /\
    (n ∉ reg -> n ∈ prev -> here = None) /\
    (n ∉ reg -> n ∉ prev -> here = m !! n).
Proof.
  intros (->&ts&us&->&H1&H2)%run_Reconcile_ok Ht. split; [apply desired_wanted|]. intros n. cbv zeta.
  apply truthfulReads_app in Ht as [_ Ht]. rewrite ghost_app, (after_removed _ _ _ _ Ht H2).
  assert (Hn : n ∈ (fun gv : string * string => gv.2 +:+ "." +:+ gv.1) <$> groupVersions shard <->
            n ∈ desiredAPIServiceNames shard).
  { unfold desiredAPIServiceNames, apiServiceName. rewrite !list_elem_of_fmap.
    split; intros ([g v]&->&H); by exists (g, v). }
  destruct (after_applied _ _ m H1 n) as [(gv&a&Hg&En&Ha&Hr)|[Hnot Hsame]].
  - assert (n ∈ desiredAPIServiceNames shard) as Hd by (apply Hn, list_elem_of_fmap; by exists gv).
    split; [|split; by intros]. intros _. rewrite decide_False by tauto.
    exists gv.1, gv.2, a. by apply groupVersions_wanted in Hg.
  - rewrite Hn in Hnot. split; [done|]. split; intros _ Hp; [by rewrite decide_True|].
    by rewrite decide_False by tauto.
Qed.
End Store.

(** ** A registration that replaces an old group *)
Definition oldServices : services :=
  {["v1.old.dev" := demoAPIService "v1.old.dev"; "v1.apps" := demoAPIService "v1.apps"]}.

Lemma registration_exact_witness :
  result_of registrationRun = Ok ["v1.tekton.dev"; "v1beta1.tekton.dev"] /\
  ghost (svcStep PrimaryC) oldServices (trace_of registrationRun) !! "v1.old.dev" = None /\
  ghost (svcStep PrimaryC) oldServices (trace_of registrationRun) !! "v1.apps" = Some (demoAPIService "v1.apps").
Proof.
  split; [vm_compute; reflexivity|].
  destruct (registration_exact PrimaryC (demoShard sqliteStorage) "CA" "fm" ["v1.old.dev"; "v1.tekton.dev"]
    (trace_of registrationRun) ["v1.tekton.dev"; "v1beta1.tekton.dev"] oldServices) as [_ H].
  - exact (exec_run ref_handler _ _).
  - apply (bool_decide_unpack _). vm_compute. exact I.
  - split.
    + destruct (H "v1.old.dev") as (_&H2&_). apply H2; [|left].
      intros Hin. apply list_elem_of_In in Hin. cbn in Hin. by destruct Hin as [?|[?|?]].
    + destruct (H "v1.apps") as (_&_&H3). rewrite H3; [vm_compute; reflexivity| |];
        intros Hin; apply list_elem_of_In in Hin; cbn in Hin; by destruct Hin as [?|[?|?]].
Defined.
