(* ===== verification/ClientProvider.v ===== *)
(** * Clients of secondary API servers

    src/operator/internal/secondary/client.go: the cache of clients keyed by
    consumer, the credentials a client is built from, and the fingerprint that
    detects rotated credentials.  The provider's map is passed explicitly; the
    read-locked lookup and the write-locked creation are separate definitions, so
    that their interleaving by several goroutines is a step relation. *)
From S2P Require Import Prelude GoStd KubeTypes APITypes Kube Reference.

Record ClientConfig := {
  cfg_Host : string; cfg_CACert : string; cfg_Token : string;
  cfg_ClientCert : string; cfg_ClientKey : string }.

Record clientEntry := {
  ce_client : client; ce_host : string; ce_fingerprint : string; ce_createdAt : Z; ce_pinned : bool }.

Abbreviation clients := (gmap string clientEntry).

Definition NewClientProvider : clients := ∅.

Definition Invalidate (p : clients) (shardName : string) : clients := delete shardName p.

(** InjectClientForTest *)
Definition InjectClient (p : clients) (shardName : string) (c : client) (now : Z) : clients :=
  <[shardName := {| ce_client := c; ce_host := ""; ce_fingerprint := ""; ce_createdAt := now;
                    ce_pinned := true |}]> p.

Definition buildRESTConfig (cfg : ClientConfig) : RESTConfig :=
  let ca := cfg_CACert cfg in
  let tok := cfg_Token cfg in
  let useCert := bool_decide (tok = "") && negb (bool_decide (cfg_ClientCert cfg = "")) &&
                 negb (bool_decide (cfg_ClientKey cfg = "")) in
  {| rc_Host := cfg_Host cfg;
     rc_CAData := ca;
     rc_Insecure := bool_decide (ca = "");
     rc_BearerToken := tok;
     rc_CertData := if useCert then cfg_ClientCert cfg else "";
     rc_KeyData := if useCert then cfg_ClientKey cfg else "" |}.

Definition NUL : string := String "000"%char "".

(** The bytes written into the hash. *)
Definition fingerprintInput (cfg : ClientConfig) : string :=
  cfg_CACert cfg +:+ NUL +:+ cfg_ClientCert cfg +:+ NUL +:+ cfg_ClientKey cfg +:+ NUL +:+ cfg_Token cfg.

Section Provider.
(** crypto/sha256 *)
Variable sha256 : string -> string.

Definition fingerprint (cfg : ClientConfig) : string := hex_EncodeToString (sha256 (fingerprintInput cfg)).

(** [entry.pinned || (entry.host == cfg.Host && entry.fingerprint == fp)] *)
Definition entryMatches (cfg : ClientConfig) (e : clientEntry) : bool :=
  ce_pinned e || (bool_decide (ce_host e = cfg_Host cfg) && bool_decide (ce_fingerprint e = fingerprint cfg)).

Definition cachedClient (p : clients) (key : string) (cfg : ClientConfig) : option client :=
  match p !! key with
  | Some e => if entryMatches cfg e then Some (ce_client e) else None
  | None => None
  end.

Definition newEntry (cfg : ClientConfig) (c : client) (now : Z) : clientEntry :=
  {| ce_client := c; ce_host := cfg_Host cfg; ce_fingerprint := fingerprint cfg;
     ce_createdAt := now; ce_pinned := false |}.

(** The part of GetOrCreate that runs under the write lock. *)
Definition createLocked (p : clients) (key : string) (cfg : ClientConfig)
  : kprog (result client * clients) :=
  match cachedClient p key cfg with
  | Some c => Ret (Ok c, p)
  | None =>
      let restCfg := buildRESTConfig cfg in
      let* e := perform (NewClient restCfg) in
      match e with
      | Some e => Ret (Err (Wrapf ("creating client for shard " +:+ key) e), p)
      | None =>
          let* now := perform Now in
          Ret (Ok (RemoteC restCfg), <[key := newEntry cfg (RemoteC restCfg) now]> p)
      end
  end.

Definition GetOrCreate (p : clients) (key : string) (cfg : ClientConfig)
  : kprog (result client * clients) :=
  match cachedClient p key cfg with
  | Some c => Ret (Ok c, p)
  | None => createLocked p key cfg
  end.

(** The configuration for a connection, from the contents of its two secrets. *)
Definition caFromSecret (caSecret : Secret) : string :=
  if decide (mget (sec_Data caSecret) "ca.crt" = "") then mget (sec_Data caSecret) "tls.crt"
  else mget (sec_Data caSecret) "ca.crt".

Definition secondaryHost (conn : SecondaryConnectionSpec) : string :=
  let ref := ServiceRef_ conn in
  let port := if decide (ref_Port ref = 0)%Z then 443%Z else ref_Port ref in
  "https://" +:+ ref_Name ref +:+ "." +:+ ref_Namespace ref +:+ ".svc:" +:+ itoa port.

Definition authConfig (conn : SecondaryConnectionSpec) (caCert : string) (authSecret : Secret)
  : result ClientConfig :=
  let d := mget (sec_Data authSecret) in
  if negb (bool_decide (d "tls.crt" = "")) && negb (bool_decide (d "tls.key" = ""))
  then Ok {| cfg_Host := secondaryHost conn; cfg_CACert := caCert; cfg_Token := "";
             cfg_ClientCert := d "tls.crt"; cfg_ClientKey := d "tls.key" |}
  else if negb (bool_decide (d "token" = ""))
  then Ok {| cfg_Host := secondaryHost conn; cfg_CACert := caCert; cfg_Token := d "token";
             cfg_ClientCert := ""; cfg_ClientKey := "" |}
  else Err (Errorf ("auth secret " +:+ AuthSecretRef conn +:+
                    " has no client cert (tls.crt/tls.key) or bearer token")).

Definition BuildClient (p : clients) (reader : client) (conn : SecondaryConnectionSpec)
    (namespace cacheKey : string) : kprog (result client * clients) :=
  let* r := get reader KSecret namespace (CASecretRef conn) in
  match r with
  | Err e => Ret (Err (Wrapf ("reading CA secret " +:+ CASecretRef conn) e), p)
  | Ok caSecret =>
      if decide (caFromSecret caSecret = "")
      then Ret (Err (Errorf ("CA secret " +:+ CASecretRef conn +:+ " has no ca.crt or tls.crt key")), p)
      else
        let* r := get reader KSecret namespace (AuthSecretRef conn) in
        match r with
        | Err e => Ret (Err (Wrapf ("reading auth secret " +:+ AuthSecretRef conn) e), p)
        | Ok authSecret =>
            match authConfig conn (caFromSecret caSecret) authSecret with
            | Err e => Ret (Err e, p)
            | Ok cfg => GetOrCreate p cacheKey cfg
            end
        end
  end.

(** ** The cache invariant *)
Definition cacheWf (p : clients) : Prop :=
  map_Forall (fun _ e => ce_pinned e = false ->
    exists cfg, ce_client e = RemoteC (buildRESTConfig cfg) /\
                ce_host e = cfg_Host cfg /\ ce_fingerprint e = fingerprint cfg) p.

Lemma cacheWf_insert p key cfg now :
  cacheWf p -> cacheWf (<[key := newEntry cfg (RemoteC (buildRESTConfig cfg)) now]> p).
Proof. intros H. apply map_Forall_insert_2; [|done]. intros _. by exists cfg. Qed.

Lemma cacheWf_delete p key : cacheWf p -> cacheWf (Invalidate p key).
Proof. apply map_Forall_delete. Qed.

(** A client is right for a configuration: it was pinned for the key, or built
    from a configuration with the same host and fingerprint. *)
Definition rightClient (p : clients) (key : string) (cfg : ClientConfig) (c : client) : Prop :=
  (exists e, p !! key = Some e /\ ce_pinned e = true /\ c = ce_client e) \/
  (exists cfg', c = RemoteC (buildRESTConfig cfg') /\ cfg_Host cfg' = cfg_Host cfg /\
                fingerprint cfg' = fingerprint cfg).

Lemma cachedClient_right p key cfg c :
  cacheWf p -> cachedClient p key cfg = Some c -> rightClient p key cfg c.
Proof.
  unfold cachedClient, entryMatches. intros Hwf.
  destruct (p !! key) as [e|] eqn:E; [|done].
  destruct (ce_pinned e) eqn:Hp; simpl.
  - intros [= <-]. left. eauto.
  - case_bool_decide as H1; [|done]. case_bool_decide as H2; [|done]. intros [= <-].
    destruct (Hwf _ _ E Hp) as (cfg'&?&?&?). right. exists cfg'. split; [done|]. split; congruence.
Qed.

Lemma run_GetOrCreate p key cfg tr r p' :
  cacheWf p -> run (GetOrCreate p key cfg) tr (r, p') ->
  cacheWf p' /\ (forall k, k <> key -> p' !! k = p !! k) /\
  match r with
  | Ok c => rightClient p key cfg c /\ cachedClient p' key cfg = Some c
  | Err _ => p' = p
  end.
Proof.
  intros Hwf. unfold GetOrCreate, createLocked.
  destruct (cachedClient p key cfg) as [c|] eqn:E.
  { intros [_ [= -> ->]]. repeat split; try done. by apply cachedClient_right. }
  intros H. run_inv.
  - done.
  - split; [by apply cacheWf_insert|]. split; [by intros; apply lookup_insert_ne|].
    split; [right; by eexists|].
    unfold cachedClient. rewrite lookup_insert_eq. unfold entryMatches, newEntry. simpl.
    by rewrite !bool_decide_eq_true_2.
Qed.

(** ** Goroutines sharing a provider

    Each caller looks the key up under the read lock and, on a miss, goes on
    under the write lock; the two critical sections are the atomic steps of any
    number of callers that want the same key with the same configuration. *)
Inductive caller := CStart | CMissed | CDone (r : result client).

Record shared := { sh_cache : clients; sh_callers : list caller; sh_created : nat }.

(** Whether an event is a successful [client.New]. *)
Definition isCreation (e : kevent) : bool :=
  match e with
  | Ev c r => (match c return resp c -> bool with
               | NewClient _ => fun r => match r with None => true | Some _ => false end
               | _ => fun _ => false
               end) r
  end.

Definition creations (tr : list kevent) : nat := length (List.filter isCreation tr).

Inductive shared_step (key : string) (cfg : ClientConfig) : shared -> shared -> Prop :=
  | step_hit p cs n i c :
      cs !! i = Some CStart -> cachedClient p key cfg = Some c ->
      shared_step key cfg {| sh_cache := p; sh_callers := cs; sh_created := n |}
        {| sh_cache := p; sh_callers := <[i := CDone (Ok c)]> cs; sh_created := n |}
  | step_miss p cs n i :
      cs !! i = Some CStart -> cachedClient p key cfg = None ->
      shared_step key cfg {| sh_cache := p; sh_callers := cs; sh_created := n |}
        {| sh_cache := p; sh_callers := <[i := CMissed]> cs; sh_created := n |}
  | step_locked p cs n i tr r p' :
      cs !! i = Some CMissed -> run (createLocked p key cfg) tr (r, p') ->
      shared_step key cfg {| sh_cache := p; sh_callers := cs; sh_created := n |}
        {| sh_cache := p'; sh_callers := <[i := CDone r]> cs; sh_created := n + creations tr |}.

(** Every client handed out is the one in the cache, and a client is created
    only while the cache has none. *)
Definition sharedInv (key : string) (cfg : ClientConfig) (s : shared) : Prop :=
  (forall i c, sh_callers s !! i = Some (CDone (Ok c)) -> cachedClient (sh_cache s) key cfg = Some c) /\
  sh_created s <= 1 /\
  (sh_created s = 1 -> is_Some (cachedClient (sh_cache s) key cfg)).

Lemma run_createLocked p key cfg tr r p' :
  run (createLocked p key cfg) tr (r, p') ->
  match cachedClient p key cfg with
  | Some c => r = Ok c /\ p' = p /\ creations tr = 0
  | None =>
      match r with
      | Ok c => cachedClient p' key cfg = Some c /\ creations tr = 1
      | Err _ => p' = p /\ creations tr = 0
      end
  end.
Proof.
  unfold createLocked. destruct (cachedClient p key cfg) as [c|] eqn:E.
  { by intros [-> [= -> ->]]. }
  intros H. run_inv; [done|]. split; [|done].
  unfold cachedClient. rewrite lookup_insert_eq. unfold entryMatches, newEntry. simpl.
  by rewrite !bool_decide_eq_true_2.
Qed.

Lemma shared_step_inv key cfg s s' :
  sharedInv key cfg s -> shared_step key cfg s s' -> sharedInv key cfg s'.
Proof.
  intros (Hd & Hn & H1) Hs. destruct Hs as [p cs n i c Hi Hc|p cs n i Hi Hc|p cs n i tr r p' Hi Hr];
    unfold sharedInv in *; simpl in *.
  - split; [|done]. intros j d. rewrite list_lookup_insert_Some. naive_solver.
  - split; [|done]. intros j d. rewrite list_lookup_insert_Some. naive_solver.
  - apply run_createLocked in Hr. destruct (cachedClient p key cfg) as [c|] eqn:E.
    + destruct Hr as (->&->&->). rewrite Nat.add_0_r. split; [|split; [done|by rewrite E]].
      intros j d. rewrite list_lookup_insert_Some, E. naive_solver.
    + assert (n = 0) as -> by (destruct n as [|[]]; [done| |lia]; by destruct H1).
      destruct r as [c|e].
      * destruct Hr as [Hc ->]. rewrite Hc. split; [|split; [done|done]].
        intros j d. rewrite list_lookup_insert_Some. intros [(_&[= ->]&_)|[_ Hj]]; [done|].
        by apply Hd in Hj.
      * destruct Hr as [-> ->]. split; [|split; [lia|done]].
        intros j d. rewrite list_lookup_insert_Some, E. intros [(_&[=]&_)|[_ Hj]]. by apply Hd in Hj.
Qed.

Lemma shared_reachable_inv key cfg s s' :
  sharedInv key cfg s -> rtc (shared_step key cfg) s s' -> sharedInv key cfg s'.
Proof. intros Hi Hr. induction Hr; eauto using shared_step_inv. Qed.
End Provider.

(** ** The hashed bytes determine the credentials

    The fields are separated by zero bytes, so the bytes written to the hash
    determine every field that holds none, which is the case of PEM data and of
    bearer tokens. *)
Definition nulFree (s : string) : bool := negb (has_char "000"%char s).

Lemma nul_split a b a' b' :
  nulFree a = true -> nulFree a' = true -> a +:+ NUL +:+ b = a' +:+ NUL +:+ b' -> a = a' /\ b = b'.
Proof.
  unfold nulFree, NUL. revert a'. induction a as [|x a IH]; intros [|y a']; rewrite ?app_cons, ?app_nil_string_l; cbn.
  - by intros _ _ [= ->].
  - intros _ Hy [= Hxy _]. subst y. done.
  - intros Hx _ [= Hxy _]. subst x. done.
  - rewrite !negb_orb, !andb_true_iff. intros [_ Ha] [_ Ha'] [= -> H].
    destruct (IH a') as [-> ->]; auto.
Qed.

Definition nulFreeConfig (cfg : ClientConfig) : bool :=
  nulFree (cfg_CACert cfg) && nulFree (cfg_ClientCert cfg) && nulFree (cfg_ClientKey cfg) && nulFree (cfg_Token cfg).

(** The number of zero bytes tells whether another configuration with the same
    bytes is free of them too. *)
Fixpoint nuls (s : string) : nat :=
  match s with EmptyString => 0 | String a s => (if Ascii.eqb a "000"%char then 1 else 0) + nuls s end.

Lemma nuls_app a b : nuls (a +:+ b) = nuls a + nuls b.
Proof. induction a as [|x a IH]; [done|]. rewrite app_cons. cbn. lia. Qed.

Lemma nulFree_nuls s : nulFree s = true <-> nuls s = 0.
Proof.
  unfold nulFree. induction s as [|x s IH]; [done|]. cbn. rewrite negb_orb, andb_true_iff.
  destruct (Ascii.eqb x "000"%char); cbn; [split; [by intros [? _]|lia]|]. rewrite IH. naive_solver lia.
Qed.

Lemma nuls_input cfg :
  nuls (fingerprintInput cfg) =
  3 + nuls (cfg_CACert cfg) + nuls (cfg_ClientCert cfg) + nuls (cfg_ClientKey cfg) + nuls (cfg_Token cfg).
Proof. unfold fingerprintInput. rewrite !nuls_app. cbn. lia. Qed.

Lemma nulFreeConfig_nuls cfg : nulFreeConfig cfg = true <-> nuls (fingerprintInput cfg) = 3.
Proof. unfold nulFreeConfig. rewrite nuls_input, !andb_true_iff, !nulFree_nuls. lia. Qed.

Lemma fingerprintInput_inj a b :
  nulFreeConfig a = true -> nulFreeConfig b = true -> cfg_Host a = cfg_Host b ->
  fingerprintInput a = fingerprintInput b -> a = b.
Proof.
  unfold nulFreeConfig, fingerprintInput. rewrite !andb_true_iff.
  intros [[[??]?]_] [[[??]?]_] Hh Hf.
  apply nul_split in Hf as [H1f Hf]; [|done..]. apply nul_split in Hf as [H2f Hf]; [|done..].
  apply nul_split in Hf as [H3f H4f]; [|done..].
  destruct a, b; simpl in *; congruence.
Qed.

Lemma hex_digit_inj x y :
  (0 <= x < 16)%Z -> (0 <= y < 16)%Z -> hex_digit x = hex_digit y -> x = y.
Proof.
  intros Hx Hy H.
  assert (Hall : forallb (fun x => forallb (fun y => implb (Ascii.eqb (hex_digit (Z.of_nat x)) (hex_digit (Z.of_nat y)))
                   (Nat.eqb x y)) (seq 0 16)) (seq 0 16) = true) by reflexivity.
  rewrite forallb_forall in Hall. specialize (Hall (Z.to_nat x)). rewrite in_seq in Hall.
  specialize (Hall ltac:(lia)). rewrite forallb_forall in Hall. specialize (Hall (Z.to_nat y)).
  rewrite in_seq in Hall. specialize (Hall ltac:(lia)).
  rewrite !Z2Nat.id, H, Ascii.eqb_refl in Hall by lia. simpl in Hall. apply Nat.eqb_eq in Hall. lia.
Qed.

Lemma byte_val_inj a b : byte_val a = byte_val b -> a = b.
Proof.
  unfold byte_val. intros H. apply N2Z.inj in H.
  by rewrite <- (ascii_N_embedding a), <- (ascii_N_embedding b), H.
Qed.

Lemma hex_EncodeToString_inj s t : hex_EncodeToString s = hex_EncodeToString t -> s = t.
Proof.
  revert t. induction s as [|a s IH]; intros [|b t]; cbn; try done.
  intros [= H1 H2 H3]. f_equal; [|by apply IH].
  pose proof (byte_val_range a). pose proof (byte_val_range b).
  apply hex_digit_inj in H1; [|split; [apply Z.div_pos|apply Z.div_lt_upper_bound]; lia..].
  apply hex_digit_inj in H2; [|apply Z.mod_pos_bound; lia..].
  apply byte_val_inj. rewrite (Z.div_mod (byte_val a) 16), (Z.div_mod (byte_val b) 16) by lia. congruence.
Qed.

(** A right client is the one of the configuration when its hash is unique. *)
Lemma cached_exact sha256 p key cfg c :
  nulFreeConfig cfg = true -> (forall x, sha256 x = sha256 (fingerprintInput cfg) -> x = fingerprintInput cfg) ->
  rightClient sha256 p key cfg c ->
  (exists e, p !! key = Some e /\ ce_pinned e = true /\ c = ce_client e) \/ c = RemoteC (buildRESTConfig cfg).
Proof.
  intros Hnf Hcol [H3|(cfg'&->&Hh&Hf)]; [by left|]. right. do 2 f_equal.
  apply hex_EncodeToString_inj, Hcol in Hf.
  apply fingerprintInput_inj; [|done..]. apply nulFreeConfig_nuls. rewrite Hf. by apply nulFreeConfig_nuls.
Qed.

(** ** What the secrets of a connection say *)
(** The client of a connection whose CA secret is [ca] and whose auth secret is [au]: it
    talks to the service, on port 443 unless another is given, verifies it with the CA
    of the secret, and presents the certificate and key of the auth secret if that has
    both, or else its token. *)
Definition credentials (conn : SecondaryConnectionSpec) (ca au : Secret) (rc : RESTConfig) : Prop :=
  let ref := ServiceRef_ conn in
  let caData := mget (sec_Data ca) in
  let auData := mget (sec_Data au) in
  rc_Host rc = "https://" +:+ ref_Name ref +:+ "." +:+ ref_Namespace ref +:+ ".svc:" +:+
               itoa (if decide (ref_Port ref = 0)%Z then 443%Z else ref_Port ref) /\
  rc_Insecure rc = false /\ rc_CAData rc <> "" /\
  rc_CAData rc = (if decide (caData "ca.crt" = "") then caData "tls.crt" else caData "ca.crt") /\
  ((auData "tls.crt" <> "" /\ auData "tls.key" <> "" /\
    rc_CertData rc = auData "tls.crt" /\ rc_KeyData rc = auData "tls.key" /\ rc_BearerToken rc = "") \/
   ((auData "tls.crt" = "" \/ auData "tls.key" = "") /\ auData "token" <> "" /\
    rc_CertData rc = "" /\ rc_KeyData rc = "" /\ rc_BearerToken rc = auData "token")).

Lemma authConfig_credentials conn ca au cfg :
  caFromSecret ca <> "" -> authConfig conn (caFromSecret ca) au = Ok cfg ->
  credentials conn ca au (buildRESTConfig cfg).
Proof.
  intros Hca. unfold authConfig, credentials, buildRESTConfig. cbv zeta.
  destruct (negb _ && negb _) eqn:E1.
  - intros [= <-]. cbn. apply andb_true_iff in E1 as [E1 E2].
    apply negb_true_iff, bool_decide_eq_false in E1. apply negb_true_iff, bool_decide_eq_false in E2.
    rewrite (bool_decide_eq_false_2 (caFromSecret ca = "")), !(bool_decide_eq_false_2 (mget _ _ = "")) by done. cbn.
    split; [done|]. split; [done|]. split; [done|]. split; [done|]. by left.
  - destruct (negb (bool_decide (mget _ "token" = ""))) eqn:E2; [|done]. intros [= <-]. cbn.
    apply negb_true_iff, bool_decide_eq_false in E2.
    rewrite (bool_decide_eq_false_2 (caFromSecret ca = "")), (bool_decide_eq_false_2 (mget _ _ = "")) by done. cbn.
    split; [done|]. split; [done|]. split; [done|]. split; [done|]. right. split; [|done].
    apply andb_false_iff in E1 as [E1|E1]; apply negb_false_iff, bool_decide_eq_true in E1; auto.
Qed.

(** The key has no pinned client; only tests pin clients. *)
Definition unpinned (p : clients) (key : string) : Prop :=
  match p !! key with Some e => ce_pinned e = false | None => True end.

(** The bytes that are hashed of the credentials of a client, and that they can be told
    from others by their hash. *)
Definition hashedBytes (rc : RESTConfig) : string :=
  rc_CAData rc +:+ NUL +:+ rc_CertData rc +:+ NUL +:+ rc_KeyData rc +:+ NUL +:+ rc_BearerToken rc.
Definition distinctHash (sha256 : string -> string) (rc : RESTConfig) : Prop :=
  nulFree (rc_CAData rc) = true /\ nulFree (rc_CertData rc) = true /\ nulFree (rc_KeyData rc) = true /\
  nulFree (rc_BearerToken rc) = true /\ forall x, sha256 x = sha256 (hashedBytes rc) -> x = hashedBytes rc.

(** The credentials of a configuration that has one kind of them are those of its client. *)
Lemma authConfig_hashed conn caCert au cfg :
  authConfig conn caCert au = Ok cfg -> hashedBytes (buildRESTConfig cfg) = fingerprintInput cfg /\
    cfg_ClientCert cfg = rc_CertData (buildRESTConfig cfg) /\ cfg_ClientKey cfg = rc_KeyData (buildRESTConfig cfg).
Proof.
  unfold authConfig, hashedBytes, fingerprintInput, buildRESTConfig. cbv zeta.
  destruct (negb _ && negb _) eqn:E1.
  - intros [= <-]. cbn. apply andb_true_iff in E1 as [E1 E2]. by rewrite E1, E2.
  - destruct (negb (bool_decide (mget _ "token" = ""))); [|done]. intros [= <-]. cbn. by rewrite andb_false_r.
Qed.

Lemma distinctHash_cfg sha256 conn caCert au cfg :
  authConfig conn caCert au = Ok cfg -> distinctHash sha256 (buildRESTConfig cfg) ->
  nulFreeConfig cfg = true /\ forall x, sha256 x = sha256 (fingerprintInput cfg) -> x = fingerprintInput cfg.
Proof.
  intros (<-&E2&E3)%authConfig_hashed (H1&H2&H3&H4&H5). split; [|exact H5].
  unfold nulFreeConfig. rewrite E2, E3. cbn in H1, H4. by rewrite H1, H2, H3, H4.
Qed.

(** ** Theorems *)
Section Theorems.
Variable sha256 : string -> string.

(** C19: a request for a client never returns one built for other credentials:
    on a well-formed cache, unless the entry for the key is a pinned one, the
    client returned talks to the requested host with exactly the requested CA,
    certificate, key and token, provided these are free of zero bytes and nothing
    else has the SHA-256 hash of what is hashed of them; the cache stays well-formed, other keys are untouched, a failure changes nothing, and the next
    request for the same configuration is answered from the cache. *)
Theorem provider_returns_right_client p key cfg tr r p' :
  cacheWf sha256 p -> run (GetOrCreate sha256 p key cfg) tr (r, p') ->
  nulFreeConfig cfg = true ->
  (forall x, sha256 x = sha256 (fingerprintInput cfg) -> x = fingerprintInput cfg) ->
  cacheWf sha256 p' /\ (forall k, k <> key -> p' !! k = p !! k) /\
  match r with
  | Err _ => p' = p
  | Ok c =>
      ((exists e, p !! key = Some e /\ ce_pinned e = true /\ c = ce_client e) \/ c = RemoteC (buildRESTConfig cfg)) /\
      cachedClient sha256 p' key cfg = Some c
  end.
Proof.
  intros Hwf Hrun Hnf Hcol. destruct (run_GetOrCreate sha256 p key cfg tr r p' Hwf Hrun) as (H1&H2&H3).
  split; [done|]. split; [done|]. destruct r as [c|e]; [|done]. destruct H3 as [H3 H4]. split; [|done].
  by apply (cached_exact sha256).
Qed.

(** C20: however the read-locked lookups and write-locked creations of any number
    of goroutines that want a client for one key and one configuration are
    interleaved, at most one client is created, and every goroutine that gets a
    client gets the one in the cache. *)
Theorem provider_creates_once key cfg (n : nat) s :
  rtc (shared_step sha256 key cfg)
    {| sh_cache := NewClientProvider; sh_callers := replicate n CStart; sh_created := 0 |} s ->
  sh_created s <= 1 /\
  (forall i j c d, sh_callers s !! i = Some (CDone (Ok c)) -> sh_callers s !! j = Some (CDone (Ok d)) ->
     c = d /\ cachedClient sha256 (sh_cache s) key cfg = Some c).
Proof.
  intros Hr. apply shared_reachable_inv in Hr as (Hd&Hn&_).
  - split; [done|]. intros i j c d Hi Hj. pose proof (Hd _ _ Hi) as Hc. pose proof (Hd _ _ Hj). split; congruence.
  - split; [|split; [cbn; lia|done]]. intros i c. cbn. rewrite lookup_replicate. by intros [[=] _].
Qed.

(** C21: a client that is built for a connection always verifies the server and uses the
    credentials of that connection, whatever the cache holds: both secrets are read
    first, and when nothing is cached under the key, or the hash tells the credentials
    just read from all others, the client returned talks to the connection's
    service, is never insecure, verifies with the CA that was just read, and presents
    exactly one kind of credential, the certificate and key of the auth secret just
    read if it has both and its token otherwise; a stale cached client is not returned.
    The cache stays well-formed.  This for keys without a pinned client, which only
    tests have. *)
Theorem built_client_verifies p reader conn ns key tr c p' :
  cacheWf sha256 p -> unpinned p key -> run (BuildClient sha256 p reader conn ns key) tr (Ok c, p') ->
  exists ca au rc rest,
    tr = Ev (Get reader KSecret {| nn_Namespace := ns; nn_Name := CASecretRef conn |}) (Ok ca) ::
         Ev (Get reader KSecret {| nn_Namespace := ns; nn_Name := AuthSecretRef conn |}) (Ok au) :: rest /\
    credentials conn ca au rc /\
    (p !! key = None \/ distinctHash sha256 rc -> c = RemoteC rc) /\
    cacheWf sha256 p' /\ unpinned p' key.
Proof.
  intros Hwf Hpin. unfold BuildClient. cbn. intros ([ca|e]&t1&->&H); [|by destruct H]. cbn in H.
  case_decide as Hca; [by destruct H|]. destruct H as ([au|e]&t2&->&H); [|by destruct H]. cbn in H.
  destruct (authConfig conn (caFromSecret ca) au) as [cfg|e] eqn:E; [|by destruct H].
  exists ca, au, (buildRESTConfig cfg), t2. split; [done|]. split; [by apply authConfig_credentials|].
  destruct (run_GetOrCreate sha256 p key cfg t2 (Ok c) p' Hwf H) as (H1&_&Hc&_). split.
  - intros [Hk|Hd].
    + destruct Hc as [(en&Hen&_)|_]; [by rewrite Hk in Hen|]. unfold GetOrCreate, createLocked, cachedClient in H.
      rewrite Hk in H. run_inv. done.
    + destruct (distinctHash_cfg _ _ _ _ _ E Hd) as [Hn Hu].
      destruct (cached_exact sha256 p key cfg c Hn Hu Hc) as [(en&Hen&Hp&_)| ->]; [|done].
      unfold unpinned in Hpin. rewrite Hen in Hpin. congruence.
  - split; [done|]. unfold GetOrCreate, createLocked in H. unfold unpinned in *.
    destruct (cachedClient sha256 p key cfg); [by destruct H as [_ [= _ ->]]|]. run_inv. by rewrite lookup_insert_eq.
Qed.
End Theorems.

(** ** Witnesses *)
Definition demoConfig : ClientConfig :=
  {| cfg_Host := "https://demo-apiserver.shard-ns.svc"; cfg_CACert := "CA"; cfg_Token := ""; cfg_ClientCert := "C";
     cfg_ClientKey := "K" |}.
Definition demoConn : SecondaryConnectionSpec :=
  {| ServiceRef_ := {| ref_Name := "demo-apiserver"; ref_Namespace := "shard-ns"; ref_Port := 0 |};
     AuthSecretRef := "demo-admin-client-cert"; CASecretRef := "demo-pki" |}.

(** A hash that nothing else shares with the demo configuration. *)
Definition demoHash (s : string) : string := if decide (s = fingerprintInput demoConfig) then "1" else "0".

Definition demoCreation : list kevent := [Ev (NewClient (buildRESTConfig demoConfig)) None; Ev Now 5%Z].
Definition demoClient : client := RemoteC (buildRESTConfig demoConfig).
Definition demoCache : clients := <["demo" := newEntry demoHash demoConfig demoClient 5]> ∅.

Lemma demoHash_unique x :
  demoHash x = demoHash (fingerprintInput demoConfig) -> x = fingerprintInput demoConfig.
Proof. unfold demoHash. intros H. case_decide; [done|]. by rewrite decide_True in H. Qed.

Lemma provider_returns_right_client_witness :
  run (GetOrCreate demoHash NewClientProvider "demo" demoConfig) demoCreation (Ok demoClient, demoCache) /\
  cachedClient demoHash demoCache "demo" demoConfig = Some demoClient.
Proof.
  assert (Hrun : run (GetOrCreate demoHash NewClientProvider "demo" demoConfig) demoCreation (Ok demoClient, demoCache)).
  { cbn. exists None, [Ev Now 5%Z]. split; [reflexivity|]. exists 5%Z, []. split; [reflexivity|]. split; reflexivity. }
  split; [exact Hrun|].
  destruct (provider_returns_right_client demoHash NewClientProvider "demo" demoConfig _ _ _
              (map_Forall_empty _) Hrun eq_refl demoHash_unique) as (_&_&_&H). exact H.
Defined.

Definition demoStart : shared :=
  {| sh_cache := NewClientProvider; sh_callers := replicate 2 CStart; sh_created := 0 |}.
Definition demoEnd : shared :=
  {| sh_cache := demoCache; sh_callers := [CDone (Ok demoClient); CDone (Ok demoClient)]; sh_created := 1 |}.

(** Both goroutines miss, one creates the client, the other finds it. *)
Lemma demoInterleaving : rtc (shared_step demoHash "demo" demoConfig) demoStart demoEnd.
Proof.
  eapply rtc_l; [eapply (step_miss _ _ _ _ _ _ 0); reflexivity|].
  eapply rtc_l; [eapply (step_miss _ _ _ _ _ _ 1); reflexivity|].
  eapply rtc_l.
  { eapply (step_locked _ _ _ _ _ _ 0 demoCreation (Ok demoClient) demoCache); [reflexivity|].
    cbn. exists None, [Ev Now 5%Z]. split; [reflexivity|]. exists 5%Z, []. by split. }
  eapply rtc_l; [|apply rtc_refl].
  refine (step_locked _ _ _ demoCache [CDone (Ok demoClient); CMissed] 1 1 [] (Ok demoClient) demoCache eq_refl _).
  vm_compute. by split.
Qed.

Lemma provider_creates_once_witness :
  sh_created demoEnd <= 1 /\ cachedClient demoHash (sh_cache demoEnd) "demo" demoConfig = Some demoClient.
Proof.
  destruct (provider_creates_once demoHash "demo" demoConfig 2 demoEnd demoInterleaving) as [H1 H2].
  split; [exact H1|]. exact (proj2 (H2 0 1 demoClient demoClient eq_refl eq_refl)).
Defined.

(** The connection has a client of an earlier certificate in the cache. *)
Definition rotatedConfig : ClientConfig :=
  {| cfg_Host := "https://demo-apiserver.shard-ns.svc:443"; cfg_CACert := "CA"; cfg_Token := ""; cfg_ClientCert := "old";
     cfg_ClientKey := "old" |}.
Definition builtREST : RESTConfig :=
  {| rc_Host := "https://demo-apiserver.shard-ns.svc:443"; rc_CAData := "CA"; rc_Insecure := false;
     rc_BearerToken := ""; rc_CertData := "C"; rc_KeyData := "K" |}.
Definition rotatedCache : clients :=
  <["k" := newEntry demoHash rotatedConfig (RemoteC (buildRESTConfig rotatedConfig)) 5]> ∅.
Definition clientRun :=
  ref_exec (BuildClient demoHash rotatedCache PrimaryC demoConn "shard-ns" "k") (runningCluster (demoShard sqliteStorage)).

Lemma built_client_verifies_witness :
  is_Some (rotatedCache !! "k") /\ (result_of clientRun).1 = Ok (RemoteC builtREST) /\ distinctHash demoHash builtREST /\
  exists ca au rc, credentials demoConn ca au rc /\ (distinctHash demoHash rc -> RemoteC builtREST = RemoteC rc).
Proof.
  split; [by eexists|]. split; [vm_compute; reflexivity|].
  split; [do 4 (split; [reflexivity|]); exact demoHash_unique|].
  assert (H : run (BuildClient demoHash rotatedCache PrimaryC demoConn "shard-ns" "k") (trace_of clientRun)
                (Ok (RemoteC builtREST), (result_of clientRun).2)) by exact (exec_run ref_handler _ _).
  destruct (built_client_verifies demoHash rotatedCache PrimaryC demoConn "shard-ns" "k" _ _ _
    (cacheWf_insert demoHash ∅ "k" rotatedConfig 5 (map_Forall_empty _)) eq_refl H) as (ca&au&rc&rest&_&H2&H3&_).
  exists ca, au, rc. split; [exact H2|]. intros Hd. apply H3. by right.
Defined.
