(* ===== verification/ApiShardSteps.v ===== *)
(** * The steps of the APIShard controller

    src/operator/internal/controller/apishard/reconciler.go, every reconcile*
    step of Reconcile in the order of the file.  A step that sets status fields
    of the shard takes and returns the shard; a step that uses the client provider
    takes and returns its cache.  The provider itself is never nil: cmd/main.go
    constructs it before the controller. *)
From S2P Require Import Prelude GoStd NetUrl GoJson KubeTypes APITypes Kube ResCommon KineRes PostgresRes.
From S2P Require Import SecondaryRes MetricsRes OtelRes Certs Aggregation ClientProvider.

Definition fieldManager : string := "kube-shard-operator".
Definition finalizerName : string := "kube-shard.konflux-ci.dev/apiservice-cleanup".
Definition ownerLabelKey : string := "kube-shard.konflux-ci.dev/owner".
Definition componentLabelKey : string := "kube-shard.konflux-ci.dev/component".
Definition extensionAPIServerAuthCM : string := "extension-apiserver-authentication".
Definition kubeSystemNamespace : string := "kube-system".
Definition defaultFrontProxyClient : string := "front-proxy-client".

Definition GVK (g v k : string) : GroupVersionKind := {| gvk_Group := g; gvk_Version := v; gvk_Kind := k |}.

Definition managedGVKs : list GroupVersionKind :=
  [ GVK "apps" "v1" "Deployment"; GVK "apps" "v1" "StatefulSet";
    GVK "" "v1" "Service"; GVK "" "v1" "Secret"; GVK "" "v1" "ConfigMap"; GVK "" "v1" "ServiceAccount";
    GVK "rbac.authorization.k8s.io" "v1" "ClusterRole";
    GVK "rbac.authorization.k8s.io" "v1" "ClusterRoleBinding";
    GVK "rbac.authorization.k8s.io" "v1" "Role";
    GVK "rbac.authorization.k8s.io" "v1" "RoleBinding";
    GVK "cert-manager.io" "v1" "Issuer"; GVK "cert-manager.io" "v1" "Certificate";
    GVK "policy" "v1" "PodDisruptionBudget";
    GVK "monitoring.coreos.com" "v1" "ServiceMonitor";
    GVK "security.openshift.io" "v1" "SecurityContextConstraints" ].

(** The fields of the Reconciler that its methods read. *)
Record Reconciler := { ServiceMonitorAvailable : bool; SCCAvailable : bool; PrimaryIssuer : string }.

(** [ctrl.Result]; durations in nanoseconds. *)
Record CtrlResult := { RequeueAfter : Z }.
Definition noRequeue : CtrlResult := {| RequeueAfter := 0 |}.
Definition requeue10s : CtrlResult := {| RequeueAfter := 10 * Second |}.

(** What a Reconcile method returns, with the client provider's cache. *)
Abbreviation outcome := ((CtrlResult * option error) * clients)%type.

(** The tracking client of one reconciliation. *)
Definition trackingClient (shard : APIShard) : TrackingClient :=
  {| tc_OwnerName := shardName shard; tc_OwnerLabelKey := ownerLabelKey;
     tc_ComponentLabelKey := componentLabelKey; tc_Component := "apishard";
     tc_FieldManager := fieldManager |}.

(** [return fmt.Errorf("what: %w", err)] when the program reports an error. *)
Definition wrapErr (what : string) (p : kprog (option error)) : kprog (option error) :=
  let* e := p in Ret (Wrapf what <$> e).

Notation "'try' p 'in' q" :=
  (bind p (fun x => match x with Some err => Ret (Some err) | None => q end))
  (at level 10, p at level 200, q at level 200) : go_scope.

Section Steps.
Context {T : ThirdParty}.
Variable r : Reconciler.

(** ** Namespace *)
Definition ensureNamespace (shard : APIShard) : kprog (option error) :=
  let ns : Namespace :=
    {| ns_TypeMeta := {| APIVersion := "v1"; TypeKind := "Namespace" |};
       ns_Meta := newMeta (shardNS shard) ""
         (mlit [(LabelManagedBy, ManagedByValue); (LabelInstance, shardName shard);
                ("openshift.io/cluster-monitoring", "true")]) |} in
  let* res := patch_apply PrimaryC KNamespace ns fieldManager in Ret res.2.

(** ** Kine *)
Definition isTrafficDistributionUnsupported (err : error) : bool :=
  let msg := Error err in
  Contains msg "trafficDistribution" &&
  (IsInvalid err || IsNotFound err || Contains msg "unknown field").

(** [if pdb := BuildPDB(...); pdb != nil { ... }] *)
Definition applyPDB (what : string) (tc : TrackingClient) (pdb : option PodDisruptionBudget)
  : kprog (option error) :=
  match pdb with
  | Some pdb => apply_or what tc KPDB pdb
  | None => Ret None
  end.

(** The apply of the Kine service, with the fallback for clusters that do not
    know trafficDistribution. *)
Definition applyKineService (tc : TrackingClient) (svc : Service) : kprog (option error) :=
  let* (svc, e) := perform (ApplyOwned tc KService svc) in
  match e with
  | None => Ret None
  | Some err =>
      if bool_decide (is_Some (svc_TrafficDistribution svc)) && isTrafficDistributionUnsupported err
      then apply_or "kine service (fallback without trafficDistribution)" tc KService
             (set_TrafficDistribution None svc)
      else Ret (Some (Wrapf "kine service" err))
  end.

Definition reconcileKine (tc : TrackingClient) (shard : APIShard) : kprog (option error) :=
  let deployment := BuildKineDeployment shard in
  let deployment :=
    if SCCAvailable r then deployment
    else with_template (with_pod_security (set_RunAsUser 65534)) deployment in
  let* (deployment, e) := perform (ApplyOwned tc KDeployment deployment) in
  match e with
  | Some err => Ret (Some (Wrapf "kine deployment" err))
  | None =>
      try applyPDB "kine pdb" tc
            (BuildPDB (KineDeploymentName shard) (shardNS shard) (kine_Replicas (Kine (Spec shard)))
               (MatchLabels (dep_Selector (d_Spec deployment)))) in
      applyKineService tc (BuildKineService shard)
  end.

(** ** The secondary API server *)
Definition reconcileSecondary (tc : TrackingClient) (shard : APIShard) (requestHeaderAllowedNames : list string)
  : kprog (option error) :=
  let* (deployment, e) :=
    perform (ApplyOwned tc KDeployment
               (BuildSecondaryDeployment shard requestHeaderAllowedNames [PrimaryIssuer r])) in
  match e with
  | Some err => Ret (Some (Wrapf "secondary deployment" err))
  | None =>
      try applyPDB "secondary pdb" tc
            (BuildPDB (SecondaryDeploymentName shard) (shardNS shard) (sec_Replicas (Secondary (Spec shard)))
               (MatchLabels (dep_Selector (d_Spec deployment)))) in
      apply_or "secondary service" tc KService (BuildSecondaryService shard)
  end.

(** ** PostgreSQL in the cluster *)
Definition getOrGeneratePostgresPassword (shard : APIShard) : kprog (result string) :=
  let* res := get PrimaryC KSecret (shardNS shard) (PostgreSQLSecretName shard) in
  match res with
  | Ok existing =>
      if negb (bool_decide (mget (sec_Data existing) "POSTGRES_PASSWORD" = ""))
      then Ret (Ok (mget (sec_Data existing) "POSTGRES_PASSWORD"))
      else GeneratePassword
  | Err _ => GeneratePassword
  end.

Definition storageReady (shard : APIShard) (st : ConditionStatus) (reason message : string) : APIShard :=
  set_condition (shardCondition shard ConditionStorageReady st reason message) shard.

Definition immutableMessage (live requested : list PersistentVolumeClaim) : string :=
  "volumeClaimTemplates are immutable; live " +:+ DescribeVolumeClaimTemplates live +:+
  ", spec requested " +:+ DescribeVolumeClaimTemplates requested +:+ ". " +:+
  "Update the APIShard to match the live volume or recreate the shard.".

(** The error, the shard with its StorageReady condition, and the desired
    StatefulSet aligned with the live one. *)
Definition preservePostgreSQLVolumeClaimTemplates (shard : APIShard) (desired : StatefulSet)
  : kprog (option error * APIShard * StatefulSet) :=
  let* res := get PrimaryC KStatefulSet (meta_Namespace (s_Meta desired)) (meta_Name (s_Meta desired)) in
  match res with
  | Err err =>
      if IsNotFound err
      then Ret (None,
                storageReady shard ConditionTrue "VolumeClaimTemplateUnchanged"
                  "no existing PostgreSQL StatefulSet; applying requested volume claim templates",
                desired)
      else Ret (Some (Wrapf "fetching existing statefulset" err), shard, desired)
  | Ok existing =>
      let requestedVCTs := sts_claims desired in
      let desired := AlignPostgreSQLVolumeClaims desired existing in
      if VolumeClaimTemplatesMatch requestedVCTs (sts_claims existing)
      then Ret (None,
                storageReady shard ConditionTrue "VolumeClaimTemplateUnchanged"
                  "PostgreSQL volume claim templates match the live StatefulSet",
                desired)
      else Ret (None,
                storageReady shard ConditionFalse "VolumeClaimTemplateImmutable"
                  (immutableMessage (sts_claims existing) requestedVCTs),
                desired)
  end.

Definition reconcileInClusterPostgreSQL (tc : TrackingClient) (shard : APIShard)
  : kprog (option error * APIShard) :=
  let* password := getOrGeneratePostgresPassword shard in
  match password with
  | Err err => Ret (Some (Wrapf "postgres password" err), shard)
  | Ok password =>
      check apply_or "postgresql secret" tc KSecret (BuildPostgreSQLSecret shard password)
        orelse (fun err => Ret (Some err, shard)) in
      check apply_or "postgresql init configmap" tc KConfigMap (BuildPostgreSQLInitConfigMap shard)
        orelse (fun err => Ret (Some err, shard)) in
      let sts := BuildPostgreSQLStatefulSet shard in
      let sts := if SCCAvailable r then sts
                 else with_sts_template (with_pod_security (fun p => set_FSGroup 999 (set_RunAsUser 999 p))) sts in
      let* (e, shard, sts) := preservePostgreSQLVolumeClaimTemplates shard sts in
      match e with
      | Some err => Ret (Some (Wrapf "preserving postgresql volume claim templates" err), shard)
      | None =>
          check apply_or "postgresql statefulset" tc KStatefulSet sts
            orelse (fun err => Ret (Some err, shard)) in
          check apply_or "postgresql service" tc KService (BuildPostgreSQLService shard)
            orelse (fun err => Ret (Some err, shard)) in
          Ret (None, shard)
      end
  end.

(** ** PostgreSQL outside the cluster *)
Definition validateExternalPostgreSQLSecret (shard : APIShard) : kprog (option error * APIShard) :=
  match ConnectionSecretRef (Storage (Spec shard)) with
  | None =>
      let msg := "storage.type is PostgreSQL but connectionSecretRef is not set" in
      Ret (Some (Errorf msg), storageReady shard ConditionFalse "MissingConnectionSecretRef" msg)
  | Some ref =>
      let* res := get PrimaryC KSecret (shardNS shard) (skr_Name ref) in
      match res with
      | Err err =>
          if IsNotFound err
          then Ret (Some (Errorf ("connection secret " +:+ quote (skr_Name ref) +:+
                                  " not found in namespace " +:+ quote (shardNS shard))),
                    storageReady shard ConditionFalse "SecretNotFound"
                      ("Secret " +:+ quote (skr_Name ref) +:+ " not found in namespace " +:+ quote (shardNS shard)))
          else Ret (Some (Wrapf ("reading connection secret " +:+ quote (skr_Name ref)) err),
                    storageReady shard ConditionFalse "SecretReadError"
                      ("Failed to read Secret " +:+ quote (skr_Name ref) +:+ ": " +:+ Error err))
      | Ok secret =>
          if mok (sec_Data secret) (skr_Key ref)
          then Ret (None, storageReady shard ConditionTrue "SecretValid"
                            ("Connection secret " +:+ quote (skr_Name ref) +:+ " validated"))
          else Ret (Some (Errorf ("key " +:+ quote (skr_Key ref) +:+ " not found in secret " +:+ quote (skr_Name ref))),
                    storageReady shard ConditionFalse "KeyNotFound"
                      ("Key " +:+ quote (skr_Key ref) +:+ " not found in Secret " +:+ quote (skr_Name ref)))
      end
  end.

(** ** The metrics collector *)
Definition applyOTelCollector (tc : TrackingClient) (shard : APIShard) (params : OTelConnectionParams)
    (credentialSecretName : string) : kprog (option error) :=
  let configContent := BuildOTelCollectorConfig shard params in
  let cmName := BuildConfigMapName (OTelCollectorConfigMapBaseName shard) configContent in
  try apply_or "otel collector configmap" tc KConfigMap
        (BuildOTelCollectorConfigMap shard cmName configContent) in
  try apply_or "otel collector deployment" tc KDeployment
        (BuildOTelCollectorDeployment shard credentialSecretName cmName params) in
  try apply_or "otel collector service" tc KService (BuildOTelCollectorService shard) in
  if ServiceMonitorAvailable r
  then apply_or "postgresql metrics service monitor" tc KServiceMonitor
         (BuildPostgreSQLMetricsServiceMonitor shard)
  else Ret None.

Definition otelCredentialSecretName (shard : APIShard) : string :=
  shardName shard +:+ "-postgresql-metrics-credentials".

Definition ensureOTelCredentialSecret (tc : TrackingClient) (shard : APIShard) (params : OTelConnectionParams)
  : kprog (result string) :=
  let secret : Secret :=
    {| sec_TypeMeta := {| APIVersion := "v1"; TypeKind := "Secret" |};
       sec_Meta := newMeta (otelCredentialSecretName shard) (shardNS shard) None;
       sec_Type := "";
       sec_Data := None;
       sec_StringData := mlit [("POSTGRES_USER", op_User params); ("POSTGRES_PASSWORD", op_Password params)] |} in
  let* e := apply_or "otel credential secret" tc KSecret secret in
  Ret (match e with Some err => Err err | None => Ok (otelCredentialSecretName shard) end).

Definition with_CACert (secretName secretKey : string) (p : OTelConnectionParams) : OTelConnectionParams :=
  {| op_Host := op_Host p; op_Port := op_Port p; op_User := op_User p; op_Password := op_Password p;
     op_DBName := op_DBName p; op_CACertSecretName := secretName; op_CACertSecretKey := secretKey |}.

(** The case of external PostgreSQL: the value of [err] after the switch. *)
Definition externalMetrics (tc : TrackingClient) (shard : APIShard) : kprog (option error) :=
  match ConnectionSecretRef (Storage (Spec shard)) with
  | None => Ret (Some (Errorf "storage.monitoring enabled but connectionSecretRef is not set"))
  | Some ref =>
      let* res := get PrimaryC KSecret (shardNS shard) (skr_Name ref) in
      match res with
      | Err err => Ret (Some (Wrapf "reading connection secret for metrics" err))
      | Ok secret =>
          match ParsePostgreSQLDSN ValidIPv6 (mget (sec_Data secret) (skr_Key ref)) with
          | Err err => Ret (Some (Wrapf "parsing DSN for metrics collector" err))
          | Ok params =>
              match StorageMonitoring (Storage (Spec shard)) ≫= CACertSecret with
              | None => Ret (Some (Errorf "caCertSecret must be set in spec.storage.monitoring for external PostgreSQL"))
              | Some ca =>
                  let params := with_CACert (skr_Name ca) (skr_Key ca) params in
                  let* cred := ensureOTelCredentialSecret tc shard params in
                  match cred with
                  | Err err => Ret (Some err)
                  | Ok credentialSecret => applyOTelCollector tc shard params credentialSecret
                  end
              end
          end
      end
  end.

Definition monitoringDegraded (shard : APIShard) (st : ConditionStatus) (reason message : string) : APIShard :=
  set_condition (shardCondition shard ConditionMonitoringDegraded st reason message) shard.

Definition reconcilePostgreSQLMetrics (tc : TrackingClient) (shard : APIShard) : kprog APIShard :=
  let finish (err : option error) : APIShard :=
    match err with
    | Some err => monitoringDegraded shard ConditionTrue "MetricsCollectorFailed"
                    ("Failed to deploy metrics collector: " +:+ Error err)
    | None => monitoringDegraded shard ConditionFalse "MetricsCollectorHealthy"
                "PostgreSQL metrics collector is deployed"
    end in
  if negb (StorageMonitoringEnabled shard)
  then Ret (remove_condition ConditionMonitoringDegraded shard)
  else
    match storageType shard with
    | StorageTypeSQLite =>
        Ret (monitoringDegraded shard ConditionTrue "UnsupportedStorageType"
               "Storage monitoring is not supported for SQLite; disable monitoring.enabled or switch to PostgreSQL")
    | StorageTypeInClusterPostgreSQL =>
        let params := with_CACert (PostgreSQLCASecretName shard) CACertKey
                        (InClusterPostgreSQLConnectionParams shard) in
        let* err := applyOTelCollector tc shard params (PostgreSQLSecretName shard) in
        Ret (finish err)
    | StorageTypePostgreSQL =>
        let* err := externalMetrics tc shard in
        Ret (finish err)
    | StorageTypeOther _ => Ret (finish None)
    end.

(** ** Storage *)
Definition reconcileBackend (tc : TrackingClient) (shard : APIShard) : kprog (option error * APIShard) :=
  match storageType shard with
  | StorageTypeInClusterPostgreSQL =>
      let* (e, shard) := reconcileInClusterPostgreSQL tc shard in
      Ret (Wrapf "in-cluster PostgreSQL" <$> e, shard)
  | StorageTypePostgreSQL =>
      let* (e, shard) := validateExternalPostgreSQLSecret shard in
      Ret (Wrapf "external PostgreSQL" <$> e, shard)
  | _ => Ret (None, shard)
  end.

Definition reconcileStorage (tc : TrackingClient) (shard : APIShard) : kprog (option error * APIShard) :=
  let* (e, shard) := reconcileBackend tc shard in
  match e with
  | Some err => Ret (Some err, shard)
  | None =>
      check wrapErr "kine" (reconcileKine tc shard) orelse (fun err => Ret (Some err, shard)) in
      let* shard := reconcilePostgreSQLMetrics tc shard in
      Ret (None, shard)
  end.

(** ** Certificates *)
Definition buildCertResources (shard : APIShard) : list Unstructured :=
  [ BuildSelfSignedIssuer shard; BuildCACertificate shard; BuildCAIssuer shard;
    BuildServingCertificate shard; BuildAdminClientCertificate shard;
    BuildKineSelfSignedIssuer shard; BuildKineCACertificate shard; BuildKineCAIssuer shard;
    BuildKineServingCertificate shard; BuildEtcdClientCertificate shard ] ++
  (if decide (storageType shard = StorageTypeInClusterPostgreSQL)
   then [ BuildPostgreSQLSelfSignedIssuer shard; BuildPostgreSQLCACertificate shard;
          BuildPostgreSQLCAIssuer shard; BuildPostgreSQLServingCertificate shard ]
   else []).

Definition reconcileCertManager (tc : TrackingClient) (shard : APIShard) : kprog (option error) :=
  for_each (fun res =>
    apply_or ("applying " +:+ gvk_Kind (u_GVK res) +:+ " " +:+ meta_Name (u_Meta res)) tc KUnstructured res)
    (buildCertResources shard).
End Steps.
