(* ===== verification/ApiShard.v ===== *)
(** * The APIShard controller

    src/operator/internal/controller/apishard/reconciler.go: the remaining steps,
    health and availability, Reconcile itself and the functions that map watch
    events to shards. *)
From S2P Require Import Prelude GoStd NetUrl GoJson KubeTypes APITypes Kube ResCommon KineRes PostgresRes.
From S2P Require Import SecondaryRes MetricsRes OtelRes Certs Aggregation ClientProvider ApiShardSteps.

(** ** Texts *)
Definition kubeconfigOf (server : string) : string :=
  unlines
    [ "apiVersion: v1"; "kind: Config"; "clusters:"; "- name: primary"; "  cluster:";
      "    server: " +:+ server;
      "    certificate-authority: /var/run/secrets/kubernetes.io/serviceaccount/ca.crt";
      "users:"; "- name: webhook"; "  user:";
      "    tokenFile: /var/run/secrets/kubernetes.io/serviceaccount/token";
      "current-context: webhook"; "contexts:"; "- context:"; "    cluster: primary"; "    user: webhook";
      "  name: webhook" ].

Definition webhookConfig : string :=
  kubeconfigOf "https://kubernetes.default.svc/apis/authorization.k8s.io/v1/subjectaccessreviews".
Definition authnWebhookConfig : string :=
  kubeconfigOf "https://kubernetes.default.svc/apis/authentication.k8s.io/v1/tokenreviews".

Definition adminKubeconfig (serverURL caBase64 certBase64 keyBase64 : string) : string :=
  unlines
    [ "apiVersion: v1"; "kind: Config"; "clusters:"; "- name: secondary"; "  cluster:";
      "    server: " +:+ serverURL;
      "    certificate-authority-data: " +:+ caBase64;
      "users:"; "- name: admin"; "  user:";
      "    client-certificate-data: " +:+ certBase64;
      "    client-key-data: " +:+ keyBase64;
      "contexts:"; "- name: default"; "  context:"; "    cluster: secondary"; "    user: admin";
      "current-context: default" ].

Definition configMap (name ns : string) (data : list (string * string)) : ConfigMap :=
  {| cm_TypeMeta := {| APIVersion := "v1"; TypeKind := "ConfigMap" |};
     cm_Meta := newMeta name ns None; cm_Data := mlit data |}.

(** ** Conversion webhooks *)
Definition serviceURL (ref : ServiceRef) : string :=
  "https://" +:+ sr_Name ref +:+ "." +:+ sr_Namespace ref +:+ ".svc:" +:+
  itoa (default 443%Z (sr_Port ref)) +:+ default "" (sr_Path ref).

Definition urlClientConfig (cc : WebhookClientConfig) : WebhookClientConfig :=
  match wcc_Service cc with
  | None => cc
  | Some ref => {| wcc_URL := Some (serviceURL ref); wcc_Service := None; wcc_CABundle := wcc_CABundle cc |}
  end.

Definition transformCRDConversion (crd : CustomResourceDefinition) : CustomResourceDefinition :=
  match crd_Conversion crd with
  | Some {| cv_Strategy := strategy; cv_Webhook := Some (Some cc) |} =>
      if decide (strategy = "Webhook")
      then {| crd_TypeMeta := crd_TypeMeta crd; crd_Meta := crd_Meta crd; crd_Group := crd_Group crd;
              crd_Conversion := Some {| cv_Strategy := strategy; cv_Webhook := Some (Some (urlClientConfig cc)) |};
              crd_Versions := crd_Versions crd |}
      else crd
  | _ => crd
  end.

(** The CRD sent to the secondary. *)
Definition secondaryCRD (crd : CustomResourceDefinition) : CustomResourceDefinition :=
  transformCRDConversion
    {| crd_TypeMeta := {| APIVersion := "apiextensions.k8s.io/v1"; TypeKind := "CustomResourceDefinition" |};
       crd_Meta := with_annotations (meta_Annotations (crd_Meta crd))
                     (newMeta (meta_Name (crd_Meta crd)) "" (meta_Labels (crd_Meta crd)));
       crd_Group := crd_Group crd; crd_Conversion := crd_Conversion crd; crd_Versions := crd_Versions crd |}.

(** ** Event mappers *)
Definition requestFor (shard : APIShard) : NamespacedName :=
  {| nn_Namespace := ""; nn_Name := shardName shard |}.

Definition requestHeaderCAMapper (m : ObjectMeta) : kprog (list NamespacedName) :=
  if negb (bool_decide (meta_Name m = extensionAPIServerAuthCM)) ||
     negb (bool_decide (meta_Namespace m = kubeSystemNamespace))
  then Ret []
  else
    let* res := list_objs PrimaryC KAPIShard ListAll in
    match res with
    | Err _ => Ret []
    | Ok shards => Ret (requestFor <$> shards)
    end.

Definition usesConnectionSecret (m : ObjectMeta) (shard : APIShard) : bool :=
  bool_decide (storageType shard = StorageTypePostgreSQL) &&
  match ConnectionSecretRef (Storage (Spec shard)) with
  | None => false
  | Some ref => bool_decide (shardNS shard = meta_Namespace m) && bool_decide (skr_Name ref = meta_Name m)
  end.

Definition connectionSecretMapper (m : ObjectMeta) : kprog (list NamespacedName) :=
  let* res := list_objs PrimaryC KAPIShard ListAll in
  match res with
  | Err _ => Ret []
  | Ok shards => Ret (requestFor <$> List.filter (usesConnectionSecret m) shards)
  end.

Definition servesGroup (group : string) (shard : APIShard) : bool :=
  existsb (fun ag => bool_decide (Group ag = group)) (APIGroups (Spec shard)).

Definition enqueueForCRD (crd : CustomResourceDefinition) : kprog (list NamespacedName) :=
  let* res := list_objs PrimaryC KAPIShard ListAll in
  match res with
  | Err _ => Ret []
  | Ok shards => Ret (requestFor <$> List.filter (servesGroup (crd_Group crd)) shards)
  end.

Section Controller.
Context {T : ThirdParty}.
Variable r : Reconciler.

(** ** Authentication and authorization *)
Definition reconcileAuthConfig (tc : TrackingClient) (shard : APIShard) : kprog (option error) :=
  apply_or "auth config configmap" tc KConfigMap
    (configMap (shardName shard +:+ "-authz-config") (shardNS shard)
       [("webhook-config.yaml", webhookConfig); ("authn-webhook-config.yaml", authnWebhookConfig)]).

Definition reconcileSecondaryServiceAccount (tc : TrackingClient) (shard : APIShard) : kprog (option error) :=
  apply_or "secondary service account" tc KServiceAccount (BuildSecondaryServiceAccount shard).

Definition authDelegatorBinding (shard : APIShard) : RoleBinding :=
  {| rb_TypeMeta := {| APIVersion := rbacAPIVersion; TypeKind := "ClusterRoleBinding" |};
     rb_Meta := newMeta (shardName shard +:+ "-auth-delegator") "" None;
     rb_RoleRef := {| rr_APIGroup := rbacAPIGroup; rr_Kind := "ClusterRole"; rr_Name := "system:auth-delegator" |};
     rb_Subjects := [ {| subj_Kind := "ServiceAccount"; subj_Name := SecondaryServiceAccountName shard;
                         subj_Namespace := shardNS shard |} ] |}.

Definition rb_with_meta (m : ObjectMeta) (b : RoleBinding) : RoleBinding :=
  {| rb_TypeMeta := rb_TypeMeta b; rb_Meta := m; rb_RoleRef := rb_RoleRef b; rb_Subjects := rb_Subjects b |}.

Definition reconcileAuthDelegator (tc : TrackingClient) (shard : APIShard) : kprog (option error) :=
  let crb := authDelegatorBinding shard in
  let '(m, e) := SetControllerReference shard (rb_Meta crb) in
  match e with
  | Some err => Ret (Some (Wrapf "setting owner reference on auth-delegator CRB" err))
  | None => apply_or "auth-delegator ClusterRoleBinding" tc KClusterRoleBinding (rb_with_meta m crb)
  end.

Definition reconcileAPIServerSCC (tc : TrackingClient) (shard : APIShard) : kprog (option error) :=
  if negb (SCCAvailable r) then Ret None
  else
    try apply_or "apiserver SCC" tc KUnstructured (BuildAPIServerSCC shard) in
    try apply_or "apiserver SCC cluster role" tc KClusterRole (BuildAPIServerSCCClusterRole shard) in
    apply_or "apiserver SCC role binding" tc KRoleBinding (BuildAPIServerSCCRoleBinding shard).

(** ** Metrics *)
Definition reconcileMetrics (tc : TrackingClient) (shard : APIShard) : kprog (option error) :=
  if negb (ServiceMonitorAvailable r) then Ret None
  else
    try apply_or "metrics-reader service account" tc KServiceAccount (BuildMetricsReaderServiceAccount shard) in
    try apply_or "metrics-reader token secret" tc KSecret (BuildMetricsReaderTokenSecret shard) in
    try wrapErr "metrics-reader cluster role"
          (let* res := patch_apply PrimaryC KClusterRole BuildMetricsReaderClusterRole fieldManager in Ret res.2) in
    try apply_or "metrics-reader cluster role binding" tc KClusterRoleBinding
          (BuildMetricsReaderClusterRoleBinding shard) in
    let* e := apply_owned tc KServiceMonitor (BuildKineServiceMonitor shard) in
    match e with
    | Some err =>
        if IsNoMatchError err || IsNotFound err then Ret None
        else Ret (Some (Wrapf "kine service monitor" err))
    | None =>
        try apply_or "apiserver service monitor" tc KServiceMonitor (BuildSecondaryServiceMonitor shard) in
        try apply_or "prometheus discovery role" tc KRole (BuildPrometheusDiscoveryRole shard) in
        apply_or "prometheus discovery role binding" tc KRoleBinding (BuildPrometheusDiscoveryRoleBinding shard)
    end.

(** ** The front-proxy CA *)
Definition parseAllowedNames (raw : string) : result (list string) :=
  match (if decide (raw = "") then Ok [] else Unmarshal_strings JSONDiagnostic raw) with
  | Err err => Err (Wrapf "parsing requestheader-allowed-names" err)
  | Ok [] => Ok [defaultFrontProxyClient]
  | Ok names => Ok names
  end.

Definition reconcileRequestHeaderCA (tc : TrackingClient) (shard : APIShard) : kprog (result (list string)) :=
  let* res := get PrimaryC KConfigMap kubeSystemNamespace extensionAPIServerAuthCM in
  match res with
  | Err err => Ret (Err (Wrapf ("reading " +:+ extensionAPIServerAuthCM +:+ " from " +:+ kubeSystemNamespace) err))
  | Ok sourceCM =>
      let caData := mget (cm_Data sourceCM) "requestheader-client-ca-file" in
      if decide (caData = "")
      then Ret (Err (Errorf ("requestheader-client-ca-file not found in " +:+ extensionAPIServerAuthCM +:+ " ConfigMap")))
      else
        match parseAllowedNames (mget (cm_Data sourceCM) "requestheader-allowed-names") with
        | Err err => Ret (Err err)
        | Ok allowedNames =>
            let* e := apply_or "requestheader CA configmap" tc KConfigMap
                        (configMap (shardName shard +:+ "-requestheader-ca") (shardNS shard)
                           [("requestheader-client-ca-file", caData)]) in
            Ret (match e with Some err => Err err | None => Ok allowedNames end)
        end
  end.

(** ** APIServices *)
Definition reconcileAPIServices (shard : APIShard) : kprog (option error * APIShard) :=
  let secretName := PKISecretName shard in
  let* res := get PrimaryC KSecret (shardNS shard) secretName in
  match res with
  | Err err =>
      Ret (Some (if IsNotFound err
                 then Errorf ("TLS secret " +:+ secretName +:+ " not yet available (cert-manager pending)")
                 else Wrapf ("reading TLS secret " +:+ secretName) err), shard)
  | Ok secret =>
      let caBundle := mget (sec_Data secret) CACertKey in
      let* res := Aggregation.Reconcile PrimaryC shard caBundle (RegisteredAPIServices (Status shard)) fieldManager in
      match res with
      | Err err => Ret (Some err, shard)
      | Ok registered => Ret (None, with_status (set_RegisteredAPIServices registered) shard)
      end
  end.

(** ** The admin kubeconfig *)
Definition adminKubeconfigName (shard : APIShard) : string := shardName shard +:+ "-admin-kubeconfig".

Definition adminKubeconfigSecret (shard : APIShard) (caData clientCert clientKey : string) : Secret :=
  {| sec_TypeMeta := {| APIVersion := "v1"; TypeKind := "Secret" |};
     sec_Meta := newMeta (adminKubeconfigName shard) (shardNS shard) None;
     sec_Type := "";
     sec_Data := mlit
       [("kubeconfig",
         adminKubeconfig ("https://" +:+ shardName shard +:+ "-apiserver." +:+ shardNS shard +:+ ".svc")
           (base64_EncodeToString caData) (base64_EncodeToString clientCert) (base64_EncodeToString clientKey));
        ("tls.crt", clientCert); ("tls.key", clientKey)];
     sec_StringData := None |}.

Definition reconcileAdminKubeconfig (tc : TrackingClient) (shard : APIShard) : kprog (option error * APIShard) :=
  let* res := get PrimaryC KSecret (shardNS shard) (PKISecretName shard) in
  match res with
  | Err err => Ret (if IsNotFound err then None else Some (Wrapf "reading PKI secret" err), shard)
  | Ok pkiSecret =>
      let caData := mget (sec_Data pkiSecret) CACertKey in
      if decide (caData = "") then Ret (None, shard)
      else
        let* res := get PrimaryC KSecret (shardNS shard) (AdminClientSecretName shard) in
        match res with
        | Err err => Ret (if IsNotFound err then None else Some (Wrapf "reading admin client cert secret" err), shard)
        | Ok adminSecret =>
            let clientCert := mget (sec_Data adminSecret) "tls.crt" in
            let clientKey := mget (sec_Data adminSecret) "tls.key" in
            if bool_decide (clientCert = "") || bool_decide (clientKey = "") then Ret (None, shard)
            else
              check apply_or "admin kubeconfig secret" tc KSecret
                      (adminKubeconfigSecret shard caData clientCert clientKey)
                orelse (fun err => Ret (Some err, shard)) in
              Ret (None, with_status (set_ConnectionSecret
                           (Some {| csr_Name := adminKubeconfigName shard; csr_Namespace := shardNS shard |})) shard)
        end
  end.

(** ** Sub-resources *)
Definition secondaryConnection (shard : APIShard) : SecondaryConnectionSpec :=
  {| ServiceRef_ := {| ref_Name := shardName shard +:+ "-apiserver"; ref_Namespace := shardNS shard; ref_Port := 443 |};
     AuthSecretRef := AdminClientSecretName shard;
     CASecretRef := PKISecretName shard |}.

Definition subLabels (shard : APIShard) : gomap :=
  mlit [(LabelInstance, shardName shard); (LabelManagedBy, ManagedByValue)].

Definition newNamespaceSync (shard : APIShard) : NamespaceSync :=
  {| nsync_Meta := newMeta (shardName shard +:+ "-ns-sync") (shardNS shard) (subLabels shard);
     nsync_Spec := {| nss_Connection := {| ServiceRef_ := {| ref_Name := ""; ref_Namespace := ""; ref_Port := 0 |};
                                           AuthSecretRef := ""; CASecretRef := "" |};
                      nss_LabelSelector := {| MatchLabels := None; MatchExpressions := [] |};
                      nss_ExcludeNamespaces := [] |};
     nsync_Status := {| nss_Conditions := []; nss_SyncedNamespaces := 0; nss_LastSyncTime := None;
                        nss_ObservedGeneration := 0 |} |}.

Definition mutateNamespaceSync (tc : TrackingClient) (shard : APIShard) (n : NamespaceSync)
  : NamespaceSync * option error :=
  let '(m, e) := SetOwnership tc (nsync_Meta n) in
  match e with
  | Some err => ({| nsync_Meta := m; nsync_Spec := nsync_Spec n; nsync_Status := nsync_Status n |}, Some err)
  | None =>
      ({| nsync_Meta := m;
          nsync_Spec := {| nss_Connection := secondaryConnection shard;
                           nss_LabelSelector := NamespaceSyncSelector (Spec shard);
                           nss_ExcludeNamespaces := [] |};
          nsync_Status := nsync_Status n |}, None)
  end.

Definition reconcileNamespaceSync (tc : TrackingClient) (shard : APIShard) : kprog (option error) :=
  let* res := perform (CreateOrUpdate PrimaryC KNamespaceSync (newNamespaceSync shard) (mutateNamespaceSync tc shard)) in
  Ret res.2.

Definition newWebhookSync (shard : APIShard) : WebhookSync :=
  {| wsync_Meta := newMeta (shardName shard +:+ "-webhook-sync") (shardNS shard) (subLabels shard);
     wsync_Spec := {| whs_Connection := {| ServiceRef_ := {| ref_Name := ""; ref_Namespace := ""; ref_Port := 0 |};
                                           AuthSecretRef := ""; CASecretRef := "" |};
                      whs_APIGroups := [] |};
     wsync_Status := {| whs_Conditions := []; whs_Validating := 0; whs_Mutating := 0; whs_LastSyncTime := None;
                        whs_ObservedGeneration := 0 |} |}.

Definition mutateWebhookSync (tc : TrackingClient) (shard : APIShard) (w : WebhookSync)
  : WebhookSync * option error :=
  let '(m, e) := SetOwnership tc (wsync_Meta w) in
  match e with
  | Some err => ({| wsync_Meta := m; wsync_Spec := wsync_Spec w; wsync_Status := wsync_Status w |}, Some err)
  | None =>
      ({| wsync_Meta := m;
          wsync_Spec := {| whs_Connection := secondaryConnection shard;
                           whs_APIGroups := Group <$> APIGroups (Spec shard) |};
          wsync_Status := wsync_Status w |}, None)
  end.

Definition reconcileWebhookSync (tc : TrackingClient) (shard : APIShard) : kprog (option error) :=
  let* res := perform (CreateOrUpdate PrimaryC KWebhookSync (newWebhookSync shard) (mutateWebhookSync tc shard)) in
  Ret res.2.

(** The Ready condition of a sub-resource, copied under another type. *)
Definition propagateReady (t : string) (conditions : list Condition) (shard : APIShard) : APIShard :=
  match FindStatusCondition conditions "Ready" with
  | Some c => set_condition (shardCondition shard t (cond_Status c) (cond_Reason c) (cond_Message c)) shard
  | None => shard
  end.

Definition aggregateSubCRStatus (shard : APIShard) : kprog APIShard :=
  let* res := get PrimaryC KNamespaceSync (shardNS shard) (shardName shard +:+ "-ns-sync") in
  match res with
  | Err _ => Ret shard
  | Ok nsSync =>
      let shard := propagateReady ConditionNamespaceSyncReady (nss_Conditions (nsync_Status nsSync)) shard in
      let* res := get PrimaryC KWebhookSync (shardNS shard) (shardName shard +:+ "-webhook-sync") in
      match res with
      | Err _ => Ret shard
      | Ok whSync => Ret (propagateReady ConditionWebhookSyncReady (whs_Conditions (wsync_Status whSync)) shard)
      end
  end.

(** ** CRDs of aggregated groups *)
Definition adminClientConfig (shard : APIShard) (pkiSecret adminSecret : Secret) : ClientConfig :=
  {| cfg_Host := SecondaryEndpoint shard;
     cfg_CACert := mget (sec_Data pkiSecret) CACertKey;
     cfg_Token := "";
     cfg_ClientCert := mget (sec_Data adminSecret) "tls.crt";
     cfg_ClientKey := mget (sec_Data adminSecret) "tls.key" |}.

(** One iteration of the copy loop: the error to collect, if any. *)
Definition copyCRD (secondaryClient : client) (name : string) : kprog (option error) :=
  let* res := get PrimaryC KCRD "" name in
  match res with
  | Err err => Ret (Some (Wrapf ("get CRD " +:+ name +:+ " from primary") err))
  | Ok crd =>
      let* res := patch_apply secondaryClient KCRD (secondaryCRD crd) fieldManager in
      Ret (Wrapf ("apply CRD " +:+ name +:+ " on secondary") <$> res.2)
  end.

Definition syncCRDsToSecondary (p : clients) (shard : APIShard) (crdNames : list string)
  : kprog (option error * clients) :=
  if decide (SecondaryEndpoint shard = "")
  then Ret (Some (Errorf "secondary endpoint not available yet"), p)
  else
    let* res := get PrimaryC KSecret (shardNS shard) (PKISecretName shard) in
    match res with
    | Err err => Ret (Some (Wrapf "reading PKI secret for CRD sync" err), p)
    | Ok pkiSecret =>
        let* res := get PrimaryC KSecret (shardNS shard) (AdminClientSecretName shard) in
        match res with
        | Err err => Ret (Some (Wrapf "reading admin client cert for CRD sync" err), p)
        | Ok adminSecret =>
            let* (res, p) := GetOrCreate SHA256 p (shardName shard) (adminClientConfig shard pkiSecret adminSecret) in
            match res with
            | Err err => Ret (Some (Wrapf "creating secondary client" err), p)
            | Ok secondaryClient =>
                let* errs := collect (copyCRD secondaryClient) crdNames in
                Ret (Join errs, p)
            end
        end
    end.

Definition verifySecondaryAuth (p : clients) (shard : APIShard) : kprog (bool * clients) :=
  let* res := get PrimaryC KSecret (shardNS shard) (PKISecretName shard) in
  match res with
  | Err _ => Ret (false, p)
  | Ok pkiSecret =>
      let* res := get PrimaryC KSecret (shardNS shard) (AdminClientSecretName shard) in
      match res with
      | Err _ => Ret (false, p)
      | Ok adminSecret =>
          let cfg := adminClientConfig shard pkiSecret adminSecret in
          if bool_decide (cfg_CACert cfg = "") || bool_decide (cfg_ClientCert cfg = "") ||
             bool_decide (cfg_ClientKey cfg = "")
          then Ret (false, p)
          else
            let* (res, p) := GetOrCreate SHA256 p (shardName shard +:+ "-verify") cfg in
            match res with
            | Err _ => Ret (false, p)
            | Ok c =>
                let* res := list_objs c KNamespace ListAll in
                match res with
                | Err _ => Ret (false, Invalidate p (shardName shard +:+ "-verify"))
                | Ok _ => Ret (true, p)
                end
            end
      end
  end.

Definition crdConflict (shard : APIShard) (st : ConditionStatus) (reason message : string) : APIShard :=
  set_condition (shardCondition shard ConditionCRDConflictDetected st reason message) shard.

Definition reconcileCRDConflicts (p : clients) (shard : APIShard) : kprog (APIShard * clients) :=
  let* res := DetectCRDConflicts PrimaryC shard in
  match res with
  | Err _ => Ret (shard, p)
  | Ok conflict =>
      if HasConflict conflict then
        let* (e, p) := syncCRDsToSecondary p shard (ConflictingCRDs conflict) in
        match e with
        | Some syncErr =>
            Ret (crdConflict shard ConditionTrue "CRDSyncFailed"
                   (ConflictMessage conflict +:+ "; sync failed: " +:+ Error syncErr), p)
        | None =>
            Ret (crdConflict shard ConditionTrue "CRDsSyncedToSecondary"
                   (ConflictMessage conflict +:+ "; CRDs synced to secondary"), p)
        end
      else Ret (crdConflict shard ConditionFalse "NoConflicts" "No conflicting CRDs detected on primary", p)
  end.

(** ** Health *)
(** [ReadyReplicas > 0 && ReadyReplicas == Replicas] *)
Definition workloadReady (st : WorkloadStatus) : bool :=
  (0 <? st_ReadyReplicas st)%Z && (st_ReadyReplicas st =? st_Replicas st)%Z.

Definition checkDeploymentHealth (shard : APIShard) : kprog (result bool) :=
  let* res := get PrimaryC KDeployment (shardNS shard) (KineDeploymentName shard) in
  match res with
  | Err err => Ret (Err err)
  | Ok kineDeploy =>
      let* res := get PrimaryC KDeployment (shardNS shard) (SecondaryDeploymentName shard) in
      match res with
      | Err err => Ret (Err err)
      | Ok secondaryDeploy =>
          let ready := workloadReady (d_Status kineDeploy) && workloadReady (d_Status secondaryDeploy) in
          if decide (storageType shard = StorageTypeInClusterPostgreSQL) then
            let* res := get PrimaryC KStatefulSet (shardNS shard) (PostgreSQLStatefulSetName shard) in
            match res with
            | Err err => Ret (Err err)
            | Ok pgSts => Ret (Ok (ready && workloadReady (s_Status pgSts)))
            end
          else Ret (Ok ready)
      end
  end.

(** The CRDConflict condition is True with the given reason. *)
Definition conflictReason (shard : APIShard) (reason : string) : bool :=
  match find_condition ConditionCRDConflictDetected shard with
  | Some c => match cond_Status c with ConditionTrue => bool_decide (cond_Reason c = reason) | _ => false end
  | None => false
  end.

Definition apiServicesRegistered (shard : APIShard) (st : ConditionStatus) (reason message : string) : APIShard :=
  set_condition (shardCondition shard ConditionAPIServicesRegistered st reason message) shard.

Definition checkAPIServiceAvailability (shard : APIShard)
  : kprog (CtrlResult * option error * APIShard) :=
  if conflictReason shard "CRDSyncFailed"
  then Ret (requeue10s, None, with_status (set_Phase PhaseProvisioning) shard)
  else if negb (conflictReason shard "CRDsSyncedToSecondary")
  then Ret (noRequeue, None, remove_condition ConditionAPIServicesRegistered shard)
  else
    let* res := CheckAvailability PrimaryC (meta_UID (shard_Meta shard)) in
    match res with
    | Err err => Ret (noRequeue, Some (Wrapf "check APIService availability" err), shard)
    | Ok (available, unavailMsg) =>
        if negb available
        then Ret (requeue10s, None,
                  apiServicesRegistered (with_status (set_Phase PhaseProvisioning) shard)
                    ConditionFalse "APIServicesNotAvailable" unavailMsg)
        else Ret (noRequeue, None,
                  apiServicesRegistered shard ConditionTrue "AllAvailable"
                    "All APIServices are available via aggregation")
    end.

Definition secondaryHealthy (shard : APIShard) (st : ConditionStatus) (reason message : string) : APIShard :=
  set_condition (shardCondition shard ConditionSecondaryHealthy st reason message) shard.

Definition reconcileSubResources (tc : TrackingClient) (p : clients) (shard : APIShard)
  : kprog (APIShard * clients) :=
  let* (ok, p) := verifySecondaryAuth p shard in
  if (ok : bool) then
    let* _ := reconcileNamespaceSync tc shard in
    let* _ := reconcileWebhookSync tc shard in
    let* shard := aggregateSubCRStatus shard in
    Ret (shard, p)
  else Ret (shard, p).

Definition updateHealthStatus (tc : TrackingClient) (p : clients) (shard : APIShard)
  : kprog (CtrlResult * option error * APIShard * clients) :=
  let* healthy := checkDeploymentHealth shard in
  match healthy with
  | Err err => Ret (noRequeue, Some err, shard, p)
  | Ok false =>
      let shard := with_status (set_Phase PhaseProvisioning) shard in
      let shard := secondaryHealthy shard ConditionFalse "DeploymentNotReady"
                     "Secondary API server is not yet ready" in
      let shard :=
        if conflictReason shard "CRDsSyncedToSecondary"
        then apiServicesRegistered shard ConditionFalse "SecondaryUnhealthy"
               "Cannot verify APIService availability while secondary is unhealthy"
        else shard in
      Ret (requeue10s, None, shard, p)
  | Ok true =>
      let shard := secondaryHealthy shard ConditionTrue "DeploymentAvailable" "Secondary API server is healthy" in
      let shard := with_status (set_SecondaryEndpoint (SecondaryEndpoint shard)) shard in
      let* (shard, p) := reconcileSubResources tc p shard in
      let* (result, e, shard) := checkAPIServiceAvailability shard in
      if bool_decide (is_Some e) || (0 <? RequeueAfter result)%Z
      then Ret (result, e, shard, p)
      else Ret (noRequeue, None, with_status (set_Phase PhaseReady) shard, p)
  end.

(** ** Errors *)
Definition errorStatus (shard : APIShard) (err : error) : APIShard :=
  let shard := with_status (fun st => set_ObservedGeneration (shardGeneration shard)
                              (set_Message (Error err) (set_Phase PhaseError st))) shard in
  set_condition (shardCondition shard ConditionReconciled ConditionFalse "ReconcileError" (Error err)) shard.

Definition setErrorAndRequeue (shard : APIShard) (err : error) : kprog (CtrlResult * option error) :=
  let* _ := status_update PrimaryC KAPIShard (errorStatus shard err) in
  Ret (noRequeue, Some err).

(** ** Deletion *)
(** One iteration over the registered APIServices of a shard being deleted. *)
Definition deregister (name : string) : kprog (option error) :=
  let* res := get PrimaryC KAPIService "" name in
  match res with
  | Err err => if IsNotFound err then Ret None else Ret (Some err)
  | Ok apiSvc =>
      let* e := delete_obj PrimaryC KAPIService apiSvc in
      match e with
      | Some err => if IsNotFound err then Ret None else Ret (Some err)
      | None => Ret None
      end
  end.

Definition finalize (shard : APIShard) : kprog (CtrlResult * option error) :=
  if ContainsFinalizer (shard_Meta shard) finalizerName then
    check for_each deregister (RegisteredAPIServices (Status shard))
      orelse (fun err => Ret (noRequeue, Some err)) in
    let* res := update PrimaryC KAPIShard (with_meta (fun m => RemoveFinalizer m finalizerName) shard) in
    Ret (noRequeue, res.2)
  else Ret (noRequeue, None).

(** ** Reconcile *)
(** [if err := step(); err != nil { return r.setErrorAndRequeue(ctx, &shard, err) }] *)
Definition orFail (p : clients) (step : kprog (option error * APIShard)) (k : APIShard -> kprog outcome)
  : kprog outcome :=
  let* (e, shard) := step in
  match e with
  | Some err => let* res := setErrorAndRequeue shard err in Ret (res, p)
  | None => k shard
  end.

(** A step that leaves the shard alone. *)
Definition keeping (shard : APIShard) (step : kprog (option error)) : kprog (option error * APIShard) :=
  let* e := step in Ret (e, shard).

Definition successStatus (shard : APIShard) : APIShard :=
  let shard := with_status (fun st => set_ObservedGeneration (shardGeneration shard) (set_Message "" st)) shard in
  set_condition (shardCondition shard ConditionReconciled ConditionTrue "ReconcileSucceeded"
                   "All resources reconciled successfully") shard.

(** From the APIServices on: conflicts, health, orphans, status. *)
Definition conclude (tc : TrackingClient) (p : clients) (shard : APIShard) : kprog outcome :=
  let* (shard, p) := reconcileCRDConflicts p shard in
  let* (healthResult, e, shard, p) := updateHealthStatus tc p shard in
  match e with
  | Some err => Ret ((noRequeue, Some err), p)
  | None =>
      let* _ := perform (CleanupOrphans tc ownerLabelKey (shardName shard) managedGVKs) in
      let* res := status_update PrimaryC KAPIShard (successStatus shard) in
      match res.2 with
      | Some err => Ret ((noRequeue, Some err), p)
      | None => Ret ((healthResult, None), p)
      end
  end.

(** The steps that create and update the resources of a shard. *)
Definition provision (p : clients) (shard : APIShard) : kprog outcome :=
  let tc := trackingClient shard in
  orFail p (reconcileStorage r tc shard) (fun shard =>
  orFail p (keeping shard (reconcileCertManager tc shard)) (fun shard =>
  orFail p (keeping shard (reconcileAuthConfig tc shard)) (fun shard =>
  orFail p (keeping shard (reconcileSecondaryServiceAccount tc shard)) (fun shard =>
  orFail p (keeping shard (reconcileAuthDelegator tc shard)) (fun shard =>
  orFail p (keeping shard (reconcileAPIServerSCC tc shard)) (fun shard =>
    let* names := reconcileRequestHeaderCA tc shard in
    match names with
    | Err err => let* res := setErrorAndRequeue shard err in Ret (res, p)
    | Ok requestHeaderAllowedNames =>
        orFail p (reconcileAdminKubeconfig tc shard) (fun shard =>
        orFail p (keeping shard (reconcileSecondary r tc shard requestHeaderAllowedNames)) (fun shard =>
        orFail p (keeping shard (reconcileMetrics tc shard)) (fun shard =>
        orFail p (reconcileAPIServices shard) (fun shard =>
        conclude tc p shard))))
    end)))))).

(** The part of Reconcile for a shard that is not being deleted, after its
    finalizer is known to be there. *)
Definition reconcileLive (p : clients) (shard : APIShard) : kprog outcome :=
  orFail p (keeping shard (ensureNamespace shard)) (fun shard =>
    if decide (Phase (Status shard) = "") then
      let* (shard, e) := status_update PrimaryC KAPIShard (with_status (set_Phase PhaseProvisioning) shard) in
      match e with
      | Some err => Ret ((noRequeue, Some err), p)
      | None => provision p shard
      end
    else provision p shard).

Definition Reconcile (p : clients) (req : NamespacedName) : kprog outcome :=
  let* res := perform (Get PrimaryC KAPIShard req) in
  match res with
  | Err err => Ret ((noRequeue, if IsNotFound err then None else Some err), p)
  | Ok shard =>
      match meta_DeletionTimestamp (shard_Meta shard) with
      | Some _ => let* res := finalize shard in Ret (res, p)
      | None =>
          if ContainsFinalizer (shard_Meta shard) finalizerName then reconcileLive p shard
          else
            let* (shard, e) :=
              perform (PatchMergeFrom PrimaryC KAPIShard (with_meta (fun m => AddFinalizer m finalizerName) shard) shard) in
            match e with
            | Some err => Ret ((noRequeue, Some err), p)
            | None => reconcileLive p shard
            end
      end
  end.
End Controller.
