(* ===== verification/ApiShardLemmas.v ===== *)
(** * Lemmas on the steps of the APIShard controller

    Which parts of a shard the steps may change, the identity of the objects they
    apply, and the monitor of the tracked set. *)
From S2P Require Import Prelude GoStd NetUrl GoJson KubeTypes APITypes Kube ResCommon KineRes PostgresRes.
From S2P Require Import SecondaryRes MetricsRes OtelRes Certs Aggregation ClientProvider ApiShardSteps.
From S2P Require Import ApiShard.

(** ** Steps change the status of a shard only *)
Definition statusOnly (s s' : APIShard) : Prop := shard_Meta s' = shard_Meta s /\ Spec s' = Spec s.

#[export] Instance statusOnly_preorder : PreOrder statusOnly.
Proof. split; [by intros s|]. intros a b c [??] [??]. split; congruence. Qed.

Lemma statusOnly_with_status f s : statusOnly s (with_status f s).
Proof. done. Qed.

Section StatusOnly.
Context {T : ThirdParty}.

Lemma statusOnly_set_condition c s : statusOnly s (set_condition c s).
Proof. done. Qed.
Lemma statusOnly_remove_condition t s : statusOnly s (remove_condition t s).
Proof. done. Qed.
End StatusOnly.

Lemma statusOnly_name s s' : statusOnly s s' -> shardName s' = shardName s.
Proof. intros [H _]. unfold shardName. by rewrite H. Qed.
Lemma statusOnly_ns s s' : statusOnly s s' -> shardNS s' = shardNS s.
Proof. intros [_ H]. unfold shardNS. by rewrite H. Qed.
Lemma statusOnly_storage s s' : statusOnly s s' -> storageType s' = storageType s.
Proof. intros [_ H]. unfold storageType. by rewrite H. Qed.
Lemma statusOnly_trans a b c : statusOnly a b -> statusOnly b c -> statusOnly a c.
Proof. apply transitivity. Qed.

Create HintDb status discriminated.
#[export] Hint Resolve statusOnly_with_status statusOnly_set_condition statusOnly_remove_condition : status.
#[export] Hint Extern 1 (statusOnly _ _) => (split; reflexivity) : status.

(** Walk through a program that returns a shard. *)
Ltac always_step :=
  match goal with
  | |- always _ (Ret _) => cbn
  | |- always _ (match ?x with _ => _ end) => destruct x eqn:?
  | |- always _ (bind _ _) => eapply always_bind; [solve [eauto with status]|]; intros ? ?
  | |- always _ (bind _ _) => eapply always_bind; [apply always_true|]; intros ? _
  | H : match ?x with _ => _ end |- _ => destruct x eqn:?
  | |- always _ (let _ := _ in _) => cbv zeta
  end.
Ltac always_tac := cbv zeta; repeat always_step; repeat case_match; eauto with status.

Section AlwaysStatus.
Context {T : ThirdParty}.
Variable r : Reconciler.

Definition keeps1 (s : APIShard) : option error * APIShard -> Prop := fun '(_, s') => statusOnly s s'.

Lemma always_preserve s d :
  always (fun '(_, s', _) => statusOnly s s') (preservePostgreSQLVolumeClaimTemplates s d).
Proof. unfold preservePostgreSQLVolumeClaimTemplates. always_tac. Qed.
Local Hint Resolve always_preserve : status.

Lemma always_inCluster tc s : always (keeps1 s) (reconcileInClusterPostgreSQL r tc s).
Proof. unfold reconcileInClusterPostgreSQL, keeps1. always_tac. Qed.
Local Hint Resolve always_inCluster : status.

Lemma always_external s : always (keeps1 s) (validateExternalPostgreSQLSecret s).
Proof. unfold validateExternalPostgreSQLSecret, keeps1. always_tac. Qed.
Local Hint Resolve always_external : status.

Lemma always_metrics tc s : always (fun s' => statusOnly s s') (reconcilePostgreSQLMetrics r tc s).
Proof. unfold reconcilePostgreSQLMetrics, monitoringDegraded. always_tac. Qed.
Local Hint Resolve always_metrics : status.

Lemma always_backend tc s : always (keeps1 s) (reconcileBackend r tc s).
Proof. unfold reconcileBackend. always_tac; unfold keeps1; eauto with status. Qed.
Local Hint Resolve always_backend : status.

Lemma always_storage tc s : always (keeps1 s) (reconcileStorage r tc s).
Proof.
  unfold reconcileStorage. always_tac; unfold keeps1 in *; eauto using statusOnly_trans with status.
Qed.

Lemma always_admin tc s : always (keeps1 s) (reconcileAdminKubeconfig tc s).
Proof. unfold reconcileAdminKubeconfig, keeps1. always_tac. Qed.

Lemma always_apiservices s : always (keeps1 s) (reconcileAPIServices s).
Proof. unfold reconcileAPIServices, keeps1. always_tac. Qed.

Lemma always_conflicts p s : always (fun '(s', _) => statusOnly s s') (reconcileCRDConflicts p s).
Proof. unfold reconcileCRDConflicts, crdConflict. always_tac. Qed.

Lemma statusOnly_propagate t cs s : statusOnly s (propagateReady t cs s).
Proof. unfold propagateReady. case_match; eauto with status. Qed.
Local Hint Resolve statusOnly_propagate : status.

Lemma always_aggregate s : always (fun s' => statusOnly s s') (aggregateSubCRStatus s).
Proof. unfold aggregateSubCRStatus. always_tac; eauto using statusOnly_trans with status. Qed.
Local Hint Resolve always_aggregate : status.

Lemma always_sub tc p s : always (fun '(s', _) => statusOnly s s') (reconcileSubResources tc p s).
Proof. unfold reconcileSubResources. always_tac. Qed.
Local Hint Resolve always_sub : status.

Lemma always_availability s : always (fun '(_, _, s') => statusOnly s s') (checkAPIServiceAvailability s).
Proof. unfold checkAPIServiceAvailability, apiServicesRegistered. always_tac. Qed.
Local Hint Resolve always_availability : status.

Lemma always_health tc p s : always (fun '(_, _, s', _) => statusOnly s s') (updateHealthStatus tc p s).
Proof.
  unfold updateHealthStatus, secondaryHealthy, apiServicesRegistered. always_tac.
  all: unfold statusOnly in *; simpl in *; split; destruct_and?; congruence.
Qed.
End AlwaysStatus.

#[export] Hint Resolve always_storage always_admin always_apiservices always_conflicts always_health : status.
