(* ===== verification/Tracking.v ===== *)
(** * The tracked set of a reconciliation

    The tracking client remembers every object applied through it and, at the end,
    deletes owned objects it has not seen.  The monitor below follows that set:
    orphans are cleaned up only when every object the shard needs is in it. *)
From S2P Require Import Prelude GoStd NetUrl GoJson KubeTypes APITypes Kube ResCommon KineRes PostgresRes.
From S2P Require Import SecondaryRes MetricsRes OtelRes Certs Aggregation ClientProvider ApiShardSteps.
From S2P Require Import ApiShard ApiShardLemmas.

(** ** The identity of an object: its group, version and kind, and its key

    The group, version and kind of a typed object is that of its Go type in the
    scheme of the client; an unstructured object carries its own. *)
Definition shardGVK (kind : string) : GroupVersionKind := GVK "kube-shard.konflux-ci.dev" "v1alpha1" kind.
Definition rbacGVK (kind : string) : GroupVersionKind := GVK "rbac.authorization.k8s.io" "v1" kind.

(** The kind of typed objects; an unstructured one carries its own. *)
Definition kind_gvk (k : Kind) : GroupVersionKind :=
  match k with
  | KAPIShard => shardGVK "APIShard"
  | KNamespaceSync => shardGVK "NamespaceSync"
  | KWebhookSync => shardGVK "WebhookSync"
  | KAPIService => GVK "apiregistration.k8s.io" "v1" "APIService"
  | KCRD => GVK "apiextensions.k8s.io" "v1" "CustomResourceDefinition"
  | KDeployment => GVK "apps" "v1" "Deployment"
  | KStatefulSet => GVK "apps" "v1" "StatefulSet"
  | KService => GVK "" "v1" "Service"
  | KSecret => GVK "" "v1" "Secret"
  | KConfigMap => GVK "" "v1" "ConfigMap"
  | KServiceAccount => GVK "" "v1" "ServiceAccount"
  | KNamespace => GVK "" "v1" "Namespace"
  | KClusterRole => rbacGVK "ClusterRole"
  | KRole => rbacGVK "Role"
  | KClusterRoleBinding => rbacGVK "ClusterRoleBinding"
  | KRoleBinding => rbacGVK "RoleBinding"
  | KPDB => GVK "policy" "v1" "PodDisruptionBudget"
  | KServiceMonitor => GVK "monitoring.coreos.com" "v1" "ServiceMonitor"
  | KUnstructured => GVK "" "" ""
  | KVWHC => GVK "admissionregistration.k8s.io" "v1" "ValidatingWebhookConfiguration"
  | KMWHC => GVK "admissionregistration.k8s.io" "v1" "MutatingWebhookConfiguration"
  end.

Definition obj_gvk (k : Kind) : obj k -> GroupVersionKind :=
  match k return obj k -> GroupVersionKind with
  | KUnstructured => fun o => u_GVK o
  | _ => fun _ => kind_gvk k
  end.

Abbreviation identity := (GroupVersionKind * NamespacedName)%type.
Definition ident (k : Kind) (o : obj k) : identity := (obj_gvk k o, obj_key k o).

(** ** The objects a shard needs to serve *)
Definition pdbIdent (pdb : option PodDisruptionBudget) : list identity :=
  match pdb with Some p => [ident KPDB p] | None => [] end.

Section Core.
Context {T : ThirdParty}.
Variable r : Reconciler.
Variable shard : APIShard.

Definition postgresObjects : list identity :=
  if decide (storageType shard = StorageTypeInClusterPostgreSQL)
  then [ ident KSecret (BuildPostgreSQLSecret shard ""); ident KConfigMap (BuildPostgreSQLInitConfigMap shard);
         ident KStatefulSet (BuildPostgreSQLStatefulSet shard); ident KService (BuildPostgreSQLService shard) ]
  else [].

Definition kineObjects : list identity :=
  [ident KDeployment (BuildKineDeployment shard)] ++
  pdbIdent (BuildPDB (KineDeploymentName shard) (shardNS shard) (kine_Replicas (Kine (Spec shard))) None) ++
  [ident KService (BuildKineService shard)].

Definition authObjects : list identity :=
  [ ident KConfigMap (configMap (shardName shard +:+ "-authz-config") (shardNS shard) []);
    ident KServiceAccount (BuildSecondaryServiceAccount shard);
    ident KClusterRoleBinding (authDelegatorBinding shard) ] ++
  (if SCCAvailable r
   then [ ident KUnstructured (BuildAPIServerSCC shard); ident KClusterRole (BuildAPIServerSCCClusterRole shard);
          ident KRoleBinding (BuildAPIServerSCCRoleBinding shard) ]
   else []) ++
  [ ident KConfigMap (configMap (shardName shard +:+ "-requestheader-ca") (shardNS shard) []) ].

Definition secondaryObjects : list identity :=
  [ident KDeployment (BuildSecondaryDeployment shard [] [])] ++
  pdbIdent (BuildPDB (SecondaryDeploymentName shard) (shardNS shard) (sec_Replicas (Secondary (Spec shard))) None) ++
  [ident KService (BuildSecondaryService shard)].

(** Without these the shard does not serve: storage, Kine, certificates,
    authentication, the secondary API server. *)
Definition coreObjects : list identity :=
  postgresObjects ++ kineObjects ++ (ident KUnstructured <$> buildCertResources shard) ++
  authObjects ++ secondaryObjects.
End Core.

(** ** The monitor *)
(** An apply returns the object it was given, under the same identity. *)
Definition keepsIdentity (c : call) : resp c -> Prop :=
  match c return resp c -> Prop with
  | ApplyOwned _ k o => fun res => ident k res.1 = ident k o
  | _ => fun _ => True
  end.

#[export] Instance keepsIdentity_dec c res : Decision (keepsIdentity c res).
Proof. destruct c; try apply True_dec. exact (decide (ident k res.1 = ident k o)). Defined.

Lemma keepsIdentity_check (tr : list kevent) :
  forallb (fun e => bool_decide (keepsIdentity (ev_call e) (ev_resp e))) tr = true -> relied keepsIdentity tr.
Proof.
  rewrite forallb_forall. intros H. apply Forall_forall. intros e He.
  apply list_elem_of_In, H in He. by apply bool_decide_eq_true in He.
Qed.

Definition track (g : list identity) (c : call) : resp c -> list identity :=
  match c return resp c -> list identity with
  | ApplyOwned _ k o => fun res => match res.2 with None => ident k o :: g | Some _ => g end
  | _ => fun _ => g
  end.

(** Orphans are cleaned up with every object of [core] tracked, by the owner label
    of the shard and over all managed kinds. *)
Definition cleanupWith (core : list identity) (owner : string) (g : list identity) (c : call) : Prop :=
  match c with
  | CleanupOrphans _ key own gvks => core ⊆ g /\ key = ownerLabelKey /\ own = owner /\ gvks = managedGVKs
  | _ => True
  end.

Definition notCleanup (c : call) : Prop := match c with CleanupOrphans _ _ _ _ => False | _ => True end.

(** ** Calls after the APIServices are registered *)
(** Conflict handling and health checks read, copy CRDs to the secondary and
    create the sub-resources; they apply, delete and finalize nothing else. *)
Definition concludeCall (c : call) : Prop :=
  match c with
  | Get _ KAPIShard _ | Update _ _ _ | PatchMergeFrom _ _ _ _ | Create _ _ _ | ApplyOwned _ _ _
  | Delete _ _ _ | StatusUpdate _ _ _ | CleanupOrphans _ _ _ _ => False
  | _ => True
  end.

Lemma concludeCall_notCleanup c : concludeCall c -> notCleanup c.
Proof. by destruct c. Qed.

Section Every.
Context {T : ThirdParty}.

Lemma every_GetOrCreate f p key cfg : every concludeCall (GetOrCreate f p key cfg).
Proof. unfold GetOrCreate, createLocked. every_tac. Qed.
Local Hint Resolve every_GetOrCreate : kube.

Lemma every_copyCRD c n : every concludeCall (copyCRD c n).
Proof. unfold copyCRD. every_tac. Qed.
Local Hint Resolve every_copyCRD : kube.

Lemma every_syncCRDs p s l : every concludeCall (syncCRDsToSecondary p s l).
Proof. unfold syncCRDsToSecondary. every_tac. Qed.
Local Hint Resolve every_syncCRDs : kube.

Lemma every_conflicts p s : every concludeCall (reconcileCRDConflicts p s).
Proof. unfold reconcileCRDConflicts, DetectCRDConflicts. every_tac. Qed.

Lemma every_verify p s : every concludeCall (verifySecondaryAuth p s).
Proof. unfold verifySecondaryAuth. every_tac. Qed.
Local Hint Resolve every_verify : kube.

Lemma every_health tc p s : every concludeCall (updateHealthStatus tc p s).
Proof.
  unfold updateHealthStatus, checkDeploymentHealth, reconcileSubResources, reconcileNamespaceSync,
    reconcileWebhookSync, aggregateSubCRStatus, checkAPIServiceAvailability, CheckAvailability. every_tac.
Qed.
End Every.

(** ** Every step tracks its objects *)
Section Track.
Context {T : ThirdParty} {L : ThirdPartyLaws T}.
Variable r : Reconciler.
Variable core : list identity.
Variable owner : string.

Local Abbreviation W := (wp keepsIdentity track (cleanupWith core owner)).

(** The tracked set grew, and holds [ids] if there was no error. *)
Definition adds (ids g : list identity) (e : option error) (g' : list identity) : Prop :=
  g ⊆ g' /\ (e = None -> ids ⊆ g').
Definition addsS (ids g : list identity) (x : option error * APIShard) (g' : list identity) : Prop :=
  adds ids g x.1 g'.

Lemma W_grow {A} (p : kprog A) g : every notCleanup p -> W p g (fun _ g' => g ⊆ g').
Proof.
  intros H. eapply (wp_grow _ _ _ _ _ notCleanup (⊆)); [done|].
  intros g' c Hg Hc. destruct c; try done; split; try done; intros res _; simpl; try reflexivity.
  destruct (res.2); set_solver.
Qed.

Lemma W_apply_or what tc k o g : W (apply_or what tc k o) g (adds [ident k o] g).
Proof.
  unfold apply_or, apply_owned. simpl. split; [done|]. intros [o' [e|]] _; simpl; unfold adds; set_solver.
Qed.

Lemma W_try p (q : kprog (option error)) ids1 ids2 g :
  W p g (adds ids1 g) -> (forall g', W q g' (adds ids2 g')) ->
  W (try p in q) g (adds (ids1 ++ ids2) g).
Proof.
  intros Hp Hq. eapply wp_seq; [exact Hp|]. intros [e|] g1 [H1 H2]; simpl; [by split|].
  eapply wp_mono; [apply Hq|]. intros e g2 [H3 H4]. unfold adds. set_solver.
Qed.

Lemma W_skip ids g : ids ⊆ [] -> W (Ret None) g (adds ids g).
Proof. simpl. unfold adds. set_solver. Qed.

(** The identity of a budget does not depend on its selector. *)
Lemma W_pdb what tc n ns reps sel g :
  W (applyPDB what tc (BuildPDB n ns reps sel)) g (adds (pdbIdent (BuildPDB n ns reps None)) g).
Proof. unfold applyPDB, BuildPDB. destruct (reps <? 2)%Z; [by apply W_skip|]. apply W_apply_or. Qed.

Lemma W_kineService tc svc g : W (applyKineService tc svc) g (adds [ident KService svc] g).
Proof.
  unfold applyKineService. simpl. split; [done|]. intros [svc' [e|]] Hk; simpl in *.
  - case_match; simpl; [|unfold adds; set_solver].
    split; [done|]. intros [o [e'|]] _; simpl; unfold adds; [set_solver|].
    split; [set_solver|]. intros _. rewrite <- Hk. set_solver.
  - unfold adds. set_solver.
Qed.

Lemma W_reconcileKine tc s g : W (reconcileKine r tc s) g (adds (kineObjects s) g).
Proof.
  unfold reconcileKine, kineObjects. cbv zeta. eapply wp_seq.
  { simpl. split; [done|]. intros res _. instantiate (1 := fun res g' => adds [ident KDeployment (BuildKineDeployment s)] g res.2 g').
    destruct res as [o [e|]]; simpl; unfold adds; [set_solver|]. destruct (SCCAvailable r); set_solver. }
  intros [o [e|]] g1 [H1 H2]; simpl in *; [by split|].
  eapply wp_mono.
  { eapply W_try; [apply W_pdb|]. intros g'. apply W_kineService. }
  intros e g2 [H3 H4]. split; [set_solver|]. intros He. specialize (H4 He). specialize (H2 eq_refl). set_solver.
Qed.

Lemma W_reconcileSecondary tc s names g : W (reconcileSecondary r tc s names) g (adds (secondaryObjects s) g).
Proof.
  unfold reconcileSecondary, secondaryObjects. eapply wp_seq.
  { simpl. split; [done|]. intros res _. instantiate (1 := fun res g' => adds [ident KDeployment (BuildSecondaryDeployment s [] [])] g res.2 g').
    destruct res as [o [e|]]; simpl; unfold adds; set_solver. }
  intros [o [e|]] g1 [H1 H2]; simpl in *; [by split|].
  eapply wp_mono.
  { eapply W_try; [apply W_pdb|]. intros g'. apply W_apply_or. }
  intros e g2 [H3 H4]. split; [set_solver|]. intros He. specialize (H4 He). specialize (H2 eq_refl). set_solver.
Qed.

(** A checked step of a function that returns the shard as well. *)
Lemma W_check p (k : kprog (option error * APIShard)) s ids1 ids2 g :
  W p g (adds ids1 g) -> (forall g', W k g' (addsS ids2 g')) ->
  W (check p orelse (fun e => Ret (Some e, s)) in k) g (addsS (ids1 ++ ids2) g).
Proof.
  intros Hp Hk. eapply wp_seq; [exact Hp|]. intros [e|] g1 [H1 H2]; simpl; [by split|].
  eapply wp_mono; [apply Hk|]. intros [e g3] g2 [H3 H4]. unfold addsS, adds in *. simpl in *. set_solver.
Qed.

Lemma align_ident d e : ident KStatefulSet (AlignPostgreSQLVolumeClaims d e) = ident KStatefulSet d.
Proof. unfold AlignPostgreSQLVolumeClaims. by case_decide. Qed.

Lemma always_preserve_ident s d :
  always (fun '(_, s', d') => statusOnly s s' /\ ident KStatefulSet d' = ident KStatefulSet d)
    (preservePostgreSQLVolumeClaimTemplates s d).
Proof.
  unfold preservePostgreSQLVolumeClaimTemplates. intros res. destruct res as [e|e]; simpl.
  - case_match; simpl; by rewrite align_ident.
  - by case_match.
Qed.

Lemma W_inCluster tc s g :
  storageType s = StorageTypeInClusterPostgreSQL ->
  W (reconcileInClusterPostgreSQL r tc s) g (addsS (postgresObjects s) g).
Proof.
  intros Hs. unfold reconcileInClusterPostgreSQL, postgresObjects. rewrite decide_True by done.
  eapply wp_seq. { apply W_grow. unfold getOrGeneratePostgresPassword, GeneratePassword. every_tac. }
  intros [pw|e] g1 Hg1; cbv beta iota zeta; [|by split].
  eapply wp_mono.
  { apply (W_check _ _ s [ident KSecret (BuildPostgreSQLSecret s pw)]); [apply W_apply_or|]. intros g2.
    apply (W_check _ _ s [ident KConfigMap (BuildPostgreSQLInitConfigMap s)]); [apply W_apply_or|]. intros g3.
    eapply wp_seq.
    { eapply wp_always; [|apply always_preserve_ident]. apply W_grow.
      unfold preservePostgreSQLVolumeClaimTemplates. every_tac. }
    intros [[[e|] s'] d'] g4 [Hg4 [Hst Hd]]; cbv beta iota; [by split|].
    eapply wp_mono.
    { apply (W_check _ _ s' [ident KStatefulSet d']); [apply W_apply_or|]. intros g5.
      apply (W_check _ _ s' [ident KService (BuildPostgreSQLService s')]); [apply W_apply_or|]. intros g6.
      simpl. instantiate (1 := []). unfold addsS, adds. set_solver. }
    intros x g5 [H5 H6]. unfold addsS, adds.
    instantiate (1 := [ident KStatefulSet (BuildPostgreSQLStatefulSet s); ident KService (BuildPostgreSQLService s)]).
    split; [set_solver|]. intros Hx. specialize (H6 Hx).
    assert (ident KStatefulSet d' = ident KStatefulSet (BuildPostgreSQLStatefulSet s)) as Hd2
      by (rewrite Hd; by destruct (SCCAvailable r)).
    assert (ident KService (BuildPostgreSQLService s') = ident KService (BuildPostgreSQLService s)) as Hsv.
    { unfold ident, obj_key; simpl. unfold PostgreSQLServiceName.
      by rewrite (statusOnly_name _ _ Hst), (statusOnly_ns _ _ Hst). }
    rewrite Hd2, Hsv, app_nil_r in H6. exact H6. }
  intros x g2 [H1 H2]. split; [set_solver|]. intros Hx. exact (H2 Hx).
Qed.

Lemma W_storage tc s g : W (reconcileStorage r tc s) g (addsS (postgresObjects s ++ kineObjects s) g).
Proof.
  unfold reconcileStorage. eapply wp_seq.
  { instantiate (1 := fun x g' => addsS (postgresObjects s) g x g' /\ keeps1 s x).
    apply wp_always; [|apply always_backend].
    unfold reconcileBackend. destruct (storageType s) eqn:Hs.
    1,4: unfold addsS, adds, postgresObjects; simpl; rewrite decide_False by congruence; set_solver.
    - eapply wp_seq; [by apply W_inCluster|]. intros [e s'] g' [H1 H2]. split; [done|].
      simpl. intros He. apply H2. by destruct e.
    - eapply wp_mono; [apply W_grow; unfold validateExternalPostgreSQLSecret; every_tac|].
      intros [e s'] g' Hg. split; [done|]. intros _. unfold postgresObjects.
      rewrite decide_False by congruence. set_solver. }
  intros [[e|] s'] g1 [[H1 H2] H3]; cbv beta iota; [by split|]. eapply wp_seq.
  { eapply wp_seq; [apply W_reconcileKine|]. intros e g2 H4. simpl. instantiate (1 := adds (kineObjects s') g1).
    destruct H4 as [H4 H5]. by destruct e. }
  intros [e|] g2 [H4 H5]; cbv beta iota; [split; [set_solver|done]|].
  eapply wp_mono.
  { apply W_grow. unfold reconcilePostgreSQLMetrics, externalMetrics, ensureOTelCredentialSecret,
      applyOTelCollector, apply_or, apply_owned. cbv zeta. every_tac. }
  intros [e s''] g3 Hg3. unfold addsS, adds. split; [set_solver|]. intros _.
  assert (kineObjects s' = kineObjects s) as Hk
    by (destruct s, s'; destruct H3 as [He1 He2]; simpl in *; by subst).
  rewrite Hk in H5. specialize (H2 eq_refl). specialize (H5 eq_refl). set_solver.
Qed.

Lemma W_certs tc s g : W (reconcileCertManager tc s) g (adds (ident KUnstructured <$> buildCertResources s) g).
Proof.
  unfold reconcileCertManager. generalize (buildCertResources s). intros l.
  revert g. induction l as [|x l IH]; intros g; [by apply W_skip|]. cbn [for_each].
  eapply (W_try _ _ [ident KUnstructured x]); [apply W_apply_or|apply IH].
Qed.

Lemma W_authDelegator tc s g :
  W (reconcileAuthDelegator tc s) g (adds [ident KClusterRoleBinding (authDelegatorBinding s)] g).
Proof.
  unfold reconcileAuthDelegator. destruct (SetControllerReference _ _) as [m [e|]] eqn:E; [by split|].
  assert (ident KClusterRoleBinding (authDelegatorBinding s) =
          ident KClusterRoleBinding (rb_with_meta m (authDelegatorBinding s))) as ->.
  { unfold ident, obj_key; simpl. by rewrite (set_controller_name _ _ _ E), (set_controller_namespace _ _ _ E). }
  apply W_apply_or.
Qed.

Lemma W_scc tc s g :
  W (reconcileAPIServerSCC r tc s) g (adds (if SCCAvailable r
   then [ ident KUnstructured (BuildAPIServerSCC s); ident KClusterRole (BuildAPIServerSCCClusterRole s);
          ident KRoleBinding (BuildAPIServerSCCRoleBinding s) ] else []) g).
Proof.
  unfold reconcileAPIServerSCC. destruct (SCCAvailable r); simpl negb; cbv iota; [|by apply W_skip].
  apply (W_try _ _ [_]); [apply W_apply_or|]. intros g1.
  apply (W_try _ _ [_] [_]); [apply W_apply_or|]. intros g2. apply W_apply_or.
Qed.

Lemma W_requestHeader tc s g :
  W (reconcileRequestHeaderCA tc s) g (fun x g' => g ⊆ g' /\ (is_ok x = true ->
     ident KConfigMap (configMap (shardName s +:+ "-requestheader-ca") (shardNS s) []) ∈ g')).
Proof.
  unfold reconcileRequestHeaderCA. eapply wp_seq; [by apply W_grow; every_tac|].
  intros [cm|e] g1 H1; cbv beta iota zeta; [|by split]. case_decide; [by split|].
  case_match; [|by split]. eapply wp_seq; [apply W_apply_or|]. intros [e|] g2 [H2 H3]; simpl; split; try done.
  - set_solver.
  - set_solver.
  - intros _. apply H3; [done|]. left.
Qed.

(** ** Composition *)
Lemma W_fail (p : clients) s e g : W (let* res := setErrorAndRequeue s e in Ret (res, p)) g (fun _ _ => True).
Proof. simpl. by split. Qed.

Lemma W_orFail p s step k ids g :
  W step g (addsS ids g) -> always (keeps1 s) step ->
  (forall s' g', statusOnly s s' -> g ⊆ g' -> ids ⊆ g' -> W (k s') g' (fun _ _ => True)) ->
  W (orFail p step k) g (fun _ _ => True).
Proof.
  intros Hs Ha Hk. unfold orFail. eapply wp_seq; [exact (wp_always _ _ _ _ _ _ _ Hs Ha)|].
  intros [[e|] s'] g1 [[H1 H2] H3]; [apply W_fail|]. apply Hk; auto.
Qed.

Lemma W_orFail_keeping p s step k ids g :
  W step g (adds ids g) ->
  (forall g', g ⊆ g' -> ids ⊆ g' -> W (k s) g' (fun _ _ => True)) ->
  W (orFail p (keeping s step) k) g (fun _ _ => True).
Proof.
  intros Hs Hk. unfold orFail, keeping. eapply wp_seq.
  { eapply wp_seq; [exact Hs|]. intros e g1 H1. simpl. instantiate (1 := fun x g' => adds ids g x.1 g' /\ x.2 = s). done. }
  intros [[e|] s'] g1 [[H1 H2] H3]; simpl in *; subst; [by split|]. auto.
Qed.

Lemma W_conclude tc p s g :
  core ⊆ g -> owner = shardName s -> W (conclude tc p s) g (fun _ _ => True).
Proof.
  intros Hc Ho. unfold conclude. eapply wp_seq.
  { apply wp_always; [apply W_grow; eapply every_mono; [apply concludeCall_notCleanup|apply every_conflicts]|apply always_conflicts]. }
  intros [s1 p1] g1 [H1 Hs1]. eapply wp_seq.
  { apply wp_always; [apply W_grow; eapply every_mono; [apply concludeCall_notCleanup|apply every_health]|apply always_health]. }
  intros [[[res e] s2] p2] g2 [H2 Hs2]. destruct e as [e|]; [done|].
  cbn. split.
  - split; [set_solver|]. split; [done|]. split; [|done].
    by rewrite Ho, (statusOnly_name _ _ Hs2), (statusOnly_name _ _ Hs1).
  - intros ? _. split; [done|]. intros [o [e|]] _; done.
Qed.
End Track.

Section TrackProvision.
Context {T : ThirdParty} {L : ThirdPartyLaws T}.

Lemma core_statusOnly r s s' : statusOnly s s' -> coreObjects r s' = coreObjects r s.
Proof. intros [H1 H2]. destruct s, s'; simpl in *; by subst. Qed.

Lemma coreObjects_eq r s :
  coreObjects r s = (postgresObjects s ++ kineObjects s) ++ (ident KUnstructured <$> buildCertResources s) ++
                    authObjects r s ++ secondaryObjects s.
Proof. unfold coreObjects. by rewrite <- app_assoc. Qed.

Lemma W_provision r p s g :
  wp keepsIdentity track (cleanupWith (coreObjects r s) (shardName s)) (provision r p s) g (fun _ _ => True).
Proof.
  unfold provision. cbv zeta.
  eapply W_orFail; [apply W_storage|apply always_storage|]. intros s1 g1 Hs1 _ I1.
  rewrite <- (core_statusOnly r _ _ Hs1), <- (statusOnly_name _ _ Hs1).
  assert (postgresObjects s1 ++ kineObjects s1 ⊆ g1) as I1'.
  { destruct Hs1 as [E1 E2]; destruct s, s1; simpl in *; by subst. }
  clear I1. revert Hs1. intros _.
  eapply W_orFail_keeping; [apply W_certs|]. intros g2 G2 I2.
  eapply W_orFail_keeping; [apply W_apply_or|]. intros g3 G3 I3.
  eapply W_orFail_keeping; [apply W_apply_or|]. intros g4 G4 I4.
  eapply W_orFail_keeping; [apply W_authDelegator|]. intros g5 G5 I5.
  eapply W_orFail_keeping; [apply W_scc|]. intros g6 G6 I6.
  eapply wp_seq; [apply W_requestHeader|]. intros [names|e] g7 [G7 I7]; [|apply W_fail].
  specialize (I7 eq_refl).
  eapply (W_orFail _ _ _ _ _ _ []); [|apply always_admin|].
  { eapply wp_mono; [apply W_grow; unfold reconcileAdminKubeconfig; every_tac|]. intros x g8 H8. split; [done|]. set_solver. }
  intros s2 g8 Hs2 G8 _.
  rewrite <- (core_statusOnly r _ _ Hs2), <- (statusOnly_name _ _ Hs2).
  eapply W_orFail_keeping; [apply W_reconcileSecondary|]. intros g9 G9 I9.
  eapply (W_orFail_keeping _ _ _ _ _ _ []).
  { eapply wp_mono; [apply W_grow; unfold reconcileMetrics; every_tac|]. intros x g10 H10. split; [done|]. set_solver. }
  intros g10 G10 _.
  assert (coreObjects r s2 ⊆ g10) as Hcore.
  { rewrite (core_statusOnly r _ _ Hs2), coreObjects_eq.
    assert (secondaryObjects s1 = secondaryObjects s2) as ->
      by (destruct Hs2 as [E1 E2]; destruct s1, s2; simpl in *; by subst).
    clear -I1' I2 I3 I4 I5 I6 I7 I9 G2 G3 G4 G5 G6 G7 G8 G9 G10.
    change ([ident KConfigMap (configMap (shardName s1 +:+ "-authz-config") (shardNS s1) [])] ⊆ g3) in I3.
    pose proof (transitivity G9 G10) as C8. pose proof (transitivity G8 C8) as C7.
    pose proof (transitivity G7 C7) as C6. pose proof (transitivity G6 C6) as C5.
    pose proof (transitivity G5 C5) as C4. pose proof (transitivity G4 C4) as C3.
    pose proof (transitivity G3 C3) as C2. pose proof (transitivity G2 C2) as C1.
    unfold authObjects. rewrite !list_subseteq_app_iff_l in *. destruct_and!.
    repeat split; try (by etrans).
    - intros x Hx. rewrite !elem_of_cons in Hx. destruct Hx as [->|[->|[->|Hx]]].
      + apply C3, I3. left.
      + apply C4, I4. left.
      + apply C5, I5. left.
      + by apply elem_of_nil in Hx.
    - intros x Hx. apply list_elem_of_singleton in Hx as ->. auto. }
  eapply (W_orFail _ _ _ _ _ _ []); [|apply always_apiservices|].
  { eapply wp_mono; [apply W_grow; unfold reconcileAPIServices, Aggregation.Reconcile, applyAPIService, deleteOrphan; every_tac|].
    intros x g11 H11. split; [done|]. set_solver. }
  intros s3 g11 Hs3 G11 _.
  rewrite <- (core_statusOnly r _ _ Hs3), <- (statusOnly_name _ _ Hs3).
  apply W_conclude; [|done]. rewrite (core_statusOnly r _ _ Hs3). set_solver.
Qed.
End TrackProvision.
