(* ===== verification/Rbac.v ===== *)
(** * The operator's permissions

    The role of the operator, as the kubebuilder markers above its three Reconcile
    methods declare it, with the rules for the metrics endpoints of
    config/rbac/metrics_reader_role.yaml and metrics_auth_role.yaml, and what a call
    to the primary needs: the verbs the API server checks, and for a role or a binding
    that is written the permissions it grants, which nobody may grant without having
    them. *)
From S2P Require Import Prelude GoStd NetUrl GoJson KubeTypes APITypes Kube ResCommon KineRes PostgresRes.
From S2P Require Import SecondaryRes MetricsRes OtelRes Certs Aggregation ClientProvider ApiShardSteps.
From S2P Require Import ApiShard ApiShardLemmas Tracking.

(** ** The role *)
Definition resourceRule (group : string) (resources verbs : list string) : PolicyRule :=
  {| rule_APIGroups := [group]; rule_Resources := resources; rule_ResourceNames := [];
     rule_NonResourceURLs := []; rule_Verbs := verbs |}.

Definition readVerbs : list string := ["get"; "list"; "watch"].
Definition allVerbs : list string := ["get"; "list"; "watch"; "create"; "update"; "patch"; "delete"].
Definition shardGroup : string := "kube-shard.konflux-ci.dev".

Definition apishardRules : list PolicyRule :=
  [ resourceRule shardGroup ["apishards"] allVerbs;
    resourceRule shardGroup ["apishards/finalizers"] ["update"];
    resourceRule shardGroup ["apishards/status"] ["get"; "update"; "patch"];
    resourceRule "apps" ["deployments"] allVerbs;
    resourceRule "apps" ["statefulsets"] allVerbs;
    resourceRule "" ["services"] allVerbs;
    resourceRule "" ["namespaces"] ["get"; "list"; "watch"; "create"; "update"; "patch"];
    resourceRule "" ["secrets"] allVerbs;
    resourceRule "" ["configmaps"] allVerbs;
    resourceRule "cert-manager.io" ["issuers"; "certificates"] allVerbs;
    resourceRule "apiregistration.k8s.io" ["apiservices"] allVerbs;
    resourceRule "apiextensions.k8s.io" ["customresourcedefinitions"] ["get"; "list"; "watch"; "create"; "update"];
    resourceRule shardGroup ["webhooksyncs"] allVerbs;
    resourceRule "rbac.authorization.k8s.io" ["clusterrolebindings"] allVerbs;
    resourceRule "policy" ["poddisruptionbudgets"] allVerbs;
    resourceRule "monitoring.coreos.com" ["servicemonitors"] allVerbs;
    resourceRule "" ["serviceaccounts"] allVerbs;
    resourceRule "" ["endpoints"] readVerbs;
    resourceRule "" ["pods"] readVerbs;
    resourceRule "rbac.authorization.k8s.io" ["clusterroles"] allVerbs;
    resourceRule "rbac.authorization.k8s.io" ["roles"] allVerbs;
    resourceRule "rbac.authorization.k8s.io" ["rolebindings"] allVerbs;
    resourceRule "security.openshift.io" ["securitycontextconstraints"] (allVerbs ++ ["use"]) ].

Definition namespaceSyncRules : list PolicyRule :=
  [ resourceRule shardGroup ["namespacesyncs"] allVerbs;
    resourceRule shardGroup ["namespacesyncs/status"] ["get"; "update"; "patch"];
    resourceRule shardGroup ["namespacesyncs/finalizers"] ["update"];
    resourceRule "" ["namespaces"] readVerbs;
    resourceRule "" ["secrets"] readVerbs ].

Definition webhookSyncRules : list PolicyRule :=
  [ resourceRule shardGroup ["webhooksyncs"] allVerbs;
    resourceRule shardGroup ["webhooksyncs/status"] ["get"; "update"; "patch"];
    resourceRule shardGroup ["webhooksyncs/finalizers"] ["update"];
    resourceRule "admissionregistration.k8s.io" ["mutatingwebhookconfigurations"] readVerbs;
    resourceRule "admissionregistration.k8s.io" ["validatingwebhookconfigurations"] readVerbs;
    resourceRule "" ["secrets"] readVerbs ].

(** config/rbac/metrics_reader_role.yaml *)
Definition metricsReaderRules : list PolicyRule :=
  [ {| rule_APIGroups := []; rule_Resources := []; rule_ResourceNames := [];
       rule_NonResourceURLs := ["/metrics"]; rule_Verbs := ["get"] |} ].

(** config/rbac/metrics_auth_role.yaml *)
Definition metricsAuthRules : list PolicyRule :=
  [ resourceRule "authentication.k8s.io" ["tokenreviews"] ["create"];
    resourceRule "authorization.k8s.io" ["subjectaccessreviews"] ["create"] ].

Definition operatorRules : list PolicyRule :=
  apishardRules ++ namespaceSyncRules ++ webhookSyncRules ++ metricsReaderRules ++ metricsAuthRules.

(** ** Authorization *)
Inductive permission :=
  | OnResource (group resource verb : string)
  | OnURL (url verb : string).

Definition mem (x : string) (l : list string) : bool := bool_decide (x ∈ l).

(** A rule without resource names covers every object. *)
Definition covers (p : permission) (rule : PolicyRule) : bool :=
  match p with
  | OnResource g res v =>
      mem g (rule_APIGroups rule) && mem res (rule_Resources rule) && mem v (rule_Verbs rule) &&
      bool_decide (rule_ResourceNames rule = [])
  | OnURL url v => mem url (rule_NonResourceURLs rule) && mem v (rule_Verbs rule)
  end.

Definition held (p : permission) : bool := existsb (covers p) operatorRules.

(** The permissions a rule grants, on all objects or on the named ones. *)
Definition grantedBy (rule : PolicyRule) : list permission :=
  (rule_APIGroups rule ≫= fun g => rule_Resources rule ≫= fun res => OnResource g res <$> rule_Verbs rule) ++
  (rule_NonResourceURLs rule ≫= fun url => OnURL url <$> rule_Verbs rule).

(** The resources of the kinds. *)
Definition plurals : list (string * string) :=
  [ ("APIShard", "apishards"); ("NamespaceSync", "namespacesyncs"); ("WebhookSync", "webhooksyncs");
    ("APIService", "apiservices"); ("CustomResourceDefinition", "customresourcedefinitions");
    ("Deployment", "deployments"); ("StatefulSet", "statefulsets"); ("Service", "services"); ("Secret", "secrets");
    ("ConfigMap", "configmaps"); ("ServiceAccount", "serviceaccounts"); ("Namespace", "namespaces");
    ("ClusterRole", "clusterroles"); ("Role", "roles"); ("ClusterRoleBinding", "clusterrolebindings");
    ("RoleBinding", "rolebindings"); ("PodDisruptionBudget", "poddisruptionbudgets");
    ("ServiceMonitor", "servicemonitors"); ("Issuer", "issuers"); ("Certificate", "certificates");
    ("SecurityContextConstraints", "securitycontextconstraints");
    ("ValidatingWebhookConfiguration", "validatingwebhookconfigurations");
    ("MutatingWebhookConfiguration", "mutatingwebhookconfigurations") ].

Definition plural (kind : string) : string :=
  default "" (snd <$> List.find (fun p => bool_decide (p.1 = kind)) plurals).

Definition on (g : GroupVersionKind) (subresource : string) (verbs : list string) : list permission :=
  OnResource (gvk_Group g) (plural (gvk_Kind g) +:+ subresource) <$> verbs.

(** What a role or a cluster role grants. *)
Definition grants (k : Kind) : obj k -> list permission :=
  match k return obj k -> list permission with
  | KRole | KClusterRole => fun o => role_Rules o ≫= grantedBy
  | _ => fun _ => []
  end.

(** The permissions a call to the primary needs.  Reads of the manager's client are
    served from informers, which list and watch; an apply patches and may create;
    the tracking client and the mutators of sub-resources also set owner references that block the deletion of the
    shard, for which the finalizers of shards must be updatable. *)
Definition needs (c : call) : list permission :=
  match c with
  | Get PrimaryC k _ | ListObjs PrimaryC k _ => on (kind_gvk k) "" readVerbs
  | Create PrimaryC k o => on (obj_gvk k o) "" ["create"] ++ grants k o
  | Update PrimaryC k o => on (obj_gvk k o) "" ["update"] ++ grants k o
  | StatusUpdate PrimaryC k o => on (obj_gvk k o) "/status" ["update"]
  | PatchMergeFrom PrimaryC k o _ => on (obj_gvk k o) "" ["patch"] ++ grants k o
  | PatchApply PrimaryC k o _ _ => on (obj_gvk k o) "" ["patch"; "create"] ++ grants k o
  | Delete PrimaryC k o => on (obj_gvk k o) "" ["delete"]
  | ApplyOwned _ k o =>
      on (obj_gvk k o) "" ["patch"; "create"] ++ grants k o ++ on (shardGVK "APIShard") "/finalizers" ["update"]
  | CreateOrUpdate PrimaryC k o _ =>
      on (kind_gvk k) "" (readVerbs ++ ["create"; "update"]) ++ grants k o ++ on (shardGVK "APIShard") "/finalizers" ["update"]
  | CleanupOrphans _ _ _ gvks => gvks ≫= fun g => on g "" ["list"; "delete"]
  | _ => []
  end.

Definition authorized (c : call) : Prop := forallb held (needs c) = true.

(** ** Bindings
    Who writes a binding must have the permissions of the role it binds, or the verb
    bind on it.  The roles of the cluster are followed along a run: a role that was
    applied has the rules it was applied with. *)
(** The kind, namespace and name of a role. *)
Abbreviation roleKey := (string * string * string)%type.
Abbreviation roleTable := (gmap roleKey (list PolicyRule)).

Definition storeRole (k : Kind) : obj k -> roleTable -> roleTable :=
  match k return obj k -> roleTable -> roleTable with
  | KRole => fun o g => <[("Role", meta_Namespace (role_Meta o), meta_Name (role_Meta o)) := role_Rules o]> g
  | KClusterRole => fun o g => <[("ClusterRole", "", meta_Name (role_Meta o)) := role_Rules o]> g
  | _ => fun _ g => g
  end.

Definition learnRole (g : roleTable) (c : call) : resp c -> roleTable :=
  match c return resp c -> roleTable with
  | PatchApply PrimaryC k o _ _ | ApplyOwned _ k o =>
      fun res => match res.2 with None => storeRole k o g | Some _ => g end
  | _ => fun _ => g
  end.

Definition boundRole (b : RoleBinding) : roleKey :=
  let ref := rb_RoleRef b in
  (rr_Kind ref, if decide (rr_Kind ref = "Role") then meta_Namespace (rb_Meta b) else "", rr_Name ref).

(** What the role of a binding grants; a role that is not known takes the verb bind. *)
Definition boundPermissions (g : roleTable) (k : Kind) : obj k -> list permission :=
  match k return obj k -> list permission with
  | KRoleBinding | KClusterRoleBinding => fun b =>
      match g !! boundRole b with
      | Some rules => rules ≫= grantedBy
      | None => on (rbacGVK (rr_Kind (rb_RoleRef b))) "" ["bind"]
      end
  | _ => fun _ => []
  end.

Definition bindingNeeds (g : roleTable) (c : call) : list permission :=
  match c with
  | Create PrimaryC k o | Update PrimaryC k o | PatchMergeFrom PrimaryC k o _ | PatchApply PrimaryC k o _ _
  | ApplyOwned _ k o | CreateOrUpdate PrimaryC k o _ => boundPermissions g k o
  | _ => []
  end.

(** Calls that write roles or bindings. *)
Definition rolesKind (k : Kind) : bool :=
  match k with KRole | KClusterRole | KRoleBinding | KClusterRoleBinding => true | _ => false end.
Definition roleless (c : call) : Prop :=
  match c with
  | Create _ k _ | Update _ k _ | PatchMergeFrom _ k _ _ | PatchApply _ k _ _ _
  | ApplyOwned _ k _ | CreateOrUpdate _ k _ _ => rolesKind k = false
  | _ => True
  end.

Lemma roleless_learns g c res : roleless c -> learnRole g c res = g.
Proof. destruct c as [| | | | | |[] []|  |? [] | | | | | | |]; try done; by destruct res as [? [|]]. Qed.

Lemma roleless_needs g c : roleless c -> bindingNeeds g c = [].
Proof. by destruct c as [| |[] []|[] []| |[] []|[] []| |? []|[] []| | | | | |]. Qed.

(** The cluster role system:auth-delegator that every Kubernetes cluster has, as
    documented: who holds it may create token reviews and subject access reviews. *)
Definition delegatorKey : roleKey := ("ClusterRole", "", "system:auth-delegator").
Definition delegatorRules : list PolicyRule :=
  [ resourceRule "authentication.k8s.io" ["tokenreviews"] ["create"];
    resourceRule "authorization.k8s.io" ["subjectaccessreviews"] ["create"] ].
Definition documentedDelegator (g : roleTable) : Prop := g !! delegatorKey = Some delegatorRules.
