(* ===== verification/Typing.v ===== *)
(** * Types of applied objects

    Server-side apply sends an object as it is: it must name its own API version and
    kind, and a namespace exactly if its kind is namespaced. *)
From S2P Require Import Prelude GoStd NetUrl GoJson KubeTypes APITypes Kube ResCommon KineRes PostgresRes.
From S2P Require Import SecondaryRes MetricsRes OtelRes Certs Aggregation ClientProvider ApiShardSteps.
From S2P Require Import ApiShard ApiShardLemmas Tracking.

(** [schema.GroupVersion.String] *)
Definition apiVersion (g : GroupVersionKind) : string :=
  if decide (gvk_Group g = "") then gvk_Version g else gvk_Group g +:+ "/" +:+ gvk_Version g.

Definition typeMetaFor (g : GroupVersionKind) : TypeMeta := {| APIVersion := apiVersion g; TypeKind := gvk_Kind g |}.

(** The TypeMeta an object carries, where its kind is written to the API by an apply;
    an unstructured object is written from its GroupVersionKind. *)
Definition typeMeta (k : Kind) : obj k -> TypeMeta :=
  match k return obj k -> TypeMeta with
  | KAPIService => as_TypeMeta
  | KCRD => crd_TypeMeta
  | KDeployment => d_TypeMeta
  | KStatefulSet => s_TypeMeta
  | KService => svc_TypeMeta
  | KSecret => sec_TypeMeta
  | KConfigMap => cm_TypeMeta
  | KServiceAccount => sa_TypeMeta
  | KNamespace => ns_TypeMeta
  | KClusterRole | KRole => role_TypeMeta
  | KClusterRoleBinding | KRoleBinding => rb_TypeMeta
  | KPDB => pdb_TypeMeta
  | KServiceMonitor => sm_TypeMeta
  | KUnstructured => fun o => typeMetaFor (u_GVK o)
  | KVWHC | KMWHC => wc_TypeMeta
  | KAPIShard | KNamespaceSync | KWebhookSync => fun _ => {| APIVersion := ""; TypeKind := "" |}
  end.

Definition clusterScoped (g : GroupVersionKind) : bool :=
  bool_decide (gvk_Kind g ∈ ["Namespace"; "ClusterRole"; "ClusterRoleBinding"; "APIService";
                             "CustomResourceDefinition"; "APIShard"; "SecurityContextConstraints";
                             "ValidatingWebhookConfiguration"; "MutatingWebhookConfiguration"]).

(** The object names its type, and the namespace [ns] if its kind has one. *)
Definition wellTyped (ns : string) (k : Kind) (o : obj k) : Prop :=
  typeMeta k o = typeMetaFor (obj_gvk k o) /\
  meta_Namespace (obj_meta k o) = if clusterScoped (obj_gvk k o) then "" else ns.

(** What an apply sends. *)
Definition typedCall (ns : string) (c : call) : Prop :=
  match c with
  | ApplyOwned _ k o => wellTyped ns k o /\ obj_gvk k o ∈ managedGVKs
  | PatchApply _ k o owner _ => wellTyped ns k o /\ owner = fieldManager
  | _ => True
  end.

(** What an object keeps that is handed to the tracking client: its labels and owner
    references are set in place, its type and its key are not touched, also when the
    apply then fails. *)
Definition keepsType (k : Kind) (o o' : obj k) : Prop :=
  typeMeta k o' = typeMeta k o /\ ident k o' = ident k o.

(** A failed apply keeps the type and the key of the object it was given, and the
    update of the status of a shard does not change its target namespace, which is part of
    its specification. *)
Definition serverKeeps (c : call) : resp c -> Prop :=
  match c return resp c -> Prop with
  | ApplyOwned _ k o => fun res => res.2 <> None -> keepsType k o res.1
  | StatusUpdate _ k o =>
      match k return obj k -> obj k * option error -> Prop with
      | KAPIShard => fun o res => shardNS res.1 = shardNS o
      | _ => fun _ _ => True
      end o
  | _ => fun _ => True
  end.
