(* ===== verification/LiveRule.v ===== *)
(** * Reasoning about a whole reconciliation

    The rule [wp_live] composes facts about the single steps into a fact about the
    reconciliation of a shard that is not being deleted: an invariant of a
    monitor's ghost state, kept by every step up to [conclude]. *)
From S2P Require Import Prelude GoStd NetUrl GoJson KubeTypes APITypes Kube ResCommon KineRes PostgresRes.
From S2P Require Import SecondaryRes MetricsRes OtelRes Certs Aggregation ClientProvider ApiShardSteps.
From S2P Require Import ApiShard ApiShardLemmas Tracking Rbac Typing.

(** ** What the steps before [conclude] call *)
(** They read few kinds, and no APIShard, never write one nor its status, clean
    nothing up, and what they apply through the tracking client is of a managed kind;
    all of it with the operator's permissions. *)
Definition looseCall (c : call) : Prop :=
  match c with
  | Get PrimaryC (KSecret | KStatefulSet | KConfigMap | KAPIService) _ | Delete PrimaryC KAPIService _
  | PatchApply PrimaryC (KNamespace | KAPIService) _ _ _ | RandRead _ => True
  | PatchApply PrimaryC KClusterRole _ _ _ => authorized c
  | ApplyOwned _ k o => obj_gvk k o ∈ managedGVKs /\ authorized c
  | _ => False
  end.

(** The steps but the storage's apply their objects as they build them, in the namespace
    [ns] of the shard, and only three of them write roles and bindings. *)
Definition quietCall (ns : string) (c : call) : Prop := looseCall c /\ typedCall ns c.
Definition plainCall (ns : string) (c : call) : Prop := quietCall ns c /\ roleless c.
Definition storageCall (c : call) : Prop := looseCall c /\ roleless c.

(** With the statuses that are written before [conclude], an Error or the initial
    Provisioning. *)
Definition stepCall (c : call) : Prop :=
  match c with
  | StatusUpdate PrimaryC KAPIShard o => Phase (Status o) = PhaseError \/ Phase (Status o) = PhaseProvisioning
  | _ => looseCall c
  end.

Lemma loose_step c : looseCall c -> stepCall c.
Proof. by destruct c as [| | | |[|] []| | | | | | | | | | |]. Qed.

(** The permissions of a call are checked by evaluation. *)
#[export] Hint Extern 1 (authorized _) => (reflexivity) : kube.
#[export] Hint Extern 1 (_ ∈ managedGVKs) => (apply list_elem_of_In; cbn; tauto) : kube.

Lemma quiet_loose ns c : quietCall ns c -> looseCall c.
Proof. by intros []. Qed.
Lemma plain_storage ns c : plainCall ns c -> storageCall c.
Proof. by intros [[] ?]. Qed.

Lemma every_loose {A} ns (p : kprog A) : every (quietCall ns) p -> every looseCall p.
Proof. apply every_mono, quiet_loose. Qed.
Lemma every_plain {A} ns (p : kprog A) : every (plainCall ns) p -> every (quietCall ns) p.
Proof. apply every_mono. by intros c []. Qed.
Lemma every_plain_storage {A} ns (p : kprog A) : every (plainCall ns) p -> every storageCall p.
Proof. apply every_mono, plain_storage. Qed.

#[export] Hint Extern 1 (wellTyped _ _ _) => (split; reflexivity) : kube.
#[export] Hint Extern 1 (roleless _) => (first [exact I|reflexivity]) : kube.
#[export] Hint Extern 1 (looseCall (ApplyOwned _ _ _)) => (split; auto with kube) : kube.
#[export] Hint Extern 1 (quietCall _ (ApplyOwned _ _ _)) => (split; split; auto with kube) : kube.
#[export] Hint Extern 1 (quietCall _ (PatchApply _ _ _ _ _)) => (split; [done|split; [auto with kube|reflexivity]]) : kube.
#[export] Hint Extern 1 (plainCall _ _) => (split; [solve [by auto with kube]|solve [auto with kube]]) : kube.
#[export] Hint Extern 1 (storageCall _) => (split; [solve [by auto with kube]|solve [auto with kube]]) : kube.

Section StepCalls.
Context {T : ThirdParty} {L : ThirdPartyLaws T}.
Variable r : Reconciler.

Lemma every_namespace s : every (plainCall (shardNS s)) (ensureNamespace s).
Proof. unfold ensureNamespace. every_tac. Qed.

Lemma every_apply_or (P : call -> Prop) what tc k o :
  P (ApplyOwned tc k o) -> every P (apply_or what tc k o).
Proof. intros H. unfold apply_or, apply_owned. cbn [bind perform every]. split; [exact H|]. by intros. Qed.
Local Hint Resolve every_apply_or : kube.

Lemma every_pdb what tc n ns reps sel : every (plainCall ns) (applyPDB what tc (BuildPDB n ns reps sel)).
Proof. unfold applyPDB, BuildPDB. destruct (_ <? 2)%Z; every_tac. Qed.
Local Hint Resolve every_pdb : kube.

(** The fallback applies what the failed attempt left of the service. *)
Lemma every_pdb_storage what tc n ns reps sel : every storageCall (applyPDB what tc (BuildPDB n ns reps sel)).
Proof. eapply every_plain_storage, every_pdb. Qed.
Local Hint Resolve every_pdb_storage : kube.

Lemma every_kineService tc svc : every storageCall (applyKineService tc svc).
Proof. unfold applyKineService, apply_or, apply_owned. every_tac. Qed.
Local Hint Resolve every_kineService : kube.

Lemma every_kine tc s : every storageCall (reconcileKine r tc s).
Proof. unfold reconcileKine. cbv zeta. every_tac. Qed.
Local Hint Resolve every_kine : kube.

Lemma always_preserve_type s d :
  wellTyped (shardNS s) KStatefulSet d ->
  always (fun x => shardNS x.1.2 = shardNS s /\ wellTyped (shardNS s) KStatefulSet x.2) (preservePostgreSQLVolumeClaimTemplates s d).
Proof.
  intros Hd. unfold preservePostgreSQLVolumeClaimTemplates, AlignPostgreSQLVolumeClaims. intros [e|e]; cbn.
  - case_match; cbn; case_decide; by auto with kube.
  - by case_match.
Qed.

Lemma every_inCluster tc s : every (plainCall (shardNS s)) (reconcileInClusterPostgreSQL r tc s).
Proof.
  unfold reconcileInClusterPostgreSQL. cbv zeta.
  apply every_bind; [unfold getOrGeneratePostgresPassword, GeneratePassword; every_tac|]. intros [pw|e]; [|done].
  do 2 (apply every_bind; [by auto with kube|]; intros [e|]; [done|]).
  eapply every_bind_always; [unfold preservePostgreSQLVolumeClaimTemplates; every_tac| |].
  { apply always_preserve_type. destruct (SCCAvailable r); auto with kube. }
  intros [[[e|] s'] sts] [Hns Hsts]; [done|]. cbn in Hns. rewrite <- Hns in Hsts |- *. every_tac.
Qed.
Local Hint Resolve every_inCluster : kube.

Lemma every_collector tc s ps c : every (plainCall (shardNS s)) (applyOTelCollector r tc s ps c).
Proof. unfold applyOTelCollector. cbv zeta. every_tac. Qed.
Local Hint Resolve every_collector : kube.

Lemma every_pgMetrics tc s : every (plainCall (shardNS s)) (reconcilePostgreSQLMetrics r tc s).
Proof.
  unfold reconcilePostgreSQLMetrics, externalMetrics, ensureOTelCredentialSecret. cbv zeta. every_tac.
Qed.
Local Hint Resolve every_pgMetrics : kube.

Lemma every_backend tc s : every (plainCall (shardNS s)) (reconcileBackend r tc s).
Proof.
  unfold reconcileBackend. destruct (storageType s); [done| | |done].
  - apply every_bind; [apply every_inCluster|]. by intros [].
  - unfold validateExternalPostgreSQLSecret. every_tac.
Qed.

Lemma every_storage tc s : every storageCall (reconcileStorage r tc s).
Proof.
  unfold reconcileStorage, wrapErr. apply every_bind; [eapply every_plain_storage, every_backend|]. intros [[e|] s']; [done|].
  apply every_bind; [apply every_bind; [apply every_kine|done]|]. intros [e|]; [done|].
  apply every_bind; [eapply every_plain_storage, every_pgMetrics|done].
Qed.

Lemma every_storage_loose tc s : every looseCall (reconcileStorage r tc s).
Proof. eapply every_mono; [|apply every_storage]. by intros c []. Qed.

Lemma every_certs tc s : every (plainCall (shardNS s)) (reconcileCertManager tc s).
Proof.
  unfold reconcileCertManager. apply every_for_each. intros x Hx.
  assert (Forall (fun u => plainCall (shardNS s) (ApplyOwned tc KUnstructured u)) (buildCertResources s)) as Hall.
  { unfold buildCertResources. case_decide; repeat (apply Forall_cons; split; [by auto with kube|]); constructor. }
  rewrite Forall_forall in Hall. by apply every_apply_or, Hall.
Qed.

Lemma every_auth tc s : every (plainCall (shardNS s)) (reconcileAuthConfig tc s).
Proof. unfold reconcileAuthConfig. every_tac. Qed.

Lemma every_account tc s : every (plainCall (shardNS s)) (reconcileSecondaryServiceAccount tc s).
Proof. unfold reconcileSecondaryServiceAccount. every_tac. Qed.

Lemma every_delegator tc s : every (quietCall (shardNS s)) (reconcileAuthDelegator tc s).
Proof.
  unfold reconcileAuthDelegator. destruct (SetControllerReference _ _) as [m [e|]] eqn:E; [done|].
  apply every_apply_or. split; split; [auto with kube|auto with kube| |auto with kube]. split; [done|].
  exact (set_controller_namespace _ _ _ E).
Qed.

Lemma every_scc tc s : every (quietCall (shardNS s)) (reconcileAPIServerSCC r tc s).
Proof. unfold reconcileAPIServerSCC. every_tac. Qed.

Lemma every_requestHeader tc s : every (plainCall (shardNS s)) (reconcileRequestHeaderCA tc s).
Proof. unfold reconcileRequestHeaderCA. cbv zeta. every_tac. Qed.

Lemma every_admin tc s : every (plainCall (shardNS s)) (reconcileAdminKubeconfig tc s).
Proof. unfold reconcileAdminKubeconfig. cbv zeta. every_tac. Qed.

Lemma every_secondary tc s names : every (plainCall (shardNS s)) (reconcileSecondary r tc s names).
Proof. unfold reconcileSecondary. every_tac. Qed.

Lemma wellTyped_discovery s : wellTyped (shardNS s) KRoleBinding (BuildPrometheusDiscoveryRoleBinding s).
Proof. unfold BuildPrometheusDiscoveryRoleBinding. destruct (PrometheusServiceAccount s). auto with kube. Qed.
Local Hint Resolve wellTyped_discovery : kube.

Lemma every_metrics tc s : every (quietCall (shardNS s)) (reconcileMetrics r tc s).
Proof. unfold reconcileMetrics, wrapErr, apply_owned. every_tac. Qed.

Lemma every_applyAPIService s ca gv : every (plainCall (shardNS s)) (applyAPIService PrimaryC s ca fieldManager gv).
Proof.
  unfold applyAPIService, ownedAPIService. cbv zeta.
  destruct (SetControllerReference _ _) as [m [e|]] eqn:E; [done|].
  apply every_bind; [|done]. split; [|done]. split; [|done]. split; [done|]. split; [|done].
  split; [done|]. exact (set_controller_namespace _ _ _ E).
Qed.
Local Hint Resolve every_applyAPIService : kube.

Lemma every_apiservices s : every (plainCall (shardNS s)) (reconcileAPIServices s).
Proof.
  unfold reconcileAPIServices, Aggregation.Reconcile, deleteOrphan. cbv zeta. every_tac.
Qed.

Lemma every_setError s e : every stepCall (setErrorAndRequeue s e).
Proof. simpl. split; [by left|done]. Qed.

Lemma every_initialStatus s :
  every stepCall (status_update PrimaryC KAPIShard (with_status (set_Phase PhaseProvisioning) s)).
Proof. simpl. split; [by right|done]. Qed.
End StepCalls.

#[export] Hint Resolve every_namespace every_storage every_certs every_auth every_account every_delegator
  every_scc every_requestHeader every_admin every_secondary every_metrics every_apiservices every_setError
  every_initialStatus every_backend every_kine every_pgMetrics every_pdb : kube.

(** ** The rule *)
Section Rule.
Context {T : ThirdParty} {L : ThirdPartyLaws T} {S : Type}.
Variable env : forall c, resp c -> Prop.
Variable step : S -> forall c, resp c -> S.
Variable pre : S -> call -> Prop.
Variable I : S -> Prop.
Variable Q : outcome -> S -> Prop.
Variable r : Reconciler.

(** The program keeps the invariant. *)
Definition Keeps {A} (p : kprog A) : Prop := forall s, I s -> wp env step pre p s (fun _ s' => I s').

Lemma Keeps_every {A} (p : kprog A) (P : call -> Prop) :
  every P p -> (forall s c, I s -> P c -> pre s c /\ forall res, env c res -> I (step s c res)) -> Keeps p.
Proof.
  intros Hp HI s Hs. assert (PreOrder (fun s s' => I s -> I s')) by (split; unfold Reflexive, Transitive; auto).
  eapply wp_mono.
  { apply (wp_grow _ _ _ _ _ P (fun s s' => I s -> I s')); [exact Hp|].
    intros s' c Hss Hc. destruct (HI s' c (Hss Hs) Hc) as [? HI']. split; auto. }
  auto.
Qed.

Lemma Keeps_keeping sh st : Keeps st -> Keeps (keeping sh st).
Proof. intros H s Hs. unfold keeping. eapply wp_seq; [by apply H|]. done. Qed.

(** What follows a failed step reaches [Q]. *)
Variable Hfail : forall p sh e s, I s -> wp env step pre (let* res := setErrorAndRequeue sh e in Ret (res, p)) s Q.

(** A step leaves the namespace of the shard as it is. *)
Lemma wp_orFail p sh st k s :
  Keeps st -> always (keeps1 sh) st ->
  (forall sh' s, shardNS sh' = shardNS sh -> I s -> wp env step pre (k sh') s Q) -> I s ->
  wp env step pre (orFail p st k) s Q.
Proof.
  intros Hst Ha Hk Hs. unfold orFail. eapply wp_seq; [apply wp_always; [by apply Hst|exact Ha]|].
  intros [[e|] sh'] s' [Hs' Hsh]; [by apply Hfail|]. apply Hk; [by apply statusOnly_ns|done].
Qed.

Lemma wp_keeping p sh st k s :
  Keeps st -> (forall s, I s -> wp env step pre (k sh) s Q) -> I s -> wp env step pre (orFail p (keeping sh st) k) s Q.
Proof.
  intros Hst Hk Hs. unfold orFail, keeping. eapply wp_seq.
  { eapply wp_seq; [by apply Hst|]. intros e s' Hs'. cbn. instantiate (1 := fun x s' => I s' /\ x.2 = sh). done. }
  intros [[e|] sh'] s' [Hs' Hsh]; cbn in Hsh; subst; [by apply Hfail|by apply Hk].
Qed.

(** The steps keep the invariant: those that write no roles, the three that do, and the
    storage. *)
Variable ns : string.
Variable Hsteps : forall A (p : kprog A), every (plainCall ns) p -> Keeps p.
Variable Hdelegator : forall tc sh, shardNS sh = ns -> Keeps (reconcileAuthDelegator tc sh).
Variable Hscc : forall tc sh, shardNS sh = ns -> Keeps (reconcileAPIServerSCC r tc sh).
Variable Hmetrics : forall tc sh, shardNS sh = ns -> Keeps (reconcileMetrics r tc sh).
Variable Hstorage : forall tc sh, shardNS sh = ns -> Keeps (reconcileStorage r tc sh).
Variable Hconclude : forall tc p sh s, I s -> wp env step pre (conclude tc p sh) s Q.

Lemma wp_provision p sh s : shardNS sh = ns -> I s -> wp env step pre (provision r p sh) s Q.
Proof.
  assert (Hplain : forall A (q : kprog A) sh, every (plainCall (shardNS sh)) q -> shardNS sh = ns -> Keeps q)
    by (intros A q sh' Hq Hn; apply Hsteps; by rewrite <- Hn).
  intros Hns Hs. unfold provision. cbv zeta.
  eapply wp_orFail; [by apply Hstorage|apply always_storage| |exact Hs]. clear s Hs. intros sh1 g1 N1 I1.
  rewrite Hns in N1. clear Hns.
  do 3 (apply wp_keeping; [eapply Hplain; [eauto with kube|exact N1]| |assumption]; intros ? ?).
  apply wp_keeping; [by apply Hdelegator| |assumption]. intros ? ?.
  apply wp_keeping; [by apply Hscc| |assumption]. intros ? ?.
  eapply wp_seq; [eapply Hplain; [apply every_requestHeader|exact N1|assumption]|].
  intros [names|e] g2 I2; [|by apply Hfail].
  eapply wp_orFail; [eapply Hplain; [apply every_admin|exact N1]|apply always_admin| |assumption].
  intros sh2 g3 N2 I3. rewrite N1 in N2. clear N1.
  apply wp_keeping; [eapply Hplain; [apply every_secondary|exact N2]| |assumption]. intros ? ?.
  apply wp_keeping; [by apply Hmetrics| |assumption]. intros ? ?.
  eapply wp_orFail; [eapply Hplain; [apply every_apiservices|exact N2]|apply always_apiservices| |assumption].
  intros ? ? _ ?. by apply Hconclude.
Qed.
End Rule.

(** The rule when writing roles makes no difference. *)
Section Uniform.
Context {T : ThirdParty} {L : ThirdPartyLaws T} {S : Type}.
Variable env : forall c, resp c -> Prop.
Variable step : S -> forall c, resp c -> S.
Variable pre : S -> call -> Prop.
Variable I : S -> Prop.
Variable Q : outcome -> S -> Prop.
Variable r : Reconciler.
Variable Hfail : forall p sh e s, I s -> wp env step pre (let* res := setErrorAndRequeue sh e in Ret (res, p)) s Q.
Variable ns : string.
Variable Hsteps : forall A (p : kprog A), every (quietCall ns) p -> Keeps env step pre I p.
Variable Hstorage : forall tc sh, shardNS sh = ns -> Keeps env step pre I (reconcileStorage r tc sh).
Variable Hconclude : forall tc p sh s, I s -> wp env step pre (conclude tc p sh) s Q.

Lemma wp_provision_quiet p sh s : shardNS sh = ns -> I s -> wp env step pre (provision r p sh) s Q.
Proof.
  apply wp_provision; [exact Hfail| | | | |exact Hstorage|exact Hconclude].
  - intros A q Hq. by apply Hsteps, every_plain.
  - intros tc sh' <-. apply Hsteps, every_delegator.
  - intros tc sh' <-. apply Hsteps, every_scc.
  - intros tc sh' <-. apply Hsteps, every_metrics.
Qed.
End Uniform.

(** The rule for an invariant that the statuses written early keep as well. *)
Section OneInvariant.
Context {T : ThirdParty} {L : ThirdPartyLaws T} {S : Type}.
Variable env : forall c, resp c -> Prop.
Variable step : S -> forall c, resp c -> S.
Variable pre : S -> call -> Prop.
Variable I : S -> Prop.
Variable Q : outcome -> S -> Prop.
Variable r : Reconciler.
Variable HQ : forall res p s, I s -> (res.2 : option error) <> None -> Q (res, p) s.
Variable Hsteps : forall A (p : kprog A), every stepCall p -> Keeps env step pre I p.

Lemma wp_failing p sh e s : I s -> wp env step pre (let* res := setErrorAndRequeue sh e in Ret (res, p)) s Q.
Proof.
  intros Hs. eapply wp_seq.
  { apply wp_always; [apply (Hsteps _ _ (every_setError sh e) s Hs)|].
    instantiate (1 := fun res => res.2 <> None). simpl. intros _. done. }
  intros res s' [??]. simpl. auto.
Qed.

Lemma Keeps_loose A (p : kprog A) : every looseCall p -> Keeps env step pre I p.
Proof. intros H. apply Hsteps. eapply every_mono; [apply loose_step|exact H]. Qed.

Lemma Keeps_quiet ns A (p : kprog A) : every (quietCall ns) p -> Keeps env step pre I p.
Proof. intros H. by eapply Keeps_loose, every_loose. Qed.

Variable Hconclude : forall tc p sh s, I s -> wp env step pre (conclude tc p sh) s Q.

Lemma wp_live p sh s : I s -> wp env step pre (reconcileLive r p sh) s Q.
Proof.
  assert (Hp : forall sh s, I s -> wp env step pre (provision r p sh) s Q).
  { intros sh' s'. apply (wp_provision_quiet _ _ _ _ _ _ wp_failing (shardNS sh')); [apply Keeps_quiet| |exact Hconclude|done].
    intros tc sh2 _. apply Keeps_loose, every_storage_loose. }
  intros Hs. unfold reconcileLive.
  apply (wp_keeping _ _ _ I Q wp_failing); [eapply Keeps_quiet, every_plain, every_namespace| |exact Hs].
  clear s Hs. intros g1 I1. case_decide; [|by apply Hp].
  eapply wp_seq; [apply Hsteps; [apply every_initialStatus|exact I1]|].
  intros [sh' [e|]] g2 I2; [by apply HQ|by apply Hp].
Qed.
End OneInvariant.

(** ** Calls and results of a whole reconciliation *)
Section SafeLive.
Context {T : ThirdParty} {L : ThirdPartyLaws T}.
Variable P : call -> Prop.
Variable Q : outcome -> Prop.
Variable r : Reconciler.
Variable HP : forall c, stepCall c -> P c.

Lemma every_step_mono {A} (q : kprog A) : every looseCall q -> every P q.
Proof. apply every_mono. intros c Hc. by apply HP, loose_step. Qed.

Lemma every_quiet_mono {A} ns (q : kprog A) : every (quietCall ns) q -> every P q.
Proof. intros H. by eapply every_step_mono, every_loose. Qed.

Lemma every_plain_mono {A} ns (q : kprog A) : every (plainCall ns) q -> every P q.
Proof. intros H. by eapply every_quiet_mono, every_plain. Qed.

(** The clients a failed step hands on, and what follows the steps. *)
Variable p : clients.
Variable HQ : forall res, Q (res, p).
Variable Hconclude : forall tc sh, safe P Q (conclude tc p sh).

Lemma safe_failing sh e : safe P Q (let* res := setErrorAndRequeue sh e in Ret (res, p)).
Proof. apply safe_seq; [eapply every_mono; [apply HP|apply every_setError]|]. intros res. apply safe_ret, HQ. Qed.

Lemma safe_orFail st k : every P st -> (forall sh, safe P Q (k sh)) -> safe P Q (orFail p st k).
Proof.
  intros Hst Hk. unfold orFail. apply safe_seq; [done|]. intros [[e|] sh']; [apply safe_failing|apply Hk].
Qed.

Lemma safe_keeping sh st k :
  every P st -> (forall sh, safe P Q (k sh)) -> safe P Q (orFail p (keeping sh st) k).
Proof.
  intros H Hk. apply safe_orFail; [|done]. unfold keeping. by apply every_bind.
Qed.

Lemma safe_provision sh : safe P Q (provision r p sh).
Proof.
  unfold provision. cbv zeta. apply safe_orFail; [apply every_step_mono, every_storage_loose|]. intros s1.
  do 3 (apply safe_keeping; [eapply every_plain_mono; by eauto with kube|]; intros ?).
  do 2 (apply safe_keeping; [eapply every_quiet_mono; by eauto with kube|]; intros ?).
  apply safe_seq; [eapply every_plain_mono, every_requestHeader|]. intros [names|e]; [|apply safe_failing].
  apply safe_orFail; [eapply every_plain_mono, every_admin|]. intros ?.
  apply safe_keeping; [eapply every_plain_mono, every_secondary|]. intros ?.
  apply safe_keeping; [eapply every_quiet_mono, every_metrics|]. intros ?.
  apply safe_orFail; [eapply every_plain_mono, every_apiservices|]. intros ?. apply Hconclude.
Qed.

Lemma safe_live sh : safe P Q (reconcileLive r p sh).
Proof.
  unfold reconcileLive. apply safe_keeping; [eapply every_plain_mono, every_namespace|].
  intros s1. case_decide; [|apply safe_provision].
  apply safe_seq; [eapply every_mono; [apply HP|apply every_initialStatus]|].
  intros [sh' [e|]]; [apply safe_ret, HQ|apply safe_provision].
Qed.
End SafeLive.
