(* ===== verification/ApiShardProps.v ===== *)
(** * Properties of the APIShard controller

    Safety of deletion, of the finalizer and of the Ready phase, the error path
    and the requeue policy, over every run of Reconcile. *)
From S2P Require Import Prelude GoStd NetUrl GoJson KubeTypes APITypes Kube Reference ResCommon KineRes.
From S2P Require Import PostgresRes SecondaryRes MetricsRes OtelRes Certs Aggregation ClientProvider.
From S2P Require Import ApiShardSteps ApiShard ApiShardLemmas Tracking LiveRule.

(** ** Deregistration *)
(** Ghost state: the APIService read last, and the names known to be gone. *)
Record dereg := { lastRead : option (string * APIService); gone : list string }.
Definition noDereg : dereg := {| lastRead := None; gone := [] |}.

Definition deregStep (s : dereg) (c : call) : resp c -> dereg :=
  match c return resp c -> dereg with
  | Get _ KAPIService key => fun res =>
      match res with
      | Ok o => {| lastRead := Some (nn_Name key, o); gone := gone s |}
      | Err e => {| lastRead := None; gone := if IsNotFound e then nn_Name key :: gone s else gone s |}
      end
  | Delete _ KAPIService o => fun res =>
      {| lastRead := None;
         gone := match lastRead s, res with
                 | Some (n, o'), None => if decide (o' = o) then n :: gone s else gone s
                 | Some (n, o'), Some e => if decide (o' = o /\ IsNotFound e = true) then n :: gone s else gone s
                 | None, _ => gone s
                 end |}
  | _ => fun _ => s
  end.

(** The finalizer leaves a shard only when all its registered APIServices are gone. *)
Definition finalizerGuard (s : dereg) (c : call) : Prop :=
  match c with
  | Update _ KAPIShard o =>
      finalizerName ∉ meta_Finalizers (shard_Meta o) -> RegisteredAPIServices (Status o) ⊆ gone s
  | PatchMergeFrom _ k o _ =>
      match k return obj k -> Prop with
      | KAPIShard => fun o => finalizerName ∈ meta_Finalizers (shard_Meta o)
      | _ => fun _ => True
      end o
  | _ => True
  end.

(** ** The finalizer comes first *)
(** Whether the shard is known to carry the finalizer on the server. *)
Definition finalizerSeen (s : bool) (c : call) : resp c -> bool :=
  match c return resp c -> bool with
  | Get _ KAPIShard _ => fun res =>
      match res with
      | Ok o => bool_decide (finalizerName ∈ meta_Finalizers (shard_Meta o))
      | Err _ => s
      end
  | PatchMergeFrom _ k o _ => fun res =>
      match k return obj k -> bool with
      | KAPIShard => fun o =>
          match res.2 with
          | None => bool_decide (finalizerName ∈ meta_Finalizers (shard_Meta o))
          | Some _ => s
          end
      | _ => fun _ => s
      end o
  | _ => fun _ => s
  end.

(** Calls that create or update resources on behalf of a shard. *)
Definition isApply (c : call) : bool :=
  match c with
  | ApplyOwned _ _ _ | PatchApply _ _ _ _ _ | CreateOrUpdate _ _ _ _ | Create _ _ _ | StatusUpdate _ _ _ => true
  | _ => false
  end.

Definition finalizerFirst (s : bool) (c : call) : Prop := isApply c = true -> s = true.

(** ** Readiness *)
(** Ghost state: the workloads observed ready, the APIServices listed last, and
    the phase of the status written last. *)
Record health := { seenReady : list (Kind * NamespacedName); listed : option (list APIService);
                   written : option string }.
Definition noHealth : health := {| seenReady := []; listed := None; written := None |}.

(** What a ready workload is: it has replicas, and all of them are ready. *)
Definition allReplicasReady (st : WorkloadStatus) : Prop :=
  (0 < st_ReadyReplicas st)%Z /\ st_ReadyReplicas st = st_Replicas st.

#[export] Instance allReplicasReady_dec st : Decision (allReplicasReady st).
Proof. unfold allReplicasReady. apply _. Defined.

Definition sawReady (g : health) (k : Kind) (key : NamespacedName) (st : WorkloadStatus) : health :=
  {| seenReady := if decide (allReplicasReady st) then (k, key) :: seenReady g else seenReady g;
     listed := listed g; written := written g |}.

Definition healthStep (g : health) (c : call) : resp c -> health :=
  match c return resp c -> health with
  | Get _ KDeployment key => fun res =>
      match res with Ok d => sawReady g KDeployment key (d_Status d) | Err _ => g end
  | Get _ KStatefulSet key => fun res =>
      match res with Ok d => sawReady g KStatefulSet key (s_Status d) | Err _ => g end
  | ListObjs _ KAPIService ListAll => fun res =>
      match res with
      | Ok l => {| seenReady := seenReady g; listed := Some l; written := written g |}
      | Err _ => g
      end
  | StatusUpdate _ KAPIShard o => fun _ =>
      {| seenReady := seenReady g; listed := listed g; written := Some (Phase (Status o)) |}
  | _ => fun _ => g
  end.

Section Ready.
Context {T : ThirdParty}.

Definition keyIn (s : APIShard) (n : string) : NamespacedName := {| nn_Namespace := shardNS s; nn_Name := n |}.

(** What a Ready phase stands for. *)
Definition workloadsReady (g : health) (s : APIShard) : Prop :=
  (KDeployment, keyIn s (KineDeploymentName s)) ∈ seenReady g /\
  (KDeployment, keyIn s (SecondaryDeploymentName s)) ∈ seenReady g /\
  (storageType s = StorageTypeInClusterPostgreSQL ->
   (KStatefulSet, keyIn s (PostgreSQLStatefulSetName s)) ∈ seenReady g).

Definition conflictResolved (g : health) (s : APIShard) : Prop :=
  conflictReason s "CRDSyncFailed" = false /\
  (conflictReason s "CRDsSyncedToSecondary" = true ->
   exists items, listed g = Some items /\
     (exists a, a ∈ items /\ ownedBy (meta_UID (shard_Meta s)) a = true) /\
     (forall a, a ∈ items -> ownedBy (meta_UID (shard_Meta s)) a = true -> isAvailable a)).

Definition conditionIs (s : APIShard) (t : string) (st : ConditionStatus) : Prop :=
  exists c, find_condition t s = Some c /\ cond_Status c = st.

Definition readyGuard (g : health) (c : call) : Prop :=
  match c with
  | StatusUpdate _ KAPIShard o =>
      Phase (Status o) = PhaseReady ->
      workloadsReady g o /\ conflictResolved g o /\
      conditionIs o ConditionSecondaryHealthy ConditionTrue /\ conditionIs o ConditionReconciled ConditionTrue
  | _ => True
  end.

(** How the outcome of a successful reconciliation relates to the status it
    wrote last. *)
Definition requeuePolicy (out : outcome) (g : health) : Prop :=
  out.1.2 = None ->
  (written g = Some PhaseProvisioning /\ RequeueAfter out.1.1 = (10 * Second)%Z) \/
  (written g = Some PhaseReady /\ RequeueAfter out.1.1 = 0%Z).
End Ready.

(** ** Proofs: deletion and the finalizer *)
Section Finalizer.
Context {T : ThirdParty} {L : ThirdPartyLaws T}.

(** Calls of a live reconciliation: no finalizer is touched. *)
Definition liveCall (c : call) : Prop :=
  match c with
  | Get _ KAPIShard _ | Update _ _ _ | PatchMergeFrom _ _ _ _ => False
  | _ => True
  end.

Lemma stepCall_live c : stepCall c -> liveCall c.
Proof. destruct c as [[] []| | | |[] []| | | | | | | | | | |]; done. Qed.
Lemma concludeCall_live c : concludeCall c -> liveCall c.
Proof. destruct c as [? k|? k|? k|? k|? k|? k|? k|? k|? k|? k| | | | | |]; try done; by destruct k. Qed.

Lemma every_conclude tc p s : every liveCall (conclude tc p s).
Proof.
  unfold conclude. apply every_bind; [eapply every_mono; [apply concludeCall_live|apply every_conflicts]|].
  intros [s1 p1]. apply every_bind; [eapply every_mono; [apply concludeCall_live|apply every_health]|].
  intros [[[res e] s2] p2]. every_tac.
Qed.

Section LiveInvariant.
Context {S : Type} (step : S -> forall c, resp c -> S) (pre : S -> call -> Prop) (I : S -> Prop).
Hypothesis HI : forall s c, I s -> liveCall c -> pre s c /\ forall res, any_env c res -> I (step s c res).

(** An invariant kept by the calls of a live reconciliation. *)
Lemma wp_live_every r p sh s : I s -> wp any_env step pre (reconcileLive r p sh) s (fun _ s' => I s').
Proof.
  apply wp_live.
  - done.
  - intros A q Hq. eapply Keeps_every; [exact Hq|]. intros s' c Hs' Hc. by apply HI, stepCall_live.
  - intros tc p' sh' s' Hs'. eapply (Keeps_every _ _ _ _ _ liveCall); [apply every_conclude|done|done].
Qed.
End LiveInvariant.

Lemma wp_deregister n names g :
  names ⊆ gone g ->
  wp any_env deregStep finalizerGuard (deregister n) g
    (fun e g' => e = None -> n :: names ⊆ gone g').
Proof.
  intros Hg. unfold deregister. cbn. split; [done|]. intros [o|e] _; cbn.
  - split; [done|]. intros [e|] _; cbn.
    + destruct (IsNotFound e) eqn:E; cbn; [|done]. rewrite decide_True by done. set_solver.
    + rewrite decide_True by done. set_solver.
  - destruct (IsNotFound e); cbn; set_solver.
Qed.

Lemma wp_deregister_all l names g :
  names ⊆ gone g ->
  wp any_env deregStep finalizerGuard (for_each deregister l) g
    (fun e g' => e = None -> l ++ names ⊆ gone g').
Proof.
  revert names g. induction l as [|n l IH]; intros names g Hg; cbn [for_each]; [by intros _|].
  eapply wp_seq; [by apply wp_deregister|]. intros [e|] g1 H1; [done|].
  eapply wp_mono; [apply IH, H1; done|]. intros e g2 H2 He. specialize (H2 He). set_solver.
Qed.

Lemma wp_finalize s g : wp any_env deregStep finalizerGuard (finalize s) g (fun _ _ => True).
Proof.
  unfold finalize. case_match; [|done]. eapply wp_seq; [apply (wp_deregister_all _ []); set_solver|].
  intros [e|] g1 H1; [done|]. cbn. split; [|done]. intros _. rewrite app_nil_r in H1. auto.
Qed.

Lemma wp_Reconcile_finalizer r p req :
  wp any_env deregStep finalizerGuard (Reconcile r p req) noDereg (fun _ _ => True).
Proof.
  assert (Hlive : forall sh g, wp any_env deregStep finalizerGuard (reconcileLive r p sh) g (fun _ _ => True)).
  { intros sh g. apply wp_live_every; [|done]. intros g' c _ Hc.
    destruct c as [? k|? k|? k|? k|? k|? k|? k|? k|? k|? k| | | | | |]; try done; by destruct k. }
  unfold Reconcile. cbn [bind perform wp]. split; [done|]. intros [sh|e] _; [|done].
  destruct (meta_DeletionTimestamp (shard_Meta sh)).
  - eapply wp_seq; [apply wp_finalize|done].
  - destruct (ContainsFinalizer _ _); [apply Hlive|]. cbn [bind perform wp]. split.
    + cbn. apply add_finalizer. by left.
    + intros [sh' [e|]] _; [done|apply Hlive].
Qed.

Lemma wp_Reconcile_first r p req :
  wp any_env finalizerSeen finalizerFirst (Reconcile r p req) false (fun _ _ => True).
Proof.
  assert (Hlive : forall sh, wp any_env finalizerSeen finalizerFirst (reconcileLive r p sh) true (fun _ _ => True)).
  { intros sh. eapply wp_mono; [apply (wp_live_every _ _ (fun b => b = true)); [|done]|done].
    intros g' c -> Hc. split; [done|]. intros res _.
    destruct c as [? k|? k|? k|? k|? k|? k|? k|? k|? k|? k| | | | | |]; try done; by destruct k. }
  unfold Reconcile. cbn [bind perform wp]. split; [done|]. intros [sh|e] _; [|done]. cbn [finalizerSeen].
  destruct (meta_DeletionTimestamp (shard_Meta sh)).
  - assert (PreOrder (fun _ _ : bool => True)) by done. eapply wp_seq; [|done].
    apply (wp_grow _ _ _ _ _ (fun c => isApply c = false) (fun _ _ => True)).
    + unfold finalize, deregister. every_tac.
    + intros s' c _ Hc. split; [|done]. unfold finalizerFirst. by rewrite Hc.
  - destruct (ContainsFinalizer _ _) eqn:E.
    + apply contains_finalizer in E. rewrite bool_decide_eq_true_2 by done. apply Hlive.
    + cbn [bind perform wp]. split; [done|]. intros [sh' [e|]] _; [done|]. cbn [finalizerSeen snd].
      assert (Hin : finalizerName ∈ meta_Finalizers (shard_Meta (with_meta (fun m => AddFinalizer m finalizerName) sh)))
        by (apply add_finalizer; by left).
      rewrite (bool_decide_eq_true_2 _ Hin). apply Hlive.
Qed.
End Finalizer.

(** ** Proofs: readiness *)
Section ReadyProofs.
Context {T : ThirdParty} {L : ThirdPartyLaws T}.

Local Abbreviation W := (wp any_env healthStep readyGuard).

Lemma conflictReason_set c s reason :
  cond_Type c <> ConditionCRDConflictDetected -> conflictReason (set_condition c s) reason = conflictReason s reason.
Proof. intros H. unfold conflictReason. rewrite find_set_condition. by rewrite decide_False. Qed.

Lemma conflictReason_remove t s reason :
  t <> ConditionCRDConflictDetected -> conflictReason (remove_condition t s) reason = conflictReason s reason.
Proof. intros H. unfold conflictReason. rewrite find_remove_condition. by rewrite decide_False. Qed.

Lemma conditionIs_set_other c s t st :
  cond_Type c <> t -> conditionIs s t st -> conditionIs (set_condition c s) t st.
Proof. intros H (d&Hd&Hst). exists d. rewrite find_set_condition. by rewrite decide_False. Qed.

Lemma conditionIs_set_same c s : conditionIs (set_condition c s) (cond_Type c) (cond_Status c).
Proof. exists c. rewrite find_set_condition. by rewrite decide_True. Qed.

Lemma workloadsReady_mono g g' s s' :
  seenReady g ⊆ seenReady g' -> statusOnly s s' -> workloadsReady g s -> workloadsReady g' s'.
Proof.
  intros Hg Hs (H1&H2&H3). unfold workloadsReady, keyIn, KineDeploymentName, SecondaryDeploymentName,
    PostgreSQLStatefulSetName in *.
  rewrite (statusOnly_name _ _ Hs), (statusOnly_ns _ _ Hs), (statusOnly_storage _ _ Hs).
  split; [auto|]. split; [auto|]. auto.
Qed.

Lemma workloadReady_spec st : workloadReady st = true <-> allReplicasReady st.
Proof. unfold workloadReady, allReplicasReady. rewrite andb_true_iff, Z.ltb_lt, Z.eqb_eq. tauto. Qed.

Lemma seenReady_sawReady g k key st :
  seenReady g ⊆ seenReady (sawReady g k key st) /\
  (workloadReady st = true -> (k, key) ∈ seenReady (sawReady g k key st)).
Proof. rewrite workloadReady_spec. unfold sawReady; simpl. case_decide; set_solver. Qed.

(** Observations only accumulate while nothing is written. *)
Lemma W_observe {A} (p : kprog A) g :
  every concludeCall p -> W p g (fun _ g' => seenReady g ⊆ seenReady g').
Proof.
  intros Hp. assert (PreOrder (fun g g' => seenReady g ⊆ seenReady g'))
    by (split; [by intros x|intros a b c; apply transitivity]).
  apply (wp_grow _ _ _ _ _ concludeCall (fun g g' => seenReady g ⊆ seenReady g')); [done|].
  intros g' c _ Hc.
  destruct c as [? k|? k o|? k|? k|? k|? k|? k|? k|? k|? k| | | | | |]; try done; destruct k; try done;
    (split; [done|]); intros res _; cbn; try done.
  - destruct res; [apply seenReady_sawReady|done].
  - destruct res; [apply seenReady_sawReady|done].
  - by destruct o, res.
Qed.

Lemma W_deploymentHealth s g :
  W (checkDeploymentHealth s) g (fun res g' => res = Ok true -> workloadsReady g' s).
Proof.
  unfold checkDeploymentHealth. cbn. split; [done|]. intros [kd|e] _; cbn; [|done].
  set (g1 := sawReady g _ _ _). destruct (seenReady_sawReady g KDeployment (keyIn s (KineDeploymentName s)) (d_Status kd)) as [G1 K1].
  split; [done|]. intros [sd|e] _; cbn; [|done].
  set (g2 := sawReady g1 _ _ _). destruct (seenReady_sawReady g1 KDeployment (keyIn s (SecondaryDeploymentName s)) (d_Status sd)) as [G2 K2].
  case_decide as Hs; cbn.
  - split; [done|]. intros [pg|e] _; cbn; [|done]. intros [= Hr].
    apply andb_true_iff in Hr as [Hr R3]. apply andb_true_iff in Hr as [R1 R2].
    destruct (seenReady_sawReady g2 KStatefulSet (keyIn s (PostgreSQLStatefulSetName s)) (s_Status pg)) as [G3 K3].
    split; [apply G3, G2, K1, R1|]. split; [apply G3, K2, R2|]. intros _. apply K3, R3.
  - intros [= Hr]. apply andb_true_iff in Hr as [R1 R2].
    split; [apply G2, K1, R1|]. split; [apply K2, R2|done].
Qed.

(** The sub-resources change the status only, and of its conditions only their own. *)
Lemma always_sub_condition t tc p s :
  t <> ConditionNamespaceSyncReady -> t <> ConditionWebhookSyncReady ->
  always (fun '(s', _) => statusOnly s s' /\ find_condition t s' = find_condition t s) (reconcileSubResources tc p s).
Proof.
  intros Hn Hw.
  assert (Hprop : forall t' cs s, t' <> t -> find_condition t (propagateReady t' cs s) = find_condition t s).
  { intros t' cs s' Ht. unfold propagateReady. destruct (FindStatusCondition cs "Ready"); [|done].
    rewrite find_set_condition. by rewrite decide_False. }
  unfold reconcileSubResources. eapply always_bind; [apply always_true|]. intros [ok p'] _.
  destruct ok; [|done]. do 2 (eapply always_bind; [apply always_true|]; intros _ _).
  eapply always_bind; [|by intros s' Hs'; exact Hs'].
  unfold aggregateSubCRStatus. cbn. intros [ns|e]; cbn; [|done]. intros [wh|e]; cbn.
  - rewrite !Hprop by congruence. split; [|done]. eapply statusOnly_trans; apply statusOnly_propagate.
  - rewrite !Hprop by congruence. split; [apply statusOnly_propagate|done].
Qed.

(** The state in which a shard may be called Ready, but for its Reconciled condition. *)
Definition readyState (g : health) (s : APIShard) : Prop :=
  workloadsReady g s /\ conflictResolved g s /\ conditionIs s ConditionSecondaryHealthy ConditionTrue.

Lemma W_availability s g :
  workloadsReady g s -> conditionIs s ConditionSecondaryHealthy ConditionTrue ->
  W (checkAPIServiceAvailability s) g (fun x g' => let '(res, e, s') := x in
     e = None ->
     (res = requeue10s /\ Phase (Status s') = PhaseProvisioning) \/ (res = noRequeue /\ readyState g' s')).
Proof.
  intros Hw Hh. unfold checkAPIServiceAvailability, readyState, conflictResolved.
  destruct (conflictReason s "CRDSyncFailed") eqn:E1; [by left|].
  destruct (conflictReason s "CRDsSyncedToSecondary") eqn:E2; cbn.
  - split; [done|]. intros [items|e] _; cbn; [|done].
    destruct (availability (meta_UID (shard_Meta s)) items) as [av msg] eqn:Ea.
    destruct av; cbn; [|by left]. intros _. right. split; [done|].
    split; [exact Hw|]. split.
    + unfold apiServicesRegistered. rewrite !conflictReason_set by done. split; [done|].
      intros _. exists items. split; [done|]. by rewrite <- availability_true, Ea.
    + by apply conditionIs_set_other.
  - intros _. right. split; [done|]. split; [exact Hw|]. split.
    + rewrite !conflictReason_remove by done. split; [done|]. congruence.
    + destruct Hh as (d&Hd&?). exists d. rewrite find_remove_condition. by rewrite decide_False.
Qed.

Lemma W_updateHealth tc p s g :
  W (updateHealthStatus tc p s) g (fun x g' => let '(res, e, s', _) := x in
     e = None ->
     (res = requeue10s /\ Phase (Status s') = PhaseProvisioning) \/
     (res = noRequeue /\ Phase (Status s') = PhaseReady /\ readyState g' s')).
Proof.
  unfold updateHealthStatus. eapply wp_seq; [apply W_deploymentHealth|].
  intros [[]|e] g1 H1; cbv beta iota zeta; [| |done].
  - specialize (H1 eq_refl). eapply wp_seq.
    { apply wp_always; [|by apply (always_sub_condition ConditionSecondaryHealthy)]. apply W_observe.
      unfold reconcileSubResources, verifySecondaryAuth, reconcileNamespaceSync, reconcileWebhookSync,
        aggregateSubCRStatus, GetOrCreate, createLocked. every_tac. }
    intros [s1 p1] g2 (G2&S1&C1). eapply wp_seq.
    { apply W_availability; [eapply workloadsReady_mono; [exact G2|exact S1|exact H1]|].
      unfold conditionIs. rewrite C1. apply conditionIs_set_same. }
    intros [[res e] s2] g3 H3. destruct (bool_decide (is_Some e) || (0 <? RequeueAfter res)%Z) eqn:Eb; cbn.
    + intros He. destruct (H3 He) as [?|[-> _]]; [by left|]. subst e. done.
    + intros _. apply orb_false_iff in Eb as [E1 E2]. apply bool_decide_eq_false in E1.
      destruct e; [by destruct E1|]. destruct (H3 eq_refl) as [[-> _]|[-> Hr]]; [done|]. right.
      split; [done|]. split; [done|]. exact Hr.
  - cbn. intros _. left. split; [done|]. by destruct (conflictReason _ _).
Qed.

Lemma W_conclude_ready tc p s g : W (conclude tc p s) g requeuePolicy.
Proof.
  unfold conclude. eapply wp_seq; [apply W_observe, every_conflicts|]. intros [s1 p1] g1 _.
  eapply wp_seq; [apply W_updateHealth|]. intros [[[res e] s2] p2] g2 H2. destruct e as [e|]; [done|].
  specialize (H2 eq_refl). cbn. split; [done|]. intros _ _. split.
  - intros HR. destruct H2 as [[_ HP]|(_&_&Hw&[Hc1 Hc2]&Hh)]; [by rewrite HP in HR|].
    split; [exact Hw|]. split.
    + unfold conflictResolved, successStatus. rewrite !conflictReason_set by done. done.
    + split; [by apply conditionIs_set_other|]. unfold successStatus, conditionIs.
      eexists. by rewrite find_set_condition, decide_True.
  - intros [o [e|]] _; [done|]. intros _. cbn.
    destruct H2 as [[-> ->]|(->&->&_)]; [by left|by right].
Qed.

Lemma W_live_ready r p sh g : W (reconcileLive r p sh) g requeuePolicy.
Proof.
  assert (Hk : forall A (q : kprog A), every stepCall q -> Keeps any_env healthStep readyGuard (fun _ => True) q).
  { intros A q Hq. eapply Keeps_every; [exact Hq|]. intros g' c _ Hc. split; [|done].
    destruct c as [| | | |[] []| | | | | | | | | | |]; try done.
    cbn in *. intros Hp. rewrite Hp in Hc. by destruct Hc. }
  apply (wp_live _ _ _ (fun _ => True)).
  - intros res p' s' _ Hr. unfold requeuePolicy. simpl. done.
  - exact Hk.
  - intros tc p' sh' s' _. apply W_conclude_ready.
  - done.
Qed.
End ReadyProofs.

(** ** Theorems *)
Section Theorems.
Context {T : ThirdParty} {L : ThirdPartyLaws T}.
Variable r : Reconciler.

(** C1: in every run of Reconcile, whatever the API server answers, the
    apiservice-cleanup finalizer is taken off a shard only when each of the
    shard's registered APIServices was found missing or was deleted earlier in
    the same run; and no patch takes it off. *)
Theorem finalizer_removed_last p req tr out :
  run (Reconcile r p req) tr out -> allowed deregStep finalizerGuard noDereg tr.
Proof.
  intros H. by apply (wp_sound _ _ _ _ _ _ _ _ (wp_Reconcile_finalizer r p req) (relied_any _)) in H as [? _].
Qed.

(** No resource of a shard is created, applied or given a status before the
    shard is known to carry the cleanup finalizer: it was read with it, or the
    patch that adds it succeeded. *)
Theorem finalizer_before_resources p req tr out :
  run (Reconcile r p req) tr out -> allowed finalizerSeen finalizerFirst false tr.
Proof.
  intros H. by apply (wp_sound _ _ _ _ _ _ _ _ (wp_Reconcile_first r p req) (relied_any _)) in H as [? _].
Qed.

(** C3: a status with phase Ready is written only after the same run has seen the
    Kine and secondary Deployments (and the PostgreSQL StatefulSet when storage
    is in the cluster) with all replicas ready, never while the copy of
    conflicting CRDs has failed, and, when CRDs were copied to the secondary,
    only after every APIService owned by the shard was listed as available. *)
Theorem ready_is_sound p sh tr out :
  run (reconcileLive r p sh) tr out -> allowed healthStep readyGuard noHealth tr.
Proof.
  intros H. by apply (wp_sound _ _ _ _ _ _ _ _ (W_live_ready r p sh noHealth) (relied_any _)) in H as [? _].
Qed.

(** A reconciliation of a live shard that reports no error last wrote either
    the phase Provisioning, and asks to be called again in ten seconds, or the
    phase Ready, and does not. *)
Theorem requeue_iff_provisioning p sh tr out :
  run (reconcileLive r p sh) tr out -> requeuePolicy out (ghost healthStep noHealth tr).
Proof.
  intros H. by apply (wp_sound _ _ _ _ _ _ _ _ (W_live_ready r p sh noHealth) (relied_any _)) in H as [_ ?].
Qed.

(** Every cleanup of orphans in a trace runs with the core objects of the shard tracked. *)
Definition cleanupComplete (sh : APIShard) (tr : list kevent) : Prop :=
  allowed track (cleanupWith (coreObjects r sh) (shardName sh)) [] tr.

(** C6: when orphans are cleaned up, every object the shard needs to serve
    (storage, Kine with its budget, certificates, authentication, the secondary
    API server with its budget) has been applied in the same run, so none of
    them is taken for an orphan; and the cleanup is by the shard's own owner
    label over all managed kinds. *)
Theorem cleanup_keeps_core p sh tr out :
  relied keepsIdentity tr -> run (provision r p sh) tr out -> cleanupComplete sh tr.
Proof. intros He H. by apply (wp_sound _ _ _ _ _ _ _ _ (W_provision r p sh []) He) in H as [? _]. Qed.

(** The end of a reconciliation whose step failed on shard [s] with [err]. *)
Definition reportsFailure (p : clients) (s : APIShard) (err : error) (tr : list kevent) (out : outcome) : Prop :=
  out = ((noRequeue, Some err), p) /\
  exists s' res, tr = [Ev (StatusUpdate PrimaryC KAPIShard s') res] /\
    statusOnly s s' /\ Phase (Status s') = PhaseError /\ Message (Status s') = Error err /\
    ObservedGeneration (Status s') = shardGeneration s /\
    RegisteredAPIServices (Status s') = RegisteredAPIServices (Status s) /\
    s' = errorStatus s err /\
    find_condition ConditionReconciled s' =
      Some (shardCondition s ConditionReconciled ConditionFalse "ReconcileError" (Error err)).

(** A step that must succeed is followed by the rest of the reconciliation
    when it succeeds; when it fails with an error, the only further call is one
    status update with phase Error, the error's text as message, and the
    Reconciled condition False for the current generation, and the error is
    returned whether or not that update succeeds. *)
Theorem failed_step_reported p step k tr out :
  run (orFail p step k) tr out <->
  exists tr1 tr2 e s, tr = tr1 ++ tr2 /\ run step tr1 (e, s) /\
    match e with
    | None => run (k s) tr2 out
    | Some err => reportsFailure p s err tr2 out
    end.
Proof.
  unfold orFail. rewrite run_bind. split.
  - intros (tr1&tr2&[[err|] s]&->&H1&H2); exists tr1, tr2; [exists (Some err), s|by exists None, s].
    split; [done|]. split; [done|]. destruct H2 as (res&tr'&->&->&->). split; [done|].
    exists (errorStatus s err), res. repeat split.
    unfold errorStatus. cbv zeta. by rewrite find_set_condition, decide_True.
  - intros (tr1&tr2&e&s&->&H1&H2). exists tr1, tr2, (e, s). split; [done|]. split; [done|].
    destruct e as [err|]; [|done]. destruct H2 as (->&s'&res&->&_&_&_&_&_&->&_).
    simpl. by exists res, [].
Qed.
End Theorems.

(** ** Witnesses *)
Definition demoReconciler : Reconciler :=
  {| ServiceMonitorAvailable := true; SCCAvailable := true; PrimaryIssuer := "https://issuer" |}.

Definition isShardUpdate (c : call) : bool := match c with Update _ KAPIShard _ => true | _ => false end.
Definition isReadyStatus (c : call) : bool :=
  match c with StatusUpdate _ KAPIShard o => bool_decide (Phase (Status o) = PhaseReady) | _ => false end.
Definition isCleanup (c : call) : bool := match c with CleanupOrphans _ _ _ _ => true | _ => false end.

Definition deletionRun := ref_exec (Reconcile demoReconciler ∅ demoKey) deletingCluster.
Definition readyRun := ref_exec (Reconcile demoReconciler ∅ demoKey) (runningCluster (demoShard sqliteStorage)).
Definition liveRun :=
  ref_exec (reconcileLive demoReconciler ∅ (demoShard sqliteStorage)) (runningCluster (demoShard sqliteStorage)).
Definition provisionRun :=
  ref_exec (provision demoReconciler ∅ (demoShard sqliteStorage)) (runningCluster (demoShard sqliteStorage)).

Lemma finalizer_removed_last_witness :
  performs isShardUpdate (trace_of deletionRun) = true /\
  allowed deregStep finalizerGuard noDereg (trace_of deletionRun).
Proof.
  split; [vm_compute; reflexivity|].
  exact (finalizer_removed_last demoReconciler ∅ demoKey _ _ (exec_run ref_handler _ deletingCluster)).
Defined.

Lemma finalizer_before_resources_witness :
  performs isApply (trace_of readyRun) = true /\ allowed finalizerSeen finalizerFirst false (trace_of readyRun).
Proof.
  split; [vm_compute; reflexivity|].
  exact (finalizer_before_resources demoReconciler ∅ demoKey _ _ (exec_run ref_handler _ _)).
Defined.

Lemma ready_is_sound_witness :
  performs isReadyStatus (trace_of liveRun) = true /\ allowed healthStep readyGuard noHealth (trace_of liveRun).
Proof.
  split; [vm_compute; reflexivity|].
  exact (ready_is_sound demoReconciler ∅ _ _ _ (exec_run ref_handler _ _)).
Defined.

Lemma requeue_iff_provisioning_witness :
  (result_of liveRun).1.2 = None /\ requeuePolicy (result_of liveRun) (ghost healthStep noHealth (trace_of liveRun)).
Proof.
  split; [vm_compute; reflexivity|].
  exact (requeue_iff_provisioning demoReconciler ∅ _ _ _ (exec_run ref_handler _ _)).
Defined.

Lemma cleanup_keeps_core_witness :
  performs isCleanup (trace_of provisionRun) = true /\
  cleanupComplete demoReconciler (demoShard sqliteStorage) (trace_of provisionRun).
Proof.
  split; [vm_compute; reflexivity|].
  refine (cleanup_keeps_core demoReconciler ∅ _ _ _ _ (exec_run ref_handler _ _)).
  apply keepsIdentity_check. vm_compute. reflexivity.
Defined.

Lemma failed_step_reported_witness :
  run (orFail ∅ (Ret (Some (Errorf "no storage"), demoShard sqliteStorage)) (fun _ => Ret ((noRequeue, None), ∅)))
    [Ev (StatusUpdate PrimaryC KAPIShard (errorStatus (demoShard sqliteStorage) (Errorf "no storage")))
        (demoShard sqliteStorage, None)]
    ((noRequeue, Some (Errorf "no storage")), ∅).
Proof.
  apply (failed_step_reported ∅). eexists [], _, (Some (Errorf "no storage")), (demoShard sqliteStorage).
  split; [reflexivity|]. split; [split; reflexivity|]. split; [reflexivity|].
  eexists _, _. repeat split.
Defined.
