(* ===== verification/Progress.v ===== *)
(** * A healthy cluster makes a shard Ready

    The converse of the soundness of Ready (ApiShardProps): when the cluster answers as
    a healthy one does, a reconciliation goes through all of its steps, whatever the
    storage of the shard and the state it is in, and reports Ready. *)
From S2P Require Import Prelude GoStd NetUrl GoJson KubeTypes APITypes Kube Reference ResCommon KineRes PostgresRes.
From S2P Require Import SecondaryRes MetricsRes OtelRes Certs Aggregation ClientProvider ApiShardSteps ApiShard.
From S2P Require Import ApiShardLemmas Tracking Rbac Typing LiveRule ApiShardProps.

(** ** What a healthy cluster answers *)
Section Healthy.
Context {T : ThirdParty}.

(** The shard that is reconciled, of which only the status and the finalizers change. *)
Variable origin : APIShard.

Definition sameShard (s : APIShard) : Prop :=
  shardName s = shardName origin /\ meta_UID (shard_Meta s) = meta_UID (shard_Meta origin) /\
  Spec s = Spec origin /\ meta_DeletionTimestamp (shard_Meta s) = None.

(** A connection secret has the key that the shard refers to. *)
Definition hasConnectionKey (key : NamespacedName) (secret : Secret) : Prop :=
  forall ref, ConnectionSecretRef (Storage (Spec origin)) = Some ref ->
    key = {| nn_Namespace := shardNS origin; nn_Name := skr_Name ref |} -> mok (sec_Data secret) (skr_Key ref) = true.

(** The ConfigMap of the front proxy has its CA and, if any, a list of names. *)
Definition hasRequestHeaderCA (cm : ConfigMap) : Prop :=
  mget (cm_Data cm) "requestheader-client-ca-file" <> "" /\
  is_ok (parseAllowedNames (mget (cm_Data cm) "requestheader-allowed-names")) = true.

(** The object that a write returns, for the object [o] that is written or patched. *)
Definition stored (k : Kind) : obj k -> obj k * option error -> Prop :=
  match k return obj k -> obj k * option error -> Prop with
  | KAPIShard => fun o res => res.2 = None /\ (sameShard o -> sameShard res.1)
  | _ => fun _ res => res.2 = None
  end.

(** Writes succeed; what is read is there, the workloads with all replicas ready and the
    shard's APIServices available. *)
Definition healthy (c : call) : resp c -> Prop :=
  match c return resp c -> Prop with
  | Get _ KAPIShard _ => fun res => exists s, res = Ok s /\ sameShard s
  | Get _ KDeployment _ => fun res => exists d, res = Ok d /\ allReplicasReady (d_Status d)
  | Get _ KStatefulSet _ => fun res => exists s, res = Ok s /\ allReplicasReady (s_Status s)
  | Get _ KConfigMap _ => fun res => exists cm, res = Ok cm /\ hasRequestHeaderCA cm
  | Get _ KSecret key => fun res => exists s, res = Ok s /\ hasConnectionKey key s
  | Get _ KAPIService _ => fun res => match res with Ok _ => True | Err e => IsNotFound e = true end
  | Get _ KCRD _ => fun res => is_ok res = true
  | ListObjs _ KCRD _ => fun res => is_ok res = true
  | ListObjs _ KAPIService _ => fun res =>
      exists l, res = Ok l /\ (availability (meta_UID (shard_Meta origin)) l).1 = true
  | StatusUpdate _ k o => stored k o
  | PatchMergeFrom _ k _ base => stored k base
  | PatchApply _ _ _ _ _ => fun res => res.2 = None
  | ApplyOwned _ _ _ => fun res => res.2 = None
  | Delete _ _ _ => fun res => res = None
  | NewClient _ => fun res => res = None
  | RandRead _ => fun res => is_ok res = true
  | _ => fun _ => True
  end.

(** External storage is configured, and owner references can be set on new objects. *)
Definition configured : Prop :=
  storageType origin = StorageTypePostgreSQL -> is_Some (ConnectionSecretRef (Storage (Spec origin))).

Definition ownable : Prop :=
  forall s m, sameShard s -> meta_OwnerReferences m = [] -> (SetControllerReference s m).2 = None.
End Healthy.

Section Progress.
Context {T : ThirdParty} {L : ThirdPartyLaws T}.
Variable r : Reconciler.
Context (origin : APIShard) (Hconf : configured origin) (Hown : ownable origin).

Abbreviation H := (under (healthy origin)).
Abbreviation noError := (fun e : option error => e = None).
Abbreviation ok s := (fun x : option error * APIShard => x.1 = None /\ statusOnly s x.2).
Abbreviation same := (sameShard origin).

Lemma same_status s s' : statusOnly s s' -> same s -> same s'.
Proof. intros [Hm Hs] (H1&H2&H3&H4). unfold sameShard, shardName in *. by rewrite Hm, Hs. Qed.

(** ** Steps *)
Lemma H_owned tc k o : H noError (apply_owned tc k o).
Proof. cbn. intros [o' e] He. exact He. Qed.

Lemma H_apply what tc k o : H noError (apply_or what tc k o).
Proof. cbn. by intros [o' e] ->. Qed.

Lemma H_wrapErr what p : H noError p -> H noError (wrapErr what p).
Proof. intros Hp. unfold wrapErr. eapply under_bind; [exact Hp|]. by intros ? ->. Qed.

Lemma H_pdb what tc pdb : H noError (applyPDB what tc pdb).
Proof. destruct pdb; [apply H_apply|done]. Qed.

Lemma H_namespace s : H noError (ensureNamespace s).
Proof. cbn. by intros [o e] ->. Qed.

Lemma H_kine tc s : H noError (reconcileKine r tc s).
Proof.
  unfold reconcileKine, applyKineService. cbv zeta. cbn [bind perform under]. intros [d e] He; cbn in He; subst e; cbv beta iota.
  eapply under_bind; [apply H_pdb|]. intros ? ->. cbn. intros [svc e] He. cbn in He. by subst e.
Qed.

Lemma H_secondary tc s names : H noError (reconcileSecondary r tc s names).
Proof.
  unfold reconcileSecondary. cbn [bind perform under]. intros [d e] He; cbn in He; subst e; cbv beta iota.
  eapply under_bind; [apply H_pdb|]. intros ? ->. apply H_apply.
Qed.

Lemma H_password s : H (fun res => is_ok res = true) (getOrGeneratePostgresPassword s).
Proof.
  unfold getOrGeneratePostgresPassword, GeneratePassword. cbn. intros res (secret&->&_).
  destruct (negb _); cbn; [done|]. by intros [b|e].
Qed.

Lemma H_preserve s sts : H (fun x => x.1.1 = None /\ statusOnly s x.1.2) (preservePostgreSQLVolumeClaimTemplates s sts).
Proof.
  unfold preservePostgreSQLVolumeClaimTemplates. cbn. intros res (live&->&_).
  destruct (VolumeClaimTemplatesMatch _ _); cbn; (split; [done|]); auto with status.
Qed.

Lemma H_inCluster tc s : H (ok s) (reconcileInClusterPostgreSQL r tc s).
Proof.
  unfold reconcileInClusterPostgreSQL. eapply under_bind; [apply H_password|]. intros [pw|e] Hpw; [|done].
  do 2 (eapply under_bind; [apply H_apply|]; intros ? ->). cbv zeta.
  eapply under_bind; [apply H_preserve|]. intros [[e s'] sts] [He Hs]. cbn in He, Hs. rewrite He.
  do 2 (eapply under_bind; [apply H_apply|]; intros ? ->). done.
Qed.

Lemma H_external s : same s -> storageType s = StorageTypePostgreSQL -> H (ok s) (validateExternalPostgreSQLSecret s).
Proof.
  intros (Hn&Hu&Hs&_) Ht. unfold validateExternalPostgreSQLSecret.
  destruct Hconf as [ref Hr]; [unfold storageType in *; by rewrite <- Hs|]. rewrite Hs, Hr. cbn.
  intros res (secret&->&Hk). rewrite (Hk ref Hr); [cbn; auto with status|].
  unfold shardNS. by rewrite Hs.
Qed.

Lemma H_storage tc s : same s -> H (ok s) (reconcileStorage r tc s).
Proof.
  intros Hs. unfold reconcileStorage.
  assert (Hb : H (ok s) (reconcileBackend r tc s)).
  { unfold reconcileBackend. destruct (storageType s) eqn:E; [done| | |done].
    - eapply under_bind; [apply H_inCluster|]. intros [e s'] [He Hs']. cbn in *. by rewrite He.
    - eapply under_bind; [by apply H_external|]. intros [e s'] [He Hs']. cbn in *. by rewrite He. }
  eapply under_bind; [exact Hb|]. intros [e s'] [He Hs']. cbn in He, Hs'. rewrite He.
  eapply under_bind; [apply H_wrapErr, H_kine|]. intros ? ->.
  eapply under_bind; [apply (under_always _ (fun _ => True)); [apply under_true|apply always_metrics]|].
  intros s2 [_ Hs2]. cbn. split; [done|]. by eapply statusOnly_trans.
Qed.

Lemma H_certs tc s : H noError (reconcileCertManager tc s).
Proof. apply under_for_each. intros u _. apply H_apply. Qed.

Lemma H_delegator tc s : same s -> H noError (reconcileAuthDelegator tc s).
Proof.
  intros Hs. unfold reconcileAuthDelegator. pose proof (Hown s (rb_Meta (authDelegatorBinding s)) Hs eq_refl) as He.
  destruct (SetControllerReference _ _) as [m e]. cbn in He. subst e. apply H_apply.
Qed.

Lemma H_scc tc s : H noError (reconcileAPIServerSCC r tc s).
Proof.
  unfold reconcileAPIServerSCC. destruct (negb _); [done|].
  do 2 (eapply under_bind; [apply H_apply|]; intros ? ->). apply H_apply.
Qed.

Lemma H_metrics tc s : H noError (reconcileMetrics r tc s).
Proof.
  unfold reconcileMetrics. destruct (negb _); [done|].
  do 2 (eapply under_bind; [apply H_apply|]; intros ? ->).
  eapply under_bind; [apply H_wrapErr; cbn; intros [o e] He; exact He|]. intros ? ->.
  eapply under_bind; [apply H_apply|]; intros ? ->.
  eapply under_bind; [apply H_owned|]. intros ? ->.
  do 2 (eapply under_bind; [apply H_apply|]; intros ? ->). apply H_apply.
Qed.

Lemma H_requestHeader tc s : H (fun res => is_ok res = true) (reconcileRequestHeaderCA tc s).
Proof.
  unfold reconcileRequestHeaderCA. cbn [bind get perform under]. intros res (cm&->&Hca&Hn).
  rewrite decide_False by exact Hca. destruct (parseAllowedNames _) as [names|e]; [|done].
  eapply under_bind; [apply H_apply|]. by intros ? ->.
Qed.

Lemma H_kubeconfig tc s : H (ok s) (reconcileAdminKubeconfig tc s).
Proof.
  unfold reconcileAdminKubeconfig. cbn [bind get perform under]. intros res (pki&->&_). case_decide; [done|].
  cbn [bind get perform under]. intros res (admin&->&_). destruct (_ || _); [done|].
  eapply under_bind; [apply H_apply|]. intros ? ->. cbn. auto with status.
Qed.

Lemma H_apiservices s : same s -> H (ok s) (reconcileAPIServices s).
Proof.
  intros Hs. unfold reconcileAPIServices. cbn [bind get perform under]. intros res (pki&->&_).
  eapply (under_bind _ (fun res => is_ok res = true)).
  - unfold Aggregation.Reconcile. eapply under_bind.
    { apply under_for_each. intros gv _. unfold applyAPIService, ownedAPIService.
      pose proof (Hown s (as_Meta (desiredAPIService s (mget (sec_Data pki) CACertKey) gv.1 gv.2)) Hs eq_refl) as He.
      destruct (SetControllerReference _ _) as [m e]. cbn in He. subst e. cbn. by intros [o e] ->. }
    intros ? ->. eapply (under_bind _ noError); [|by intros ? ->]. apply under_for_each. intros n _.
    unfold deleteOrphan. case_decide; [done|]. cbn. intros [a|e] He; cbn; [by intros ? ->|]. by rewrite He.
  - intros [names|e] Hr; [|done]. cbn. auto with status.
Qed.

(** ** The end of a reconciliation *)
Lemma H_getOrCreate p key cfg : H (fun x => is_ok x.1 = true) (GetOrCreate SHA256 p key cfg).
Proof.
  unfold GetOrCreate, createLocked. destruct (cachedClient _ _ _); [done|]. cbn. by intros ? ->.
Qed.

Lemma H_syncCRDs p s names : H (fun x => x.1 = None) (syncCRDsToSecondary p s names).
Proof.
  unfold syncCRDsToSecondary. case_decide as E; [done|]. cbn [bind get perform under]. intros res (pki&->&_).
  cbn [bind get perform under]. intros res (admin&->&_). eapply under_bind; [apply H_getOrCreate|].
  intros [[c|e] p'] Hc; [|done]. eapply (under_bind _ (fun es => es = [])); [|by intros ? ->]. apply under_collect. intros n. unfold copyCRD.
  cbn. intros [crd|e] Hr; [|done]. by intros [o e] ->.
Qed.

(** The conflict condition does not report a failed copy. *)
Lemma H_conflicts p s :
  H (fun x => statusOnly s x.1 /\ conflictReason x.1 "CRDSyncFailed" = false) (reconcileCRDConflicts p s).
Proof.
  unfold reconcileCRDConflicts, DetectCRDConflicts. cbn. intros [crds|e] Hr; [|done]. cbn. clear Hr.
  assert (Hc : forall st reason msg, st <> ConditionTrue \/ reason <> "CRDSyncFailed" ->
    conflictReason (crdConflict s st reason msg) "CRDSyncFailed" = false).
  { intros st reason msg Hd. unfold conflictReason, crdConflict. rewrite find_set_condition, decide_True by done. cbn.
    destruct st; try done. destruct Hd as [?|Hd]; [done|]. by apply bool_decide_eq_false. }
  destruct (HasConflict _); cbn; [|split; [auto with status|apply Hc; by left]].
  eapply under_bind; [apply H_syncCRDs|]. intros [e p'] He. cbn in He. subst e. cbn.
  split; [auto with status|]. apply Hc. by right.
Qed.

Lemma H_deploymentHealth s : H (fun res => res = Ok true) (checkDeploymentHealth s).
Proof.
  unfold checkDeploymentHealth. cbn. intros res (kd&->&Hk%workloadReady_spec). cbn.
  intros res (sd&->&Hs%workloadReady_spec). rewrite Hk, Hs. case_decide; cbn; [|done].
  intros res (pg&->&Hp%workloadReady_spec). by rewrite Hp.
Qed.

Lemma H_availability s :
  same s -> conflictReason s "CRDSyncFailed" = false ->
  H (fun x => x.1 = (noRequeue, None)) (checkAPIServiceAvailability s).
Proof.
  intros (_&Hu&_) Hc. unfold checkAPIServiceAvailability. rewrite Hc. destruct (negb _); [done|].
  cbn. intros res (items&->&Ha). cbn. rewrite Hu. destruct (availability _ _) as [av msg]. cbn in Ha. by subst av.
Qed.

Lemma H_health tc p s :
  same s -> conflictReason s "CRDSyncFailed" = false ->
  H (fun x => x.1.1 = (noRequeue, None)) (updateHealthStatus tc p s).
Proof.
  intros Hs Hc. unfold updateHealthStatus. eapply under_bind; [apply H_deploymentHealth|]. intros ? ->. cbv zeta.
  eapply under_bind.
  { apply (under_always _ (fun _ => True)); [apply under_true|].
    by apply (always_sub_condition ConditionCRDConflictDetected). }
  intros [s1 p1] (_&S1&C1). eapply under_bind; [apply H_availability|].
  - eapply same_status; [exact S1|]. eapply same_status; [|exact Hs]. by split.
  - unfold conflictReason in *. rewrite C1. unfold find_condition. cbn. rewrite find_set_other by done. exact Hc.
  - intros [[res e] s2] Hr. cbn in Hr. injection Hr as -> ->. done.
Qed.

Lemma H_conclude tc p s : same s -> H (fun out => out.1 = (noRequeue, None)) (conclude tc p s).
Proof.
  intros Hs. unfold conclude. eapply under_bind; [apply H_conflicts|]. intros [s1 p1] [S1 C1]. cbn in S1, C1.
  eapply under_bind; [apply H_health; [by eapply same_status|exact C1]|].
  intros [[[res e] s2] p2] Hr. cbn in Hr. injection Hr as -> ->. cbn. intros _ _ [o e] [He _]. cbn in He. by subst e.
Qed.

(** A step that succeeds is followed by the rest. *)
Lemma H_orFail p step k s Q :
  H (ok s) step -> (forall s', statusOnly s s' -> H Q (k s')) -> H Q (orFail p step k).
Proof.
  intros Hstep Hk. unfold orFail. eapply under_bind; [exact Hstep|]. intros [e s'] [He Hs']. cbn in He, Hs'. subst e.
  by apply Hk.
Qed.

Lemma H_keeping s step : H noError step -> H (ok s) (keeping s step).
Proof. intros Hs. unfold keeping. eapply under_bind; [exact Hs|]. intros ? ->. by cbn. Qed.

Lemma H_provision p s : same s -> H (fun out => out.1 = (noRequeue, None)) (provision r p s).
Proof.
  intros Hs. unfold provision. cbv zeta. eapply H_orFail; [by apply H_storage|]. intros s0 S0.
  assert (same s0) as Hs0 by (by eapply same_status). clear S0.
  do 5 (eapply H_orFail; [apply H_keeping; first [apply H_certs|apply H_apply|by apply H_delegator|apply H_scc]|];
        let S1 := fresh in intros ? S1; apply same_status in S1; [|eassumption]).
  eapply under_bind; [apply H_requestHeader|]. intros [names|e] Hn; [|done].
  eapply H_orFail; [apply H_kubeconfig|]. intros s6 S6. apply same_status in S6; [|done].
  do 2 (eapply H_orFail; [apply H_keeping; first [apply H_secondary|apply H_metrics]|];
        let S1 := fresh in intros ? S1; apply same_status in S1; [|eassumption]).
  eapply H_orFail; [by apply H_apiservices|]. intros s9 S9. apply H_conclude. by eapply same_status.
Qed.

Lemma H_live p s : same s -> H (fun out => out.1 = (noRequeue, None)) (reconcileLive r p s).
Proof.
  intros Hs. unfold reconcileLive. eapply H_orFail; [apply H_keeping, H_namespace|]. intros s1 S1.
  apply same_status in S1; [|done]. case_decide; [|by apply H_provision].
  cbn [bind status_update perform under]. intros [s2 e] [He Hk]. cbn in He, Hk. subst e. by apply H_provision, Hk.
Qed.

(** In a healthy cluster, Reconcile comes to the reconciliation of the shard. *)
Lemma healthy_live p req tr out :
  relied (healthy origin) tr -> run (Reconcile r p req) tr out ->
  exists s tr', same s /\ relied (healthy origin) tr' /\ run (reconcileLive r p s) tr' out /\
    ghost healthStep noHealth tr = ghost healthStep noHealth tr'.
Proof.
  intros Hr (res&t1&->&Hrun). apply Forall_cons in Hr as [He Hr]. destruct He as (s&Hres&Hs). cbn in Hres. subst res.
  cbn in Hrun. destruct Hs as (?&?&?&Hd). rewrite Hd in Hrun. destruct (ContainsFinalizer _ _).
  - by exists s, t1.
  - destruct Hrun as ([s' e]&t2&->&Hrun). apply Forall_cons in Hr as [[He Hk] Hr]. cbn in He, Hk. subst e.
    exists s', t2. split; [by apply Hk|]. done.
Qed.
End Progress.

Section Readiness.
Context {T : ThirdParty} {L : ThirdPartyLaws T}.
Variable r : Reconciler.

(** C4: a healthy cluster makes a shard Ready: when writes succeed, the objects that
    are read exist, all replicas are ready and the shard's APIServices are available,
    one reconciliation of a shard that is not being deleted goes through all its steps,
    for every kind of storage and from every earlier status, and ends without error
    and without a requeue, Ready being the status it wrote last. *)
Theorem healthy_cluster_ready origin p req tr out :
  configured origin -> ownable origin -> relied (healthy origin) tr -> run (Reconcile r p req) tr out ->
  out.1 = (noRequeue, None) /\ written (ghost healthStep noHealth tr) = Some PhaseReady.
Proof.
  intros Hc Ho Hr Hrun. destruct (healthy_live r origin p req tr out Hr Hrun) as (s&tr'&Hs&Hr'&Hlive&->).
  pose proof (under_run _ _ _ _ _ (H_live r origin Hc Ho p s Hs) Hr' Hlive) as Hout. split; [exact Hout|].
  apply (wp_sound _ _ _ _ _ _ _ _ (W_live_ready r p s noHealth) (relied_any _)) in Hlive as [_ Hp].
  destruct out as [out' p']. cbn in Hout. subst out'. destruct (Hp eq_refl) as [[_ Hq]|[Hw _]]; [done|exact Hw].
Qed.
End Readiness.

(** ** A healthy cluster *)
(** [healthy], decided but for the specification of shards. *)
Definition sameIdentity (origin s : APIShard) : bool :=
  bool_decide (shardName s = shardName origin) && bool_decide (meta_UID (shard_Meta s) = meta_UID (shard_Meta origin)) &&
  bool_decide (meta_DeletionTimestamp (shard_Meta s) = None).

Definition storedCheck (origin : APIShard) (k : Kind) : obj k * option error -> bool :=
  match k return obj k * option error -> bool with
  | KAPIShard => fun res => bool_decide (res.2 = None) && sameIdentity origin res.1
  | _ => fun res => bool_decide (res.2 = None)
  end.

Definition healthyCheck (origin : APIShard) (c : call) : resp c -> bool :=
  match c return resp c -> bool with
  | Get _ KAPIShard _ => fun res => match res with Ok s => sameIdentity origin s | Err _ => false end
  | Get _ KDeployment _ => fun res => match res with Ok d => workloadReady (d_Status d) | Err _ => false end
  | Get _ KStatefulSet _ => fun res => match res with Ok d => workloadReady (s_Status d) | Err _ => false end
  | Get _ KConfigMap _ => fun res =>
      match res with
      | Ok cm => negb (bool_decide (mget (cm_Data cm) "requestheader-client-ca-file" = "")) &&
                 is_ok (parseAllowedNames (mget (cm_Data cm) "requestheader-allowed-names"))
      | Err _ => false
      end
  | Get _ KSecret _ => fun res =>
      match res, ConnectionSecretRef (Storage (Spec origin)) with
      | Ok s, Some ref => mok (sec_Data s) (skr_Key ref)
      | Ok s, None => true
      | Err _, _ => false
      end
  | Get _ KAPIService _ => fun res => match res with Ok _ => true | Err e => IsNotFound e end
  | Get _ KCRD _ => fun res => is_ok res
  | ListObjs _ KCRD _ => fun res => is_ok res
  | ListObjs _ KAPIService _ => fun res =>
      match res with Ok l => (availability (meta_UID (shard_Meta origin)) l).1 | Err _ => false end
  | StatusUpdate _ k _ => storedCheck origin k
  | PatchMergeFrom _ k _ _ => storedCheck origin k
  | PatchApply _ _ _ _ _ => fun res => bool_decide (res.2 = None)
  | ApplyOwned _ _ _ => fun res => bool_decide (res.2 = None)
  | Delete _ _ _ => fun res => bool_decide (res = None)
  | NewClient _ => fun res => bool_decide (res = None)
  | RandRead _ => fun res => is_ok res
  | _ => fun _ => true
  end.

(** The specifications of the shards that are read and returned. *)
Definition storedSpec (k : Kind) : obj k * option error -> list APIShardSpec :=
  match k return obj k * option error -> list APIShardSpec with KAPIShard => fun res => [Spec res.1] | _ => fun _ => [] end.

Definition specOf (c : call) : resp c -> list APIShardSpec :=
  match c return resp c -> list APIShardSpec with
  | Get _ KAPIShard _ => fun res => match res with Ok s => [Spec s] | Err _ => [] end
  | StatusUpdate _ k _ => storedSpec k
  | PatchMergeFrom _ k _ _ => storedSpec k
  | _ => fun _ => []
  end.

Lemma sameIdentity_sound origin s : sameIdentity origin s = true -> Spec s = Spec origin -> sameShard origin s.
Proof.
  unfold sameIdentity. rewrite !andb_true_iff, !bool_decide_eq_true. intros [[? ?] ?] ?. by repeat split.
Qed.

Lemma healthyCheck_sound origin c res :
  healthyCheck origin c res = true -> Forall (eq (Spec origin)) (specOf c res) -> healthy origin c res.
Proof.
  destruct c as [? k|? k|? k|? k|? k|? k|? k|? k|? k|? k| | | | | |]; try done;
    try destruct k; try done; cbn; rewrite ?andb_true_iff, ?bool_decide_eq_true; try done.
  all: try (destruct res as [x|e]; [|done]; intros Hx Hsp).
  - exists x. split; [done|]. apply Forall_cons in Hsp as [Hsp _]. by apply sameIdentity_sound.
  - done.
  - exists x. by rewrite <- workloadReady_spec.
  - exists x. by rewrite <- workloadReady_spec.
  - exists x. split; [done|]. intros ref Hr _. by rewrite Hr in Hx.
  - exists x. apply andb_true_iff in Hx as [H1 H2]. split; [done|]. split; [|done].
    by apply negb_true_iff, bool_decide_eq_false in H1.
  - by exists x.
  - intros [? Hi] [Hsp _]%Forall_cons. split; [done|]. intros _. by apply sameIdentity_sound.
  - intros [? Hi] [Hsp _]%Forall_cons. split; [done|]. intros _. by apply sameIdentity_sound.
Qed.

Lemma healthyCheck_trace origin (tr : list kevent) :
  forallb (fun e => healthyCheck origin (ev_call e) (ev_resp e)) tr = true ->
  Forall (eq (Spec origin)) (tr ≫= fun e => specOf (ev_call e) (ev_resp e)) ->
  relied (healthy origin) tr.
Proof.
  rewrite forallb_forall. intros H Hs. apply Forall_forall. intros e He. apply healthyCheck_sound.
  - apply H. by apply list_elem_of_In.
  - apply Forall_forall. intros sp Hsp. rewrite Forall_forall in Hs. apply Hs. apply list_elem_of_bind.
    by exists e.
Qed.

(** The first reconciliation of a shard on SQLite whose workloads run. *)
Lemma healthy_cluster_ready_witness :
  (result_of readyRun).1 = (noRequeue, None) /\
  written (ghost healthStep noHealth (trace_of readyRun)) = Some PhaseReady.
Proof.
  refine (healthy_cluster_ready demoReconciler (demoShard sqliteStorage) ∅ demoKey (trace_of readyRun)
    (result_of readyRun) _ _ _ (exec_run ref_handler _ _)).
  - intros Hs. vm_compute in Hs. discriminate Hs.
  - intros s m _ _. reflexivity.
  - apply healthyCheck_trace; [vm_compute; reflexivity|]. vm_compute. repeat constructor.
Defined.
