(* ===== verification/Lifecycle.v ===== *)
(** * The life cycle of a shard

    An abstract specification of what Reconcile (ApiShard) does to an APIShard,
    whatever it provisions: a transition system over the stages of one
    reconciliation.  Every run of Reconcile is a path of this system, changes
    resources only in the stages that allow it, and returns what the stage it ends
    in says. *)
From S2P Require Import Prelude GoStd KubeTypes APITypes Kube Reference Aggregation ClientProvider ApiShardSteps.
From S2P Require Import ApiShard ApiShardLemmas Tracking LiveRule ApiShardProps.

(** ** The specification *)
Inductive stage :=
  | Start                     (** nothing is known of the shard *)
  | Unread                    (** it could not be read *)
  | Absent                    (** it does not exist *)
  | Deleting (fs : gset string)  (** it is being deleted and holds the finalizers [fs], the operator's among them *)
  | Freed                     (** it is being deleted without the finalizer *)
  | Released                  (** it was stored without the finalizer *)
  | Unclaimed (fs : gset string) (** it is live with the finalizers [fs], the operator's not among them *)
  | Claimed (fresh : bool)    (** it is live with the finalizer; fresh: it has no phase yet *)
  | Reported (phase : string) (** its final status was stored *)
  | Lost                      (** a write to it failed *)
  | Broken.                   (** anything else *)

Inductive lifecycle_step : stage -> stage -> Prop :=
  | read_failed : lifecycle_step Start Unread
  | read_absent : lifecycle_step Start Absent
  | read_deleting fs : finalizerName ∈ fs -> lifecycle_step Start (Deleting fs)
  | read_freed : lifecycle_step Start Freed
  | read_unclaimed fs : finalizerName ∉ fs -> lifecycle_step Start (Unclaimed fs)
  | read_claimed fresh : lifecycle_step Start (Claimed fresh)
  | claims fs fresh : lifecycle_step (Unclaimed fs) (Claimed fresh)
  | claim_lost fs : lifecycle_step (Unclaimed fs) Lost
  | begins : lifecycle_step (Claimed true) (Claimed false)
  | reports_error fresh : lifecycle_step (Claimed fresh) (Reported PhaseError)
  | reports_progress : lifecycle_step (Claimed false) (Reported PhaseProvisioning)
  | reports_ready : lifecycle_step (Claimed false) (Reported PhaseReady)
  | report_lost fresh : lifecycle_step (Claimed fresh) Lost
  | releases fs : lifecycle_step (Deleting fs) Released
  | release_lost fs : lifecycle_step (Deleting fs) Lost.

(** What a reconciliation that ends in a stage returns. *)
Definition concludes (s : stage) (out : CtrlResult * option error) : Prop :=
  match s with
  | Absent | Freed | Released => out = (noRequeue, None)
  | Reported phase =>
      (phase = PhaseError /\ exists e, out = (noRequeue, Some e)) \/
      (phase = PhaseProvisioning /\ out = (requeue10s, None)) \/
      (phase = PhaseReady /\ out = (noRequeue, None))
  | Unread | Deleting _ | Claimed _ | Lost => exists e, out = (noRequeue, Some e)
  | Start | Unclaimed _ | Broken => False
  end.

(** ** The abstraction of a run *)
Definition hasFinalizer (o : APIShard) : Prop := finalizerName ∈ meta_Finalizers (shard_Meta o).
#[export] Instance hasFinalizer_dec o : Decision (hasFinalizer o).
Proof. unfold hasFinalizer. apply _. Defined.

Definition finalizersOf (o : APIShard) : gset string := list_to_set (meta_Finalizers (shard_Meta o)).

Definition fresh (o : APIShard) : bool := bool_decide (Phase (Status o) = "").

Definition stageRead (o : APIShard) : stage :=
  match meta_DeletionTimestamp (shard_Meta o) with
  | Some _ => if decide (hasFinalizer o) then Deleting (finalizersOf o) else Freed
  | None => if decide (hasFinalizer o) then Claimed (fresh o) else Unclaimed (finalizersOf o)
  end.

(** The stage after a status with the given phase was stored. *)
Definition stageStored (s : stage) (phase : string) : stage :=
  match s with
  | Claimed true => if decide (phase = PhaseProvisioning) then Claimed false
                    else if decide (phase = PhaseError) then Reported PhaseError else Broken
  | Claimed false => if decide (phase ∈ [PhaseError; PhaseProvisioning; PhaseReady]) then Reported phase else Broken
  | _ => Broken
  end.

Definition stageWrite (ok : option error) (good : stage) : stage := match ok with None => good | Some _ => Lost end.

(** The shard is claimed by a patch that adds the operator's finalizer to those it has,
    and released by an update that takes exactly that one off; the object written tells
    whether it does. *)
Definition claimed (s : stage) (written : APIShard) : Prop :=
  match s with Unclaimed fs => finalizersOf written = {[finalizerName]} ∪ fs | _ => False end.
Definition released (s : stage) (written : APIShard) : Prop :=
  match s with Deleting fs => finalizersOf written = fs ∖ {[finalizerName]} | _ => False end.

#[export] Instance claimed_dec s o : Decision (claimed s o).
Proof. destruct s; unfold claimed, released; apply _. Defined.
#[export] Instance released_dec s o : Decision (released s o).
Proof. destruct s; unfold claimed, released; apply _. Defined.

Definition advance (s : stage) (c : call) : resp c -> stage :=
  match c return resp c -> stage with
  | Get _ KAPIShard _ => fun res =>
      match s, res with
      | Start, Ok o => stageRead o
      | Start, Err e => if IsNotFound e then Absent else Unread
      | _, _ => Broken
      end
  | PatchMergeFrom _ k o _ =>
      match k return obj k -> obj k * option error -> stage with
      | KAPIShard => fun o res => if decide (claimed s o) then stageWrite res.2 (Claimed (fresh res.1)) else Broken
      | _ => fun _ _ => s
      end o
  | Update _ k o =>
      match k return obj k -> obj k * option error -> stage with
      | KAPIShard => fun o res => if decide (released s o) then stageWrite res.2 Released else Broken
      | _ => fun _ _ => s
      end o
  | StatusUpdate _ k o =>
      match k return obj k -> obj k * option error -> stage with
      | KAPIShard => fun o res =>
          match s with Claimed _ => stageWrite res.2 (stageStored s (Phase (Status o))) | _ => Broken end
      | _ => fun _ _ => s
      end o
  | _ => fun _ => s
  end.

(** Writes to the shard itself. *)
Definition ownWrite (c : call) : bool :=
  match c with
  | PatchMergeFrom _ KAPIShard _ _ | Update _ KAPIShard _ | StatusUpdate _ KAPIShard _ => true
  | _ => false
  end.

(** Other writes: everything in a claimed stage; while deleting, only APIServices
    are deleted; nothing in the other stages. *)
Definition mayWrite (s : stage) (c : call) : Prop :=
  match s, c with
  | Claimed _, _ => True
  | Deleting _, Delete _ KAPIService _ => True
  | _, _ => False
  end.

Definition conforms (s : stage) (c : call) : Prop :=
  (forall res, advance s c res = s \/ lifecycle_step s (advance s c res)) /\
  (is_write c = true -> ownWrite c = true \/ mayWrite s c).

(** ** Refinement *)
Section Refinement.
Context {T : ThirdParty} {L : ThirdPartyLaws T}.
Variable r : Reconciler.

Local Abbreviation W := (wp any_env advance conforms).
Definition ends (out : outcome) (s : stage) : Prop := concludes s out.1.

(** Calls that leave the shard alone keep a claimed stage. *)
Lemma Keeps_claimed {A} (p : kprog A) (P : call -> Prop) b :
  (forall c, P c -> liveCall c /\ match c with StatusUpdate _ _ _ => False | _ => True end) ->
  every P p -> Keeps any_env advance conforms (fun s => s = Claimed b) p.
Proof.
  intros HP Hp. eapply Keeps_every; [exact Hp|]. intros s c -> Hc. destruct (HP c Hc) as [H1 H2].
  assert (Ha : forall res, advance (Claimed b) c res = Claimed b).
  { intros res. destruct c as [? k|? k|? k|? k|? k|? k|? k|? k|? k|? k| | | | | |]; try done; by destruct k. }
  split; [split; [by left|by right]|]. intros res _. apply Ha.
Qed.

Lemma Keeps_loose_claimed {A} (p : kprog A) b :
  every looseCall p -> Keeps any_env advance conforms (fun s => s = Claimed b) p.
Proof.
  apply Keeps_claimed. intros c Hc. split; [by apply stepCall_live, loose_step|]. by destruct c.
Qed.

Lemma Keeps_quiet_claimed {A} ns (p : kprog A) b :
  every (quietCall ns) p -> Keeps any_env advance conforms (fun s => s = Claimed b) p.
Proof. intros H. by eapply Keeps_loose_claimed, every_loose. Qed.

(** An error report, stored or not. *)
Lemma W_report p sh e b : W (let* res := setErrorAndRequeue sh e in Ret (res, p)) (Claimed b) ends.
Proof.
  assert (Hs : stageStored (Claimed b) PhaseError = Reported PhaseError) by (by destruct b).
  cbn [bind setErrorAndRequeue status_update perform wp advance]. change (Phase (Status (errorStatus sh e))) with PhaseError.
  rewrite Hs. split.
  - split; [|by left]. intros [o [err|]]; right; cbn [advance stageWrite snd];
      change (Phase (Status (errorStatus sh e))) with PhaseError; rewrite ?Hs; constructor.
  - intros [o [err|]] _; cbn [stageWrite snd]; unfold ends; cbn; eauto.
Qed.

(** The verdict of the health check. *)
Lemma health_verdict tc p sh :
  always (fun x => let '(res, e, s', _) := x in
     e = None -> (res = requeue10s /\ Phase (Status s') = PhaseProvisioning) \/
                 (res = noRequeue /\ Phase (Status s') = PhaseReady)) (updateHealthStatus tc p sh).
Proof.
  eapply (wp_any_always _ _ _ _ noHealth). eapply wp_mono; [apply W_updateHealth|].
  intros [[[res e] s'] p'] g H He. destruct (H He) as [?|(?&?&_)]; [by left|by right].
Qed.

Lemma W_conclude_stage tc p sh : W (conclude tc p sh) (Claimed false) ends.
Proof.
  assert (Hc : forall c, concludeCall c -> liveCall c /\ match c with StatusUpdate _ _ _ => False | _ => True end).
  { intros c H. split; [by apply concludeCall_live|]. by destruct c. }
  unfold conclude. eapply wp_seq; [by apply (Keeps_claimed _ _ false Hc (every_conflicts p sh))|].
  intros [s1 p1] g ->. eapply wp_seq.
  { apply wp_always; [by apply (Keeps_claimed _ _ false Hc (every_health tc p1 s1))|apply health_verdict]. }
  intros [[[res e] s2] p2] g [-> H]. destruct e as [e|]; [unfold ends; cbn; eauto|]. specialize (H eq_refl).
  cbn [bind perform wp]. split; [split; [by left|by right]|]. intros cleaned _. cbn [advance].
  cbn [status_update bind perform wp advance]. change (Phase (Status (successStatus s2))) with (Phase (Status s2)).
  assert (Hst : exists ph, stageStored (Claimed false) (Phase (Status s2)) = Reported ph /\
            lifecycle_step (Claimed false) (Reported ph) /\
            concludes (Reported ph) (res, None)).
  { destruct H as [[-> ->]|[-> ->]].
    - exists PhaseProvisioning. split; [by vm_compute|]. split; [constructor|]. cbn. auto.
    - exists PhaseReady. split; [by vm_compute|]. split; [constructor|]. cbn. auto. }
  destruct Hst as (ph&Hst&Hl&Hout). rewrite Hst. split.
  - split; [|by left]. intros [o [err|]]; right; cbn [advance stageWrite snd];
      change (Phase (Status (successStatus s2))) with (Phase (Status s2)); rewrite ?Hst; [constructor|exact Hl].
  - intros [o [err|]] _; cbn [stageWrite snd]; [unfold ends; cbn; eauto|exact Hout].
Qed.

Lemma W_provision_stage p sh : W (provision r p sh) (Claimed false) ends.
Proof.
  apply (wp_provision_quiet _ _ _ (fun s => s = Claimed false) _ _) with (ns := shardNS sh);
    [| | |by intros; subst; apply W_conclude_stage|done|done].
  - intros p' sh' e s ->. apply W_report.
  - intros A q. apply Keeps_quiet_claimed.
  - intros tc sh' _. apply Keeps_loose_claimed, every_storage_loose.
Qed.

Lemma W_live_stage p sh : W (reconcileLive r p sh) (Claimed (fresh sh)) ends.
Proof.
  unfold reconcileLive, orFail. eapply wp_seq.
  { unfold keeping. eapply wp_seq.
    - apply (Keeps_quiet_claimed (shardNS sh) (ensureNamespace sh) (fresh sh)); [apply every_plain, every_namespace|done].
    - intros e s Hs. cbn. instantiate (1 := fun x s => s = Claimed (fresh sh) /\ x.2 = sh). done. }
  intros [[e|] sh'] s [-> Hsh]; cbn [snd] in Hsh; subst sh'; [apply W_report|].
  unfold fresh. case_decide as Hp.
  - rewrite bool_decide_eq_true_2 by done. cbn [status_update bind perform wp advance].
    change (Phase (Status (with_status (set_Phase PhaseProvisioning) sh))) with PhaseProvisioning.
    change (stageStored (Claimed true) PhaseProvisioning) with (Claimed false). split.
    + split; [|by left]. intros [o [err|]]; right; constructor.
    + intros [o [err|]] _; cbn [stageWrite snd]; [unfold ends; cbn; eauto|apply W_provision_stage].
  - rewrite bool_decide_eq_false_2 by done. apply W_provision_stage.
Qed.

Lemma claims_shard sh :
  claimed (Unclaimed (finalizersOf sh)) (with_meta (fun m => AddFinalizer m finalizerName) sh).
Proof. apply set_eq. intros g. unfold finalizersOf. rewrite elem_of_union, !elem_of_list_to_set. cbn. rewrite add_finalizer. set_solver. Qed.

Lemma releases_shard sh :
  released (Deleting (finalizersOf sh)) (with_meta (fun m => RemoveFinalizer m finalizerName) sh).
Proof. apply set_eq. intros g. unfold finalizersOf. rewrite elem_of_difference, !elem_of_list_to_set. cbn. rewrite remove_finalizer. set_solver. Qed.

Lemma advance_claim sh orig (res : obj KAPIShard * option error) :
  advance (Unclaimed (finalizersOf sh))
    (PatchMergeFrom PrimaryC KAPIShard (with_meta (fun m => AddFinalizer m finalizerName) sh) orig) res =
  stageWrite res.2 (Claimed (fresh res.1)).
Proof. exact (decide_True _ _ (claims_shard sh)). Qed.

Lemma advance_release sh (res : obj KAPIShard * option error) :
  advance (Deleting (finalizersOf sh))
    (Update PrimaryC KAPIShard (with_meta (fun m => RemoveFinalizer m finalizerName) sh)) res =
  stageWrite res.2 Released.
Proof. exact (decide_True _ _ (releases_shard sh)). Qed.

Lemma W_finalize_stage sh : hasFinalizer sh ->
  W (finalize sh) (Deleting (finalizersOf sh)) (fun res s => concludes s res).
Proof.
  intros Hf. unfold finalize. apply contains_finalizer in Hf. rewrite Hf. eapply wp_seq.
  { apply (wp_frame _ _ _ _ _ (fun c => match c with
             | Get _ KAPIService _ | Delete _ KAPIService _ => True | _ => False end)).
    - apply every_for_each. intros n _. unfold deregister. every_tac.
    - intros c Hc. assert (Ha : forall res, advance (Deleting (finalizersOf sh)) c res = Deleting (finalizersOf sh)).
      { intros res. destruct c as [? k|? k|? k|? k|? k|? k|? k|? k|? k|? k| | | | | |]; try done; by destruct k. }
      split; [|by intros]. split; [by left|]. intros Hw.
      destruct c as [? k|? k|? k|? k|? k|? k|? k|? k|? k|? k| | | | | |]; try done; destruct k; try done. by right. }
  intros [e|] s ->; [cbn; eauto|]. cbn [update bind perform wp]. split.
  - split; [|by left]. intros [o [err|]]; right; rewrite advance_release; constructor.
  - intros [o [err|]] _; rewrite advance_release; cbn; eauto.
Qed.

Lemma W_Reconcile_stage p req : W (Reconcile r p req) Start ends.
Proof.
  unfold Reconcile. cbn [bind perform wp advance]. split.
  { split; [|done]. right. destruct res as [o|e]; cbn [advance].
    - unfold stageRead. destruct (meta_DeletionTimestamp _); case_decide; constructor; unfold finalizersOf; by rewrite elem_of_list_to_set.
    - destruct (IsNotFound e); constructor. }
  intros [sh|e] _; [|unfold ends; cbn; destruct (IsNotFound e); cbn; eauto].
  unfold stageRead. destruct (meta_DeletionTimestamp (shard_Meta sh)).
  - case_decide as Hf.
    + eapply wp_seq; [by apply W_finalize_stage|]. done.
    + assert (E : ContainsFinalizer (shard_Meta sh) finalizerName = false).
      { destruct (ContainsFinalizer _ _) eqn:E; [|done]. by apply contains_finalizer in E. }
      unfold finalize. rewrite E. done.
  - case_decide as Hf.
    + assert (E : ContainsFinalizer (shard_Meta sh) finalizerName = true) by by apply contains_finalizer.
      rewrite E. apply W_live_stage.
    + assert (E : ContainsFinalizer (shard_Meta sh) finalizerName = false).
      { destruct (ContainsFinalizer _ _) eqn:E; [|done]. by apply contains_finalizer in E. }
      rewrite E. cbn [bind perform wp]. split.
      * split; [|by left]. intros [o [err|]]; right; rewrite advance_claim; constructor.
      * intros [sh' [err|]] _; rewrite advance_claim; cbn [stageWrite snd fst]; [unfold ends; cbn; eauto|apply W_live_stage].
Qed.

(** C2: reconcile refines the life cycle: along every run, each call and its response
    take the shard along at most one transition of the specification: a live shard
    without the operator's finalizer is first stored with it, one that is being deleted
    is at the end stored without it, both with the shard's other finalizers as they
    were read, each at most once, and at most one final status is stored; other
    resources are changed only while the shard is claimed, and APIServices deleted only
    then or while it is being deleted; and the run returns what the stage it ends in says: success exactly in the stages Absent, Freed,
    Released and Reported Provisioning, with a requeue, or Reported Ready. *)
Theorem reconcile_refines_lifecycle p req tr out :
  run (Reconcile r p req) tr out ->
  allowed advance conforms Start tr /\ concludes (ghost advance Start tr) out.1.
Proof. intros H. exact (wp_sound _ _ _ _ _ _ _ _ (W_Reconcile_stage p req) (relied_any _) H). Qed.
End Refinement.

(** The run of the reference cluster that ends in Ready, and the one that deletes. *)
Lemma reconcile_refines_lifecycle_witness :
  ghost advance Start (trace_of readyRun) = Reported PhaseReady /\
  ghost advance Start (trace_of deletionRun) = Released /\
  allowed advance conforms Start (trace_of readyRun).
Proof.
  split; [vm_compute; reflexivity|]. split; [vm_compute; reflexivity|].
  exact (proj1 (reconcile_refines_lifecycle demoReconciler ∅ demoKey _ _ (exec_run ref_handler _ _))).
Defined.
