(* ===== verification/TypeProps.v ===== *)
(** * What the reconciliation of a shard sends is well typed

    The objects that server-side apply sends carry their own API version and kind and
    the scope of their kind, and are of a kind that orphan cleanup looks through. *)
From S2P Require Import Prelude GoStd NetUrl GoJson KubeTypes APITypes Kube Reference ResCommon KineRes PostgresRes.
From S2P Require Import SecondaryRes MetricsRes OtelRes Certs Aggregation ClientProvider ApiShardSteps.
From S2P Require Import ApiShard ApiShardLemmas Tracking Rbac Typing LiveRule ApiShardProps.

(** All that a trace sends by server-side apply is well typed, in the namespace [ns]. *)
Definition typedTrace (ns : string) (tr : list kevent) : Prop := forall e, e ∈ tr -> typedCall ns (ev_call e).

Section Types.
Context {T : ThirdParty} {L : ThirdPartyLaws T}.
Variable r : Reconciler.
Variable ns : string.

Definition stateless (g : unit) (c : call) (_ : resp c) : unit := g.
Definition typedHere (_ : unit) (c : call) : Prop := typedCall ns c.

Local Abbreviation W := (wp serverKeeps stateless typedHere).
Local Abbreviation Kept := (Keeps serverKeeps stateless typedHere (fun _ => True)).

Lemma Keeps_typed {A} (p : kprog A) : every (typedCall ns) p -> Kept p.
Proof. intros H. eapply Keeps_every; [exact H|]. by intros s c _ Hc. Qed.

Lemma Keeps_quiet_typed {A} (p : kprog A) : every (quietCall ns) p -> Kept p.
Proof. intros H. apply Keeps_typed. eapply every_mono; [|exact H]. by intros c []. Qed.

Lemma Keeps_plain_typed {A} (p : kprog A) : every (plainCall ns) p -> Kept p.
Proof. intros H. by apply Keeps_quiet_typed, every_plain. Qed.

Lemma Keeps_bind {A B} (p : kprog A) (f : A -> kprog B) : Kept p -> (forall a, Kept (f a)) -> Kept (bind p f).
Proof. intros Hp Hf s Hs. eapply wp_seq; [by apply Hp|]. intros a s' _. by apply Hf. Qed.

Lemma Keeps_bind_always {A B} (P : A -> Prop) (p : kprog A) (f : A -> kprog B) :
  Kept p -> always P p -> (forall a, P a -> Kept (f a)) -> Kept (bind p f).
Proof. intros Hp Ha Hf s Hs. eapply wp_seq; [apply wp_always; [by apply Hp|exact Ha]|]. intros a s' []. by apply Hf. Qed.

Lemma Keeps_ret {A} (a : A) : Kept (Ret a).
Proof. by intros s _. Qed.

(** The fallback applies the service of the failed attempt without its traffic
    distribution. *)
Lemma Keeps_kineService tc svc : wellTyped ns KService svc -> Kept (applyKineService tc svc).
Proof.
  intros Hw s _. unfold applyKineService. apply wp_bind. cbn [wp perform]. split; [split; auto with kube|].
  intros [svc' [err|]] Hk; [|done]. cbn in Hk. destruct (Hk ltac:(done)) as [Ht Hi]. injection Hi as Hns _.
  case_match; [|done]. eapply Keeps_typed; [|done]. apply every_apply_or. split; [|auto with kube].
  destruct Hw as [H1 H2]. split; [by etrans|]. by etrans; [exact Hns|].
Qed.

Lemma Keeps_storage tc sh : shardNS sh = ns -> Kept (reconcileStorage r tc sh).
Proof.
  intros Hns. unfold reconcileStorage, wrapErr, reconcileKine. cbv zeta.
  eapply Keeps_bind_always; [apply Keeps_plain_typed; rewrite <- Hns; apply every_backend|apply always_backend|].
  intros [[e|] sh'] Hsh; [apply Keeps_ret|]. apply statusOnly_ns in Hsh. rewrite Hns in Hsh. clear Hns.
  apply Keeps_bind.
  - apply Keeps_bind; [|intros; apply Keeps_ret]. apply Keeps_bind.
    { apply Keeps_typed. split; [|done]. split; [|auto with kube]. rewrite <- Hsh. destruct (SCCAvailable r); auto with kube. }
    intros [d [e|]]; [apply Keeps_ret|]. apply Keeps_bind; [apply Keeps_plain_typed; rewrite <- Hsh; apply every_pdb|].
    intros [e|]; [apply Keeps_ret|]. apply Keeps_kineService. rewrite <- Hsh. auto with kube.
  - intros [e|]; [apply Keeps_ret|]. apply Keeps_bind; [apply Keeps_plain_typed; rewrite <- Hsh; apply every_pgMetrics|intros; apply Keeps_ret].
Qed.

Lemma wellTyped_secondaryCRD crd : wellTyped ns KCRD (secondaryCRD crd).
Proof.
  destruct crd as [tm m g [[st [[cc|]|]]|] vs]; unfold secondaryCRD, transformCRDConversion; cbn; try case_decide; auto with kube.
Qed.
Local Hint Resolve wellTyped_secondaryCRD : kube.

Lemma every_typed_patch c k o : wellTyped ns k o -> every (typedCall ns) (patch_apply c k o fieldManager).
Proof. intros H. by repeat split; destruct H. Qed.
Lemma every_typed_GetOrCreate p key cfg : every (typedCall ns) (GetOrCreate SHA256 p key cfg).
Proof. unfold GetOrCreate, createLocked. every_tac. Qed.
Local Hint Resolve every_typed_patch every_typed_GetOrCreate : kube.

Lemma every_typed_conclude tc p sh : every (typedCall ns) (conclude tc p sh).
Proof.
  unfold conclude, reconcileCRDConflicts, DetectCRDConflicts, syncCRDsToSecondary, copyCRD,
    updateHealthStatus, checkDeploymentHealth, reconcileSubResources, verifySecondaryAuth, reconcileNamespaceSync,
    reconcileWebhookSync, aggregateSubCRStatus, checkAPIServiceAvailability, CheckAvailability. every_tac.
Qed.

Lemma wp_typed p sh : shardNS sh = ns -> W (reconcileLive r p sh) tt (fun _ _ => True).
Proof.
  intros Hns.
  assert (Hf : forall (p' : clients) sh' e s, True -> W (let* res := setErrorAndRequeue sh' e in Ret (res, p')) s (fun _ _ => True)) by done.
  assert (Hp : forall sh' s, shardNS sh' = ns -> W (provision r p sh') s (fun _ _ => True)).
  { intros sh' s Hn. apply (wp_provision_quiet _ _ _ (fun _ => True) _ _ Hf ns); [|exact Keeps_storage| |exact Hn|done].
    - intros A q. apply Keeps_quiet_typed.
    - intros tc p' sh2 s2 _. by apply (Keeps_typed _ (every_typed_conclude tc p' sh2)). }
  unfold reconcileLive. apply (wp_keeping _ _ _ (fun _ => True) _ Hf); [| |done].
  - apply Keeps_plain_typed. rewrite <- Hns. apply every_namespace.
  - intros g _. case_decide; [|by apply Hp]. cbn [bind status_update perform wp]. split; [done|].
    intros [sh' [e|]] Hs; [done|]. apply Hp. cbn in Hs. by rewrite Hs.
Qed.
End Types.

(** C7: everything a reconciliation sends by server-side apply, to the primary or to the
    secondary, is well typed: the object names the API version and kind of its Go
    type, which the API server requires and the client does not fill in; it names the
    shard's namespace if its kind is namespaced, and none if it is cluster-scoped.
    What goes through the tracking client is moreover of a kind that orphan cleanup
    looks through, and what does not is applied under the operator's field manager.
    This relies on two things ([serverKeeps]): when an apply through the tracking client
    fails, the object it was given, with labels and owner references set, still has its
    type and key, since the code applies the Kine service a second time; and the update
    of a shard's status leaves its target namespace, which is part of its specification. *)
Theorem applied_objects_typed {T : ThirdParty} {L : ThirdPartyLaws T} r p sh tr out :
  relied serverKeeps tr -> run (reconcileLive r p sh) tr out ->
  typedTrace (shardNS sh) tr.
Proof.
  intros Henv Hr. destruct (wp_sound _ _ _ _ _ _ _ _ (wp_typed r (shardNS sh) p sh eq_refl) Henv Hr) as [Ha _].
  clear -Ha. induction tr as [|x tr IH]; intros e He; [by apply elem_of_nil in He|].
  destruct Ha as [H1 H2]. apply elem_of_cons in He as [->|He]; [exact H1|]. by apply IH.
Qed.

#[export] Instance serverKeeps_dec c res : Decision (serverKeeps c res).
Proof.
  destruct c as [| | | |? k o| | | |? k o| | | | | | |]; try exact True_dec.
  - destruct k; try exact True_dec. exact (decide (shardNS res.1 = shardNS o)).
  - unfold serverKeeps, keepsType. apply _.
Defined.

Lemma serverKeeps_check (tr : list kevent) :
  forallb (fun e => bool_decide (serverKeeps (ev_call e) (ev_resp e))) tr = true -> relied serverKeeps tr.
Proof.
  rewrite forallb_forall. intros H. apply Forall_forall. intros e He.
  apply list_elem_of_In, H in He. by apply bool_decide_eq_true in He.
Qed.

(** An API server that does not know the traffic distribution of services: the tracking
    client sets the owner of the service and then reports the refusal. *)
Definition svc_with_owner (o : Service) : Service :=
  {| svc_TypeMeta := svc_TypeMeta o; svc_Meta := (SetControllerReference (demoShard sqliteStorage) (svc_Meta o)).1;
     svc_Selector := svc_Selector o; svc_Ports := svc_Ports o; svc_TrafficDistribution := svc_TrafficDistribution o |}.

Definition olderServer (c : call) (w : world) : resp c * world :=
  match c return resp c * world with
  | ApplyOwned _ KService o =>
      match svc_TrafficDistribution o with
      | Some _ => ((svc_with_owner o, Some (Errorf "unknown field spec.trafficDistribution")), w)
      | None => ((o, None), w)
      end
  | c => ref_handler c w
  end.
Definition olderRun :=
  exec olderServer (reconcileLive demoReconciler ∅ (demoShard sqliteStorage)) (runningCluster (demoShard sqliteStorage)).

(** An apply that failed, of an object that came back changed. *)
Definition refused (e : kevent) : bool :=
  match e with
  | Ev (ApplyOwned _ KService o) res =>
      bool_decide (is_Some res.2) &&
      negb (bool_decide (meta_OwnerReferences (svc_Meta res.1) = meta_OwnerReferences (svc_Meta o)))
  | _ => false
  end.

Lemma applied_objects_typed_witness :
  existsb refused (trace_of olderRun) = true /\ typedTrace "shard-ns" (trace_of olderRun).
Proof.
  split; [vm_compute; reflexivity|].
  refine (applied_objects_typed demoReconciler ∅ (demoShard sqliteStorage) (trace_of olderRun) (result_of olderRun)
    (serverKeeps_check _ _) (exec_run olderServer _ _)). vm_compute. reflexivity.
Defined.
