(* ===== verification/NamespaceSync.v ===== *)
(** * The NamespaceSync controller

    src/operator/internal/controller/namespacesync: reconciler.go mirrors the
    namespaces of the primary that match a selector onto a secondary API server;
    handler.go maps namespace events to NamespaceSyncs. *)
From S2P Require Import Prelude GoStd KubeTypes APITypes Kube Reference ClientProvider ApiShardSteps.

Definition systemNamespaces : gset string :=
  {[ "kube-system"; "kube-public"; "kube-node-lease"; "default" ]}.

Definition nsName (ns : Namespace) : string := meta_Name (ns_Meta ns).

Definition filterLabels (src : gomap) : gomap :=
  match src with
  | None => None
  | Some m => Some (delete "kubernetes.io/metadata.name" m)
  end.

(** The namespace object sent to the secondary. *)
Definition mirroredNamespace (ns : Namespace) : Namespace :=
  {| ns_TypeMeta := {| APIVersion := ""; TypeKind := "" |};
     ns_Meta := newMeta (nsName ns) "" (filterLabels (meta_Labels (ns_Meta ns))) |}.

Definition bareNamespace (name : string) : Namespace :=
  {| ns_TypeMeta := {| APIVersion := ""; TypeKind := "" |}; ns_Meta := newMeta name "" None |}.

Definition ensureNamespaceOnSecondary (c : client) (ns : Namespace) : kprog (option error) :=
  let* res := create c KNamespace (mirroredNamespace ns) in
  Ret (match res.2 with
       | Some err => if IsAlreadyExists err then None else Some err
       | None => None
       end).

Definition deleteNamespaceOnSecondary (c : client) (name : string) : kprog (option error) :=
  if decide (name ∈ systemNamespaces) then Ret None
  else
    let* e := delete_obj c KNamespace (bareNamespace name) in
    Ret (match e with
         | Some err => if IsNotFound err then None else Some err
         | None => None
         end).

(** [desiredNames]: the primary's namespaces that are not excluded. *)
Definition desiredNamespaces (excluded : gset string) (primary : list Namespace) : gset string :=
  list_to_set (List.filter (fun n => negb (bool_decide (n ∈ excluded))) (nsName <$> primary)).

Definition namesOf (l : list Namespace) : gset string := list_to_set (nsName <$> l).

(** The bodies of the two loops of Reconcile. *)
Definition createMissing (c : client) (excluded existing : gset string) (ns : Namespace) : kprog (option error) :=
  if bool_decide (nsName ns ∈ excluded) || bool_decide (nsName ns ∈ existing) then Ret None
  else let* e := ensureNamespaceOnSecondary c ns in Ret (Wrapf ("namespace " +:+ nsName ns) <$> e).

Definition deleteOrphaned (c : client) (desired : gset string) (ns : Namespace) : kprog (option error) :=
  let name := nsName ns in
  if bool_decide (name ∈ desired) || bool_decide (name ∈ systemNamespaces) then Ret None
  else let* e := deleteNamespaceOnSecondary c name in Ret (Wrapf ("deleting namespace " +:+ name) <$> e).

(** Both loops: the collected errors. *)
Definition syncNamespaces (c : client) (excluded : gset string) (primary secondary : list Namespace)
  : kprog (list error) :=
  let desired := desiredNamespaces excluded primary in
  let* errs1 := collect (createMissing c excluded (namesOf secondary)) primary in
  let* errs2 := collect (deleteOrphaned c desired) secondary in
  Ret (errs1 ++ errs2).

(** ** Status *)
Definition nsync_with_status (st : NamespaceSyncStatus) (n : NamespaceSync) : NamespaceSync :=
  {| nsync_Meta := nsync_Meta n; nsync_Spec := nsync_Spec n; nsync_Status := st |}.

Definition nsyncKey (n : NamespaceSync) : string :=
  meta_Namespace (nsync_Meta n) +:+ "/" +:+ meta_Name (nsync_Meta n).

Section Controller.
Context {T : ThirdParty}.

Definition nsCondition (n : NamespaceSync) (st : ConditionStatus) (reason message : string) : list Condition :=
  SetStatusCondition (nss_Conditions (nsync_Status n))
    {| cond_Type := "Ready"; cond_Status := st; cond_Reason := reason; cond_Message := message;
       cond_ObservedGeneration := meta_Generation (nsync_Meta n) |}.

(** The status written when the secondary cannot be reached. *)
Definition nsUnavailable (n : NamespaceSync) (message : string) : NamespaceSync :=
  nsync_with_status
    {| nss_Conditions := nsCondition n ConditionFalse "SecondaryUnavailable" message;
       nss_SyncedNamespaces := nss_SyncedNamespaces (nsync_Status n);
       nss_LastSyncTime := nss_LastSyncTime (nsync_Status n);
       nss_ObservedGeneration := meta_Generation (nsync_Meta n) |} n.

(** The status written at the end of a sync. *)
Definition nsSynced (n : NamespaceSync) (desired : gset string) (errs : list error) (now : Z) : NamespaceSync :=
  nsync_with_status
    {| nss_Conditions :=
         match errs with
         | [] => nsCondition n ConditionTrue "SyncComplete"
                   (itoa (Z.of_nat (size desired)) +:+ " namespace(s) synced")
         | _ => nsCondition n ConditionFalse "SyncErrors"
                  (itoa (Z.of_nat (length errs)) +:+ " namespace(s) failed to sync")
         end;
       nss_SyncedNamespaces := int32 (Z.of_nat (size desired));
       nss_LastSyncTime := Some now;
       nss_ObservedGeneration := meta_Generation (nsync_Meta n) |} n.

(** ** Reconcile *)
Definition syncWith (p : clients) (c : client) (n : NamespaceSync) : kprog outcome :=
  let spec := nsync_Spec n in
  match LabelSelectorAsSelector (nss_LabelSelector spec) with
  | Some err => Ret ((noRequeue, Some (Wrapf "invalid label selector" err)), p)
  | None =>
      let* res := list_objs PrimaryC KNamespace (ListMatching (nss_LabelSelector spec)) in
      match res with
      | Err err => Ret ((noRequeue, Some (Wrapf "listing primary namespaces" err)), p)
      | Ok primary =>
          let excluded : gset string := list_to_set (nss_ExcludeNamespaces spec) in
          let* res := list_objs c KNamespace ListAll in
          match res with
          | Err err =>
              let* _ := status_update PrimaryC KNamespaceSync
                          (nsUnavailable n ("failed to list secondary namespaces: " +:+ Error err)) in
              Ret ((noRequeue, Some err), Invalidate p (nsyncKey n))
          | Ok secondary =>
              let* errs := syncNamespaces c excluded primary secondary in
              let* now := perform Now in
              let* res := status_update PrimaryC KNamespaceSync
                            (nsSynced n (desiredNamespaces excluded primary) errs now) in
              Ret ((noRequeue, res.2), p)
          end
      end
  end.

Definition Reconcile (p : clients) (req : NamespacedName) : kprog outcome :=
  let* res := perform (Get PrimaryC KNamespaceSync req) in
  match res with
  | Err err => Ret ((noRequeue, if IsNotFound err then None else Some err), p)
  | Ok n =>
      let* (res, p) := BuildClient SHA256 p PrimaryC (nss_Connection (nsync_Spec n))
                         (meta_Namespace (nsync_Meta n)) (nsyncKey n) in
      match res with
      | Err err =>
          let* _ := status_update PrimaryC KNamespaceSync (nsUnavailable n (Error err)) in
          Ret ((noRequeue, Some err), p)
      | Ok c => syncWith p c n
      end
  end.
End Controller.

(** ** Event mappers *)
Definition nsyncRequest (n : NamespaceSync) : NamespacedName :=
  {| nn_Namespace := meta_Namespace (nsync_Meta n); nn_Name := meta_Name (nsync_Meta n) |}.

(** Every NamespaceSync: on namespace events, and on each periodic tick. *)
Definition enqueueAll : kprog (list NamespacedName) :=
  let* res := list_objs PrimaryC KNamespaceSync ListAll in
  Ret (match res with Err _ => [] | Ok l => nsyncRequest <$> l end).

Definition usesSecret (name : string) (conn : SecondaryConnectionSpec) : bool :=
  bool_decide (AuthSecretRef conn = name) || bool_decide (CASecretRef conn = name).

Definition secretToNamespaceSyncMapper (m : ObjectMeta) : kprog (list NamespacedName) :=
  let* res := list_objs PrimaryC KNamespaceSync (ListInNamespace (meta_Namespace m)) in
  Ret (match res with
       | Err _ => []
       | Ok l => nsyncRequest <$> List.filter (fun n => usesSecret (meta_Name m) (nss_Connection (nsync_Spec n))) l
       end).

(** ** What a sync does *)
(** The namespaces of the secondary, followed through the calls of a sync. *)
Definition onSecondary (g : gset string) (k : call) : resp k -> gset string :=
  match k return resp k -> gset string with
  | Create _ KNamespace ns => fun res =>
      match res.2 with
      | None => {[nsName ns]} ∪ g
      | Some err => if IsAlreadyExists err then {[nsName ns]} ∪ g else g
      end
  | Delete _ KNamespace ns => fun res =>
      match res with
      | None => g ∖ {[nsName ns]}
      | Some err => if IsNotFound err then g ∖ {[nsName ns]} else g
      end
  | _ => fun _ => g
  end.

(** Creations are of desired namespaces only, under their own name; deletions are
    of namespaces that are neither desired nor of the system. *)
Definition mirrorOnly (c : client) (desired : gset string) (g : gset string) (k : call) : Prop :=
  match k with
  | Create c' KNamespace ns => c' = c /\ nsName ns ∈ desired
  | Delete c' KNamespace ns => c' = c /\ nsName ns ∉ desired /\ nsName ns ∉ systemNamespaces
  | Create _ _ _ | Delete _ _ _ | Update _ _ _ | PatchApply _ _ _ _ _ => False
  | _ => True
  end.

Section Sync.
Variable c : client.
Variable excluded : gset string.
Variable primary secondary : list Namespace.

Let desired := desiredNamespaces excluded primary.
Local Abbreviation W := (wp any_env onSecondary (mirrorOnly c desired)).

Lemma elem_of_desired n :
  n ∈ desired <-> n ∉ excluded /\ exists ns, ns ∈ primary /\ nsName ns = n.
Proof.
  unfold desired, desiredNamespaces. rewrite elem_of_list_to_set, list_elem_of_In, filter_In, <- list_elem_of_In.
  rewrite list_elem_of_fmap, negb_true_iff, bool_decide_eq_false. naive_solver.
Qed.

(** One creation: the namespace is there afterwards unless an error is reported. *)
Lemma W_createMissing ns g :
  ns ∈ primary -> namesOf secondary ∩ desired ⊆ g ->
  W (createMissing c excluded (namesOf secondary) ns) g (fun e g' =>
    g ⊆ g' /\ g' ⊆ g ∪ desired /\ (e = None -> nsName ns ∈ desired -> nsName ns ∈ g')).
Proof.
  intros Hns Hg. unfold createMissing. case_bool_decide as E1; cbn.
  { split; [done|]. split; [set_solver|]. intros _ Hd. apply elem_of_desired in Hd. naive_solver. }
  case_bool_decide as E2; cbn; [set_solver|].
  assert (nsName ns ∈ desired) as Hd by (apply elem_of_desired; eauto).
  split; [done|]. intros [o [e|]] _; cbn; [destruct (IsAlreadyExists e)|]; cbn; set_solver.
Qed.

Lemma W_createAll l g :
  l ⊆ primary -> namesOf secondary ∩ desired ⊆ g ->
  W (collect (createMissing c excluded (namesOf secondary)) l) g (fun errs g' =>
    g ⊆ g' /\ g' ⊆ g ∪ desired /\ (errs = [] -> namesOf l ∩ desired ⊆ g')).
Proof.
  revert g. induction l as [|ns l IH]; intros g Hl Hg; cbn [collect].
  { cbn. split; [done|]. split; [set_solver|]. intros _. unfold namesOf. set_solver. }
  eapply wp_seq; [apply W_createMissing; [set_solver|done]|]. intros e g1 (G1&G2&G3).
  eapply wp_seq; [apply IH; [set_solver|set_solver]|]. intros errs g2 (G4&G5&G6). cbn.
  split; [set_solver|]. split; [set_solver|]. intros He. destruct e as [e|]; [done|].
  specialize (G3 eq_refl). specialize (G6 He). unfold namesOf in *. cbn. set_solver.
Qed.

Lemma W_deleteOrphaned ns g :
  W (deleteOrphaned c desired ns) g (fun e g' =>
    g' ⊆ g /\ g ∩ (desired ∪ systemNamespaces) ⊆ g' /\
    (e = None -> nsName ns ∈ g' -> nsName ns ∈ desired ∪ systemNamespaces)).
Proof.
  unfold deleteOrphaned, deleteNamespaceOnSecondary. cbv zeta.
  case_bool_decide as E1; cbn; [set_solver|]. case_bool_decide as E2; cbn; [set_solver|].
  rewrite decide_False by done. cbn. split; [done|].
  intros [e|] _; cbn; [destruct (IsNotFound e)|]; cbn; set_solver.
Qed.

Lemma W_deleteAll l g :
  W (collect (deleteOrphaned c desired) l) g (fun errs g' =>
    g' ⊆ g /\ g ∩ (desired ∪ systemNamespaces) ⊆ g' /\
    (errs = [] -> g' ∩ namesOf l ⊆ desired ∪ systemNamespaces)).
Proof.
  revert g. induction l as [|ns l IH]; intros g; cbn [collect].
  { cbn. split; [done|]. split; [set_solver|]. intros _. unfold namesOf. set_solver. }
  eapply wp_seq; [apply W_deleteOrphaned|]. intros e g1 (G1&G2&G3).
  eapply wp_seq; [apply IH|]. intros errs g2 (G4&G5&G6). cbn.
  split; [set_solver|]. split; [set_solver|]. intros He. destruct e as [e|]; [done|].
  specialize (G3 eq_refl). specialize (G6 He). unfold namesOf in *. cbn. set_solver.
Qed.

Lemma W_syncNamespaces :
  W (syncNamespaces c excluded primary secondary) (namesOf secondary) (fun errs g' =>
    namesOf secondary ∩ (desired ∪ systemNamespaces) ⊆ g' /\
    (errs = [] -> desired ⊆ g' /\ g' ⊆ desired ∪ (systemNamespaces ∩ namesOf secondary))).
Proof.
  unfold syncNamespaces. cbv zeta. eapply wp_seq; [apply W_createAll; [done|set_solver]|].
  intros errs1 g1 (G1&G2&G3). eapply wp_seq; [apply W_deleteAll|]. intros errs2 g2 (G4&G5&G6). cbn.
  split; [set_solver|]. intros He. apply app_eq_nil in He as [-> ->].
  specialize (G3 eq_refl). specialize (G6 eq_refl).
  assert (Hd : desired ⊆ namesOf primary).
  { intros n Hn. apply elem_of_desired in Hn as (_&ns&Hp&<-). unfold namesOf.
    apply elem_of_list_to_set, list_elem_of_fmap. eauto. }
  split; [set_solver|]. intros n Hn.
  assert (n ∈ g1) as Hn1 by set_solver. apply G2 in Hn1. set_solver.
Qed.
End Sync.


(** A sync of a secondary that is in step performs no call. *)
Lemma syncNamespaces_idle c excluded primary secondary :
  desiredNamespaces excluded primary ⊆ namesOf secondary ->
  namesOf secondary ⊆ desiredNamespaces excluded primary ∪ systemNamespaces ->
  syncNamespaces c excluded primary secondary = Ret [].
Proof.
  intros H1 H2. unfold syncNamespaces. cbv zeta.
  assert (Hc : forall A (f : A -> kprog (option error)) l, (forall x, x ∈ l -> f x = Ret None) -> collect f l = Ret []).
  { intros A f l. induction l as [|x l IH]; intros Hf; [done|]. cbn. rewrite Hf by set_solver. cbn.
    by rewrite IH by set_solver. }
  rewrite Hc; [cbn|].
  - rewrite Hc; [done|]. intros ns Hns. unfold deleteOrphaned. cbv zeta.
    assert (nsName ns ∈ namesOf secondary) as Hn
      by (unfold namesOf; apply elem_of_list_to_set, list_elem_of_fmap; eauto).
    apply H2, elem_of_union in Hn as [Hn|Hn]; [by rewrite (bool_decide_eq_true_2 _ Hn)|].
    by rewrite (bool_decide_eq_true_2 _ Hn), orb_true_r.
  - intros ns Hns. unfold createMissing. case_bool_decide as E; [done|].
    rewrite bool_decide_eq_true_2; [done|]. apply H1. apply elem_of_desired. eauto.
Qed.

(** ** The primary is only read *)
Definition remoteClient (c : client) : Prop := exists cfg, c = RemoteC cfg.
Definition remoteCache (p : clients) : Prop := map_Forall (fun _ e => remoteClient (ce_client e)) p.

(** Namespaces are created and deleted on a secondary only; on the primary, the
    status of the NamespaceSync is all that is written. *)
Definition primaryReadOnly (c : call) : Prop :=
  match c with
  | Create c' KNamespace _ | Delete c' KNamespace _ => remoteClient c'
  | StatusUpdate _ KNamespaceSync _ => True
  | _ => is_write c = false
  end.

Lemma always_GetOrCreate_remote f p key cfg :
  remoteCache p ->
  always (fun '(res, p') => remoteCache p' /\ match res with Ok c => remoteClient c | Err _ => True end)
    (GetOrCreate f p key cfg).
Proof.
  intros Hp.
  assert (Hc : forall c, cachedClient f p key cfg = Some c -> remoteClient c).
  { intros c. unfold cachedClient. destruct (p !! key) as [e|] eqn:E; [|done].
    case_match; [|done]. intros [= <-]. exact (Hp _ _ E). }
  unfold GetOrCreate, createLocked. destruct (cachedClient f p key cfg) as [c|] eqn:E; [by split; [|apply Hc]|].
  cbn. intros [e|]; cbn; [done|]. intros now. split; [|by eexists].
  apply map_Forall_insert_2; [by eexists|done].
Qed.

Lemma always_BuildClient_remote f p c conn ns key :
  remoteCache p ->
  always (fun '(res, p') => remoteCache p' /\ match res with Ok c => remoteClient c | Err _ => True end)
    (BuildClient f p c conn ns key).
Proof.
  intros Hp. unfold BuildClient. intros [ca|e]; cbn; [|done]. case_decide; [done|].
  intros [au|e]; cbn; [|done]. case_match; [|done]. by apply always_GetOrCreate_remote.
Qed.

Section PrimaryReadOnly.
Context {T : ThirdParty}.

Lemma every_syncWith p c n : remoteClient c -> every primaryReadOnly (syncWith p c n).
Proof.
  intros Hc. unfold syncWith, syncNamespaces, createMissing, deleteOrphaned, ensureNamespaceOnSecondary,
    deleteNamespaceOnSecondary. cbv zeta. every_tac.
Qed.

Lemma every_BuildClient f p c conn ns key : every primaryReadOnly (BuildClient f p c conn ns key).
Proof. unfold BuildClient, GetOrCreate, createLocked. every_tac. Qed.

Lemma every_Reconcile p req : remoteCache p -> every primaryReadOnly (Reconcile p req).
Proof.
  intros Hp. unfold Reconcile. cbn [bind perform every]. split; [done|]. intros [n|e]; [|done].
  eapply (every_bind_always); [apply every_BuildClient|by apply always_BuildClient_remote|].
  intros [[c|e] p'] [_ Hc]; [by apply every_syncWith|]. cbn. done.
Qed.
End PrimaryReadOnly.

Section Theorems.
Context {T : ThirdParty}.

(** C9: one synchronisation pass creates on the secondary only namespaces that
    are on the primary and not excluded, deletes only namespaces that are
    neither desired nor system namespaces, and, when it reports no error, leaves
    the secondary with every desired namespace and nothing else but the system
    namespaces that were there. *)
Theorem namespace_sync_converges c excluded primary secondary tr errs :
  run (syncNamespaces c excluded primary secondary) tr errs ->
  let desired := desiredNamespaces excluded primary in
  let after := ghost onSecondary (namesOf secondary) tr in
  allowed onSecondary (mirrorOnly c desired) (namesOf secondary) tr /\
  namesOf secondary ∩ (desired ∪ systemNamespaces) ⊆ after /\
  (errs = [] -> desired ⊆ after /\ after ⊆ desired ∪ (systemNamespaces ∩ namesOf secondary)).
Proof.
  intros H. apply (wp_sound _ _ _ _ _ _ _ _ (W_syncNamespaces c excluded primary secondary) (relied_any _)) in H.
  exact H.
Qed.

(** Synchronisation is idempotent: when the secondary holds every desired
    namespace and otherwise only system namespaces, which is what a pass without
    errors leaves, another pass performs no call and reports no error. *)
Theorem namespace_sync_idempotent c excluded primary secondary tr errs :
  desiredNamespaces excluded primary ⊆ namesOf secondary ->
  namesOf secondary ⊆ desiredNamespaces excluded primary ∪ systemNamespaces ->
  run (syncNamespaces c excluded primary secondary) tr errs <-> tr = [] /\ errs = [].
Proof. intros H1 H2. by rewrite syncNamespaces_idle. Qed.

(** C10: as long as the client cache holds clients of secondaries only, a
    reconciliation of a NamespaceSync creates and deletes namespaces only through
    such a client and writes nothing to the primary but NamespaceSync statuses. *)
Theorem namespace_sync_spares_primary p req tr out :
  remoteCache p -> run (Reconcile p req) tr out -> Forall (fun e => primaryReadOnly (ev_call e)) tr.
Proof. intros Hp. apply every_run. by apply every_Reconcile. Qed.
End Theorems.

(** ** Witnesses *)
Definition demoRemote : client :=
  RemoteC {| rc_Host := "https://demo"; rc_CAData := "CA"; rc_Insecure := false; rc_BearerToken := "t";
             rc_CertData := ""; rc_KeyData := "" |}.
Definition demoPrimaryNs : list Namespace := bareNamespace <$> ["a"; "b"; "hidden"].
Definition demoSecondaryNs : list Namespace := bareNamespace <$> ["b"; "old"; "kube-system"].
Definition nsCluster (secondary : list Namespace) : world :=
  {| w_primary := existT KNamespace <$> demoPrimaryNs; w_secondary := existT KNamespace <$> secondary; w_clock := 0 |}.
Definition nsSyncRun :=
  ref_exec (syncNamespaces demoRemote {["hidden"]} demoPrimaryNs demoSecondaryNs) (nsCluster demoSecondaryNs).

Lemma namespace_sync_converges_witness :
  result_of nsSyncRun = [] /\
  ghost onSecondary (namesOf demoSecondaryNs) (trace_of nsSyncRun) = {["a"; "b"; "kube-system"]} /\
  allowed onSecondary (mirrorOnly demoRemote (desiredNamespaces {["hidden"]} demoPrimaryNs))
    (namesOf demoSecondaryNs) (trace_of nsSyncRun).
Proof.
  split; [vm_compute; reflexivity|]. split; [vm_compute; reflexivity|].
  exact (proj1 (namespace_sync_converges demoRemote {["hidden"]} demoPrimaryNs demoSecondaryNs _ _
                  (exec_run ref_handler _ _))).
Defined.

Lemma namespace_sync_idempotent_witness :
  run (syncNamespaces demoRemote {["hidden"]} demoPrimaryNs (bareNamespace <$> ["a"; "b"; "default"])) [] [].
Proof.
  apply (namespace_sync_idempotent demoRemote).
  - refine (proj1 (bool_decide_eq_true (_ ⊆ _)) _). vm_compute. reflexivity.
  - refine (proj1 (bool_decide_eq_true (_ ⊆ _)) _). vm_compute. reflexivity.
  - split; reflexivity.
Defined.

Definition demoNsSync : NamespaceSync :=
  {| nsync_Meta := newMeta "demo-ns-sync" "shard-ns" None;
     nsync_Spec := {| nss_Connection := {| ServiceRef_ := {| ref_Name := "demo-apiserver"; ref_Namespace := "shard-ns"; ref_Port := 443 |};
                                           AuthSecretRef := "demo-admin-client-cert"; CASecretRef := "demo-pki" |};
                      nss_LabelSelector := noSelector; nss_ExcludeNamespaces := ["hidden"] |};
     nsync_Status := {| nss_Conditions := []; nss_SyncedNamespaces := 0; nss_LastSyncTime := None;
                        nss_ObservedGeneration := 0 |} |}.

Definition nsReconcileCluster : world :=
  {| w_primary := existT KNamespaceSync demoNsSync :: (existT KNamespace <$> demoPrimaryNs) ++
       w_primary (runningCluster (demoShard sqliteStorage));
     w_secondary := existT KNamespace <$> demoSecondaryNs; w_clock := 0 |}.

Definition nsReconcileRun :=
  ref_exec (Reconcile ∅ {| nn_Namespace := "shard-ns"; nn_Name := "demo-ns-sync" |}) nsReconcileCluster.

Definition isDelete (c : call) : bool := match c with Delete _ _ _ => true | _ => false end.

Lemma namespace_sync_spares_primary_witness :
  performs isDelete (trace_of nsReconcileRun) = true /\
  Forall (fun e => primaryReadOnly (ev_call e)) (trace_of nsReconcileRun).
Proof.
  split; [vm_compute; reflexivity|].
  refine (namespace_sync_spares_primary ∅ _ _ _ _ (exec_run ref_handler _ _)). apply map_Forall_empty.
Defined.
