(* ===== verification/WebhookSync.v ===== *)
(** * The WebhookSync controller

    src/operator/internal/controller/webhooksync: reconciler.go copies the webhook
    configurations of the primary that concern the aggregated groups to a secondary
    API server, with service references rewritten to URLs; handler.go maps webhook
    events to WebhookSyncs.  Validating and mutating configurations have the same
    shape, so what the source writes twice is one definition over the kind. *)
From S2P Require Import Prelude GoStd KubeTypes APITypes Kube Reference ClientProvider ApiShardSteps.
From S2P Require Import ApiShard NamespaceSync.

Definition wcName (w : WebhookConfiguration) : string := meta_Name (wc_Meta w).

(** shouldSyncValidatingWebhook and shouldSyncMutatingWebhook *)
Definition shouldSyncWebhook (webhooks : list Webhook) (targetGroups : gset string) : bool :=
  existsb (fun wh => existsb (fun groups =>
    existsb (fun g => bool_decide (g ∈ targetGroups) || bool_decide (g = "*")) groups) (wh_Rules wh)) webhooks.

(** servicePort, servicePath *)
Definition servicePort (port : option Z) : Z := match port with None => 443 | Some p => p end.
Definition servicePath (path : option string) : string := match path with None => "" | Some p => p end.

Definition webhookURL (ref : ServiceRef) : string :=
  "https://" +:+ sr_Name ref +:+ "." +:+ sr_Namespace ref +:+ ".svc:" +:+ itoa (servicePort (sr_Port ref)) +:+
  servicePath (sr_Path ref).

Definition transformClientConfig (cc : WebhookClientConfig) : WebhookClientConfig :=
  match wcc_Service cc with
  | Some ref => {| wcc_URL := Some (webhookURL ref); wcc_Service := None; wcc_CABundle := wcc_CABundle cc |}
  | None => cc
  end.

Definition transformEntry (wh : Webhook) : Webhook :=
  {| wh_Name := wh_Name wh; wh_ClientConfig := transformClientConfig (wh_ClientConfig wh);
     wh_Rules := wh_Rules wh; wh_Rest := wh_Rest wh |}.

(** Metadata without what belongs to the primary. *)
Definition stripMeta (m : ObjectMeta) : ObjectMeta :=
  {| meta_Name := meta_Name m; meta_Namespace := meta_Namespace m; meta_Labels := meta_Labels m;
     meta_Annotations := meta_Annotations m; meta_OwnerReferences := []; meta_Finalizers := [];
     meta_Generation := 0; meta_UID := ""; meta_ResourceVersion := "";
     meta_DeletionTimestamp := meta_DeletionTimestamp m; meta_ManagedFields := [] |}.

(** transformValidatingWebhook and transformMutatingWebhook *)
Definition transformWebhook (src : WebhookConfiguration) : WebhookConfiguration :=
  {| wc_TypeMeta := wc_TypeMeta src; wc_Meta := stripMeta (wc_Meta src);
     wc_Webhooks := transformEntry <$> wc_Webhooks src |}.

(** [existing] with the webhooks, labels and annotations of [transformed]. *)
Definition overwrite (existing transformed : WebhookConfiguration) : WebhookConfiguration :=
  let m := wc_Meta existing in
  {| wc_TypeMeta := wc_TypeMeta existing;
     wc_Meta :=
       {| meta_Name := meta_Name m; meta_Namespace := meta_Namespace m;
          meta_Labels := meta_Labels (wc_Meta transformed);
          meta_Annotations := meta_Annotations (wc_Meta transformed);
          meta_OwnerReferences := meta_OwnerReferences m; meta_Finalizers := meta_Finalizers m;
          meta_Generation := meta_Generation m; meta_UID := meta_UID m;
          meta_ResourceVersion := meta_ResourceVersion m;
          meta_DeletionTimestamp := meta_DeletionTimestamp m; meta_ManagedFields := meta_ManagedFields m |};
     wc_Webhooks := wc_Webhooks transformed |}.

Section PerKind.
(** The kind, KVWHC or KMWHC, its name, and its objects as configurations. *)
Variable k : Kind.
Variable kindName : string.
Variable toCfg : obj k -> WebhookConfiguration.
Variable ofCfg : WebhookConfiguration -> obj k.
Variable c : client.

(** The body of the sync loop for one configuration that is to be synced. *)
Definition syncOne (wc : WebhookConfiguration) : kprog (option error) :=
  let transformed := transformWebhook wc in
  let* res := get c k "" (wcName transformed) in
  match res with
  | Err err =>
      if IsNotFound err then
        let* res := create c k (ofCfg transformed) in Ret res.2
      else Ret (Some err)
  | Ok existing =>
      let* res := update c k (ofCfg (overwrite (toCfg existing) transformed)) in Ret res.2
  end.

(** The loop: names synced, their number, and the collected errors. *)
Fixpoint syncAll (targetGroups : gset string) (items : list WebhookConfiguration)
  : kprog (gset string * Z * list error) :=
  match items with
  | [] => Ret (∅, 0%Z, [])
  | wc :: items =>
      if negb (shouldSyncWebhook (wc_Webhooks wc) targetGroups) then syncAll targetGroups items
      else
        let* e := syncOne wc in
        let* (names, n, errs) := syncAll targetGroups items in
        Ret (match e with
             | Some err => (names, n, Wrapf ("syncing " +:+ kindName +:+ " " +:+ wcName wc) err :: errs)
             | None => ({[wcName wc]} ∪ names, int32 (n + 1), errs)
             end)
  end.

(** deleteStaleValidating and deleteStaleMutating *)
Definition deleteStale (currentNames : gset string) : kprog (option error) :=
  let* res := list_objs c k ListAll in
  match res with
  | Err err => Ret (Some (Wrapf ("listing " +:+ kindName +:+ "s on secondary") err))
  | Ok items =>
      for_each (fun item =>
        if decide (wcName (toCfg item) ∈ currentNames) then Ret None
        else
          let* e := delete_obj c k item in
          match e with
          | Some err => if IsNotFound err then Ret None
                        else Ret (Some (Wrapf ("deleting stale " +:+ kindName +:+ " " +:+ wcName (toCfg item)) err))
          | None => Ret None
          end) items
  end.
End PerKind.

Definition vName : string := "ValidatingWebhookConfiguration".
Definition mName : string := "MutatingWebhookConfiguration".
Definition syncValidating (c : client) := syncAll KVWHC vName id id c.
Definition syncMutating (c : client) := syncAll KMWHC mName id id c.
Definition deleteStaleValidating (c : client) := deleteStale KVWHC vName id c.
Definition deleteStaleMutating (c : client) := deleteStale KMWHC mName id c.

(** ** Reconcile *)
Definition wsync_with_status (st : WebhookSyncStatus) (w : WebhookSync) : WebhookSync :=
  {| wsync_Meta := wsync_Meta w; wsync_Spec := wsync_Spec w; wsync_Status := st |}.

Definition wsyncKey (w : WebhookSync) : string :=
  meta_Namespace (wsync_Meta w) +:+ "/" +:+ meta_Name (wsync_Meta w).

Definition opt_list {A} (o : option A) : list A := match o with Some a => [a] | None => [] end.

Section Controller.
Context {T : ThirdParty}.

Definition whCondition (w : WebhookSync) (st : ConditionStatus) (reason message : string) : list Condition :=
  SetStatusCondition (whs_Conditions (wsync_Status w))
    {| cond_Type := "Ready"; cond_Status := st; cond_Reason := reason; cond_Message := message;
       cond_ObservedGeneration := meta_Generation (wsync_Meta w) |}.

Definition whUnavailable (w : WebhookSync) (message : string) : WebhookSync :=
  wsync_with_status
    {| whs_Conditions := whCondition w ConditionFalse "SecondaryUnavailable" message;
       whs_Validating := whs_Validating (wsync_Status w); whs_Mutating := whs_Mutating (wsync_Status w);
       whs_LastSyncTime := whs_LastSyncTime (wsync_Status w);
       whs_ObservedGeneration := meta_Generation (wsync_Meta w) |} w.

Definition whSynced (w : WebhookSync) (nv nm : Z) (errs : list error) (now : Z) : WebhookSync :=
  wsync_with_status
    {| whs_Conditions :=
         match errs with
         | [] => whCondition w ConditionTrue "SyncComplete"
                   ("Synced " +:+ itoa nv +:+ " validating and " +:+ itoa nm +:+ " mutating webhook(s)")
         | _ => whCondition w ConditionFalse "SyncErrors"
                  (itoa (Z.of_nat (length errs)) +:+ " webhook(s) failed to sync")
         end;
       whs_Validating := nv; whs_Mutating := nm; whs_LastSyncTime := Some now;
       whs_ObservedGeneration := meta_Generation (wsync_Meta w) |} w.

Definition syncWebhooks (p : clients) (c : client) (w : WebhookSync) : kprog outcome :=
  let targetGroups : gset string := list_to_set (whs_APIGroups (wsync_Spec w)) in
  let* res := list_objs PrimaryC KVWHC ListAll in
  match res with
  | Err err => Ret ((noRequeue, Some (Wrapf "listing ValidatingWebhookConfigurations" err)), p)
  | Ok vItems =>
      let* (syncedV, nv, errsV) := syncValidating c targetGroups vItems in
      let* res := list_objs PrimaryC KMWHC ListAll in
      match res with
      | Err err => Ret ((noRequeue, Some (Wrapf "listing MutatingWebhookConfigurations" err)), p)
      | Ok mItems =>
          let* (syncedM, nm, errsM) := syncMutating c targetGroups mItems in
          let* staleV := deleteStaleValidating c syncedV in
          let* staleM := deleteStaleMutating c syncedM in
          let syncErrors := errsV ++ errsM ++ opt_list staleV ++ opt_list staleM in
          let p := match syncErrors with [] => p | _ => Invalidate p (wsyncKey w) end in
          let* now := perform Now in
          let* res := status_update PrimaryC KWebhookSync (whSynced w nv nm syncErrors now) in
          Ret ((noRequeue, res.2), p)
      end
  end.

Definition Reconcile (p : clients) (req : NamespacedName) : kprog outcome :=
  let* res := perform (Get PrimaryC KWebhookSync req) in
  match res with
  | Err err => Ret ((noRequeue, if IsNotFound err then None else Some err), p)
  | Ok w =>
      let* (res, p) := BuildClient SHA256 p PrimaryC (whs_Connection (wsync_Spec w))
                         (meta_Namespace (wsync_Meta w)) (wsyncKey w) in
      match res with
      | Err err =>
          let* _ := status_update PrimaryC KWebhookSync
                      (whUnavailable w ("Cannot connect to secondary: " +:+ Error err)) in
          Ret ((noRequeue, Some err), p)
      | Ok c => syncWebhooks p c w
      end
  end.
End Controller.

(** ** Event mappers *)
Definition wsyncRequest (w : WebhookSync) : NamespacedName :=
  {| nn_Namespace := meta_Namespace (wsync_Meta w); nn_Name := meta_Name (wsync_Meta w) |}.

Definition enqueueAllWebhookSyncs : kprog (list NamespacedName) :=
  let* res := list_objs PrimaryC KWebhookSync ListAll in
  Ret (match res with Err _ => [] | Ok l => wsyncRequest <$> l end).

Definition secretToWebhookSyncMapper (m : ObjectMeta) : kprog (list NamespacedName) :=
  let* res := list_objs PrimaryC KWebhookSync (ListInNamespace (meta_Namespace m)) in
  Ret (match res with
       | Err _ => []
       | Ok l => wsyncRequest <$> List.filter (fun w => usesSecret (meta_Name m) (whs_Connection (wsync_Spec w))) l
       end).

(** ** What the loops do *)
Section LoopSpecs.
Variable k : Kind.
Variable kindName : string.
Variable toCfg : obj k -> WebhookConfiguration.
Variable ofCfg : WebhookConfiguration -> obj k.
Variable c : client.

Definition selected (targetGroups : gset string) (items : list WebhookConfiguration) : list WebhookConfiguration :=
  List.filter (fun wc => shouldSyncWebhook (wc_Webhooks wc) targetGroups) items.

(** The names whose iteration ended without an error. *)
Definition succeeded (l : list WebhookConfiguration) (ps : list (list kevent * option error)) : list string :=
  omap (fun '(wc, p) => match snd p with None => Some (wcName wc) | Some _ => None end) (zip l ps).

Lemma run_syncAll tg items tr names n errs :
  run (syncAll k kindName toCfg ofCfg c tg items) tr (names, n, errs) ->
  exists ps, tr = concat (fst <$> ps) /\
    Forall2 (fun wc p => run (syncOne k toCfg ofCfg c wc) p.1 p.2) (selected tg items) ps /\
    names = list_to_set (succeeded (selected tg items) ps) /\
    n = int32 (Z.of_nat (length (succeeded (selected tg items) ps))) /\
    (errs = [] -> Forall (fun p => snd p = None) ps).
Proof.
  revert tr names n errs. unfold selected.
  induction items as [|wc items IH]; intros tr names n errs; cbn [syncAll List.filter].
  - intros [-> [= -> -> ->]]. exists []. repeat split; constructor.
  - destruct (shouldSyncWebhook (wc_Webhooks wc) tg); cbn [negb]; [|apply IH].
    rewrite run_bind. intros (t1&t2&e&->&H1&H2). apply run_bind in H2 as (t3&t4&[[names' n'] errs']&->&H3&->&Heq).
    apply IH in H3 as (ps&->&HF&->&->&He). exists ((t1, e) :: ps). cbn. rewrite app_nil_r.
    split; [done|]. split; [by constructor|]. unfold succeeded. cbn.
    destruct e as [e|]; simplify_eq/=; [by repeat split|].
    split; [done|]. split; [rewrite int32_succ, Nat2Z.inj_succ; done|]. intros Hn. constructor; auto.
Qed.

(** A run of the iteration that reports no error stored the transformed copy. *)
Definition stored (wc : WebhookConfiguration) (t : list kevent) : Prop :=
  let key := {| nn_Namespace := ""; nn_Name := wcName wc |} in
  (exists e o, IsNotFound e = true /\
     t = [Ev (Get c k key) (Err e); Ev (Create c k (ofCfg (transformWebhook wc))) (o, None)]) \/
  (exists existing o,
     t = [Ev (Get c k key) (Ok existing);
          Ev (Update c k (ofCfg (overwrite (toCfg existing) (transformWebhook wc)))) (o, None)]).

Lemma run_syncOne wc t : run (syncOne k toCfg ofCfg c wc) t None -> stored wc t.
Proof.
  unfold syncOne, stored. cbn. intros (res&tr'&->&H). destruct res as [existing|e]; cbn in H.
  - destruct H as ([o e]&tr2&->&->&[= <-]). right. eauto.
  - destruct (IsNotFound e) eqn:E; cbn in H; [|by destruct H].
    destruct H as ([o e']&tr2&->&->&[= <-]). left. eauto.
Qed.

(** One listed configuration: kept when current, else deleted. *)
Definition kept_or_deleted (current : gset string) (item : obj k) (t : list kevent) : Prop :=
  (wcName (toCfg item) ∈ current /\ t = []) \/
  (wcName (toCfg item) ∉ current /\
   exists res, t = [Ev (Delete c k item) res] /\
               match res with None => True | Some e => IsNotFound e = true end).

Lemma run_deleteStale current tr :
  run (deleteStale k kindName toCfg c current) tr None ->
  exists items ts, tr = Ev (ListObjs c k ListAll) (Ok items) :: concat ts /\
    Forall2 (kept_or_deleted current) items ts.
Proof.
  unfold deleteStale. cbn. intros (res&tr'&->&H). destruct res as [items|e]; cbn in H; [|by destruct H].
  apply run_for_each_ok in H as (ts&->&H). exists items, ts. split; [done|].
  eapply Forall2_impl; [exact H|]. intros item t Ht. cbv beta in Ht. unfold kept_or_deleted.
  case_decide; cbn in Ht; [left; by destruct Ht|]. right. split; [done|].
  destruct Ht as (res&t'&->&Ht). exists res. destruct res as [e|]; cbn in Ht.
  - destruct (IsNotFound e); by destruct Ht as [-> ?].
  - by destruct Ht as [-> ?].
Qed.

(** When all iterations succeed, the synced names are those of the selection. *)
Lemma succeeded_all l ps :
  length ps = length l -> Forall (fun p : list kevent * option error => snd p = None) ps ->
  succeeded l ps = wcName <$> l.
Proof.
  unfold succeeded. revert ps. induction l as [|wc l IH]; intros [|p ps] Hl Hp; try done.
  apply Forall_cons in Hp as [H1 H2]. cbn. rewrite H1. f_equal. apply IH; [by injection Hl|done].
Qed.

(** What a pass over the configurations of one kind does. *)
Definition storesSelected (tg : gset string) (items : list WebhookConfiguration) (tr : list kevent)
    (names : gset string) (n : Z) (errs : list error) : Prop :=
  exists ps, tr = concat (fst <$> ps) /\
    Forall2 (fun wc p => snd p = None -> stored wc (fst p)) (selected tg items) ps /\
    names = list_to_set (succeeded (selected tg items) ps) /\
    n = int32 (Z.of_nat (length (succeeded (selected tg items) ps))) /\
    (errs = [] -> names = list_to_set (wcName <$> selected tg items) /\
                  n = int32 (Z.of_nat (length (selected tg items))) /\
                  Forall2 (fun wc p => stored wc (fst p)) (selected tg items) ps).

Lemma syncAll_stores tg items tr names n errs :
  run (syncAll k kindName toCfg ofCfg c tg items) tr (names, n, errs) -> storesSelected tg items tr names n errs.
Proof.
  intros H. apply run_syncAll in H as (ps&->&HF&->&->&He). exists ps.
  assert (HF' : Forall2 (fun wc p => snd p = None -> stored wc (fst p)) (selected tg items) ps).
  { eapply Forall2_impl; [exact HF|]. intros wc [t e] Hr Hn. simpl in *. subst. by apply run_syncOne. }
  do 4 (split; [done|]). intros Hn. specialize (He Hn).
  rewrite (succeeded_all _ ps); [|by symmetry; eapply Forall2_length|done].
  rewrite length_fmap. do 2 (split; [done|]).
  clear -HF' He. induction HF' as [|wc p l ps Hp HF' IH]; constructor.
  - apply Hp. by apply Forall_cons in He as [? _].
  - apply IH. by apply Forall_cons in He as [_ ?].
Qed.
End LoopSpecs.

(** ** The transformation *)
(** A configuration with a rule for a target group, or for all groups. *)
Definition targets (tg : gset string) (wc : WebhookConfiguration) : Prop :=
  exists wh groups g, wh ∈ wc_Webhooks wc /\ groups ∈ wh_Rules wh /\ g ∈ groups /\ (g ∈ tg \/ g = "*").

Lemma shouldSync_spec wc tg : shouldSyncWebhook (wc_Webhooks wc) tg = true <-> targets tg wc.
Proof.
  unfold shouldSyncWebhook, targets. rewrite existsb_exists. setoid_rewrite existsb_exists. setoid_rewrite existsb_exists.
  setoid_rewrite orb_true_iff. setoid_rewrite bool_decide_eq_true. setoid_rewrite <- list_elem_of_In.
  naive_solver.
Qed.

(** The copy of a webhook: no service reference is left, but the URL of the service,
    with port 443 and the empty path when the reference leaves them out; a webhook with
    a URL keeps it; all else is as in the original. *)
Definition hookCopy (wh wh' : Webhook) : Prop :=
  wh_Name wh' = wh_Name wh /\ wh_Rules wh' = wh_Rules wh /\ wh_Rest wh' = wh_Rest wh /\
  wcc_CABundle (wh_ClientConfig wh') = wcc_CABundle (wh_ClientConfig wh) /\
  wcc_Service (wh_ClientConfig wh') = None /\
  wcc_URL (wh_ClientConfig wh') =
    match wcc_Service (wh_ClientConfig wh) with
    | Some ref => Some ("https://" +:+ sr_Name ref +:+ "." +:+ sr_Namespace ref +:+ ".svc:" +:+
                        itoa (default 443%Z (sr_Port ref)) +:+ default "" (sr_Path ref))
    | None => wcc_URL (wh_ClientConfig wh)
    end.

Lemma hookCopy_transform wh wh' : hookCopy wh wh' <-> wh' = transformEntry wh.
Proof.
  unfold hookCopy, transformEntry, transformClientConfig, webhookURL, servicePort, servicePath.
  destruct wh as [n [u sv ca] rs rest], wh' as [n' [u' sv' ca'] rs' rest']. cbn.
  destruct sv as [ref|]; cbn; (split; [intros (->&->&->&->&->&->); done|]); by intros [= -> -> -> -> -> ->].
Qed.

Lemma hookCopies_transform l l' : Forall2 hookCopy l l' <-> l' = transformEntry <$> l.
Proof.
  split.
  - induction 1 as [|wh wh' l l' H _ IH]; cbn; [done|]. apply hookCopy_transform in H. by rewrite H, IH.
  - intros ->. induction l as [|wh l IH]; constructor; [by apply hookCopy_transform|done].
Qed.

(** ** Theorems *)
(** A synchronisation pass over the validating or the mutating configurations
    of the primary selects those with a rule for a target group or for all groups;
    the names and the count it reports are those of the selected configurations
    whose transformed copy was created on, or written over the existing one of, the
    secondary; and a pass without errors stored the copy of every selected
    configuration. *)
Theorem webhook_sync_stores c tg items tr names n errs :
  (forall wc, wc ∈ selected tg items <-> wc ∈ items /\ targets tg wc) /\
  (run (syncValidating c tg items) tr (names, n, errs) ->
   storesSelected KVWHC id id c tg items tr names n errs) /\
  (run (syncMutating c tg items) tr (names, n, errs) ->
   storesSelected KMWHC id id c tg items tr names n errs).
Proof.
  split; [|split; apply syncAll_stores].
  intros wc. unfold selected. rewrite list_elem_of_In, filter_In, <- list_elem_of_In. by rewrite shouldSync_spec.
Qed.

(** Removal of stale validating or mutating configurations that reports no
    error goes through the configurations the secondary lists, in order, leaves
    those alone whose name is among the given current names and deletes every other
    one, an already missing one counting as deleted. *)
Theorem webhook_stale_removed c current tr :
  (run (deleteStaleValidating c current) tr None ->
   exists items ts, tr = Ev (ListObjs c KVWHC ListAll) (Ok items) :: concat ts /\
     Forall2 (kept_or_deleted KVWHC id c current) items ts) /\
  (run (deleteStaleMutating c current) tr None ->
   exists items ts, tr = Ev (ListObjs c KMWHC ListAll) (Ok items) :: concat ts /\
     Forall2 (kept_or_deleted KMWHC id c current) items ts).
Proof. split; apply run_deleteStale. Qed.

(** ** A cluster with webhooks *)
Definition demoHook (ref : option ServiceRef) (groups : list string) : Webhook :=
  {| wh_Name := "check"; wh_Rules := [groups]; wh_Rest := "";
     wh_ClientConfig := {| wcc_URL := None; wcc_Service := ref; wcc_CABundle := "CA" |} |}.
Definition demoRef : ServiceRef :=
  {| sr_Name := "hook"; sr_Namespace := "ns"; sr_Port := None; sr_Path := Some "/validate" |}.
Definition demoWc (n : string) (groups : list string) : WebhookConfiguration :=
  {| wc_TypeMeta := {| APIVersion := "admissionregistration.k8s.io/v1"; TypeKind := vName |};
     wc_Meta := newMeta n "" None; wc_Webhooks := [demoHook (Some demoRef) groups] |}.

Definition demoWsync : WebhookSync :=
  {| wsync_Meta := newMeta "demo-webhook-sync" "shard-ns" None;
     wsync_Spec := {| whs_Connection := nss_Connection (nsync_Spec demoNsSync); whs_APIGroups := ["tekton.dev"] |};
     wsync_Status := {| whs_Conditions := []; whs_Validating := 0; whs_Mutating := 0; whs_LastSyncTime := None;
                        whs_ObservedGeneration := 0 |} |}.

Definition demoWcs : list WebhookConfiguration :=
  [demoWc "tekton-hook" ["tekton.dev"]; demoWc "other-hook" ["apps"]; demoWc "all-hook" ["*"]].

Definition whCluster : world :=
  {| w_primary := existT KWebhookSync demoWsync :: (existT KVWHC <$> demoWcs);
     w_secondary := [existT KVWHC (demoWc "tekton-hook" ["tekton.dev"]); existT KVWHC (demoWc "stale-hook" ["x"])];
     w_clock := 0 |}.

Definition whSyncRun := ref_exec (syncValidating demoRemote {["tekton.dev"]} demoWcs) whCluster.
Definition whStaleRun := ref_exec (deleteStaleValidating demoRemote {["tekton-hook"]}) whCluster.

Definition deletesHook (n : string) (c : call) : bool :=
  match c with Delete _ KVWHC o => bool_decide (wcName o = n) | _ => false end.

Lemma webhook_sync_stores_witness :
  result_of whSyncRun = ({["tekton-hook"; "all-hook"]}, 2%Z, []) /\
  storesSelected KVWHC id id demoRemote {["tekton.dev"]} demoWcs (trace_of whSyncRun) {["tekton-hook"; "all-hook"]} 2%Z [].
Proof.
  split; [vm_compute; reflexivity|].
  exact (proj1 (proj2 (webhook_sync_stores demoRemote {["tekton.dev"]} demoWcs (trace_of whSyncRun)
    {["tekton-hook"; "all-hook"]} 2%Z [])) (exec_run ref_handler _ whCluster)).
Defined.

Lemma webhook_stale_removed_witness :
  performs (deletesHook "stale-hook") (trace_of whStaleRun) = true /\
  exists items ts, trace_of whStaleRun = Ev (ListObjs demoRemote KVWHC ListAll) (Ok items) :: concat ts /\
    Forall2 (kept_or_deleted KVWHC id demoRemote {["tekton-hook"]}) items ts.
Proof.
  split; [vm_compute; reflexivity|].
  exact (proj1 (webhook_stale_removed demoRemote {["tekton-hook"]} (trace_of whStaleRun)) (exec_run ref_handler _ whCluster)).
Defined.
