(* ===== verification/WebhookStore.v ===== *)
(** * What the secondary holds after a synchronisation of webhooks

    The webhook configurations of one kind on the secondary, as an abstract map from
    names to contents, followed through the calls of a run whose reads are truthful:
    a synchronisation without errors leaves exactly the transformed copies of the
    configurations of the primary that concern the target groups.  And what every
    single write sends, in runs with errors too. *)
From S2P Require Import Prelude GoStd KubeTypes APITypes Kube Reference ClientProvider ApiShardSteps ApiShard.
From S2P Require Import NamespaceSync WebhookSync.

#[export] Instance ServiceRef_eq_dec : EqDecision ServiceRef.
Proof. solve_decision. Defined.
#[export] Instance WebhookClientConfig_eq_dec : EqDecision WebhookClientConfig.
Proof. solve_decision. Defined.
#[export] Instance Webhook_eq_dec : EqDecision Webhook.
Proof. solve_decision. Defined.

(** What a configuration says: its webhooks, labels and annotations; the rest of its
    metadata belongs to the API server that holds it. *)
Record content := { ct_Webhooks : list Webhook; ct_Labels : gomap; ct_Annotations : gomap }.
#[export] Instance content_eq_dec : EqDecision content.
Proof. solve_decision. Defined.

Definition contentOf (w : WebhookConfiguration) : content :=
  {| ct_Webhooks := wc_Webhooks w; ct_Labels := meta_Labels (wc_Meta w); ct_Annotations := meta_Annotations (wc_Meta w) |}.

(** The copy of a configuration: its webhooks are copied in order, its labels and
    annotations are the original's. *)
Definition copyOf (wc : WebhookConfiguration) (ct : content) : Prop :=
  Forall2 hookCopy (wc_Webhooks wc) (ct_Webhooks ct) /\
  ct_Labels ct = meta_Labels (wc_Meta wc) /\ ct_Annotations ct = meta_Annotations (wc_Meta wc).

Lemma copyOf_transform wc ct : copyOf wc ct <-> ct = contentOf (transformWebhook wc).
Proof.
  unfold copyOf. rewrite hookCopies_transform. destruct ct as [hs l a]. cbn. unfold contentOf, transformWebhook. cbn.
  split; [by intros (->&->&->)|]. by intros [= -> -> ->].
Qed.

Abbreviation hooks := (gmap string content).

(** An object as a configuration, if it is of the webhook kind [k]. *)
Definition asCfg (k k' : Kind) : obj k' -> option WebhookConfiguration :=
  match k, k' return obj k' -> option WebhookConfiguration with
  | KVWHC, KVWHC => Some
  | KMWHC, KMWHC => Some
  | _, _ => fun _ => None
  end.

(** The object is not there after a deletion. *)
Definition isGone (res : option error) : bool := match res with None => true | Some e => IsNotFound e end.

Section Store.
Variable k : Kind.
Variable c : client.

(** The effect of a call that succeeded. *)
Definition hookStep (m : hooks) (x : call) : resp x -> hooks :=
  match x return resp x -> hooks with
  | Create c' k' o | Update c' k' o => fun res =>
      match asCfg k k' o, res.2 with
      | Some w, None => if decide (c' = c) then <[wcName w := contentOf w]> m else m
      | _, _ => m
      end
  | Delete c' k' o => fun res =>
      match asCfg k k' o with
      | Some w => if decide (c' = c /\ isGone res = true) then delete (wcName w) m else m
      | None => m
      end
  | _ => fun _ => m
  end.

(** What is read of the secondary is what it holds. *)
Definition truthful (m : hooks) (x : call) : resp x -> Prop :=
  match x return resp x -> Prop with
  | Get c' k' key => fun res =>
      c' = c ->
      match res with
      | Ok o => match asCfg k k' o with
                | Some w => wcName w = nn_Name key /\ m !! nn_Name key = Some (contentOf w)
                | None => True
                end
      | Err _ => True
      end
  | ListObjs c' k' opts => fun res =>
      c' = c -> opts = ListAll ->
      match res with
      | Ok items => k' = k -> dom m = list_to_set (C := gset string) (wcName <$> omap (asCfg k k') items)
      | Err _ => True
      end
  | _ => fun _ => True
  end.

Fixpoint truthfulRun (m : hooks) (tr : list kevent) : Prop :=
  match tr with
  | [] => True
  | e :: tr => truthful m (ev_call e) (ev_resp e) /\ truthfulRun (hookStep m (ev_call e) (ev_resp e)) tr
  end.

#[export] Instance truthful_dec m x res : Decision (truthful m x res).
Proof.
  destruct x as [? k' key|? k' opts| | | | | | | | | | | | | |]; cbn; try apply _.
  - apply impl_dec; [apply _|]. destruct res as [o|]; [|apply _]. destruct (asCfg k k' o); apply _.
  - apply impl_dec; [apply _|]. apply impl_dec; [|destruct res; apply _]. destruct opts; [left; done|right; done..].
Defined.

#[export] Instance truthfulRun_dec m tr : Decision (truthfulRun m tr).
Proof.
  revert m. induction tr as [|e tr IH]; intros m; cbn; [apply _|]. apply and_dec; [apply _|apply IH].
Defined.

Local Abbreviation after := (ghost hookStep).

Lemma truthfulRun_app m t1 t2 : truthfulRun m (t1 ++ t2) <-> truthfulRun m t1 /\ truthfulRun (after m t1) t2.
Proof. revert m. induction t1 as [|e t1 IH]; intros m; cbn; [tauto|]. rewrite IH. tauto. Qed.

(** Calls that do not concern the store. *)
Definition elsewhere (x : call) : Prop :=
  match x with
  | Create c' k' _ | Update c' k' _ | Delete c' k' _ => c' <> c \/ forall o, asCfg k k' o = None
  | _ => True
  end.

Lemma after_elsewhere m tr : Forall (fun e => elsewhere (ev_call e)) tr -> after m tr = m.
Proof.
  induction 1 as [|[x res] tr H _ IH]; [done|]. cbn. cbn in H.
  assert (E : hookStep m x res = m); [|by rewrite E].
  destruct x; cbn in *; try done; destruct H as [H|H];
    try (rewrite H; done); destruct (asCfg k _ _); try done.
  - destruct res.2; [done|]. by rewrite decide_False.
  - destruct res.2; [done|]. by rewrite decide_False.
  - rewrite decide_False; [done|]. by intros [? _].
Qed.

Variable kindName : string.
Variable toCfg : obj k -> WebhookConfiguration.
Variable ofCfg : WebhookConfiguration -> obj k.
Hypothesis HasCfg : forall o, asCfg k k o = Some (toCfg o).
Hypothesis HofCfg : forall w, toCfg (ofCfg w) = w.

(** Copying one configuration stores the content of its copy. *)
Lemma after_stored m wc t :
  truthfulRun m t -> stored k toCfg ofCfg c wc t ->
  after m t = <[wcName wc := contentOf (transformWebhook wc)]> m.
Proof.
  intros Ht [(e&o&He&->)|(existing&o&->)]; cbn in *.
  - by rewrite HasCfg, HofCfg, decide_True.
  - destruct Ht as [Hg _]. specialize (Hg eq_refl). rewrite HasCfg in Hg. destruct Hg as [Hn _].
    rewrite HasCfg, HofCfg, decide_True by done. unfold wcName at 1. cbn. by rewrite <- Hn.
Qed.

Definition copies (l : list WebhookConfiguration) (m : hooks) : hooks :=
  foldl (fun m wc => <[wcName wc := contentOf (transformWebhook wc)]> m) m l.

Lemma after_copies l ps : forall m,
  truthfulRun m (concat (fst <$> ps)) ->
  Forall2 (fun wc (p : list kevent * option error) => stored k toCfg ofCfg c wc p.1) l ps ->
  after m (concat (fst <$> ps)) = copies l m.
Proof.
  intros m Ht HF. revert m Ht. induction HF as [|wc [t e] l ps H HF IH]; intros m; cbn; [done|].
  rewrite truthfulRun_app, ghost_app. intros [H1 H2]. rewrite (after_stored m wc t) in * by done. by apply IH.
Qed.

(** A pass over the configurations without errors. *)
Lemma after_syncAll tg items tr names n m :
  truthfulRun m tr -> run (syncAll k kindName toCfg ofCfg c tg items) tr (names, n, []) ->
  after m tr = copies (selected tg items) m /\ names = list_to_set (wcName <$> selected tg items).
Proof.
  intros Ht H. apply syncAll_stores in H as (ps&->&_&_&_&H). destruct (H eq_refl) as (->&_&HF).
  split; [|done]. by apply after_copies.
Qed.

(** The removal of stale configurations keeps exactly the current names. *)
Lemma after_kept current items ts : forall m,
  Forall2 (kept_or_deleted k toCfg c current) items ts ->
  forall n, after m (concat ts) !! n = if decide (n ∈ current \/ n ∉ (wcName ∘ toCfg) <$> items) then m !! n else None.
Proof.
  intros m HF. revert m. induction HF as [|item t items ts H HF IH]; intros m n; cbn [concat fmap list_fmap].
  { cbn. rewrite decide_True; [done|]. right. by apply not_elem_of_nil. }
  rewrite ghost_app, IH. set (names := (wcName ∘ toCfg) <$> items).
  destruct H as [[Hc ->]|(Hc&res&->&Hr)]; cbn [ghost ev_call ev_resp hookStep].
  - apply decide_ext. rewrite not_elem_of_cons. cbn. destruct (decide (n = wcName (toCfg item))) as [->|]; tauto.
  - rewrite HasCfg. rewrite (decide_True (P := c = c /\ _)) by (split; [done|by destruct res]).
    destruct (decide (n = wcName (toCfg item))) as [->|Hne].
    + rewrite lookup_delete_eq. rewrite (decide_False (P := _ \/ wcName (toCfg item) ∉ _ :: _)).
      * by case_decide.
      * rewrite not_elem_of_cons. cbn. tauto.
    + rewrite lookup_delete_ne by done. apply decide_ext. rewrite not_elem_of_cons. cbn. tauto.
Qed.

Lemma after_deleteStale current tr m :
  truthfulRun m tr -> run (deleteStale k kindName toCfg c current) tr None ->
  forall n, after m tr !! n = if decide (n ∈ current) then m !! n else None.
Proof.
  intros Ht H n. apply run_deleteStale in H as (items&ts&->&HF). cbn in Ht |- *. destruct Ht as [Hl _].
  specialize (Hl eq_refl eq_refl eq_refl).
  assert (Hi : wcName <$> omap (asCfg k k) items = (wcName ∘ toCfg) <$> items).
  { clear -HasCfg. induction items as [|o items IH]; cbn; [done|]. rewrite HasCfg. cbn. by rewrite IH. }
  rewrite Hi in Hl. rewrite (after_kept current items ts m HF).
  destruct (decide (n ∈ current)) as [Hn|Hn]; [by rewrite decide_True by auto|].
  case_decide as Hd; [|done]. destruct Hd as [?|Hd]; [done|].
  destruct (m !! n) eqn:E; [|done]. destruct Hd.
  apply (elem_of_list_to_set (C := gset string)). rewrite <- Hl. apply elem_of_dom. eauto.
Qed.

Lemma copies_lookup l m n :
  NoDup (wcName <$> l) ->
  copies l m !! n = match List.find (fun wc => bool_decide (wcName wc = n)) l with
                    | Some wc => Some (contentOf (transformWebhook wc))
                    | None => m !! n
                    end.
Proof.
  revert m. induction l as [|wc l IH]; intros m Hnd; cbn; [done|].
  apply NoDup_cons in Hnd as [Hn Hnd]. fold (copies l (<[wcName wc:=contentOf (transformWebhook wc)]> m)).
  rewrite IH by done. destruct (List.find _ l) as [w|] eqn:E.
  - apply find_some in E as [Hin Hw]. apply bool_decide_eq_true in Hw as <-.
    rewrite bool_decide_eq_false_2; [done|]. intros Heq. apply Hn. rewrite Heq.
    apply list_elem_of_fmap. exists w. split; [done|]. by apply list_elem_of_In.
  - case_bool_decide as Hb; [by rewrite Hb, lookup_insert_eq|by rewrite lookup_insert_ne].
Qed.

(** The configurations of the given kind that should be on the secondary. *)
Definition mirrored (tg : gset string) (items : list WebhookConfiguration) (m : hooks) : Prop :=
  forall n ct, m !! n = Some ct <-> exists wc, wc ∈ items /\ targets tg wc /\ wcName wc = n /\ copyOf wc ct.

(** Synchronising and then removing what is stale leaves the mirror. *)
Lemma pass_mirrors tg items m m1 m2 names :
  NoDup (wcName <$> items) ->
  m1 = copies (selected tg items) m -> names = list_to_set (C := gset string) (wcName <$> selected tg items) ->
  (forall n, m2 !! n = if decide (n ∈ names) then m1 !! n else None) ->
  mirrored tg items m2.
Proof.
  intros Hnd -> -> H2 n ct. setoid_rewrite copyOf_transform.
  assert (Hsel : forall wc, wc ∈ selected tg items <-> wc ∈ items /\ targets tg wc).
  { intros wc. unfold selected. by rewrite list_elem_of_In, filter_In, <- list_elem_of_In, shouldSync_spec. }
  assert (Hnd' : NoDup (wcName <$> selected tg items)).
  { revert Hnd. unfold selected. clear. induction items as [|wc l IH]; cbn; [done|]. intros H.
    apply NoDup_cons in H as [H1 H2]. destruct (shouldSyncWebhook _ _); [|auto]. cbn. apply NoDup_cons. split; [|auto].
    intros Hin. apply H1. apply list_elem_of_fmap in Hin as (x&->&Hx). apply list_elem_of_fmap. exists x. split; [done|].
    apply list_elem_of_In, filter_In in Hx as [Hx _]. by apply list_elem_of_In. }
  rewrite H2, copies_lookup by done.
  destruct (List.find _ (selected tg items)) as [w|] eqn:E.
  - apply find_some in E as [Hin Hw]. apply list_elem_of_In in Hin. apply bool_decide_eq_true in Hw as <-.
    rewrite decide_True by (apply elem_of_list_to_set, list_elem_of_fmap; eauto). split.
    + intros [= <-]. apply Hsel in Hin as [? ?]. eauto.
    + intros (wc&H3&H4&Hn&->). f_equal. f_equal. f_equal.
      assert (wc ∈ selected tg items) as Hwc by by apply Hsel.
      apply list_elem_of_lookup in Hin as [i Hi]. apply list_elem_of_lookup in Hwc as [j Hj].
      assert (i = j) as ->; [|congruence]. eapply (NoDup_lookup (wcName <$> selected tg items)); [done| |].
      * rewrite list_lookup_fmap, Hi. cbn. done.
      * rewrite list_lookup_fmap, Hj. cbn. by rewrite Hn.
  - assert (Hno : n ∉ wcName <$> selected tg items).
    { intros Hin. apply list_elem_of_fmap in Hin as (w&->&Hw). apply list_elem_of_In in Hw.
      pose proof (find_none _ _ E w Hw) as Hf. cbn in Hf. by rewrite bool_decide_eq_true_2 in Hf. }
    rewrite decide_False by (by rewrite elem_of_list_to_set). split; [done|]. intros (wc&H3&H4&Hn&_). destruct Hno.
    apply list_elem_of_fmap. exists wc. split; [done|]. by apply Hsel.
Qed.
End Store.

(** ** The whole pass *)
(** Calls on objects of one kind. *)
Definition onKind (k : Kind) (x : call) : Prop :=
  match x with
  | Get _ k' _ | ListObjs _ k' _ | Create _ k' _ | Update _ k' _ | Delete _ k' _ => k' = k
  | _ => False
  end.

Lemma every_syncAll k kn toCfg ofCfg c tg items : every (onKind k) (syncAll k kn toCfg ofCfg c tg items).
Proof.
  induction items as [|wc items IH]; cbn [syncAll]; [done|]. destruct (negb _); [exact IH|].
  apply every_bind; [unfold syncOne; every_tac|]. intros e. apply every_bind; [exact IH|]. by intros [[names n] errs].
Qed.

Lemma every_deleteStale k kn toCfg c current : every (onKind k) (deleteStale k kn toCfg c current).
Proof. unfold deleteStale. every_tac. Qed.

Lemma onKind_elsewhere k k' c x : onKind k x -> (forall o, asCfg k' k o = None) -> elsewhere k' c x.
Proof. intros H Hk. destruct x; cbn in *; try done; subst; by right. Qed.

Section Pass.
Context {T : ThirdParty} {L : ThirdPartyLaws T}.

(** The status that is written reports that all webhooks are synced. *)
Definition reportsSynced (tr : list kevent) : Prop :=
  exists s res cond, Ev (StatusUpdate PrimaryC KWebhookSync s) res ∈ tr /\
    FindStatusCondition (whs_Conditions (wsync_Status s)) "Ready" = Some cond /\ cond_Status cond = ConditionTrue.

(** The parts of a pass that stores a status. *)
Lemma run_syncWebhooks p c w tr out :
  run (syncWebhooks p c w) tr out -> reportsSynced tr ->
  exists vItems mItems syncedV syncedM nv nm tv tm sv sm e1 e2,
    tr = [Ev (ListObjs PrimaryC KVWHC ListAll) (Ok vItems)] ++ tv ++
         [Ev (ListObjs PrimaryC KMWHC ListAll) (Ok mItems)] ++ tm ++ sv ++ sm ++ [e1; e2] /\
    ev_call e1 = Now /\ (exists s, ev_call e2 = StatusUpdate PrimaryC KWebhookSync s) /\
    let tg := list_to_set (whs_APIGroups (wsync_Spec w)) in
    run (syncValidating c tg vItems) tv (syncedV, nv, []) /\ run (syncMutating c tg mItems) tm (syncedM, nm, []) /\
    run (deleteStaleValidating c syncedV) sv None /\ run (deleteStaleMutating c syncedM) sm None.
Proof.
  unfold syncWebhooks. cbv zeta. intros (r1&t1&->&H) HS. destruct r1 as [vItems|e]; cbn [bind] in H.
  2: { destruct H as [-> _]. destruct HS as (s&res&cond&Hin&_). by apply list_elem_of_singleton in Hin. }
  apply run_bind in H as (tv&t2&[[syncedV nv] errsV]&->&HV&H). destruct H as (r2&t3&->&H).
  assert (Hno : forall k s res (q : list kevent), Forall (fun e => onKind k (ev_call e)) q ->
            Ev (StatusUpdate PrimaryC KWebhookSync s) res ∉ q).
  { intros k s res q HF Hin. rewrite Forall_forall in HF. by apply HF in Hin. }
  pose proof (every_run _ _ _ _ (every_syncAll KVWHC vName id id c _ vItems) HV) as QV.
  destruct r2 as [mItems|e]; cbn [bind] in H.
  2: { destruct H as [-> _]. destruct HS as (s&res&cond&Hin&_). apply elem_of_cons in Hin as [?|Hin]; [done|].
       apply elem_of_app in Hin as [Hin|Hin]; [by eapply Hno in Hin|by apply list_elem_of_singleton in Hin]. }
  apply run_bind in H as (tm&t4&[[syncedM nm] errsM]&->&HM&H).
  apply run_bind in H as (sv&t5&staleV&->&HSV&H). apply run_bind in H as (sm&t6&staleM&->&HSM&H).
  destruct H as (now&t7&->&H). destruct H as (res&t8&->&->&_).
  pose proof (every_run _ _ _ _ (every_syncAll KMWHC mName id id c _ mItems) HM) as QM.
  pose proof (every_run _ _ _ _ (every_deleteStale KVWHC vName id c syncedV) HSV) as QSV.
  pose proof (every_run _ _ _ _ (every_deleteStale KMWHC mName id c syncedM) HSM) as QSM.
  assert (errsV = [] /\ errsM = [] /\ staleV = None /\ staleM = None) as (->&->&->&->).
  { destruct HS as (s&res'&cond&Hin&Hf&Hst). repeat (apply elem_of_cons in Hin as [?|Hin]; [done|];
      apply elem_of_app in Hin as [Hin|Hin]; [by eapply Hno in Hin|]).
    do 2 (apply elem_of_app in Hin as [Hin|Hin]; [by eapply Hno in Hin|]).
    apply elem_of_cons in Hin as [?|Hin]; [done|]. apply list_elem_of_singleton in Hin. simplify_eq.
    unfold whSynced in Hf. cbn [wsync_with_status wsync_Status whs_Conditions] in Hf.
    destruct (errsV ++ errsM ++ opt_list staleV ++ opt_list staleM) as [|e l] eqn:E.
    - destruct errsV; [|done]. destruct errsM; [|done]. by destruct staleV, staleM.
    - unfold whCondition in Hf. pose proof (find_set_same (whs_Conditions (wsync_Status w))) as Hs.
      match type of Hf with FindStatusCondition (SetStatusCondition _ ?x) _ = _ => specialize (Hs x) end.
      cbn [cond_Type] in Hs. rewrite Hs in Hf. by simplify_eq. }
  exists vItems, mItems, syncedV, syncedM, nv, nm, tv, tm, sv, sm, (Ev Now now), (Ev _ res).
  split; [done|]. split; [done|]. split; [eauto|]. done.
Qed.

(** C11: when a pass reports the webhooks synced, the secondary holds exactly the copies:
    for each kind, a configuration is on the secondary afterwards if and only if the
    primary's list had it and it has a rule for one of the target groups or for all;
    and it then has the webhooks of the original in the same order, each with the URL
    of its service in place of the service reference and otherwise unchanged, and the
    labels and annotations of the original, whatever was there before.  This provided
    the reads of the secondary during the pass are truthful. *)
Theorem webhook_sync_converges p c w tr out mv mm :
  run (syncWebhooks p c w) tr out -> reportsSynced tr ->
  truthfulRun KVWHC c mv tr -> truthfulRun KMWHC c mm tr ->
  let tg := list_to_set (whs_APIGroups (wsync_Spec w)) in
  exists vItems mItems,
    Ev (ListObjs PrimaryC KVWHC ListAll) (Ok vItems) ∈ tr /\ Ev (ListObjs PrimaryC KMWHC ListAll) (Ok mItems) ∈ tr /\
    (NoDup (wcName <$> vItems) -> mirrored tg vItems (ghost (hookStep KVWHC c) mv tr)) /\
    (NoDup (wcName <$> mItems) -> mirrored tg mItems (ghost (hookStep KMWHC c) mm tr)).
Proof.
  intros H HS HV HM. cbv zeta.
  destruct (run_syncWebhooks p c w tr out H HS)
    as (vItems&mItems&syncedV&syncedM&nv&nm&tv&tm&sv&sm&e1&e2&->&E1&(s&E2)&RV&RM&SV&SM).
  assert (Qtail : forall k, Forall (fun e => elsewhere k c (ev_call e)) [e1; e2]).
  { intros k. repeat constructor; rewrite ?E1, ?E2; done. }
  assert (Q : forall {A} k k' (q : kprog A) t a, every (onKind k) q -> run q t a -> (forall o, asCfg k' k o = None) ->
            Forall (fun e => elsewhere k' c (ev_call e)) t).
  { intros A k k' q t a Hq Hr Hk. eapply Forall_impl; [exact (every_run _ _ _ _ Hq Hr)|].
    intros e He. exact (onKind_elsewhere _ _ _ _ He Hk). }
  exists vItems, mItems. split; [set_solver|]. split; [set_solver|].
  rewrite !truthfulRun_app in HV, HM. rewrite !ghost_app. split; intros Hnd.
  - destruct HV as (_&HV1&_&_&HV2&_).
    rewrite !(after_elsewhere KVWHC c _ [Ev (ListObjs _ _ _) _]) in * by by repeat constructor.
    eapply after_syncAll in RV as [R1 R2]; [|done|done|exact HV1].
    rewrite (after_elsewhere KVWHC c _ tm) in * by (eapply Q; [apply every_syncAll|exact RM|done]).
    rewrite (after_elsewhere KVWHC c _ sm) by (eapply Q; [apply every_deleteStale|exact SM|done]).
    rewrite (after_elsewhere KVWHC c _ [e1; e2]) by apply Qtail.
    eapply (pass_mirrors _ _ _ _ _ _ Hnd R1 R2). eapply after_deleteStale; [|exact HV2|exact SV]. done.
  - destruct HM as (_&_&_&HM1&HM2&HM3&_).
    rewrite !(after_elsewhere KMWHC c _ [Ev (ListObjs _ _ _) _]) in * by by repeat constructor.
    rewrite (after_elsewhere KMWHC c _ tv) in * by (eapply Q; [apply every_syncAll|exact RV|done]).
    eapply after_syncAll in RM as [R1 R2]; [|done|done|exact HM1].
    rewrite (after_elsewhere KMWHC c _ sv) in * by (eapply Q; [apply every_deleteStale|exact SV|done]).
    rewrite (after_elsewhere KMWHC c _ [e1; e2]) by apply Qtail.
    eapply (pass_mirrors _ _ _ _ _ _ Hnd R1 R2). eapply after_deleteStale; [|exact HM3|exact SM]. done.
Qed.
End Pass.

(** The run of the reference cluster. *)
Definition syncRun := ref_exec (syncWebhooks ∅ demoRemote demoWsync) whCluster.
Definition hooksBefore : hooks :=
  list_to_map ((fun n => (n, contentOf (demoWc n ["tekton.dev"]))) <$> ["tekton-hook"]) ∪
  {["stale-hook" := contentOf (demoWc "stale-hook" ["x"])]}.

Lemma webhook_sync_converges_witness :
  (ghost (hookStep KVWHC demoRemote) hooksBefore (trace_of syncRun) : hooks) !! "stale-hook" = None /\
  exists vItems mItems,
    Ev (ListObjs PrimaryC KVWHC ListAll) (Ok vItems) ∈ trace_of syncRun /\
    Ev (ListObjs PrimaryC KMWHC ListAll) (Ok mItems) ∈ trace_of syncRun /\
    (NoDup (wcName <$> vItems) ->
     mirrored {["tekton.dev"]} vItems (ghost (hookStep KVWHC demoRemote) hooksBefore (trace_of syncRun))) /\
    (NoDup (wcName <$> mItems) ->
     mirrored {["tekton.dev"]} mItems (ghost (hookStep KMWHC demoRemote) ∅ (trace_of syncRun))).
Proof.
  split; [vm_compute; reflexivity|].
  refine (webhook_sync_converges ∅ demoRemote demoWsync (trace_of syncRun) (result_of syncRun) hooksBefore ∅
    (exec_run ref_handler _ whCluster) _ _ _).
  - eexists _, _, _. split; [apply list_elem_of_In; vm_compute; repeat (first [left; reflexivity|right])|].
    split; vm_compute; reflexivity.
  - apply (bool_decide_unpack _). vm_compute. exact I.
  - apply (bool_decide_unpack _). vm_compute. exact I.
Defined.

(** ** What single writes send *)
(** The configurations that were listed on the primary, and the last read of one on an
    API server that no write has followed: the client, the name, and what was found. *)
Record reading := {
  rd_listed : list WebhookConfiguration;
  rd_last : option (client * string * option WebhookConfiguration) }.

Definition noReading : reading := {| rd_listed := []; rd_last := None |}.

(** Metadata that belongs to the API server an object came from. *)
Definition bare (m : ObjectMeta) : Prop :=
  meta_ResourceVersion m = "" /\ meta_UID m = "" /\ meta_Generation m = 0%Z /\ meta_OwnerReferences m = [] /\
  meta_Finalizers m = [] /\ meta_ManagedFields m = [].

Definition sameObject (a b : WebhookConfiguration) : Prop :=
  wc_TypeMeta a = wc_TypeMeta b /\ meta_Name (wc_Meta a) = meta_Name (wc_Meta b) /\
  meta_Namespace (wc_Meta a) = meta_Namespace (wc_Meta b) /\
  meta_ResourceVersion (wc_Meta a) = meta_ResourceVersion (wc_Meta b) /\ meta_UID (wc_Meta a) = meta_UID (wc_Meta b) /\
  meta_Generation (wc_Meta a) = meta_Generation (wc_Meta b) /\
  meta_OwnerReferences (wc_Meta a) = meta_OwnerReferences (wc_Meta b) /\
  meta_Finalizers (wc_Meta a) = meta_Finalizers (wc_Meta b) /\
  meta_ManagedFields (wc_Meta a) = meta_ManagedFields (wc_Meta b) /\
  meta_DeletionTimestamp (wc_Meta a) = meta_DeletionTimestamp (wc_Meta b).

Section Writes.
Variable k : Kind.
Variable tg : gset string.
Variable c : client.

Definition readStep (g : reading) (x : call) : resp x -> reading :=
  match x return resp x -> reading with
  | ListObjs PrimaryC k' _ => fun res =>
      match res with
      | Ok items => if decide (k' = k) then {| rd_listed := omap (asCfg k k') items; rd_last := None |} else g
      | Err _ => g
      end
  | Get c' k' key => fun res =>
      if decide (k' = k) then
        {| rd_listed := rd_listed g;
           rd_last := match res with
                      | Ok o => Some (c', nn_Name key, asCfg k k' o)
                      | Err e => if IsNotFound e then Some (c', nn_Name key, None) else None
                      end |}
      else g
  | Create _ k' _ | Update _ k' _ | Delete _ k' _ => fun _ =>
      if decide (k' = k) then {| rd_listed := rd_listed g; rd_last := None |} else g
  | _ => fun _ => g
  end.

(** The object sent is the copy of a listed configuration for the target groups. *)
Definition copied (g : reading) (name : string) (w : WebhookConfiguration) : Prop :=
  exists src, src ∈ rd_listed g /\ targets tg src /\ wcName src = name /\ copyOf src (contentOf w).

Definition exactWrite (g : reading) (x : call) : Prop :=
  match x with
  | Create c' k' o =>
      match asCfg k k' o with
      | Some w => c' = c /\ rd_last g = Some (c, wcName w, None) /\ copied g (wcName w) w /\ bare (wc_Meta w)
      | None => True
      end
  | Update c' k' o =>
      match asCfg k k' o with
      | Some w => exists name existing, c' = c /\ rd_last g = Some (c, name, Some existing) /\ copied g name w /\
                    sameObject w existing
      | None => True
      end
  | StatusUpdate _ k' _ | PatchMergeFrom _ k' _ _ | PatchApply _ k' _ _ _ | ApplyOwned _ k' _
  | CreateOrUpdate _ k' _ _ => k' <> k
  | _ => True
  end.

Local Abbreviation W := (wp any_env readStep exactWrite).

Section SameKind.
Variable kindName : string.
Variable toCfg : obj k -> WebhookConfiguration.
Variable ofCfg : WebhookConfiguration -> obj k.
Hypothesis HasCfg : forall o, asCfg k k o = Some (toCfg o).
Hypothesis HofCfg : forall w, toCfg (ofCfg w) = w.

Lemma W_syncOne wc g :
  wc ∈ rd_listed g -> targets tg wc ->
  W (syncOne k toCfg ofCfg c wc) g (fun _ g' => rd_listed g' = rd_listed g).
Proof.
  intros Hin Ht. assert (Hc : copyOf wc (contentOf (transformWebhook wc))) by by apply copyOf_transform.
  unfold syncOne, get. cbn [bind perform wp readStep]. split; [done|].
  intros [existing|e] _; rewrite (decide_True (P := k = k)) by done; cbn [nn_Name wcName wc_Meta transformWebhook stripMeta meta_Name].
  - unfold update. cbn [bind perform wp exactWrite]. rewrite !HasCfg, HofCfg. split.
    + exists (wcName wc), (toCfg existing). split; [done|]. split; [done|]. split; [by exists wc|]. by repeat split.
    + intros res _. cbn. by rewrite decide_True.
  - destruct (IsNotFound e); [|done]. unfold create. cbn [bind perform wp exactWrite]. rewrite HasCfg, HofCfg. split.
    + split; [done|]. split; [done|]. split; [by exists wc|]. by repeat split.
    + intros res _. cbn. by rewrite decide_True.
Qed.

Lemma W_syncAll items g :
  items ⊆ rd_listed g -> W (syncAll k kindName toCfg ofCfg c tg items) g (fun _ g' => rd_listed g' = rd_listed g).
Proof.
  revert g. induction items as [|wc items IH]; intros g Hin; cbn [syncAll]; [done|].
  destruct (shouldSyncWebhook _ _) eqn:E; cbn [negb]; [|apply IH; set_solver].
  eapply wp_seq; [apply W_syncOne; [set_solver|by apply shouldSync_spec]|]. intros e g' Hg'.
  eapply wp_seq; [apply IH; rewrite Hg'; set_solver|]. intros [[names n] errs] g'' Hg''. cbn. congruence.
Qed.

Lemma W_deleteStale current g : W (deleteStale k kindName toCfg c current) g (fun _ _ => True).
Proof.
  assert (PreOrder (fun _ _ : reading => True)) by done.
  apply (wp_grow _ _ _ _ _ (fun x => match x with ListObjs _ _ _ | Delete _ _ _ => True | _ => False end) (fun _ _ => True)).
  - unfold deleteStale. every_tac.
  - intros g' x _ Hx. split; [by destruct x|done].
Qed.
End SameKind.

(** Calls on objects of other kinds. *)
Lemma W_otherKind {A} k' (q : kprog A) g :
  k' <> k -> (forall o, asCfg k k' o = None) -> every (onKind k') q -> W q g (fun _ g' => g' = g).
Proof.
  intros Hk Ha Hq. eapply wp_frame; [exact Hq|]. intros x Hx. destruct x; cbn in Hx; try done; subst k'; cbn.
  all: rewrite ?Ha; split; [done|]; intros res _; try (by rewrite decide_False).
  destruct c0; [|done]. destruct res; [|done]. by rewrite decide_False.
Qed.
End Writes.

Section WholePass.
Context {T : ThirdParty}.

Lemma W_reports k tg c w nv nm errs p g :
  k = KVWHC \/ k = KMWHC ->
  wp any_env (readStep k) (exactWrite k tg c)
    (let* now := perform Now in
     let* res := status_update PrimaryC KWebhookSync (whSynced w nv nm errs now) in
     Ret ((noRequeue, res.2), p : clients)) g (fun _ _ => True).
Proof. intros Hk. cbn. split; [done|]. intros now _. split; [by destruct Hk as [-> | ->]|done]. Qed.

Lemma W_validating p c w :
  wp any_env (readStep KVWHC) (exactWrite KVWHC (list_to_set (whs_APIGroups (wsync_Spec w))) c)
    (syncWebhooks p c w) noReading (fun _ _ => True).
Proof.
  unfold syncWebhooks, list_objs. cbv zeta. cbn [bind perform wp readStep]. split; [done|]. intros [vItems|e] _; [|done].
  rewrite decide_True by done. eapply wp_seq.
  { apply (W_syncAll KVWHC _ c vName id id); [done|done|]. cbn [rd_listed]. intros x Hx. apply list_elem_of_omap. by exists x. }
  intros [[syncedV nv] errsV] g1 _. cbn [bind perform wp readStep]. split; [done|]. intros [mItems|e] _; [|done].
  rewrite decide_False by done. eapply wp_seq; [apply (W_otherKind _ _ _ KMWHC); [done|done|apply every_syncAll]|].
  intros [[syncedM nm] errsM] g2 _. eapply wp_seq; [by apply W_deleteStale|]. intros staleV g3 _.
  eapply wp_seq; [apply (W_otherKind _ _ _ KMWHC); [done|done|apply every_deleteStale]|]. intros staleM g4 _.
  apply W_reports. by left.
Qed.

Lemma W_mutating p c w :
  wp any_env (readStep KMWHC) (exactWrite KMWHC (list_to_set (whs_APIGroups (wsync_Spec w))) c)
    (syncWebhooks p c w) noReading (fun _ _ => True).
Proof.
  unfold syncWebhooks, list_objs. cbv zeta. cbn [bind perform wp readStep]. split; [done|]. intros [vItems|e] _; [|done].
  rewrite decide_False by done. eapply wp_seq; [apply (W_otherKind _ _ _ KVWHC); [done|done|apply every_syncAll]|].
  intros [[syncedV nv] errsV] g1 ->. cbn [bind perform wp readStep]. split; [done|]. intros [mItems|e] _; [|done].
  rewrite decide_True by done. eapply wp_seq.
  { apply (W_syncAll KMWHC _ c mName id id); [done|done|]. cbn [rd_listed]. intros x Hx. apply list_elem_of_omap. by exists x. }
  intros [[syncedM nm] errsM] g2 _.
  eapply wp_seq; [apply (W_otherKind _ _ _ KVWHC); [done|done|apply every_deleteStale]|]. intros staleV g3 _.
  eapply wp_seq; [by apply W_deleteStale|]. intros staleM g4 _. apply W_reports. by right.
Qed.

End WholePass.

Definition writesHook (x : call) : bool := match x with Create _ KVWHC _ | Update _ KVWHC _ => true | _ => false end.

