(* ===== verification/RbacProps.v ===== *)
(** * The operator's permissions suffice

    Every call of the three controllers to the primary is permitted by the role the
    markers declare. *)
From S2P Require Import Prelude GoStd NetUrl GoJson KubeTypes APITypes Kube Reference ResCommon KineRes PostgresRes.
From S2P Require Import SecondaryRes MetricsRes OtelRes Certs Aggregation ClientProvider ApiShardSteps ApiShard.
From S2P Require Import ApiShardLemmas Tracking Rbac Typing LiveRule ApiShardProps NamespaceSync WebhookSync.

(** The operator holds every permission that the calls of a trace need, in a cluster
    with the given roles at the start. *)
Definition permits (g : roleTable) (c : call) : Prop :=
  forall perm, perm ∈ needs c ++ bindingNeeds g c -> held perm = true.
Definition permitted (g : roleTable) (tr : list kevent) : Prop := allowed learnRole permits g tr.

(** The part of it that bindings are responsible for. *)
Definition bindable (g : roleTable) (c : call) : Prop := forallb held (bindingNeeds g c) = true.

Lemma permitted_split g tr :
  Forall (fun e => authorized (ev_call e)) tr -> allowed learnRole bindable g tr -> permitted g tr.
Proof.
  revert g. induction tr as [|e tr IH]; intros g Ha Hb; [done|].
  apply Forall_cons in Ha as [Ha1 Ha]. destruct Hb as [Hb1 Hb]. split; [|by apply IH].
  intros perm Hp. unfold authorized, bindable in *. rewrite forallb_forall in Ha1, Hb1.
  apply elem_of_app in Hp as [Hp|Hp]; [by apply Ha1, list_elem_of_In|by apply Hb1, list_elem_of_In].
Qed.

(** A call to a secondary needs no permission on the primary. *)
Lemma remote_authorized c : remoteClient c ->
  (forall k key, authorized (Get c k key)) /\ (forall k opts, authorized (ListObjs c k opts)) /\
  (forall k o, authorized (Create c k o)) /\ (forall k o, authorized (Update c k o)) /\
  (forall k o, authorized (Delete c k o)) /\ (forall k o owner force, authorized (PatchApply c k o owner force)).
Proof. intros [cfg ->]. by repeat split. Qed.

(** Close the goals [authorized call] by evaluation, or as calls to the secondary. *)
Local Hint Extern 1 (authorized _) => reflexivity : kube.
Local Hint Extern 2 (authorized _) =>
  match goal with H : remoteClient ?c |- _ => destruct H as [? ->]; reflexivity end : kube.

Local Ltac auth_tac := unfold get, list_objs, create, update, delete_obj, patch_apply in *; every_tac.

Lemma step_authorized c : stepCall c -> authorized c.
Proof.
  destruct c as [[] []|[] []|[] []|[] []|[] []|[] []|[] []|[] []| | | | | | | |]; try done; by intros [].
Qed.

Section Permissions.
Context {T : ThirdParty} {L : ThirdPartyLaws T}.

Local Abbreviation OK := (safe authorized).
Local Abbreviation clean := (fun x => remoteCache x.2).

Lemma safe_GetOrCreate p key cfg :
  remoteCache p ->
  OK (fun '(res, p') => remoteCache p' /\ match res with Ok c => remoteClient c | Err _ => True end)
    (GetOrCreate SHA256 p key cfg).
Proof.
  intros Hp. split; [|by apply always_GetOrCreate_remote]. unfold GetOrCreate, createLocked. auth_tac.
Qed.

Lemma safe_BuildClient p conn ns key :
  remoteCache p ->
  OK (fun '(res, p') => remoteCache p' /\ match res with Ok c => remoteClient c | Err _ => True end)
    (BuildClient SHA256 p PrimaryC conn ns key).
Proof.
  intros Hp. split; [|by apply always_BuildClient_remote]. unfold BuildClient, GetOrCreate, createLocked. auth_tac.
Qed.

Lemma remoteCache_Invalidate p key : remoteCache p -> remoteCache (Invalidate p key).
Proof. intros H. by apply map_Forall_delete. Qed.

(** ** The shard controller after its steps *)
Lemma safe_syncCRDs p s names : remoteCache p -> OK clean (syncCRDsToSecondary p s names).
Proof.
  intros Hp. unfold syncCRDsToSecondary. case_decide; [by apply safe_ret|].
  apply safe_seq; [auth_tac|]. intros [pki|e]; [|by apply safe_ret].
  apply safe_seq; [auth_tac|]. intros [adm|e]; [|by apply safe_ret].
  eapply safe_bind; [by apply safe_GetOrCreate|]. intros [[c|e] p'] [Hp' Hc]; [|by apply safe_ret]. cbn in Hc.
  apply safe_seq; [|by intros; apply safe_ret]. apply every_collect. intros name _. unfold copyCRD, patch_apply. auth_tac.
Qed.

Lemma safe_conflicts p s : remoteCache p -> OK clean (reconcileCRDConflicts p s).
Proof.
  intros Hp. unfold reconcileCRDConflicts. apply safe_seq; [unfold DetectCRDConflicts; auth_tac|].
  intros [conflict|e]; [|by apply safe_ret]. case_match; [|by apply safe_ret].
  eapply safe_bind; [by apply safe_syncCRDs|]. intros [[e|] p'] Hp'; by apply safe_ret.
Qed.

Lemma safe_verify p s : remoteCache p -> OK clean (verifySecondaryAuth p s).
Proof.
  intros Hp. unfold verifySecondaryAuth.
  apply safe_seq; [auth_tac|]. intros [pki|e]; [|by apply safe_ret].
  apply safe_seq; [auth_tac|]. intros [adm|e]; [|by apply safe_ret].
  cbv zeta. case_match; [by apply safe_ret|].
  eapply safe_bind; [by apply safe_GetOrCreate|]. intros [[c|e] p'] [Hp' Hc]; [|by apply safe_ret]. cbn in Hc.
  apply safe_seq; [auth_tac|]. intros [l|e]; apply safe_ret; [exact Hp'|by apply remoteCache_Invalidate].
Qed.

Lemma safe_health tc p s : remoteCache p -> OK (fun x => remoteCache x.2) (updateHealthStatus tc p s).
Proof.
  intros Hp. unfold updateHealthStatus. apply safe_seq; [unfold checkDeploymentHealth; auth_tac|].
  intros [[|]|e]; [|by apply safe_ret|by apply safe_ret]. cbv zeta.
  apply (safe_bind _ clean).
  - unfold reconcileSubResources. eapply safe_bind; [by apply safe_verify|]. intros [[|] p'] Hp'; [|by apply safe_ret].
    do 2 (apply safe_seq; [unfold reconcileNamespaceSync, reconcileWebhookSync; auth_tac|]; intros _).
    apply safe_seq; [unfold aggregateSubCRStatus; auth_tac|]. intros s'. by apply safe_ret.
  - intros [s' p'] Hp'. apply safe_seq; [unfold checkAPIServiceAvailability, CheckAvailability; auth_tac|].
    intros [[res e] s2]. case_match; by apply safe_ret.
Qed.

Lemma safe_conclude tc p s : remoteCache p -> OK clean (conclude tc p s).
Proof.
  intros Hp. unfold conclude. eapply safe_bind; [by apply safe_conflicts|]. intros [s1 p1] Hp1.
  eapply safe_bind; [by apply safe_health|]. intros [[[res [e|]] s2] p2] Hp2; [by apply safe_ret|].
  do 2 (apply safe_seq; [by auth_tac|]; intros ?). case_match; by apply safe_ret.
Qed.

Lemma safe_Reconcile r p req : remoteCache p -> OK clean (ApiShard.Reconcile r p req).
Proof.
  intros Hp.
  assert (Hl : forall s, OK clean (reconcileLive r p s)).
  { intros s. apply safe_live; [apply step_authorized|done|]. intros tc s'. by apply safe_conclude. }
  unfold ApiShard.Reconcile. apply safe_seq; [auth_tac|]. intros [s|e]; [|by apply safe_ret]. case_match.
  - apply safe_seq; [unfold finalize, deregister; auth_tac|]. intros res. by apply safe_ret.
  - case_match; [apply Hl|]. apply safe_seq; [auth_tac|]. intros [s' [e|]]; [by apply safe_ret|apply Hl].
Qed.

(** ** The sync controllers *)
Lemma safe_namespaceSync p req : remoteCache p -> OK clean (NamespaceSync.Reconcile p req).
Proof.
  intros Hp. unfold NamespaceSync.Reconcile. apply safe_seq; [auth_tac|]. intros [n|e]; [|by apply safe_ret].
  eapply safe_bind; [by apply safe_BuildClient|]. intros [[c|e] p'] [Hp' Hc]; cbn in Hc.
  - unfold syncWith. cbv zeta. case_match; [by apply safe_ret|]. apply safe_seq; [auth_tac|].
    intros [prim|e]; [|by apply safe_ret]. apply safe_seq; [auth_tac|]. intros [sec|e].
    + apply safe_seq.
      { unfold syncNamespaces, createMissing, deleteOrphaned, ensureNamespaceOnSecondary, deleteNamespaceOnSecondary.
        cbv zeta. auth_tac. }
      intros errs. do 2 (apply safe_seq; [auth_tac|]; intros ?). by apply safe_ret.
    + apply safe_seq; [auth_tac|]. intros ?. apply safe_ret. by apply remoteCache_Invalidate.
  - apply safe_seq; [auth_tac|]. intros ?. by apply safe_ret.
Qed.

Lemma authorized_syncAll k kindName toCfg ofCfg c tg items :
  remoteClient c -> every authorized (syncAll k kindName toCfg ofCfg c tg items).
Proof.
  intros Hc. induction items as [|wc items IH]; cbn [syncAll]; [done|]. case_match; [done|].
  apply every_bind; [unfold syncOne; cbv zeta; auth_tac|]. intros e. apply every_bind; [done|]. by intros [[] ?].
Qed.

Lemma authorized_deleteStale k kindName toCfg c names : remoteClient c -> every authorized (deleteStale k kindName toCfg c names).
Proof. intros Hc. unfold deleteStale. auth_tac. Qed.

Lemma safe_webhookSync p req : remoteCache p -> OK clean (WebhookSync.Reconcile p req).
Proof.
  intros Hp. unfold WebhookSync.Reconcile. apply safe_seq; [auth_tac|]. intros [w|e]; [|by apply safe_ret].
  eapply safe_bind; [by apply safe_BuildClient|]. intros [[c|e] p'] [Hp' Hc]; cbn in Hc.
  - unfold syncWebhooks. cbv zeta. apply safe_seq; [auth_tac|]. intros [vs|e]; [|by apply safe_ret].
    apply safe_seq; [by apply authorized_syncAll|]. intros [[syncedV nv] errsV].
    apply safe_seq; [auth_tac|]. intros [ms|e]; [|by apply safe_ret].
    apply safe_seq; [by apply authorized_syncAll|]. intros [[syncedM nm] errsM].
    do 2 (apply safe_seq; [by apply authorized_deleteStale|]; intros ?).
    do 2 (apply safe_seq; [auth_tac|]; intros ?). apply safe_ret. cbn.
    case_match; [done|by apply remoteCache_Invalidate].
  - apply safe_seq; [auth_tac|]. intros ?. by apply safe_ret.
Qed.

(** ** Bindings *)
Local Abbreviation B := (wp any_env learnRole bindable).
Local Abbreviation Bound := (Keeps any_env learnRole bindable documentedDelegator).

Lemma Keeps_roleless {A} (p : kprog A) : every roleless p -> Bound p.
Proof.
  intros H. eapply Keeps_every; [exact H|]. intros g c Hg Hc. unfold bindable.
  rewrite roleless_needs by done. split; [done|]. intros res _. by rewrite roleless_learns.
Qed.

(** Programs that return an error, one after the other until one fails. *)
Lemma Bound_try (p : kprog (option error)) (k : kprog (option error)) (g : roleTable) (P : roleTable -> Prop) :
  B p g (fun e g' => documentedDelegator g' /\ (e = None -> P g')) ->
  (forall g', documentedDelegator g' -> P g' -> B k g' (fun _ g'' => documentedDelegator g'')) ->
  B (try p in k) g (fun _ g'' => documentedDelegator g'').
Proof.
  intros Hp Hk. eapply wp_seq; [exact Hp|]. intros [e|] g' [Hg HP]; [done|]. by apply Hk, HP.
Qed.

(** An apply of something that is neither a role nor a binding. *)
Lemma Bound_plain what tc k o rest g :
  rolesKind k = false -> documentedDelegator g ->
  (forall g', documentedDelegator g' -> B rest g' (fun _ g'' => documentedDelegator g'')) ->
  B (try apply_or what tc k o in rest) g (fun _ g'' => documentedDelegator g'').
Proof.
  intros Hk Hg Hr. apply (Bound_try _ _ _ (fun _ => True)); [|auto].
  eapply wp_mono; [by apply (Keeps_roleless (apply_or what tc k o)); [apply every_apply_or|]|]. by intros.
Qed.

(** An apply of a role whose key is not the documented one's: the role is then known. *)
Lemma Bound_role what tc k (o : obj k) key rules rest g :
  storeRole k o = insert key rules -> boundPermissions g k o = [] -> key <> delegatorKey -> documentedDelegator g ->
  (forall g', documentedDelegator g' -> g' !! key = Some rules -> B rest g' (fun _ g'' => documentedDelegator g'')) ->
  B (try apply_or what tc k o in rest) g (fun _ g'' => documentedDelegator g'').
Proof.
  intros Hst Hn Hk Hg Hr. apply (Bound_try _ _ _ (fun g' => g' !! key = Some rules)); [|auto].
  unfold apply_or, apply_owned. cbn [bind perform wp]. split; [unfold bindable; cbn; by rewrite Hn|].
  intros [o' [e|]] _; cbn; [done|]. rewrite Hst. split; [|intros _; by rewrite lookup_insert_eq].
  unfold documentedDelegator. by rewrite lookup_insert_ne.
Qed.

(** An apply of a binding to a role that is known. *)
Lemma Bound_binding what tc k (o : obj k) g :
  (forall g', storeRole k o g' = g') -> forallb held (boundPermissions g k o) = true -> documentedDelegator g ->
  B (apply_or what tc k o) g (fun _ g'' => documentedDelegator g'').
Proof.
  intros Hst Hb Hg. unfold apply_or, apply_owned. cbn [bind perform wp]. split; [exact Hb|].
  intros [o' [e|]] _; cbn; [done|]. by rewrite Hst.
Qed.

Lemma bound_known (g : roleTable) (b : RoleBinding) key rules :
  g !! key = Some rules -> boundRole b = key -> forallb held (rules ≫= grantedBy) = true ->
  forallb held (boundPermissions g KRoleBinding b) = true /\ forallb held (boundPermissions g KClusterRoleBinding b) = true.
Proof. intros Hk <- Hr. unfold boundPermissions. by rewrite Hk. Qed.

Lemma scc_not_delegator n : n +:+ "-apiserver-scc" <> "system:auth-delegator".
Proof. intros H. do 22 (destruct n as [|? n]; [discriminate H|]; cbn in H; try (injection H as _ H)). discriminate H. Qed.

Lemma Bound_delegator tc sh : Bound (reconcileAuthDelegator tc sh).
Proof.
  intros g Hg. unfold reconcileAuthDelegator. destruct (SetControllerReference _ _) as [m [e|]]; [done|].
  apply Bound_binding; [done| |done]. by eapply bound_known.
Qed.

Lemma Bound_scc r tc sh : Bound (reconcileAPIServerSCC r tc sh).
Proof.
  intros g Hg. unfold reconcileAPIServerSCC. destruct (SCCAvailable r); cbn [negb]; [|done].
  apply Bound_plain; [done|done|]. clear g Hg. intros g Hg.
  eapply Bound_role; [reflexivity|done| |done|].
  { intros [= H]. by apply scc_not_delegator in H. }
  clear g Hg. intros g Hg Hk. apply Bound_binding; [done| |done]. by eapply bound_known.
Qed.

Lemma Bound_metrics r tc sh : Bound (reconcileMetrics r tc sh).
Proof.
  intros g Hg. unfold reconcileMetrics. destruct (ServiceMonitorAvailable r); cbn [negb]; [|done].
  do 2 (apply Bound_plain; [done|done|]; clear g Hg; intros g Hg).
  apply (Bound_try _ _ _ (fun g => g !! ("ClusterRole", "", MetricsReaderClusterRoleName) = Some metricsReaderRules)).
  { unfold wrapErr, patch_apply. cbn [bind perform wp]. split; [done|]. intros [o [e|]] _; cbn; [done|].
    split; [|intros _; by rewrite lookup_insert_eq]. unfold documentedDelegator. by rewrite lookup_insert_ne. }
  clear g Hg. intros g Hg Hk.
  apply (Bound_try _ _ _ (fun _ => True)).
  { eapply wp_mono; [apply Bound_binding; [done| |done]|by intros]. by eapply bound_known. }
  clear g Hg Hk. intros g Hg _. eapply wp_seq.
  { by apply (Keeps_roleless (apply_owned tc KServiceMonitor (BuildKineServiceMonitor sh))); [unfold apply_owned; every_tac|]. }
  clear g Hg. intros [e|] g Hg; [by destruct (_ || _)|].
  apply Bound_plain; [done|done|]. clear g Hg. intros g Hg.
  eapply Bound_role; [reflexivity|done|done|done|]. clear g Hg. intros g Hg Hk.
  unfold BuildPrometheusDiscoveryRoleBinding. destruct (PrometheusServiceAccount sh).
  apply Bound_binding; [done| |done]. by eapply bound_known.
Qed.

Lemma roleless_GetOrCreate p key cfg : every roleless (GetOrCreate SHA256 p key cfg).
Proof. unfold GetOrCreate, createLocked. every_tac. Qed.
Local Hint Resolve roleless_GetOrCreate : kube.

Lemma roleless_conclude tc p sh : every roleless (conclude tc p sh).
Proof.
  unfold conclude, reconcileCRDConflicts, DetectCRDConflicts, syncCRDsToSecondary, copyCRD,
    updateHealthStatus, checkDeploymentHealth, reconcileSubResources, verifySecondaryAuth, reconcileNamespaceSync,
    reconcileWebhookSync, aggregateSubCRStatus, checkAPIServiceAvailability, CheckAvailability, patch_apply. every_tac.
Qed.

Lemma Bound_Reconcile r p req : Bound (ApiShard.Reconcile r p req).
Proof.
  assert (Hf : forall (p' : clients) sh e s, documentedDelegator s ->
    B (let* res := setErrorAndRequeue sh e in Ret (res, p')) s (fun _ s' => documentedDelegator s')).
  { intros p' sh e. apply (Keeps_roleless (let* res := setErrorAndRequeue sh e in Ret (res, p'))). by every_tac. }
  assert (Hp : forall p' sh g, documentedDelegator g -> B (provision r p' sh) g (fun _ g' => documentedDelegator g')).
  { intros p' sh g. apply (wp_provision _ _ _ documentedDelegator _ r Hf (shardNS sh)); [| | | | | |done].
    - intros A q Hq. apply Keeps_roleless. eapply every_mono; [|exact Hq]. by intros c [].
    - intros tc sh' _. apply Bound_delegator.
    - intros tc sh' _. apply Bound_scc.
    - intros tc sh' _. apply Bound_metrics.
    - intros tc sh' _. apply Keeps_roleless. eapply every_mono; [|apply every_storage]. by intros c [].
    - intros tc p2 sh' s. apply (Keeps_roleless _ (roleless_conclude tc p2 sh')). }
  assert (Hl : forall sh g, documentedDelegator g -> B (reconcileLive r p sh) g (fun _ g' => documentedDelegator g')).
  { intros sh g Hg. unfold reconcileLive. apply (wp_keeping _ _ _ documentedDelegator _ Hf); [| |done].
    - apply Keeps_roleless. eapply every_mono; [|apply every_namespace]. by intros c [].
    - intros g' Hg'. case_decide; [|by apply Hp]. cbn [bind status_update perform wp]. split; [done|].
      intros [sh' [e|]] _; [done|by apply Hp]. }
  intros g Hg. unfold ApiShard.Reconcile. cbn [bind perform wp]. split; [done|]. intros [sh|e] _; [|done].
  destruct (meta_DeletionTimestamp _).
  - apply (Keeps_roleless (let* res := finalize sh in Ret (res, p))); [|done]. unfold finalize, deregister. by every_tac.
  - destruct (ContainsFinalizer _ _); [by apply Hl|]. cbn [bind perform wp]. split; [done|].
    intros [sh' [e|]] _; [done|by apply Hl].
Qed.

Lemma roleless_Build p conn ns key : every roleless (BuildClient SHA256 p PrimaryC conn ns key).
Proof. unfold BuildClient. auth_tac. Qed.
Local Hint Resolve roleless_Build : kube.

Lemma roleless_namespaceSync p req : every roleless (NamespaceSync.Reconcile p req).
Proof.
  unfold NamespaceSync.Reconcile, syncWith, syncNamespaces, createMissing, deleteOrphaned, ensureNamespaceOnSecondary,
    deleteNamespaceOnSecondary. cbv zeta. auth_tac.
Qed.

Lemma roleless_syncAll k kindName toCfg ofCfg c tg items :
  rolesKind k = false -> every roleless (syncAll k kindName toCfg ofCfg c tg items).
Proof.
  intros Hk. induction items as [|wc items IH]; cbn [syncAll]; [done|]. case_match; [done|].
  apply every_bind; [unfold syncOne; cbv zeta; auth_tac|]. intros e. apply every_bind; [done|]. by intros [[] ?].
Qed.

Lemma roleless_webhookSync p req : every roleless (WebhookSync.Reconcile p req).
Proof.
  pose proof roleless_syncAll as Hs. unfold WebhookSync.Reconcile, syncWebhooks, deleteStale. cbv zeta.
  apply every_bind; [auth_tac|]. intros [w|e]; [|done]. apply every_bind; [auth_tac|]. intros [[c|e] p']; [|auth_tac].
  apply every_bind; [auth_tac|]. intros [vs|e]; [|auth_tac]. apply every_bind; [by apply Hs|]. intros [[? ?] ?].
  apply every_bind; [auth_tac|]. intros [ms|e]; [|auth_tac]. apply every_bind; [by apply Hs|]. intros [[? ?] ?].
  auth_tac.
Qed.

(** C8: the role the operator runs with permits every call that its three controllers
    make to the primary, in every run and whatever the API server answers: the verbs
    on every kind they read, write, apply, delete and clean up, the status
    subresources, the update of finalizers that setting blocking owner references
    takes, all that the roles they write grant, and all that the roles grant which
    they bind, since nobody may grant or bind more than they have.  A role that the
    operator binds was applied before in the same run, with rules it may bind, or is
    system:auth-delegator, with the rules Kubernetes documents.  Calls of the
    secondary go to the secondary only, as long as the cache of clients holds no client
    of the primary, which it never gets. *)
Theorem calls_permitted r p req roles tr out :
  documentedDelegator roles -> remoteCache p ->
  run (ApiShard.Reconcile r p req) tr out \/ run (NamespaceSync.Reconcile p req) tr out \/
  run (WebhookSync.Reconcile p req) tr out ->
  permitted roles tr /\ remoteCache out.2.
Proof.
  intros Hd Hp Hr.
  assert (exists q, OK clean q /\ Bound q /\ run q tr out) as (q&[H1 H2]&H3&Hq).
  { destruct Hr as [Hr|[Hr|Hr]]; (eexists; split; [|split; [|exact Hr]]);
      [by apply safe_Reconcile|apply Bound_Reconcile|by apply safe_namespaceSync
      |apply Keeps_roleless, roleless_namespaceSync|by apply safe_webhookSync|apply Keeps_roleless, roleless_webhookSync]. }
  split; [|exact (always_run _ _ _ _ H2 Hq)].
  apply permitted_split; [exact (every_run _ _ _ _ H1 Hq)|].
  exact (proj1 (wp_sound _ _ _ _ _ _ _ _ (H3 roles Hd) (relied_any _) Hq)).
Qed.
End Permissions.

(** A cluster with no role but the documented one. *)
Definition freshRoles : roleTable := {[delegatorKey := delegatorRules]}.

Lemma calls_permitted_witness :
  performs isCleanup (trace_of readyRun) = true /\
  size (ghost learnRole freshRoles (trace_of readyRun)) = 4 /\
  permitted freshRoles (trace_of readyRun).
Proof.
  split; [vm_compute; reflexivity|]. split; [vm_compute; reflexivity|].
  refine (proj1 (calls_permitted demoReconciler ∅ demoKey freshRoles (trace_of readyRun) (result_of readyRun) _ _ _)).
  - vm_compute. reflexivity.
  - apply map_Forall_empty.
  - left. apply exec_run.
Defined.
