(* ===== verification/Predicates.v ===== *)
(** * Event predicates and the generic error handler

    src/operator/internal/predicate/predicate.go: which update events of owned
    objects trigger a reconciliation; src/operator/internal/condition/condition.go:
    conditions with the object's generation, and the error handler of reconcilers. *)
From S2P Require Import Prelude GoStd KubeTypes APITypes Kube Reference Aggregation ApiShardSteps ApiShard.

(** ** predicate.go *)
Definition anyObject : Type := {k : Kind & obj k}.
Definition anyMeta (o : anyObject) : ObjectMeta := obj_meta (projT1 o) (projT2 o).

Definition generationOrMetadataChanged (oldObj newObj : anyObject) : bool :=
  let a := anyMeta oldObj in
  let b := anyMeta newObj in
  if negb (meta_Generation a =? meta_Generation b)%Z then true
  else if negb (bool_decide (meta_OwnerReferences a = meta_OwnerReferences b)) then true
  else if negb (maps_Equal (meta_Labels a) (meta_Labels b)) then true
  else negb (maps_Equal (meta_Annotations a) (meta_Annotations b)).

(** [event.UpdateEvent]; an object may be nil. *)
Record UpdateEvent := { ObjectOld : option anyObject; ObjectNew : option anyObject }.

Inductive Event :=
  | CreateEvent (o : option anyObject)
  | UpdateEv (e : UpdateEvent)
  | DeleteEvent (o : option anyObject)
  | GenericEvent (o : option anyObject).

(** [predicate.Funcs] whose create, delete and generic functions return true. *)
Definition onUpdate (f : anyObject -> anyObject -> bool) (e : Event) : bool :=
  match e with
  | UpdateEv {| ObjectOld := Some o; ObjectNew := Some n |} => f o n
  | _ => true
  end.

Definition IgnoreStatusUpdatesPredicate : Event -> bool := onUpdate generationOrMetadataChanged.

Record replicaCounts := { Replicas : Z; Ready : Z; Available : Z; Updated : Z }.
#[export] Instance replicaCounts_eq_dec : EqDecision replicaCounts.
Proof. solve_decision. Defined.

Definition countsOf (st : WorkloadStatus) : replicaCounts :=
  {| Replicas := st_Replicas st; Ready := st_ReadyReplicas st; Available := st_AvailableReplicas st;
     Updated := st_UpdatedReplicas st |}.

Definition extractReplicaCounts (o : anyObject) : option replicaCounts :=
  match o with
  | existT KDeployment d => Some (countsOf d.(d_Status))
  | existT KStatefulSet s => Some (countsOf s.(s_Status))
  | _ => None
  end.

Definition zeroCounts : replicaCounts := {| Replicas := 0; Ready := 0; Available := 0; Updated := 0 |}.

(** The update function of both readiness predicates. *)
Definition readinessChanged (oldObj newObj : anyObject) : bool :=
  if generationOrMetadataChanged oldObj newObj then true
  else match extractReplicaCounts oldObj with
       | None => true
       | Some oldCounts =>
           negb (bool_decide (oldCounts = default zeroCounts (extractReplicaCounts newObj)))
       end.

Definition DeploymentReadinessPredicate : Event -> bool := onUpdate readinessChanged.
Definition StatefulSetReadinessPredicate : Event -> bool := onUpdate readinessChanged.

Definition apiServiceAvailableStatus (o : anyObject) : string :=
  match o with
  | existT KAPIService a =>
      match List.find (fun c => bool_decide (asc_Type c = "Available")) (as_Conditions a) with
      | Some c => asc_Status c
      | None => ""
      end
  | _ => ""
  end.

Definition availabilityChanged (oldObj newObj : anyObject) : bool :=
  if generationOrMetadataChanged oldObj newObj then true
  else negb (bool_decide (apiServiceAvailableStatus oldObj = apiServiceAvailableStatus newObj)).

Definition APIServiceAvailabilityPredicate : Event -> bool := onUpdate availabilityChanged.

(** ** condition.go *)
Section Conditions.
Context {T : ThirdParty}.

(** SetCondition: the condition carries the object's generation. *)
Definition SetCondition (generation : Z) (conditions : list Condition) (c : Condition) : list Condition :=
  SetStatusCondition conditions
    {| cond_Type := cond_Type c; cond_Status := cond_Status c; cond_Reason := cond_Reason c;
       cond_Message := cond_Message c; cond_ObservedGeneration := generation |}.

(** Handle, for an APIShard with its phase setter. *)
Definition Handle (shard : APIShard) (err : error) (message : string)
  : kprog (CtrlResult * option error * APIShard) :=
  let shard := with_status (set_Phase "Error") shard in
  let shard := with_status (fun st => set_Conditions
    (SetCondition (shardGeneration shard) (Conditions st)
       {| cond_Type := "Reconciled"; cond_Status := ConditionFalse; cond_Reason := "ReconcileError";
          cond_Message := message +:+ ": " +:+ Error err; cond_ObservedGeneration := 0 |}) st) shard in
  let* (shard, _) := status_update PrimaryC KAPIShard shard in
  Ret (noRequeue, Some err, shard).
End Conditions.

(** ** A filtered update changes no decision *)
Lemma ownedBy_owners uid (a b : APIService) :
  meta_OwnerReferences (as_Meta a) = meta_OwnerReferences (as_Meta b) -> ownedBy uid a = ownedBy uid b.
Proof. unfold ownedBy. by intros ->. Qed.

Definition availableStatusOf (a : APIService) : string := apiServiceAvailableStatus (existT KAPIService a).

Lemma isAvailable_status a : isAvailable a <-> availableStatusOf a = "True".
Proof.
  rewrite <- unavailable_None. unfold unavailable, availableStatusOf, apiServiceAvailableStatus.
  destruct (List.find _ _) as [c|]; [|done]. by case_decide.
Qed.

(** The metadata an update must leave alone to count as a status update. *)
Definition sameMetadata (a b : ObjectMeta) : Prop :=
  meta_Generation a = meta_Generation b /\ meta_OwnerReferences a = meta_OwnerReferences b /\
  default ∅ (meta_Labels a) = default ∅ (meta_Labels b) /\
  default ∅ (meta_Annotations a) = default ∅ (meta_Annotations b).

Lemma metadata_unchanged a b : generationOrMetadataChanged a b = false <-> sameMetadata (anyMeta a) (anyMeta b).
Proof.
  unfold generationOrMetadataChanged, sameMetadata, maps_Equal. cbv zeta.
  destruct (Z.eqb_spec (meta_Generation (anyMeta a)) (meta_Generation (anyMeta b))); cbn; [|intuition done].
  repeat case_bool_decide; cbn; intuition done.
Qed.

(** The readiness predicates filter out an update of a workload exactly if
    generation, owners, labels, annotations and replica counts are unchanged. *)
Lemma readinessChanged_false (a b : anyObject) ca cb :
  extractReplicaCounts a = Some ca -> extractReplicaCounts b = Some cb ->
  readinessChanged a b = false <-> sameMetadata (anyMeta a) (anyMeta b) /\ ca = cb.
Proof.
  intros Ha Hb. rewrite <- metadata_unchanged. unfold readinessChanged. rewrite Ha, Hb. cbn.
  destruct (generationOrMetadataChanged a b); [intuition done|]. rewrite negb_false_iff, bool_decide_eq_true. tauto.
Qed.

Lemma readiness_filter (o n : Deployment) :
  DeploymentReadinessPredicate
    (UpdateEv {| ObjectOld := Some (existT KDeployment o); ObjectNew := Some (existT KDeployment n) |}) = false <->
  sameMetadata (d_Meta o) (d_Meta n) /\ countsOf (d_Status o) = countsOf (d_Status n).
Proof. exact (readinessChanged_false (existT KDeployment o) (existT KDeployment n) _ _ eq_refl eq_refl). Qed.

Lemma readiness_filter_sts (o n : StatefulSet) :
  StatefulSetReadinessPredicate
    (UpdateEv {| ObjectOld := Some (existT KStatefulSet o); ObjectNew := Some (existT KStatefulSet n) |}) = false <->
  sameMetadata (s_Meta o) (s_Meta n) /\ countsOf (s_Status o) = countsOf (s_Status n).
Proof. exact (readinessChanged_false (existT KStatefulSet o) (existT KStatefulSet n) _ _ eq_refl eq_refl). Qed.

(** An update event of an APIService that the availability predicate filters
    out leaves the answer of the availability check unchanged, for every shard and
    whatever other APIServices the cluster has. *)
Theorem availability_filter_sound (o n : APIService) uid l1 l2 :
  APIServiceAvailabilityPredicate
    (UpdateEv {| ObjectOld := Some (existT KAPIService o); ObjectNew := Some (existT KAPIService n) |}) = false ->
  (availability uid (l1 ++ n :: l2)).1 = (availability uid (l1 ++ o :: l2)).1.
Proof.
  cbn. unfold availabilityChanged. destruct (generationOrMetadataChanged _ _) eqn:E; [done|].
  rewrite negb_false_iff, bool_decide_eq_true. intros Hs.
  apply metadata_unchanged in E as (_&E&_). cbn in E.
  assert (Hown : ownedBy uid o = ownedBy uid n) by by apply ownedBy_owners.
  assert (Hav : isAvailable o <-> isAvailable n).
  { rewrite !isAvailable_status. unfold availableStatusOf. by rewrite Hs. }
  apply eq_bool_prop_intro. split; intros H; apply Is_true_true in H; apply Is_true_true.
  all: rewrite availability_true in *; destruct H as [(a&Ha&Hu) Hall]; split.
  all: try (apply elem_of_app in Ha as [Ha|Ha]; [exists a; set_solver|];
            apply elem_of_cons in Ha as [->|Ha]; [eexists; split; [apply elem_of_app; right; left|congruence]|exists a; set_solver]).
  all: intros b Hb Hob; apply elem_of_app in Hb as [Hb|Hb]; [apply Hall; set_solver|].
  all: apply elem_of_cons in Hb as [->|Hb]; [apply Hav, Hall; [set_solver|congruence]|apply Hall; set_solver].
Qed.

(** An APIService of the shard, with the given message of its Available condition. *)
Definition pendingAPIService (message : string) : APIService :=
  {| as_TypeMeta := as_TypeMeta (demoAPIService "v1.tekton.dev");
     as_Meta := meta_with_owner (newMeta "v1.tekton.dev" "" None)
       {| owner_APIVersion := "kube-shard.konflux-ci.dev/v1alpha1"; owner_Kind := "APIShard"; owner_Name := "demo"; owner_UID := "uid-1"; owner_Controller := true |};
     as_Group := "tekton.dev"; as_Version := "v1"; as_GroupPriorityMinimum := 1000; as_VersionPriority := 100;
     as_Service := None; as_CABundle := ""; as_InsecureSkipTLSVerify := false;
     as_Conditions := [ {| asc_Type := "Available"; asc_Status := "False"; asc_Message := message |} ] |}.

Lemma availability_filter_sound_witness :
  (availability "uid-1" [pendingAPIService "no endpoints"]).1 = (availability "uid-1" [pendingAPIService "timeout"]).1.
Proof.
  exact (availability_filter_sound (pendingAPIService "timeout") (pendingAPIService "no endpoints") "uid-1" [] [] eq_refl).
Defined.
