(* ===== verification/Ticker.v ===== *)
(** * Periodic resynchronisation

    src/operator/internal/periodic/ticker.go: the goroutine that turns ticks into
    events over a channel of capacity one, as a transition system.  Its own steps
    ([runnable_step]) are those of the two select statements; the steps of what is around
    it are the time.Ticker, whose channel holds one tick, the cancellation of the
    context and the receiving end of the channel. *)
From S2P Require Import Prelude GoStd KubeTypes APITypes Kube.

(** ** ticker.go *)
(** Where the runnable is: in the outer select, in the inner one with a tick in
    hand, or returned. *)
Inductive loop := Selecting | Sending | Returned.

(** [done]: the context is cancelled.  [fires]: the time.Ticker is not stopped.
    [C]: a tick is in its channel.  [pending]: events in the channel of the source.
    [ticks], [dropped]: ticks taken from [C] and dropped; [enqueued]: events the
    source has received, each with a call of listFunc. *)
Record ticker := { tk_loop : loop; tk_done : bool; tk_fires : bool; tk_C : bool; tk_pending : nat;
                   tk_ticks : nat; tk_dropped : nat; tk_enqueued : nat }.

Definition capacity : nat := 1.

(** The state when the runnable enters its loop, the time.Ticker just made. *)
Definition NewTickerSource : ticker :=
  {| tk_loop := Selecting; tk_done := false; tk_fires := true; tk_C := false; tk_pending := 0;
     tk_ticks := 0; tk_dropped := 0; tk_enqueued := 0 |}.

(** The runnable: a select takes any of its cases that are ready, the inner one its
    default only when the channel is full; the deferred Stop ends the time.Ticker. *)
Inductive runnable_step : ticker -> ticker -> Prop :=
  | context_done t : tk_loop t = Selecting -> tk_done t = true ->
      runnable_step t {| tk_loop := Returned; tk_done := true; tk_fires := false; tk_C := tk_C t;
                     tk_pending := tk_pending t; tk_ticks := tk_ticks t; tk_dropped := tk_dropped t;
                     tk_enqueued := tk_enqueued t |}
  | tick_taken t : tk_loop t = Selecting -> tk_C t = true ->
      runnable_step t {| tk_loop := Sending; tk_done := tk_done t; tk_fires := tk_fires t; tk_C := false;
                     tk_pending := tk_pending t; tk_ticks := S (tk_ticks t); tk_dropped := tk_dropped t;
                     tk_enqueued := tk_enqueued t |}
  | tick_sent t : tk_loop t = Sending -> tk_pending t < capacity ->
      runnable_step t {| tk_loop := Selecting; tk_done := tk_done t; tk_fires := tk_fires t; tk_C := tk_C t;
                     tk_pending := S (tk_pending t); tk_ticks := tk_ticks t; tk_dropped := tk_dropped t;
                     tk_enqueued := tk_enqueued t |}
  | tick_dropped t : tk_loop t = Sending -> capacity <= tk_pending t ->
      runnable_step t {| tk_loop := Selecting; tk_done := tk_done t; tk_fires := tk_fires t; tk_C := tk_C t;
                     tk_pending := tk_pending t; tk_ticks := tk_ticks t; tk_dropped := S (tk_dropped t);
                     tk_enqueued := tk_enqueued t |}.

(** What happens around it: a tick is lost when the last one was not taken yet. *)
Inductive world_step : ticker -> ticker -> Prop :=
  | interval_passes t : tk_fires t = true ->
      world_step t {| tk_loop := tk_loop t; tk_done := tk_done t; tk_fires := true; tk_C := true;
                      tk_pending := tk_pending t; tk_ticks := tk_ticks t; tk_dropped := tk_dropped t;
                      tk_enqueued := tk_enqueued t |}
  | context_cancelled t :
      world_step t {| tk_loop := tk_loop t; tk_done := true; tk_fires := tk_fires t; tk_C := tk_C t;
                      tk_pending := tk_pending t; tk_ticks := tk_ticks t; tk_dropped := tk_dropped t;
                      tk_enqueued := tk_enqueued t |}
  | source_receives t n : tk_pending t = S n ->
      world_step t {| tk_loop := tk_loop t; tk_done := tk_done t; tk_fires := tk_fires t; tk_C := tk_C t;
                      tk_pending := n; tk_ticks := tk_ticks t; tk_dropped := tk_dropped t;
                      tk_enqueued := S (tk_enqueued t) |}.

Definition ticker_step (t t' : ticker) : Prop := runnable_step t t' \/ world_step t t'.

(** ** The invariant *)
(** The tick the runnable has in hand. *)
Definition inHand (t : ticker) : nat := match tk_loop t with Sending => 1 | _ => 0 end.

Definition tickerInv (t : ticker) : Prop :=
  tk_pending t <= capacity /\ tk_ticks t = inHand t + tk_pending t + tk_dropped t + tk_enqueued t /\
  (tk_loop t = Returned -> tk_done t = true /\ tk_fires t = false).

Lemma tickerInv_step t t' : tickerInv t -> ticker_step t t' -> tickerInv t'.
Proof.
  intros (H1&H2&H3) [Hs|Hs]; unfold tickerInv, inHand, capacity in *.
  - destruct Hs as [t E _|t E _|t E Hc|t E Hc]; rewrite E in *; unfold capacity in *; cbn.
    all: split; [lia|]; split; [lia|]; done.
  - destruct Hs as [t E|t|t n Hn]; cbn; destruct (tk_loop t); cbn.
    all: split; [lia|]; split; [lia|]; try done; intros _; destruct (H3 eq_refl); done || congruence.
Qed.

Lemma tickerInv_reachable t t' : tickerInv t -> rtc ticker_step t t' -> tickerInv t'.
Proof. intros Hi Hr. induction Hr; eauto using tickerInv_step. Qed.

Lemma reachable_inv t : rtc ticker_step NewTickerSource t -> tickerInv t.
Proof. apply tickerInv_reachable. split; [cbn; unfold capacity; lia|]. split; [done|]. by intros [=]. Qed.

(** The runnable's own steps while nothing happens around it. *)
Definition stepsLeft (t : ticker) : nat :=
  match tk_loop t with Selecting => 1 | Sending => 2 | Returned => 0 end + (if tk_C t then 2 else 0).

Lemma stepsLeft_step t t' : runnable_step t t' -> stepsLeft t' < stepsLeft t.
Proof. intros [? E ?|? E EC|? E ?|? E ?]; unfold stepsLeft; rewrite E; try rewrite EC; cbn; destruct (tk_C _); lia. Qed.

Lemma stepsLeft_bound n t t' : nsteps runnable_step n t t' -> n + stepsLeft t' <= stepsLeft t.
Proof. induction 1 as [|n x y z Hs _ IH]; [lia|]. apply stepsLeft_step in Hs. lia. Qed.

Lemma loop_done n t t' : nsteps runnable_step n t t' -> tk_done t = true -> tk_done t' = true.
Proof. induction 1 as [|n x y z Hs _ IH]; [done|]. intros H. apply IH. by destruct Hs. Qed.

(** Whether the runnable can go on is decided by the two select statements. *)
Lemma loop_enabled t :
  (exists t', runnable_step t t') <-> tk_loop t = Sending \/ (tk_loop t = Selecting /\ (tk_done t = true \/ tk_C t = true)).
Proof.
  split.
  - intros (t'&[? ? ?|? ? ?|? ? ?|? ? ?]); auto.
  - intros [E|(E&[Hd|Hc])].
    + destruct (decide (tk_pending t < capacity)); eexists; [by apply tick_sent|apply tick_dropped; [done|lia]].
    + eexists. by apply context_done.
    + eexists. by apply tick_taken.
Qed.

Lemma returned_stays t t' :
  tickerInv t -> tk_loop t = Returned -> rtc ticker_step t t' ->
  tk_loop t' = Returned /\ tk_ticks t' = tk_ticks t /\ tk_dropped t' = tk_dropped t /\ tk_C t' = tk_C t.
Proof.
  intros Hi E Hr. induction Hr as [t|t u t' Hs Hr IH]; [done|].
  assert (Hu : tk_loop u = Returned /\ tk_ticks u = tk_ticks t /\ tk_dropped u = tk_dropped t /\ tk_C u = tk_C t).
  { destruct Hi as (_&_&H3). destruct (H3 E) as [_ Hf].
    clear IH Hr. destruct Hs as [Hs|Hs]; [destruct Hs; congruence|]. destruct Hs; cbn; done || congruence. }
  destruct Hu as (Eu&<-&<-&<-). apply IH; [by eapply tickerInv_step|done].
Qed.

(** C33: in every reachable state of the periodic ticker at most one event is
    pending, and each tick it took is in hand, pending, delivered or dropped, none
    counted twice.  With a tick in hand it never blocks on the channel, full or not:
    it can go on, and wherever it goes it is back in its select with exactly one
    event pending, the tick being dropped only if one was pending already.  In its
    select it waits exactly if there is neither a tick nor a cancellation.
    Cancellation ends it: it returns only if the context is cancelled; once
    that is so its own steps are at most four while no further tick fires, and when it
    can take no more it has returned; after it has returned the time.Ticker is
    stopped and it takes and drops no tick any more. *)
Theorem ticker_never_blocks t :
  rtc ticker_step NewTickerSource t ->
  tk_pending t <= 1 /\
  tk_ticks t = inHand t + tk_pending t + tk_dropped t + tk_enqueued t /\
  (tk_loop t = Sending ->
     (exists t', runnable_step t t') /\
     forall t', runnable_step t t' -> tk_loop t' = Selecting /\ tk_pending t' = 1 /\
       tk_dropped t' = tk_dropped t + tk_pending t) /\
  (tk_loop t = Selecting -> (exists t', runnable_step t t') <-> tk_done t = true \/ tk_C t = true) /\
  (tk_loop t = Returned -> tk_done t = true) /\
  (tk_done t = true -> forall n t', nsteps runnable_step n t t' ->
     n <= 4 /\ ((exists t'', runnable_step t' t'') \/ tk_loop t' = Returned)) /\
  (tk_loop t = Returned -> tk_fires t = false /\
     forall t', rtc ticker_step t t' -> tk_loop t' = Returned /\ tk_ticks t' = tk_ticks t /\ tk_dropped t' = tk_dropped t).
Proof.
  intros Hr. apply reachable_inv in Hr as Hi. pose proof Hi as (H1&H2&H3). unfold capacity in H1.
  split; [done|]. split; [done|]. split; [|split; [|split; [|split]]].
  - intros E. split; [by apply loop_enabled; left|]. intros t' Hs.
    destruct Hs as [? E' ?|? E' ?|? E' Hc|? E' Hc]; try congruence; cbn; unfold capacity in *; repeat split; lia.
  - intros E. rewrite loop_enabled, E. naive_solver.
  - intros E. by apply H3.
  - intros Hd n t' Hn. split.
    + apply stepsLeft_bound in Hn. assert (stepsLeft t <= 4); [|lia].
      unfold stepsLeft. destruct (tk_loop t), (tk_C t); lia.
    + rewrite loop_enabled. pose proof (loop_done _ _ _ Hn Hd). destruct (tk_loop t'); auto.
  - intros E. split; [by apply H3|]. intros t' Ht'. destruct (returned_stays t t' Hi E Ht') as (?&?&?&_). done.
Qed.

(** Two ticks with no receiver, the second one dropped, then the cancellation. *)
Definition tickedTwice (loop : loop) (done fires : bool) : ticker :=
  {| tk_loop := loop; tk_done := done; tk_fires := fires; tk_C := false; tk_pending := 1;
     tk_ticks := 2; tk_dropped := 1; tk_enqueued := 0 |}.

Lemma ticked_twice : rtc ticker_step NewTickerSource (tickedTwice Selecting true true).
Proof.
  eapply rtc_l; [right; by apply interval_passes|]. eapply rtc_l; [left; by apply tick_taken|].
  eapply rtc_l; [left; apply tick_sent; [done|cbn; unfold capacity; lia]|].
  eapply rtc_l; [right; by apply interval_passes|]. eapply rtc_l; [left; by apply tick_taken|].
  eapply rtc_l; [left; by apply tick_dropped|]. eapply rtc_l; [right; by apply context_cancelled|]. apply rtc_refl.
Qed.

Lemma ticker_never_blocks_witness :
  tk_pending (tickedTwice Selecting true true) <= 1 /\
  ((exists t, runnable_step (tickedTwice Selecting true true) t) \/ tk_loop (tickedTwice Selecting true true) = Returned).
Proof.
  destruct (ticker_never_blocks (tickedTwice Selecting true true) ticked_twice) as (H1&_&_&_&_&H2&_).
  split; [exact H1|]. exact (proj2 (H2 eq_refl 0 _ (nsteps_O _ _))).
Defined.
