(* ===== verification/Discovery.v ===== *)
(** * Cluster discovery

    src/operator/internal/controller/apishard/discovery.go: whether optional APIs are
    served, and the issuer of the primary's service account tokens, read from its
    OIDC discovery document. *)
From S2P Require Import Prelude GoStd NetUrl GoJson KubeTypes APITypes Kube.

(** DiscoverServiceMonitor and DiscoverSCC: whether the group version serves the
    kind; a group version that is not there is no error. *)
Definition discoverKind (gv kind : string) : kprog (result bool) :=
  let* res := perform (ServerResourcesForGroupVersion gv) in
  match res with
  | Err err =>
      if IsNotFound err || IsNoMatchError err then Ret (Ok false)
      else Ret (Err (Wrapf ("querying " +:+ gv) err))
  | Ok kinds => Ret (Ok (existsb (fun k => bool_decide (k = kind)) kinds))
  end.

Definition DiscoverServiceMonitor : kprog (result bool) := discoverKind "monitoring.coreos.com/v1" "ServiceMonitor".
Definition DiscoverSCC : kprog (result bool) :=
  discoverKind "security.openshift.io/v1" "SecurityContextConstraints".

(** What discovery of a kind answers. *)
Definition discovered (gv kind : string) (tr : list kevent) (res : result bool) : Prop :=
  exists answer, tr = [Ev (ServerResourcesForGroupVersion gv) answer] /\
    match answer with
    | Ok kinds => exists b, res = Ok b /\ (b = true <-> kind ∈ kinds)
    | Err e =>
        if decide (errClass e = ClassNotFound \/ errClass e = ClassNoMatch) then res = Ok false
        else res = Err (Wrapf ("querying " +:+ gv) e)
    end.

Lemma run_discoverKind gv kind tr res : run (discoverKind gv kind) tr res <-> discovered gv kind tr res.
Proof.
  unfold discoverKind, discovered. cbn.
  assert (Hex : forall kinds : list string,
    existsb (fun k => bool_decide (k = kind)) kinds = true <-> kind ∈ kinds).
  { intros kinds. rewrite existsb_exists. setoid_rewrite bool_decide_eq_true. setoid_rewrite <- list_elem_of_In.
    naive_solver. }
  assert (Hcl : forall e, IsNotFound e || IsNoMatchError e = true <-> errClass e = ClassNotFound \/ errClass e = ClassNoMatch).
  { intros e. unfold IsNotFound, IsNoMatchError. by rewrite orb_true_iff, !bool_decide_eq_true. }
  split.
  - intros (answer&tr'&->&H). exists answer. destruct answer as [kinds|e]; cbn in H.
    + destruct H as [-> ->]. split; [done|]. eexists. split; [done|apply Hex].
    + destruct (IsNotFound e || IsNoMatchError e) eqn:E; cbn in H; destruct H as [-> ->]; split; try done.
      * rewrite decide_True; [done|]. by apply Hcl.
      * rewrite decide_False; [done|]. rewrite <- Hcl. congruence.
  - intros (answer&->&H). exists answer, []. split; [done|]. destruct answer as [kinds|e]; cbn.
    + destruct H as (b&->&Hb). split; [done|]. f_equal. apply eq_true_iff_eq. by rewrite Hb, Hex.
    + destruct (IsNotFound e || IsNoMatchError e) eqn:E; cbn; split; try done.
      * rewrite decide_True in H; [done|]. by apply Hcl.
      * rewrite decide_False in H; [done|]. rewrite <- Hcl. congruence.
Qed.

(** ** The issuer *)
Section Issuer.
Context {T : ThirdParty}.

(** [newForConfig] is the error of [kubernetes.NewForConfig]. *)
Definition DiscoverPrimaryIssuer (newForConfig : option error) : kprog (result string) :=
  match newForConfig with
  | Some err => Ret (Err (Wrapf "creating clientset" err))
  | None =>
      let* body := perform OIDCDiscovery in
      match body with
      | Err err => Ret (Err (Wrapf "fetching OIDC discovery" err))
      | Ok body =>
          match Unmarshal_field JSONDiagnostic "issuer" body with
          | Err err => Ret (Err (Wrapf "parsing OIDC discovery response" err))
          | Ok issuer =>
              if decide (issuer = "") then Ret (Err (Errorf "OIDC discovery response has empty issuer"))
              else Ret (Ok issuer)
          end
      end
  end.

(** The members of a document that name the issuer, in any case. *)
Definition issuerMembers (ms : list (string * jvalue)) : list jvalue :=
  snd <$> List.filter (fun m => bool_decide (foldName (fst m) = "ISSUER")) ms.

(** The issuer a document names: a string that is not empty, the last one given,
    with nothing but strings and nulls given. *)
Definition namesIssuer (body issuer : string) : Prop :=
  exists ms, parse_json body = Some (VObject ms) /\ issuer <> "" /\
    Forall (fun v => match v with VString _ | VNull => True | _ => False end) (issuerMembers ms) /\
    last (omap (fun v => match v with VString s => Some s | _ => None end) (issuerMembers ms)) = Some issuer.

Lemma foldl_storeMember ms x b :
  foldl (storeMember "issuer") (x, b) ms =
  (default x (last (omap (fun v => match v with VString s => Some s | _ => None end) (issuerMembers ms))),
   b || existsb (fun v => match v with VString _ | VNull => false | _ => true end) (issuerMembers ms)).
Proof.
  revert x b. induction ms as [|[key v] ms IH]; intros x b; [by rewrite orb_false_r|].
  cbn [foldl]. unfold storeMember at 2. change (foldName "issuer") with "ISSUER".
  unfold issuerMembers in *. cbn [fst snd List.filter].
  destruct (decide (foldName key = "ISSUER")) as [E|E].
  - rewrite bool_decide_eq_true_2 by done. cbn [fmap list_fmap snd omap list_omap existsb].
    destruct v; rewrite IH; cbn [orb]; rewrite ?orb_true_r; try done.
    rewrite last_cons. by destruct (last _).
  - rewrite bool_decide_eq_false_2 by done. apply IH.
Qed.

Lemma Unmarshal_issuer body issuer :
  (Unmarshal_field JSONDiagnostic "issuer" body = Ok issuer /\ issuer <> "") <-> namesIssuer body issuer.
Proof.
  unfold Unmarshal_field, namesIssuer. destruct (parse_json body) as [[| | | | |ms]|];
    try (split; [naive_solver|intros (?&?&_); done]).
  rewrite foldl_storeMember. cbn [orb].
  assert (Hex : existsb (fun v => match v with VString _ | VNull => false | _ => true end) (issuerMembers ms) = false <->
    Forall (fun v => match v with VString _ | VNull => True | _ => False end) (issuerMembers ms)).
  { induction (issuerMembers ms) as [|v l IH]; cbn; [by split|]. rewrite orb_false_iff, IH, Forall_cons. destruct v; intuition done. }
  destruct (existsb _ _) eqn:E.
  - split; [naive_solver|]. intros (ms'&[= ->]&_&HF&_). apply Hex in HF. done.
  - split.
    + intros [[= H] Hne]. exists ms. split; [done|]. split; [done|]. split; [by apply Hex|].
      destruct (last _); cbn in H; [by subst|]. by destruct Hne.
    + intros (ms'&[= <-]&Hne&_&->). done.
Qed.
End Issuer.

(** Discovery of ServiceMonitors and of security context constraints makes one query
    each, for the group version that defines the kind; it answers true exactly when
    the group version is served and lists the kind, false when the group version is
    missing or does not list it, and reports an error only for any other failure.
    Discovery of the issuer succeeds exactly with the issuer the primary's OIDC
    document names, never with an empty one. *)
Theorem discovery_correct {T : ThirdParty} tr res issuer :
  (run DiscoverServiceMonitor tr res <-> discovered "monitoring.coreos.com/v1" "ServiceMonitor" tr res) /\
  (run DiscoverSCC tr res <-> discovered "security.openshift.io/v1" "SecurityContextConstraints" tr res) /\
  (run (DiscoverPrimaryIssuer None) tr (Ok issuer) <->
   exists body, tr = [Ev OIDCDiscovery (Ok body)] /\ namesIssuer body issuer).
Proof.
  split; [apply run_discoverKind|]. split; [apply run_discoverKind|].
  unfold DiscoverPrimaryIssuer. cbn. setoid_rewrite <- Unmarshal_issuer. split.
  - intros ([body|e]&tr'&->&H); [|by destruct H]. exists body.
    destruct (Unmarshal_field _ _ _) as [x|e]; [|by destruct H]. case_decide; [by destruct H|].
    destruct H as [-> [= ->]]. done.
  - intros (body&->&HU&Hne). exists (Ok body), []. split; [done|]. rewrite HU. by case_decide.
Qed.
