(* ===== verification/GoSlice.v ===== *)
(** * Go slices

    A slice is a view of a backing array, which other slices may share: [append]
    writes into the array when it has room for the new element, and else moves to a
    larger array.  The arrays live in a heap; positions never written hold the zero
    value, nil. *)
From S2P Require Import Prelude.

Section Slices.
Context {A : Type}.

(** The first [sl_len] elements of an array of capacity [sl_cap]. *)
Record slice := { sl_array : nat; sl_len : nat; sl_cap : nat }.

Abbreviation heap := (list (list (option A))).

Definition nilSlice : slice := {| sl_array := 0; sl_len := 0; sl_cap := 0 |}.

(** The sizes the allocator serves small objects from, up to one kilobyte. *)
Definition sizeClasses : list nat :=
  [8; 16; 24; 32; 48; 64; 80; 96; 112; 128; 144; 160; 176; 192; 208; 224; 240; 256; 288; 320; 352;
   384; 416; 448; 480; 512; 576; 640; 704; 768; 896; 1024].

Definition roundupsize (size : nat) : nat :=
  default size (List.find (fun c => bool_decide (size <= c)) sizeClasses).

(** The capacity after growing for one more element of eight bytes, as runtime.growslice
    computes it for capacities below 256. *)
Definition growslice (cap : nat) : nat :=
  let newcap := if decide (2 * cap < cap + 1) then cap + 1 else 2 * cap in
  roundupsize (8 * newcap) / 8.

Definition arrayOf (h : heap) (s : slice) : list (option A) := default [] (h !! sl_array s).

(** What a reader of the slice sees. *)
Definition elements (h : heap) (s : slice) : list (option A) := take (sl_len s) (arrayOf h s).

Definition append (h : heap) (s : slice) (x : A) : heap * slice :=
  if decide (sl_len s < sl_cap s)
  then (alter (fun a => <[sl_len s := Some x]> a) (sl_array s) h,
        {| sl_array := sl_array s; sl_len := S (sl_len s); sl_cap := sl_cap s |})
  else
    let newcap := growslice (sl_cap s) in
    (h ++ [elements h s ++ Some x :: replicate (newcap - S (sl_len s)) None],
     {| sl_array := length h; sl_len := S (sl_len s); sl_cap := newcap |}).

(** A slice within its array. *)
Definition slice_ok (h : heap) (s : slice) : Prop :=
  sl_len s <= sl_cap s /\ (sl_cap s = 0 \/ sl_array s < length h /\ length (arrayOf h s) = sl_cap s).

Lemma elements_length h s : slice_ok h s -> length (elements h s) = sl_len s.
Proof. unfold elements. intros [H1 [H2|[_ H2]]]; rewrite length_take; lia. Qed.

(** Appending adds the element at the end, whether or not the array had room. *)
Lemma elements_append h s x h' s' :
  slice_ok h s -> append h s x = (h', s') -> elements h' s' = elements h s ++ [Some x].
Proof.
  intros Hok. pose proof (elements_length _ _ Hok) as Hlen. unfold append. case_decide as Hd; intros [= <- <-].
  - destruct Hok as [_ [H|[H1 H2]]]; [lia|]. unfold elements, arrayOf in *. cbn.
    rewrite list_lookup_alter. destruct (decide _) as [_|]; [|done].
    destruct (h !! sl_array s) as [a|] eqn:E; [|by apply lookup_ge_None in E; lia]. cbn in *.
    rewrite (take_S_r _ _ (Some x)), take_insert_ge by (try apply list_lookup_insert_eq; lia). done.
  - unfold elements at 1, arrayOf. cbn. rewrite lookup_app_r, Nat.sub_diag by lia. cbn.
    rewrite take_app, Hlen. replace (S (sl_len s) - sl_len s) with 1 by lia. cbn.
    by rewrite take_ge by (rewrite Hlen; lia).
Qed.

(** Appending to a slice without spare capacity leaves every other slice alone. *)
Lemma elements_append_full h s x h' s' t :
  sl_len s = sl_cap s -> slice_ok h t -> append h s x = (h', s') -> elements h' t = elements h t.
Proof.
  intros Hfull [Ht1 Ht2] Ha. unfold append in Ha. rewrite decide_False in Ha by lia. injection Ha as <- _.
  unfold elements, arrayOf. destruct Ht2 as [Ht2|[Ht2 _]].
  - by replace (sl_len t) with 0 by lia.
  - by rewrite lookup_app_l by lia.
Qed.

Lemma roundupsize_ge size : size <= roundupsize size.
Proof.
  unfold roundupsize. destruct (List.find _ _) as [c|] eqn:E; [|done].
  apply find_some in E as [_ E]. by apply bool_decide_eq_true in E.
Qed.

Lemma growslice_gt cap : cap < growslice cap.
Proof.
  unfold growslice. set (newcap := if decide _ then _ else _).
  assert (cap < newcap) by (unfold newcap; case_decide; lia).
  enough (newcap <= roundupsize (8 * newcap) / 8) by lia.
  apply Nat.div_le_lower_bound; [lia|]. apply roundupsize_ge.
Qed.

(** Appending to a slice without spare capacity: the new slice is in its array, and
    the others stay in theirs. *)
Lemma slice_ok_append_full h s x h' s' :
  sl_len s = sl_cap s -> slice_ok h s -> append h s x = (h', s') ->
  slice_ok h' s' /\ forall t, slice_ok h t -> slice_ok h' t.
Proof.
  intros Hfull Hok Ha. pose proof (elements_length _ _ Hok) as Hlen. pose proof (growslice_gt (sl_cap s)) as Hg.
  unfold append in Ha. rewrite decide_False in Ha by lia. injection Ha as <- <-. split.
  - split; cbn [sl_len sl_cap]; [lia|]. right. unfold arrayOf. cbn [sl_array sl_cap]. rewrite length_app.
    split; [cbn; lia|]. rewrite lookup_app_r, Nat.sub_diag by lia. change (length (elements h s ++ Some x :: replicate (growslice (sl_cap s) - S (sl_len s)) None) = growslice (sl_cap s)).
    rewrite length_app. cbn [length]. rewrite length_replicate. lia.
  - intros t [H1 [H2|[H2 H3]]]; split; try done; [by left|]. right. rewrite length_app. split; [cbn; lia|].
    unfold arrayOf in *. by rewrite lookup_app_l by lia.
Qed.

Lemma slice_ok_nil h : slice_ok h nilSlice.
Proof. split; [done|by left]. Qed.
End Slices.
Abbreviation heap A := (list (list (option A))).

(** Two slices of one array: the second append overwrites the first one's element. *)
Example append_shares :
  let s := {| sl_array := 0; sl_len := 1; sl_cap := 2 |} in
  let h := [[Some 1; None]] in
  let '(h1, a) := append h s 2 in
  let '(h2, b) := append h1 s 3 in
  elements h2 a = [Some 1; Some 3].
Proof. reflexivity. Qed.
