(* ===== verification/GoHeap.v ===== *)
(** * Memory of a Go program

    Pointers, slices and maps refer to cells of a heap.  [view h a] is the value a
    reader sees who follows all references of [a] in [h]; a function [f] [Copies] when
    the value it returns shows what its argument shows, already in the cells that it
    allocated itself, and no cell that was there before has changed.  The cells are of
    a type [cell] that the client chooses, and locations come from an allocator of
    which only freshness is known. *)
From S2P Require Import Prelude.

Abbreviation loc := positive.

(** The kinds of data a cell can hold: a variable, an array or a map. *)
Class Stored (cell A : Type) := {
  to_cell : A -> cell;
  of_cell : cell -> option A;
  of_to_cell a : of_cell (to_cell a) = Some a }.

Class Allocator (cell : Type) := {
  newLoc : gmap loc cell -> loc;
  newLoc_fresh h : h !! newLoc h = None }.

(** ** Programs on the heap: [None] is a read of memory that is not there *)
Definition M (cell A : Type) : Type := gmap loc cell -> option (A * gmap loc cell).

#[export] Instance M_ret {cell} : MRet (M cell) := fun _ a h => Some (a, h).
#[export] Instance M_bind {cell} : MBind (M cell) :=
  fun _ _ f m h => match m h with Some (a, h') => f a h' | None => None end.

Definition load {cell A} `{Stored cell A} (l : loc) : M cell A :=
  fun h => match h !! l ≫= of_cell with Some a => Some (a, h) | None => None end.

(** [new(T)] filled with [a], [make([]T, n)] filled with the elements, and the like. *)
Definition new {cell A} `{Stored cell A} {allocator : Allocator cell} (a : A) : M cell loc :=
  fun h => Some (newLoc h, <[newLoc h := to_cell a]> h).

(** ** References *)
(** A pointer to an [A], a slice of an array of [A] and a map from strings to strings;
    [None] is nil. *)
Record ptr (A : Type) := { addr : option loc }.
Record gslice (A : Type) := { array : option loc; offset : nat; length_ : nat; capacity_ : nat }.
Record mapref := { table : option loc }.
Arguments addr {A}.
Arguments array {A}.
Arguments offset {A}.
Arguments length_ {A}.
Arguments capacity_ {A}.

Definition nilPtr {A} : ptr A := {| addr := None |}.
Definition nilOf {A} : gslice A := {| array := None; offset := 0; length_ := 0; capacity_ := 0 |}.

(** ** What references show *)
Class GoData (cell A V : Type) := {
  view : gmap loc cell -> A -> option V;
  view_mono h h' a v : h ⊆ h' -> view h a = Some v -> view h' a = Some v }.
Arguments view : simpl never.

(** Data without references shows itself. *)
Class Flat (A : Type) : Prop := flat : True.
Definition view_flat {cell A} (_ : gmap loc cell) (a : A) : option A := Some a.
#[export] Instance data_flat {cell A} `{Flat A} : GoData cell A A :=
  {| view := view_flat; view_mono _ _ _ _ _ Hv := Hv |}.
#[export] Instance Flat_Z : Flat Z := I.
#[export] Instance Flat_bool : Flat bool := I.
#[export] Instance Flat_string : Flat string := I.

Section Views.
Context {cell A V : Type} `{!GoData cell A V}.
Implicit Types h : gmap loc cell.

Definition view_ptr `{!Stored cell A} h (p : ptr A) : option (option V) :=
  match addr p with
  | None => Some None
  | Some l => a ← h !! l ≫= of_cell; v ← view h a; Some (Some v)
  end.

(** The array has all elements of the slice. *)
Definition view_slice `{!Stored cell (list A)} h (s : gslice A) : option (list V) :=
  match array s with
  | None => Some []
  | Some l =>
      xs ← h !! l ≫= of_cell;
      if decide (offset s + length_ s <= length xs)
      then mapM (view h) (take (length_ s) (drop (offset s) xs))
      else None
  end.

Lemma lookup_cell_mono {B} `{!Stored cell B} h h' l (b : B) :
  h ⊆ h' -> h !! l ≫= of_cell = Some b -> h' !! l ≫= of_cell = Some b.
Proof.
  intros Hs. destruct (h !! l) as [c|] eqn:E; [|done]. by rewrite (lookup_weaken _ _ _ _ E Hs).
Qed.

Lemma view_ptr_mono `{!Stored cell A} h h' p v : h ⊆ h' -> view_ptr h p = Some v -> view_ptr h' p = Some v.
Proof.
  unfold view_ptr. intros Hs Hv. destruct (addr p) as [l|]; [|done].
  apply bind_Some in Hv as (a&Ha&(w&Hw&[= <-])%bind_Some).
  rewrite (lookup_cell_mono _ _ _ _ Hs Ha). cbn. by rewrite (view_mono _ _ _ _ Hs Hw).
Qed.

Lemma mapM_view_mono h h' xs vs : h ⊆ h' -> mapM (view h) xs = Some vs -> mapM (view h') xs = Some vs.
Proof.
  intros Hs. rewrite !mapM_Some. intros H. eapply Forall2_impl; [exact H|]. intros a v. by apply view_mono.
Qed.

Lemma view_slice_mono `{!Stored cell (list A)} h h' s v :
  h ⊆ h' -> view_slice h s = Some v -> view_slice h' s = Some v.
Proof.
  unfold view_slice. intros Hs Hv. destruct (array s) as [l|]; [|done].
  apply bind_Some in Hv as (xs&Hx&Hv). rewrite (lookup_cell_mono _ _ _ _ Hs Hx). cbn.
  case_decide; [|done]. by eapply mapM_view_mono.
Qed.

#[export] Instance data_ptr `{!Stored cell A} : GoData cell (ptr A) (option V) :=
  {| view := view_ptr; view_mono := view_ptr_mono |}.
#[export] Instance data_slice `{!Stored cell (list A)} : GoData cell (gslice A) (list V) :=
  {| view := view_slice; view_mono := view_slice_mono |}.
End Views.

Definition view_map {cell} `{Stored cell (gmap string string)} (h : gmap loc cell) (m : mapref) : option gomap :=
  match table m with None => Some None | Some l => Some <$> (h !! l ≫= of_cell) end.

Lemma view_map_mono {cell} `{Stored cell (gmap string string)} (h h' : gmap loc cell) m v :
  h ⊆ h' -> view_map h m = Some v -> view_map h' m = Some v.
Proof.
  unfold view_map. intros Hs Hv. destruct (table m) as [l|]; [|done].
  apply fmap_Some in Hv as (x&Hx&->). by rewrite (lookup_cell_mono _ _ _ _ Hs Hx).
Qed.

#[export] Instance data_map {cell} `{Stored cell (gmap string string)} : GoData cell mapref gomap :=
  {| view := view_map; view_mono := view_map_mono |}.

(** ** Copying *)
Section Copying.
Context {cell : Type}.
Implicit Types h : gmap loc cell.

Class Copies {A V} `{!GoData cell A V} (f : A -> M cell A) : Prop :=
  copies h a v : view h a = Some v ->
    exists a' h', f a h = Some (a', h') /\ h ⊆ h' /\ view (h' ∖ h) a' = Some v.

(** The program returns, with a result and a heap as [Q] says. *)
Definition yields {A} (m : M cell A) h (Q : A -> gmap loc cell -> Prop) : Prop :=
  exists a h', m h = Some (a, h') /\ Q a h'.

Lemma copies_yields {A V} `{!GoData cell A V} (f : A -> M cell A) :
  (forall h a v, view h a = Some v -> yields (f a) h (fun a' h' => h ⊆ h' /\ view (h' ∖ h) a' = Some v)) -> Copies f.
Proof. intros H h a v Hv. exact (H h a v Hv). Qed.

Lemma yields_ret {A} (a : A) h Q : Q a h -> yields (mret a) h Q.
Proof. intros H. by exists a, h. Qed.

Lemma yields_bind {A B} (m : M cell A) (k : A -> M cell B) h Q :
  yields m h (fun a h' => yields (k a) h' Q) -> yields (m ≫= k) h Q.
Proof.
  intros (a&h1&Hm&b&h2&Hk&HQ). exists b, h2. split; [|done]. unfold mbind, M_bind. by rewrite Hm.
Qed.

Lemma diff_mono h0 h h' : h ⊆ h' -> h ∖ h0 ⊆ h' ∖ h0.
Proof.
  intros Hs. apply map_subseteq_spec. intros l c [Hl Hn]%lookup_difference_Some.
  apply lookup_difference_Some. split; [by eapply lookup_weaken|done].
Qed.

Lemma diff_anti h0 h1 h : h0 ⊆ h1 -> h ∖ h1 ⊆ h ∖ h0.
Proof.
  intros Hs. apply map_subseteq_spec. intros l c [Hl Hn]%lookup_difference_Some.
  apply lookup_difference_Some. split; [done|by eapply lookup_weaken_None].
Qed.

(** Copying one part of a structure, [h0] being the heap the copy started in. *)
Lemma copy_bind {A V B} `{!GoData cell A V} (f : A -> M cell A) `{!Copies f} a v (k : A -> M cell B) h0 h Q :
  view h0 a = Some v -> h0 ⊆ h ->
  (forall a' h', h ⊆ h' -> view (h' ∖ h0) a' = Some v -> yields (k a') h' Q) ->
  yields (f a ≫= k) h Q.
Proof.
  intros Hv Hs Hk. destruct (copies h a v) as (a'&h'&Hf&Hs'&Hv'); [by eapply view_mono|].
  apply yields_bind. exists a', h'. split; [done|]. apply Hk; [done|].
  eapply view_mono; [|exact Hv']. by apply diff_anti.
Qed.

#[export] Instance copies_flat {A} `{!Flat A} : Copies (A := A) mret.
Proof. intros h a v Hv. by exists a, h. Qed.

Context {allocator : Allocator cell}.

Lemma yields_new {A} `{!Stored cell A} (a : A) h Q :
  (forall l, h !! l = None -> Q l (<[l := to_cell a]> h)) -> yields (new a) h Q.
Proof. intros H. eexists _, _. split; [done|]. apply H, newLoc_fresh. Qed.

Lemma yields_load {A} `{!Stored cell A} l (a : A) h Q :
  h !! l ≫= of_cell = Some a -> Q a h -> yields (load l) h Q.
Proof. intros Hl HQ. exists a, h. unfold load. by rewrite Hl. Qed.

(** The cell just allocated, in the part of the heap that is new. *)
Lemma lookup_fresh {A} `{!Stored cell A} h0 h l (a : A) :
  h0 ⊆ h -> h !! l = None -> (<[l := to_cell a]> h ∖ h0) !! l ≫= of_cell = Some a.
Proof.
  intros Hs Hl. assert ((<[l := to_cell a]> h ∖ h0) !! l = Some (to_cell a)) as ->.
  { apply lookup_difference_Some. split; [by simplify_map_eq|by eapply lookup_weaken_None]. }
  apply of_to_cell.
Qed.

(** A pointer that is not nil becomes one to a new variable, which DeepCopyInto or an
    assignment fills: the statements on pointer fields, and DeepCopy itself; the copy of a variable by assignment is the case of [mret]. *)
Definition copyPtr {A} `{!Stored cell A} (f : A -> M cell A) (p : ptr A) : M cell (ptr A) :=
  match addr p with
  | None => mret nilPtr
  | Some l => a ← load l; a' ← f a; l' ← new a'; mret {| addr := Some l' |}
  end.

(** A method called on a pointer that is not nil. *)
Definition unlessNil {A} (f : ptr A -> M cell (ptr A)) (p : ptr A) : M cell (ptr A) :=
  match addr p with None => mret p | Some _ => f p end.

(** A slice that is not nil becomes one of a new array of its length, filled element
    by element; the built-in [copy] is the case of [mret]. *)
Definition copySlice {A} `{!Stored cell (list A)} (f : A -> M cell A) (s : gslice A) : M cell (gslice A) :=
  match array s with
  | None => mret nilOf
  | Some l =>
      xs ← load l;
      xs' ← mapM f (take (length_ s) (drop (offset s) xs));
      l' ← new xs';
      mret {| array := Some l'; offset := 0; length_ := length_ s; capacity_ := length_ s |}
  end.

(** The entries are assigned to a new map one by one. *)
Definition copyMap `{!Stored cell (gmap string string)} (m : mapref) : M cell mapref :=
  match table m with
  | None => mret {| table := None |}
  | Some l =>
      entries ← load l;
      l' ← new (foldl (fun out '(key, val) => <[key := val]> out) ∅ (map_to_list entries));
      mret {| table := Some l' |}
  end.

#[export] Instance copies_ptr {A V} `{!GoData cell A V, !Stored cell A} (f : A -> M cell A) `{!Copies f} :
  Copies (copyPtr f).
Proof.
  intros h p v Hv. change (view_ptr h p = Some v) in Hv. unfold view_ptr in Hv. unfold copyPtr.
  change (yields (match addr p with None => mret nilPtr | Some l =>
    a ← load l; a' ← f a; l' ← new a'; mret {| addr := Some l' |} end) h
    (fun p' h' => h ⊆ h' /\ view_ptr (h' ∖ h) p' = Some v)).
  destruct (addr p) as [l|]; [|injection Hv as <-; by apply yields_ret].
  apply bind_Some in Hv as (a&Ha&(w&Hw&[= <-])%bind_Some).
  apply yields_bind, (yields_load _ a _ _ Ha). eapply (copy_bind f); [exact Hw|done|]. intros a' h' Hs Hw'.
  apply yields_bind, yields_new. intros l' Hl'. apply yields_ret. split.
  - etransitivity; [exact Hs|by apply insert_subseteq].
  - unfold view_ptr. cbn. rewrite (lookup_fresh _ _ _ _ Hs Hl'). cbn.
    rewrite (view_mono (h' ∖ h) (<[l' := to_cell a']> h' ∖ h) _ w); [done| |exact Hw'].
    by apply diff_mono, insert_subseteq.
Qed.

#[export] Instance copies_unlessNil {A V} `{!GoData cell A V, !Stored cell A} (f : ptr A -> M cell (ptr A)) `{!Copies f} :
  Copies (unlessNil f).
Proof.
  intros h p v Hv. unfold unlessNil. destruct (addr p) as [l|] eqn:E; [by apply copies|].
  exists p, h. split; [done|]. split; [done|]. unfold view, data_ptr, view_ptr in *. by rewrite E in *.
Qed.

Lemma yields_mapM {A V} `{!GoData cell A V} (f : A -> M cell A) `{!Copies f} h0 h xs vs :
  mapM (view h0) xs = Some vs -> h0 ⊆ h ->
  yields (mapM f xs) h (fun xs' h' => h ⊆ h' /\ length xs' = length xs /\ mapM (view (h' ∖ h0)) xs' = Some vs).
Proof.
  revert h vs. induction xs as [|x xs IH]; intros h vs Hv Hs; cbn in *.
  - injection Hv as <-. by apply yields_ret.
  - apply bind_Some in Hv as (v&Hx&(ws&Hws&[= <-])%bind_Some).
    eapply (copy_bind f); [exact Hx|exact Hs|]. intros x' h1 Hs1 Hx'.
    apply yields_bind. destruct (IH h1 ws Hws ltac:(by etransitivity)) as (xs'&h2&E&Hs2&Hl&Hxs').
    exists xs', h2. split; [exact E|]. apply yields_ret. split; [by etransitivity|]. split; [cbn; lia|]. cbn.
    rewrite (view_mono (h1 ∖ h0) (h2 ∖ h0) _ v (diff_mono _ _ _ Hs2) Hx'). cbn. by rewrite Hxs'.
Qed.

#[export] Instance copies_slice {A V} `{!GoData cell A V, !Stored cell (list A)} (f : A -> M cell A) `{!Copies f} :
  Copies (copySlice f).
Proof.
  intros h s v Hv. change (view_slice h s = Some v) in Hv. unfold view_slice in Hv. unfold copySlice.
  change (yields (match array s with None => mret nilOf | Some l =>
    xs ← load l; xs' ← mapM f (take (length_ s) (drop (offset s) xs)); l' ← new xs';
    mret {| array := Some l'; offset := 0; length_ := length_ s; capacity_ := length_ s |} end) h
    (fun s' h' => h ⊆ h' /\ view_slice (h' ∖ h) s' = Some v)).
  destruct (array s) as [l|]; [|injection Hv as <-; by apply yields_ret].
  apply bind_Some in Hv as (xs&Hx&Hv). case_decide as Hlen; [|done].
  apply yields_bind, (yields_load _ xs _ _ Hx), yields_bind.
  destruct (yields_mapM f h h _ _ Hv ltac:(done)) as (xs'&h'&E&Hs&Hl&Hv'). exists xs', h'. split; [exact E|].
  rewrite length_take, length_drop in Hl.
  apply yields_bind, yields_new. intros l' Hl'. apply yields_ret. split.
  - etransitivity; [exact Hs|by apply insert_subseteq].
  - unfold view_slice. cbn. rewrite (lookup_fresh _ _ _ _ Hs Hl'). cbn.
    rewrite decide_True, drop_0, take_ge by lia.
    eapply mapM_view_mono; [|exact Hv']. by apply diff_mono, insert_subseteq.
Qed.

Lemma range_copy (m : gmap string string) :
  foldl (fun out '(key, val) => <[key := val]> out) ∅ (map_to_list m) = m.
Proof.
  assert (forall (l : list (string * string)) (acc : gmap string string), NoDup l.*1 -> (forall k, k ∈ l.*1 -> acc !! k = None) ->
    foldl (fun out '(key, val) => <[key := val]> out) acc l = (list_to_map l : gmap string string) ∪ acc) as H.
  { induction l as [|[k x] l IH]; intros acc Hn Hd; cbn in *; [by rewrite map_empty_union|].
    apply NoDup_cons in Hn as [Hk Hn]. rewrite IH; [|done|].
    - rewrite <- insert_union_r by (by apply not_elem_of_list_to_map). by rewrite insert_union_l.
    - intros j Hj. rewrite lookup_insert_ne by (intros ->; done). apply Hd. by right. }
  rewrite H; [by rewrite map_union_empty, list_to_map_to_list|apply NoDup_fst_map_to_list|].
  intros k _. apply lookup_empty.
Qed.

#[export] Instance copies_map `{!Stored cell (gmap string string)} : Copies copyMap.
Proof.
  intros h m v Hv. change (view_map h m = Some v) in Hv. unfold view_map in Hv. unfold copyMap.
  change (yields (match table m with None => mret {| table := None |} | Some l =>
    entries ← load l; l' ← new (foldl (fun out '(key, val) => <[key := val]> out) ∅ (map_to_list entries));
    mret {| table := Some l' |} end) h (fun m' h' => h ⊆ h' /\ view_map (h' ∖ h) m' = Some v)).
  destruct (table m) as [l|]; [|injection Hv as <-; by apply yields_ret].
  apply fmap_Some in Hv as (entries&He&->).
  apply yields_bind, (yields_load _ entries _ _ He), yields_bind, yields_new. intros l' Hl'.
  apply yields_ret. split; [by apply insert_subseteq|]. unfold view_map. cbn [table].
  rewrite lookup_fresh by done. by rewrite range_copy.
Qed.
End Copying.

(** ** Structures of several parts *)
Ltac view_tac :=
  repeat match goal with
  | H : (_ ≫= _) = Some _ |- _ => apply bind_Some in H as (?&?&?)
  | H : Some _ = Some _ |- _ => injection H as <-
  end.

(** More cells show the same: the goal is the [view_mono] of a structure whose view is
    the definition [f]. *)
Tactic Notation "mono_tac" reference(f) :=
  let Hs := fresh in let Hv := fresh in
  intros Hs Hv; unfold f in Hv |- *; view_tac;
  repeat match goal with
  | H : view ?h ?y = Some _, Hs : ?h ⊆ ?h' |- _ => apply (view_mono h h' _ _ Hs) in H; rewrite H; cbn [mbind option_bind]
  end; reflexivity.

(** The next part is copied; what was copied before stays in view. *)
Ltac copy_part :=
  match goal with
  | H : @view ?cell ?A ?V ?D ?h0 ?a = Some ?v, Hs : ?h0 ⊆ ?h |- yields (?f ?a ≫= ?k) ?h ?Q =>
      eapply (@copy_bind cell A V _ D f _ a v k h0 h Q H Hs);
      let a' := fresh "a" in let h' := fresh "h" in let Hs' := fresh "Hs" in let Ha := fresh "Ha" in
      intros a' h' Hs' Ha;
      repeat match goal with
      | H : view (h ∖ h0) _ = Some _ |- _ => apply (view_mono _ _ _ _ (diff_mono h0 _ _ Hs')) in H
      end;
      pose proof (transitivity Hs Hs'); clear Hs Hs'
  end.

(** The parts of a structure are copied one after the other: the goal is the [Copies] of
    a function [g] for the instance [d], whose view is the definition [f]. *)
Tactic Notation "copies_tac" reference(g) reference(d) reference(f) :=
  let h := fresh "h" in let x := fresh "x" in let v := fresh "v" in let Hv := fresh "Hv" in
  apply copies_yields; intros h x v Hv; unfold view, d in Hv |- *; unfold f in Hv; view_tac;
  unfold g; assert (h ⊆ h) by reflexivity; repeat copy_part; apply yields_ret; split; [assumption|];
  unfold f; cbn;
  repeat match goal with H : view (_ ∖ h) ?y = Some _ |- _ => rewrite H; clear H; cbn [mbind option_bind] end;
  reflexivity.

(** ** An allocator *)
(** The location after the last one in use. *)
Definition afterLast {cell} (h : gmap loc cell) : loc := Pos.succ (map_fold (fun l _ m => Pos.max l m) 1%positive h).

Lemma afterLast_fresh {cell} (h : gmap loc cell) : h !! afterLast h = None.
Proof.
  assert (forall l, is_Some (h !! l) -> (l < afterLast h)%positive) as H.
  { unfold afterLast. apply (map_fold_weak_ind (fun r m => forall l, is_Some (m !! l) -> (l < Pos.succ r)%positive)).
    - intros l [c Hc]. by rewrite lookup_empty in Hc.
    - intros i x m r _ IH l Hl. destruct (decide (i = l)) as [->|Hne]; [lia|].
      rewrite lookup_insert_ne in Hl by done. apply IH in Hl. lia. }
  destruct (h !! afterLast h) eqn:E; [|done]. specialize (H _ ltac:(by rewrite E)). lia.
Qed.

Definition bumpAllocator {cell} : Allocator cell := {| newLoc := afterLast; newLoc_fresh := afterLast_fresh |}.
