(* ===== verification/DeepCopyTypes.v ===== *)
(** * The API types in memory

    The structures of src/operator/api/v1alpha1 as a Go program holds them: fields that
    are pointers, slices and maps refer to cells of the heap of GoHeap.  The view of
    such a structure is the value that APITypes has for it, an object with its
    TypeMeta.  The types of apimachinery and k8s.io/api that occur in them are not of
    this repository: their layout, what they show and their deep copies are the
    classes [ForeignTypes] and [ForeignCopying], and that their deep copies copy, as
    documented, is [ForeignLaws]. *)
From S2P Require Import Prelude KubeTypes APITypes GoHeap.

(** The layout of the types of other modules, and the cells they refer to. *)
Class ForeignTypes := {
  mObjectMeta : Type; mListMeta : Type; mCondition : Type; mLabelSelector : Type; mTime : Type;
  mResourceRequirements : Type; mToleration : Type; mTopologySpreadConstraint : Type; mQuantity : Type;
  foreignCell : Type;
  ListMeta : Type }.

(** Structures without references are laid out as their values. *)
Record LocalSecretReference := { lsr_Name : string }.
Record SyncedWebhookCounts := { wc_Validating : Z; wc_Mutating : Z }.

#[export] Instance Flat_SecretKeyReference : Flat SecretKeyReference := I.
#[export] Instance Flat_PostgreSQLMonitoringSpec : Flat PostgreSQLMonitoringSpec := I.
#[export] Instance Flat_MonitoringSpec : Flat MonitoringSpec := I.
#[export] Instance Flat_ConnectionSecretReference : Flat ConnectionSecretReference := I.
#[export] Instance Flat_ServiceReference : Flat ServiceReference := I.
#[export] Instance Flat_LocalSecretReference : Flat LocalSecretReference := I.
#[export] Instance Flat_SyncedWebhookCounts : Flat SyncedWebhookCounts := I.
#[export] Instance Flat_TypeMeta : Flat TypeMeta := I.
#[export] Instance Flat_StorageType : Flat StorageType := I.

Section Layout.
Context {F : ForeignTypes}.

Record mAPIGroupSpec := {
  ag_Group : string; ag_Versions : gslice string }.

Record mPersistenceSpec := {
  ps_StorageClassName : ptr string; ps_Size : mQuantity }.

Record mInClusterStorage := {
  ic_Resources : mResourceRequirements; ic_Persistence : ptr mPersistenceSpec }.

Record mStorageMonitoringSpec := {
  sm_Enabled : bool; sm_CollectionInterval : string; sm_CACertSecret : ptr SecretKeyReference;
  sm_PostgreSQL : ptr PostgreSQLMonitoringSpec }.

Record mStorageSpec := {
  ss_Type : StorageType; ss_ConnectionSecretRef : ptr SecretKeyReference; ss_InCluster : ptr mInClusterStorage;
  ss_Monitoring : ptr mStorageMonitoringSpec }.

Record mSecondarySpec := {
  se_Replicas : Z; se_Image : string; se_Resources : mResourceRequirements; se_NodeSelector : mapref;
  se_Tolerations : gslice mToleration; se_TopologySpreadConstraints : gslice mTopologySpreadConstraint }.

Record mConnectionPoolConfig := {
  cp_MaxIdle : ptr Z; cp_MaxOpen : ptr Z; cp_MaxLifetime : ptr Z }.

Record mCompactionConfig := {
  cc_Interval : ptr Z; cc_MinRetain : ptr Z; cc_BatchSize : ptr Z; cc_Timeout : ptr Z }.

Record mKineSpec := {
  ki_Replicas : Z; ki_Image : string; ki_Resources : mResourceRequirements; ki_NodeSelector : mapref;
  ki_Tolerations : gslice mToleration; ki_TopologySpreadConstraints : gslice mTopologySpreadConstraint;
  ki_ConnectionPool : ptr mConnectionPoolConfig; ki_Compaction : ptr mCompactionConfig;
  ki_PollBatchSize : ptr Z; ki_WatchProgressNotifyInterval : ptr Z }.

Record mNamespaceSyncConfig := {
  nc_LabelSelector : mLabelSelector }.

Record mAPIShardSpec := {
  sp_TargetNamespace : string; sp_APIGroups : gslice mAPIGroupSpec; sp_Storage : mStorageSpec;
  sp_NamespaceSync : mNamespaceSyncConfig; sp_Secondary : mSecondarySpec; sp_Kine : mKineSpec;
  sp_Monitoring : ptr MonitoringSpec; sp_ColocateComponents : ptr bool }.

Record mAPIShardStatus := {
  ast_Phase : string; ast_Message : string; ast_ConnectionSecret : ptr ConnectionSecretReference;
  ast_SecondaryEndpoint : string; ast_RegisteredAPIServices : gslice string;
  ast_Conditions : gslice mCondition; ast_ObservedGeneration : Z }.

Record mAPIShard := {
  sh_TypeMeta : TypeMeta; sh_ObjectMeta : mObjectMeta; sh_Spec : mAPIShardSpec; sh_Status : mAPIShardStatus }.

Record mAPIShardList := {
  shl_TypeMeta : TypeMeta; shl_ListMeta : mListMeta; shl_Items : gslice mAPIShard }.

Record mSecondaryConnectionSpec := {
  sc_ServiceRef : ServiceReference; sc_AuthSecretRef : LocalSecretReference;
  sc_CASecretRef : LocalSecretReference }.

Record mNamespaceSyncSpec := {
  nsp_SecondaryConnection : mSecondaryConnectionSpec; nsp_LabelSelector : mLabelSelector;
  nsp_ExcludeNamespaces : gslice string }.

Record mNamespaceSyncStatus := {
  nst_Conditions : gslice mCondition; nst_SyncedNamespaces : Z; nst_LastSyncTime : ptr mTime;
  nst_ObservedGeneration : Z }.

Record mNamespaceSync := {
  ns_TypeMeta : TypeMeta; ns_ObjectMeta : mObjectMeta; ns_Spec : mNamespaceSyncSpec;
  ns_Status : mNamespaceSyncStatus }.

Record mNamespaceSyncList := {
  nsl_TypeMeta : TypeMeta; nsl_ListMeta : mListMeta; nsl_Items : gslice mNamespaceSync }.

Record mWebhookSyncSpec := {
  wsp_SecondaryConnection : mSecondaryConnectionSpec; wsp_APIGroups : gslice string }.

Record mWebhookSyncStatus := {
  wst_Conditions : gslice mCondition; wst_SyncedWebhooks : SyncedWebhookCounts; wst_LastSyncTime : ptr mTime;
  wst_ObservedGeneration : Z }.

Record mWebhookSync := {
  wh_TypeMeta : TypeMeta; wh_ObjectMeta : mObjectMeta; wh_Spec : mWebhookSyncSpec;
  wh_Status : mWebhookSyncStatus }.

Record mWebhookSyncList := {
  whl_TypeMeta : TypeMeta; whl_ListMeta : mListMeta; whl_Items : gslice mWebhookSync }.

(** Variables, maps and arrays of every type that is pointed to. *)
Inductive cell :=
  | CString (x : string) | CInt (x : Z) | CBool (x : bool) | CTime (x : mTime) | CMap (x : gmap string string)
  | CStrings (x : list string) | CConditions (x : list mCondition) | CTolerations (x : list mToleration)
  | CTopologySpreadConstraints (x : list mTopologySpreadConstraint) | CAPIGroups (x : list mAPIGroupSpec)
  | CAPIShards (x : list mAPIShard) | CNamespaceSyncs (x : list mNamespaceSync)
  | CWebhookSyncs (x : list mWebhookSync) | CSecretKeyReference (x : SecretKeyReference)
  | CPostgreSQLMonitoringSpec (x : PostgreSQLMonitoringSpec) | CMonitoringSpec (x : MonitoringSpec)
  | CConnectionSecretReference (x : ConnectionSecretReference) | CServiceReference (x : ServiceReference)
  | CLocalSecretReference (x : LocalSecretReference) | CSyncedWebhookCounts (x : SyncedWebhookCounts)
  | CAPIGroupSpec (x : mAPIGroupSpec) | CPersistenceSpec (x : mPersistenceSpec)
  | CInClusterStorage (x : mInClusterStorage) | CStorageMonitoringSpec (x : mStorageMonitoringSpec)
  | CStorageSpec (x : mStorageSpec) | CSecondarySpec (x : mSecondarySpec)
  | CConnectionPoolConfig (x : mConnectionPoolConfig) | CCompactionConfig (x : mCompactionConfig)
  | CKineSpec (x : mKineSpec) | CNamespaceSyncConfig (x : mNamespaceSyncConfig)
  | CAPIShardSpec (x : mAPIShardSpec) | CAPIShardStatus (x : mAPIShardStatus) | CAPIShard (x : mAPIShard)
  | CAPIShardList (x : mAPIShardList) | CSecondaryConnectionSpec (x : mSecondaryConnectionSpec)
  | CNamespaceSyncSpec (x : mNamespaceSyncSpec) | CNamespaceSyncStatus (x : mNamespaceSyncStatus)
  | CNamespaceSync (x : mNamespaceSync) | CNamespaceSyncList (x : mNamespaceSyncList)
  | CWebhookSyncSpec (x : mWebhookSyncSpec) | CWebhookSyncStatus (x : mWebhookSyncStatus)
  | CWebhookSync (x : mWebhookSync) | CWebhookSyncList (x : mWebhookSyncList) | CForeign (x : foreignCell).

#[export] Instance stored_String : Stored cell string :=
  {| to_cell := CString; of_cell c := match c with CString x => Some x | _ => None end; of_to_cell _ := eq_refl |}.
#[export] Instance stored_Int : Stored cell Z :=
  {| to_cell := CInt; of_cell c := match c with CInt x => Some x | _ => None end; of_to_cell _ := eq_refl |}.
#[export] Instance stored_Bool : Stored cell bool :=
  {| to_cell := CBool; of_cell c := match c with CBool x => Some x | _ => None end; of_to_cell _ := eq_refl |}.
#[export] Instance stored_Time : Stored cell mTime :=
  {| to_cell := CTime; of_cell c := match c with CTime x => Some x | _ => None end; of_to_cell _ := eq_refl |}.
#[export] Instance stored_Map : Stored cell (gmap string string) :=
  {| to_cell := CMap; of_cell c := match c with CMap x => Some x | _ => None end; of_to_cell _ := eq_refl |}.
#[export] Instance stored_Strings : Stored cell (list string) :=
  {| to_cell := CStrings; of_cell c := match c with CStrings x => Some x | _ => None end; of_to_cell _ := eq_refl |}.
#[export] Instance stored_Conditions : Stored cell (list mCondition) :=
  {| to_cell := CConditions; of_cell c := match c with CConditions x => Some x | _ => None end; of_to_cell _ := eq_refl |}.
#[export] Instance stored_Tolerations : Stored cell (list mToleration) :=
  {| to_cell := CTolerations; of_cell c := match c with CTolerations x => Some x | _ => None end; of_to_cell _ := eq_refl |}.
#[export] Instance stored_TopologySpreadConstraints : Stored cell (list mTopologySpreadConstraint) :=
  {| to_cell := CTopologySpreadConstraints; of_cell c := match c with CTopologySpreadConstraints x => Some x | _ => None end; of_to_cell _ := eq_refl |}.
#[export] Instance stored_APIGroups : Stored cell (list mAPIGroupSpec) :=
  {| to_cell := CAPIGroups; of_cell c := match c with CAPIGroups x => Some x | _ => None end; of_to_cell _ := eq_refl |}.
#[export] Instance stored_APIShards : Stored cell (list mAPIShard) :=
  {| to_cell := CAPIShards; of_cell c := match c with CAPIShards x => Some x | _ => None end; of_to_cell _ := eq_refl |}.
#[export] Instance stored_NamespaceSyncs : Stored cell (list mNamespaceSync) :=
  {| to_cell := CNamespaceSyncs; of_cell c := match c with CNamespaceSyncs x => Some x | _ => None end; of_to_cell _ := eq_refl |}.
#[export] Instance stored_WebhookSyncs : Stored cell (list mWebhookSync) :=
  {| to_cell := CWebhookSyncs; of_cell c := match c with CWebhookSyncs x => Some x | _ => None end; of_to_cell _ := eq_refl |}.
#[export] Instance stored_SecretKeyReference : Stored cell SecretKeyReference :=
  {| to_cell := CSecretKeyReference; of_cell c := match c with CSecretKeyReference x => Some x | _ => None end; of_to_cell _ := eq_refl |}.
#[export] Instance stored_PostgreSQLMonitoringSpec : Stored cell PostgreSQLMonitoringSpec :=
  {| to_cell := CPostgreSQLMonitoringSpec; of_cell c := match c with CPostgreSQLMonitoringSpec x => Some x | _ => None end; of_to_cell _ := eq_refl |}.
#[export] Instance stored_MonitoringSpec : Stored cell MonitoringSpec :=
  {| to_cell := CMonitoringSpec; of_cell c := match c with CMonitoringSpec x => Some x | _ => None end; of_to_cell _ := eq_refl |}.
#[export] Instance stored_ConnectionSecretReference : Stored cell ConnectionSecretReference :=
  {| to_cell := CConnectionSecretReference; of_cell c := match c with CConnectionSecretReference x => Some x | _ => None end; of_to_cell _ := eq_refl |}.
#[export] Instance stored_ServiceReference : Stored cell ServiceReference :=
  {| to_cell := CServiceReference; of_cell c := match c with CServiceReference x => Some x | _ => None end; of_to_cell _ := eq_refl |}.
#[export] Instance stored_LocalSecretReference : Stored cell LocalSecretReference :=
  {| to_cell := CLocalSecretReference; of_cell c := match c with CLocalSecretReference x => Some x | _ => None end; of_to_cell _ := eq_refl |}.
#[export] Instance stored_SyncedWebhookCounts : Stored cell SyncedWebhookCounts :=
  {| to_cell := CSyncedWebhookCounts; of_cell c := match c with CSyncedWebhookCounts x => Some x | _ => None end; of_to_cell _ := eq_refl |}.
#[export] Instance stored_APIGroupSpec : Stored cell mAPIGroupSpec :=
  {| to_cell := CAPIGroupSpec; of_cell c := match c with CAPIGroupSpec x => Some x | _ => None end; of_to_cell _ := eq_refl |}.
#[export] Instance stored_PersistenceSpec : Stored cell mPersistenceSpec :=
  {| to_cell := CPersistenceSpec; of_cell c := match c with CPersistenceSpec x => Some x | _ => None end; of_to_cell _ := eq_refl |}.
#[export] Instance stored_InClusterStorage : Stored cell mInClusterStorage :=
  {| to_cell := CInClusterStorage; of_cell c := match c with CInClusterStorage x => Some x | _ => None end; of_to_cell _ := eq_refl |}.
#[export] Instance stored_StorageMonitoringSpec : Stored cell mStorageMonitoringSpec :=
  {| to_cell := CStorageMonitoringSpec; of_cell c := match c with CStorageMonitoringSpec x => Some x | _ => None end; of_to_cell _ := eq_refl |}.
#[export] Instance stored_StorageSpec : Stored cell mStorageSpec :=
  {| to_cell := CStorageSpec; of_cell c := match c with CStorageSpec x => Some x | _ => None end; of_to_cell _ := eq_refl |}.
#[export] Instance stored_SecondarySpec : Stored cell mSecondarySpec :=
  {| to_cell := CSecondarySpec; of_cell c := match c with CSecondarySpec x => Some x | _ => None end; of_to_cell _ := eq_refl |}.
#[export] Instance stored_ConnectionPoolConfig : Stored cell mConnectionPoolConfig :=
  {| to_cell := CConnectionPoolConfig; of_cell c := match c with CConnectionPoolConfig x => Some x | _ => None end; of_to_cell _ := eq_refl |}.
#[export] Instance stored_CompactionConfig : Stored cell mCompactionConfig :=
  {| to_cell := CCompactionConfig; of_cell c := match c with CCompactionConfig x => Some x | _ => None end; of_to_cell _ := eq_refl |}.
#[export] Instance stored_KineSpec : Stored cell mKineSpec :=
  {| to_cell := CKineSpec; of_cell c := match c with CKineSpec x => Some x | _ => None end; of_to_cell _ := eq_refl |}.
#[export] Instance stored_NamespaceSyncConfig : Stored cell mNamespaceSyncConfig :=
  {| to_cell := CNamespaceSyncConfig; of_cell c := match c with CNamespaceSyncConfig x => Some x | _ => None end; of_to_cell _ := eq_refl |}.
#[export] Instance stored_APIShardSpec : Stored cell mAPIShardSpec :=
  {| to_cell := CAPIShardSpec; of_cell c := match c with CAPIShardSpec x => Some x | _ => None end; of_to_cell _ := eq_refl |}.
#[export] Instance stored_APIShardStatus : Stored cell mAPIShardStatus :=
  {| to_cell := CAPIShardStatus; of_cell c := match c with CAPIShardStatus x => Some x | _ => None end; of_to_cell _ := eq_refl |}.
#[export] Instance stored_APIShard : Stored cell mAPIShard :=
  {| to_cell := CAPIShard; of_cell c := match c with CAPIShard x => Some x | _ => None end; of_to_cell _ := eq_refl |}.
#[export] Instance stored_APIShardList : Stored cell mAPIShardList :=
  {| to_cell := CAPIShardList; of_cell c := match c with CAPIShardList x => Some x | _ => None end; of_to_cell _ := eq_refl |}.
#[export] Instance stored_SecondaryConnectionSpec : Stored cell mSecondaryConnectionSpec :=
  {| to_cell := CSecondaryConnectionSpec; of_cell c := match c with CSecondaryConnectionSpec x => Some x | _ => None end; of_to_cell _ := eq_refl |}.
#[export] Instance stored_NamespaceSyncSpec : Stored cell mNamespaceSyncSpec :=
  {| to_cell := CNamespaceSyncSpec; of_cell c := match c with CNamespaceSyncSpec x => Some x | _ => None end; of_to_cell _ := eq_refl |}.
#[export] Instance stored_NamespaceSyncStatus : Stored cell mNamespaceSyncStatus :=
  {| to_cell := CNamespaceSyncStatus; of_cell c := match c with CNamespaceSyncStatus x => Some x | _ => None end; of_to_cell _ := eq_refl |}.
#[export] Instance stored_NamespaceSync : Stored cell mNamespaceSync :=
  {| to_cell := CNamespaceSync; of_cell c := match c with CNamespaceSync x => Some x | _ => None end; of_to_cell _ := eq_refl |}.
#[export] Instance stored_NamespaceSyncList : Stored cell mNamespaceSyncList :=
  {| to_cell := CNamespaceSyncList; of_cell c := match c with CNamespaceSyncList x => Some x | _ => None end; of_to_cell _ := eq_refl |}.
#[export] Instance stored_WebhookSyncSpec : Stored cell mWebhookSyncSpec :=
  {| to_cell := CWebhookSyncSpec; of_cell c := match c with CWebhookSyncSpec x => Some x | _ => None end; of_to_cell _ := eq_refl |}.
#[export] Instance stored_WebhookSyncStatus : Stored cell mWebhookSyncStatus :=
  {| to_cell := CWebhookSyncStatus; of_cell c := match c with CWebhookSyncStatus x => Some x | _ => None end; of_to_cell _ := eq_refl |}.
#[export] Instance stored_WebhookSync : Stored cell mWebhookSync :=
  {| to_cell := CWebhookSync; of_cell c := match c with CWebhookSync x => Some x | _ => None end; of_to_cell _ := eq_refl |}.
#[export] Instance stored_WebhookSyncList : Stored cell mWebhookSyncList :=
  {| to_cell := CWebhookSyncList; of_cell c := match c with CWebhookSyncList x => Some x | _ => None end; of_to_cell _ := eq_refl |}.
#[export] Instance stored_Foreign : Stored cell foreignCell :=
  {| to_cell := CForeign; of_cell c := match c with CForeign x => Some x | _ => None end; of_to_cell _ := eq_refl |}.
End Layout.

(** What the types of other modules show, and their deep copies. *)
Class ForeignCopying (F : ForeignTypes) := {
  #[global] data_ObjectMeta :: GoData cell mObjectMeta ObjectMeta;
  #[global] data_ListMeta :: GoData cell mListMeta ListMeta;
  #[global] data_Condition :: GoData cell mCondition Condition;
  #[global] data_LabelSelector :: GoData cell mLabelSelector LabelSelector;
  #[global] data_Time :: GoData cell mTime Z;
  #[global] data_ResourceRequirements :: GoData cell mResourceRequirements ResourceRequirements;
  #[global] data_Toleration :: GoData cell mToleration Toleration;
  #[global] data_TopologySpreadConstraint :: GoData cell mTopologySpreadConstraint TopologySpreadConstraint;
  #[global] data_Quantity :: GoData cell mQuantity Quantity;
  ObjectMeta_DeepCopyInto : mObjectMeta -> M cell mObjectMeta;
  ListMeta_DeepCopyInto : mListMeta -> M cell mListMeta;
  Condition_DeepCopyInto : mCondition -> M cell mCondition;
  LabelSelector_DeepCopyInto : mLabelSelector -> M cell mLabelSelector;
  Time_DeepCopy : ptr mTime -> M cell (ptr mTime);
  ResourceRequirements_DeepCopyInto : mResourceRequirements -> M cell mResourceRequirements;
  Toleration_DeepCopyInto : mToleration -> M cell mToleration;
  TopologySpreadConstraint_DeepCopyInto : mTopologySpreadConstraint -> M cell mTopologySpreadConstraint;
  Quantity_DeepCopy : mQuantity -> M cell mQuantity }.

(** The documented behaviour of deep copies: the copy is equal to the original and
    shares no memory with it. *)
Class ForeignLaws (F : ForeignTypes) (D : ForeignCopying F) : Prop := {
  #[global] copies_ObjectMeta :: Copies ObjectMeta_DeepCopyInto;
  #[global] copies_ListMeta :: Copies ListMeta_DeepCopyInto;
  #[global] copies_Condition :: Copies Condition_DeepCopyInto;
  #[global] copies_LabelSelector :: Copies LabelSelector_DeepCopyInto;
  #[global] copies_Time :: Copies Time_DeepCopy;
  #[global] copies_ResourceRequirements :: Copies ResourceRequirements_DeepCopyInto;
  #[global] copies_Toleration :: Copies Toleration_DeepCopyInto;
  #[global] copies_TopologySpreadConstraint :: Copies TopologySpreadConstraint_DeepCopyInto;
  #[global] copies_Quantity :: Copies Quantity_DeepCopy }.

(** ** What the structures show *)
Section Shown.
Context {F : ForeignTypes} {D : ForeignCopying F}.
Implicit Types h : gmap loc cell.

Definition view_APIGroupSpec h (x : mAPIGroupSpec) : option APIGroupSpec :=
  v_Versions ← view h (ag_Versions x);
  Some {| Group := ag_Group x; Versions := v_Versions |}.
Lemma view_APIGroupSpec_mono h h' x v : h ⊆ h' -> view_APIGroupSpec h x = Some v -> view_APIGroupSpec h' x = Some v.
Proof. mono_tac view_APIGroupSpec. Qed.
#[export] Instance data_APIGroupSpec : GoData cell mAPIGroupSpec APIGroupSpec :=
  {| view := view_APIGroupSpec; view_mono := view_APIGroupSpec_mono |}.

Definition view_PersistenceSpec h (x : mPersistenceSpec) : option PersistenceSpec :=
  v_StorageClassName ← view h (ps_StorageClassName x);
  v_Size ← view h (ps_Size x);
  Some {| StorageClassName := v_StorageClassName; Size := v_Size |}.
Lemma view_PersistenceSpec_mono h h' x v : h ⊆ h' -> view_PersistenceSpec h x = Some v -> view_PersistenceSpec h' x = Some v.
Proof. mono_tac view_PersistenceSpec. Qed.
#[export] Instance data_PersistenceSpec : GoData cell mPersistenceSpec PersistenceSpec :=
  {| view := view_PersistenceSpec; view_mono := view_PersistenceSpec_mono |}.

Definition view_InClusterStorage h (x : mInClusterStorage) : option InClusterStorage :=
  v_Resources ← view h (ic_Resources x);
  v_Persistence ← view h (ic_Persistence x);
  Some {| ics_Resources := v_Resources; Persistence := v_Persistence |}.
Lemma view_InClusterStorage_mono h h' x v : h ⊆ h' -> view_InClusterStorage h x = Some v -> view_InClusterStorage h' x = Some v.
Proof. mono_tac view_InClusterStorage. Qed.
#[export] Instance data_InClusterStorage : GoData cell mInClusterStorage InClusterStorage :=
  {| view := view_InClusterStorage; view_mono := view_InClusterStorage_mono |}.

Definition view_StorageMonitoringSpec h (x : mStorageMonitoringSpec) : option StorageMonitoringSpec :=
  v_CACertSecret ← view h (sm_CACertSecret x);
  v_PostgreSQL ← view h (sm_PostgreSQL x);
  Some {| Enabled := sm_Enabled x; CollectionInterval := sm_CollectionInterval x; CACertSecret := v_CACertSecret;
            PostgreSQL := v_PostgreSQL |}.
Lemma view_StorageMonitoringSpec_mono h h' x v : h ⊆ h' -> view_StorageMonitoringSpec h x = Some v -> view_StorageMonitoringSpec h' x = Some v.
Proof. mono_tac view_StorageMonitoringSpec. Qed.
#[export] Instance data_StorageMonitoringSpec : GoData cell mStorageMonitoringSpec StorageMonitoringSpec :=
  {| view := view_StorageMonitoringSpec; view_mono := view_StorageMonitoringSpec_mono |}.

Definition view_StorageSpec h (x : mStorageSpec) : option StorageSpec :=
  v_ConnectionSecretRef ← view h (ss_ConnectionSecretRef x);
  v_InCluster ← view h (ss_InCluster x);
  v_Monitoring ← view h (ss_Monitoring x);
  Some {| Type_ := ss_Type x; ConnectionSecretRef := v_ConnectionSecretRef; InCluster := v_InCluster;
            StorageMonitoring := v_Monitoring |}.
Lemma view_StorageSpec_mono h h' x v : h ⊆ h' -> view_StorageSpec h x = Some v -> view_StorageSpec h' x = Some v.
Proof. mono_tac view_StorageSpec. Qed.
#[export] Instance data_StorageSpec : GoData cell mStorageSpec StorageSpec :=
  {| view := view_StorageSpec; view_mono := view_StorageSpec_mono |}.

Definition view_SecondarySpec h (x : mSecondarySpec) : option SecondarySpec :=
  v_Resources ← view h (se_Resources x);
  v_NodeSelector ← view h (se_NodeSelector x);
  v_Tolerations ← view h (se_Tolerations x);
  v_TopologySpreadConstraints ← view h (se_TopologySpreadConstraints x);
  Some {| sec_Replicas := se_Replicas x; sec_Image := se_Image x; sec_Resources := v_Resources;
            sec_NodeSelector := v_NodeSelector; sec_Tolerations := v_Tolerations;
            sec_TopologySpreadConstraints := v_TopologySpreadConstraints |}.
Lemma view_SecondarySpec_mono h h' x v : h ⊆ h' -> view_SecondarySpec h x = Some v -> view_SecondarySpec h' x = Some v.
Proof. mono_tac view_SecondarySpec. Qed.
#[export] Instance data_SecondarySpec : GoData cell mSecondarySpec SecondarySpec :=
  {| view := view_SecondarySpec; view_mono := view_SecondarySpec_mono |}.

Definition view_ConnectionPoolConfig h (x : mConnectionPoolConfig) : option ConnectionPoolConfig :=
  v_MaxIdle ← view h (cp_MaxIdle x);
  v_MaxOpen ← view h (cp_MaxOpen x);
  v_MaxLifetime ← view h (cp_MaxLifetime x);
  Some {| MaxIdleConnections := v_MaxIdle; MaxOpenConnections := v_MaxOpen; MaxLifetime := v_MaxLifetime |}.
Lemma view_ConnectionPoolConfig_mono h h' x v : h ⊆ h' -> view_ConnectionPoolConfig h x = Some v -> view_ConnectionPoolConfig h' x = Some v.
Proof. mono_tac view_ConnectionPoolConfig. Qed.
#[export] Instance data_ConnectionPoolConfig : GoData cell mConnectionPoolConfig ConnectionPoolConfig :=
  {| view := view_ConnectionPoolConfig; view_mono := view_ConnectionPoolConfig_mono |}.

Definition view_CompactionConfig h (x : mCompactionConfig) : option CompactionConfig :=
  v_Interval ← view h (cc_Interval x);
  v_MinRetain ← view h (cc_MinRetain x);
  v_BatchSize ← view h (cc_BatchSize x);
  v_Timeout ← view h (cc_Timeout x);
  Some {| Interval := v_Interval; MinRetain := v_MinRetain; BatchSize := v_BatchSize; Timeout_ := v_Timeout |}.
Lemma view_CompactionConfig_mono h h' x v : h ⊆ h' -> view_CompactionConfig h x = Some v -> view_CompactionConfig h' x = Some v.
Proof. mono_tac view_CompactionConfig. Qed.
#[export] Instance data_CompactionConfig : GoData cell mCompactionConfig CompactionConfig :=
  {| view := view_CompactionConfig; view_mono := view_CompactionConfig_mono |}.

Definition view_KineSpec h (x : mKineSpec) : option KineSpec :=
  v_Resources ← view h (ki_Resources x);
  v_NodeSelector ← view h (ki_NodeSelector x);
  v_Tolerations ← view h (ki_Tolerations x);
  v_TopologySpreadConstraints ← view h (ki_TopologySpreadConstraints x);
  v_ConnectionPool ← view h (ki_ConnectionPool x);
  v_Compaction ← view h (ki_Compaction x);
  v_PollBatchSize ← view h (ki_PollBatchSize x);
  v_WatchProgressNotifyInterval ← view h (ki_WatchProgressNotifyInterval x);
  Some {| kine_Replicas := ki_Replicas x; kine_Image := ki_Image x; kine_Resources := v_Resources;
            kine_NodeSelector := v_NodeSelector; kine_Tolerations := v_Tolerations;
            kine_TopologySpreadConstraints := v_TopologySpreadConstraints;
            ConnectionPool := v_ConnectionPool; Compaction := v_Compaction;
            PollBatchSize := v_PollBatchSize; WatchProgressNotifyInterval := v_WatchProgressNotifyInterval |}.
Lemma view_KineSpec_mono h h' x v : h ⊆ h' -> view_KineSpec h x = Some v -> view_KineSpec h' x = Some v.
Proof. mono_tac view_KineSpec. Qed.
#[export] Instance data_KineSpec : GoData cell mKineSpec KineSpec :=
  {| view := view_KineSpec; view_mono := view_KineSpec_mono |}.

Definition view_NamespaceSyncConfig h (x : mNamespaceSyncConfig) : option LabelSelector :=
  v_LabelSelector ← view h (nc_LabelSelector x);
  Some v_LabelSelector.
Lemma view_NamespaceSyncConfig_mono h h' x v : h ⊆ h' -> view_NamespaceSyncConfig h x = Some v -> view_NamespaceSyncConfig h' x = Some v.
Proof. mono_tac view_NamespaceSyncConfig. Qed.
#[export] Instance data_NamespaceSyncConfig : GoData cell mNamespaceSyncConfig LabelSelector :=
  {| view := view_NamespaceSyncConfig; view_mono := view_NamespaceSyncConfig_mono |}.

Definition view_APIShardSpec h (x : mAPIShardSpec) : option APIShardSpec :=
  v_APIGroups ← view h (sp_APIGroups x);
  v_Storage ← view h (sp_Storage x);
  v_NamespaceSync ← view h (sp_NamespaceSync x);
  v_Secondary ← view h (sp_Secondary x);
  v_Kine ← view h (sp_Kine x);
  v_Monitoring ← view h (sp_Monitoring x);
  v_ColocateComponents ← view h (sp_ColocateComponents x);
  Some {| TargetNamespace := sp_TargetNamespace x; APIGroups := v_APIGroups; Storage := v_Storage;
            NamespaceSyncSelector := v_NamespaceSync; Secondary := v_Secondary; Kine := v_Kine;
            Monitoring := v_Monitoring; ColocateComponents := v_ColocateComponents |}.
Lemma view_APIShardSpec_mono h h' x v : h ⊆ h' -> view_APIShardSpec h x = Some v -> view_APIShardSpec h' x = Some v.
Proof. mono_tac view_APIShardSpec. Qed.
#[export] Instance data_APIShardSpec : GoData cell mAPIShardSpec APIShardSpec :=
  {| view := view_APIShardSpec; view_mono := view_APIShardSpec_mono |}.

Definition view_APIShardStatus h (x : mAPIShardStatus) : option APIShardStatus :=
  v_ConnectionSecret ← view h (ast_ConnectionSecret x);
  v_RegisteredAPIServices ← view h (ast_RegisteredAPIServices x);
  v_Conditions ← view h (ast_Conditions x);
  Some {| Phase := ast_Phase x; Message := ast_Message x; ConnectionSecret := v_ConnectionSecret;
            SecondaryEndpointField := ast_SecondaryEndpoint x;
            RegisteredAPIServices := v_RegisteredAPIServices; Conditions := v_Conditions;
            ObservedGeneration := ast_ObservedGeneration x |}.
Lemma view_APIShardStatus_mono h h' x v : h ⊆ h' -> view_APIShardStatus h x = Some v -> view_APIShardStatus h' x = Some v.
Proof. mono_tac view_APIShardStatus. Qed.
#[export] Instance data_APIShardStatus : GoData cell mAPIShardStatus APIShardStatus :=
  {| view := view_APIShardStatus; view_mono := view_APIShardStatus_mono |}.

Definition view_APIShard h (x : mAPIShard) : option (TypeMeta * APIShard) :=
  v_ObjectMeta ← view h (sh_ObjectMeta x);
  v_Spec ← view h (sh_Spec x);
  v_Status ← view h (sh_Status x);
  Some ((sh_TypeMeta x), {| shard_Meta := v_ObjectMeta; Spec := v_Spec; Status := v_Status |}).
Lemma view_APIShard_mono h h' x v : h ⊆ h' -> view_APIShard h x = Some v -> view_APIShard h' x = Some v.
Proof. mono_tac view_APIShard. Qed.
#[export] Instance data_APIShard : GoData cell mAPIShard (TypeMeta * APIShard) :=
  {| view := view_APIShard; view_mono := view_APIShard_mono |}.

Definition view_APIShardList h (x : mAPIShardList) : option (TypeMeta * ListMeta * list (TypeMeta * APIShard)) :=
  v_ListMeta ← view h (shl_ListMeta x);
  v_Items ← view h (shl_Items x);
  Some ((shl_TypeMeta x), v_ListMeta, v_Items).
Lemma view_APIShardList_mono h h' x v : h ⊆ h' -> view_APIShardList h x = Some v -> view_APIShardList h' x = Some v.
Proof. mono_tac view_APIShardList. Qed.
#[export] Instance data_APIShardList : GoData cell mAPIShardList (TypeMeta * ListMeta * list (TypeMeta * APIShard)) :=
  {| view := view_APIShardList; view_mono := view_APIShardList_mono |}.

Definition view_SecondaryConnectionSpec h (x : mSecondaryConnectionSpec) : option SecondaryConnectionSpec :=
  Some {| ServiceRef_ := sc_ServiceRef x; AuthSecretRef := lsr_Name (sc_AuthSecretRef x); CASecretRef := lsr_Name (sc_CASecretRef x) |}.
Lemma view_SecondaryConnectionSpec_mono h h' x v : h ⊆ h' -> view_SecondaryConnectionSpec h x = Some v -> view_SecondaryConnectionSpec h' x = Some v.
Proof. mono_tac view_SecondaryConnectionSpec. Qed.
#[export] Instance data_SecondaryConnectionSpec : GoData cell mSecondaryConnectionSpec SecondaryConnectionSpec :=
  {| view := view_SecondaryConnectionSpec; view_mono := view_SecondaryConnectionSpec_mono |}.

Definition view_NamespaceSyncSpec h (x : mNamespaceSyncSpec) : option NamespaceSyncSpec :=
  v_SecondaryConnection ← view h (nsp_SecondaryConnection x);
  v_LabelSelector ← view h (nsp_LabelSelector x);
  v_ExcludeNamespaces ← view h (nsp_ExcludeNamespaces x);
  Some {| nss_Connection := v_SecondaryConnection; nss_LabelSelector := v_LabelSelector;
            nss_ExcludeNamespaces := v_ExcludeNamespaces |}.
Lemma view_NamespaceSyncSpec_mono h h' x v : h ⊆ h' -> view_NamespaceSyncSpec h x = Some v -> view_NamespaceSyncSpec h' x = Some v.
Proof. mono_tac view_NamespaceSyncSpec. Qed.
#[export] Instance data_NamespaceSyncSpec : GoData cell mNamespaceSyncSpec NamespaceSyncSpec :=
  {| view := view_NamespaceSyncSpec; view_mono := view_NamespaceSyncSpec_mono |}.

Definition view_NamespaceSyncStatus h (x : mNamespaceSyncStatus) : option NamespaceSyncStatus :=
  v_Conditions ← view h (nst_Conditions x);
  v_LastSyncTime ← view h (nst_LastSyncTime x);
  Some {| nss_Conditions := v_Conditions; nss_SyncedNamespaces := nst_SyncedNamespaces x;
            nss_LastSyncTime := v_LastSyncTime; nss_ObservedGeneration := nst_ObservedGeneration x |}.
Lemma view_NamespaceSyncStatus_mono h h' x v : h ⊆ h' -> view_NamespaceSyncStatus h x = Some v -> view_NamespaceSyncStatus h' x = Some v.
Proof. mono_tac view_NamespaceSyncStatus. Qed.
#[export] Instance data_NamespaceSyncStatus : GoData cell mNamespaceSyncStatus NamespaceSyncStatus :=
  {| view := view_NamespaceSyncStatus; view_mono := view_NamespaceSyncStatus_mono |}.

Definition view_NamespaceSync h (x : mNamespaceSync) : option (TypeMeta * NamespaceSync) :=
  v_ObjectMeta ← view h (ns_ObjectMeta x);
  v_Spec ← view h (ns_Spec x);
  v_Status ← view h (ns_Status x);
  Some ((ns_TypeMeta x), {| nsync_Meta := v_ObjectMeta; nsync_Spec := v_Spec; nsync_Status := v_Status |}).
Lemma view_NamespaceSync_mono h h' x v : h ⊆ h' -> view_NamespaceSync h x = Some v -> view_NamespaceSync h' x = Some v.
Proof. mono_tac view_NamespaceSync. Qed.
#[export] Instance data_NamespaceSync : GoData cell mNamespaceSync (TypeMeta * NamespaceSync) :=
  {| view := view_NamespaceSync; view_mono := view_NamespaceSync_mono |}.

Definition view_NamespaceSyncList h (x : mNamespaceSyncList) : option (TypeMeta * ListMeta * list (TypeMeta * NamespaceSync)) :=
  v_ListMeta ← view h (nsl_ListMeta x);
  v_Items ← view h (nsl_Items x);
  Some ((nsl_TypeMeta x), v_ListMeta, v_Items).
Lemma view_NamespaceSyncList_mono h h' x v : h ⊆ h' -> view_NamespaceSyncList h x = Some v -> view_NamespaceSyncList h' x = Some v.
Proof. mono_tac view_NamespaceSyncList. Qed.
#[export] Instance data_NamespaceSyncList : GoData cell mNamespaceSyncList (TypeMeta * ListMeta * list (TypeMeta * NamespaceSync)) :=
  {| view := view_NamespaceSyncList; view_mono := view_NamespaceSyncList_mono |}.

Definition view_WebhookSyncSpec h (x : mWebhookSyncSpec) : option WebhookSyncSpec :=
  v_SecondaryConnection ← view h (wsp_SecondaryConnection x);
  v_APIGroups ← view h (wsp_APIGroups x);
  Some {| whs_Connection := v_SecondaryConnection; whs_APIGroups := v_APIGroups |}.
Lemma view_WebhookSyncSpec_mono h h' x v : h ⊆ h' -> view_WebhookSyncSpec h x = Some v -> view_WebhookSyncSpec h' x = Some v.
Proof. mono_tac view_WebhookSyncSpec. Qed.
#[export] Instance data_WebhookSyncSpec : GoData cell mWebhookSyncSpec WebhookSyncSpec :=
  {| view := view_WebhookSyncSpec; view_mono := view_WebhookSyncSpec_mono |}.

Definition view_WebhookSyncStatus h (x : mWebhookSyncStatus) : option WebhookSyncStatus :=
  v_Conditions ← view h (wst_Conditions x);
  v_LastSyncTime ← view h (wst_LastSyncTime x);
  Some {| whs_Conditions := v_Conditions; whs_Validating := wc_Validating (wst_SyncedWebhooks x);
            whs_Mutating := wc_Mutating (wst_SyncedWebhooks x); whs_LastSyncTime := v_LastSyncTime;
            whs_ObservedGeneration := wst_ObservedGeneration x |}.
Lemma view_WebhookSyncStatus_mono h h' x v : h ⊆ h' -> view_WebhookSyncStatus h x = Some v -> view_WebhookSyncStatus h' x = Some v.
Proof. mono_tac view_WebhookSyncStatus. Qed.
#[export] Instance data_WebhookSyncStatus : GoData cell mWebhookSyncStatus WebhookSyncStatus :=
  {| view := view_WebhookSyncStatus; view_mono := view_WebhookSyncStatus_mono |}.

Definition view_WebhookSync h (x : mWebhookSync) : option (TypeMeta * WebhookSync) :=
  v_ObjectMeta ← view h (wh_ObjectMeta x);
  v_Spec ← view h (wh_Spec x);
  v_Status ← view h (wh_Status x);
  Some ((wh_TypeMeta x), {| wsync_Meta := v_ObjectMeta; wsync_Spec := v_Spec; wsync_Status := v_Status |}).
Lemma view_WebhookSync_mono h h' x v : h ⊆ h' -> view_WebhookSync h x = Some v -> view_WebhookSync h' x = Some v.
Proof. mono_tac view_WebhookSync. Qed.
#[export] Instance data_WebhookSync : GoData cell mWebhookSync (TypeMeta * WebhookSync) :=
  {| view := view_WebhookSync; view_mono := view_WebhookSync_mono |}.

Definition view_WebhookSyncList h (x : mWebhookSyncList) : option (TypeMeta * ListMeta * list (TypeMeta * WebhookSync)) :=
  v_ListMeta ← view h (whl_ListMeta x);
  v_Items ← view h (whl_Items x);
  Some ((whl_TypeMeta x), v_ListMeta, v_Items).
Lemma view_WebhookSyncList_mono h h' x v : h ⊆ h' -> view_WebhookSyncList h x = Some v -> view_WebhookSyncList h' x = Some v.
Proof. mono_tac view_WebhookSyncList. Qed.
#[export] Instance data_WebhookSyncList : GoData cell mWebhookSyncList (TypeMeta * ListMeta * list (TypeMeta * WebhookSync)) :=
  {| view := view_WebhookSyncList; view_mono := view_WebhookSyncList_mono |}.

End Shown.
