(* ===== verification/DeepCopy.v ===== *)
(** * Deep copies

    src/operator/api/v1alpha1/zz_generated.deepcopy.go on the memory of DeepCopyTypes.
    DeepCopyInto of a structure is the program that computes what is stored in [out]:
    [out] is in all calls of the code a variable or an array element that was allocated
    just before, so that nothing else can see it in between.  A field that
    [*out = *in] alone copies is taken over from [x]. *)
From S2P Require Import Prelude KubeTypes APITypes GoHeap DeepCopyTypes.

Section DeepCopies.
Context {F : ForeignTypes} {D : ForeignCopying F} {allocator : Allocator cell}.

Definition SecretKeyReference_DeepCopyInto (x : SecretKeyReference) : M cell SecretKeyReference := mret x.
Definition SecretKeyReference_DeepCopy : ptr SecretKeyReference -> M cell (ptr SecretKeyReference) :=
  copyPtr SecretKeyReference_DeepCopyInto.

Definition PostgreSQLMonitoringSpec_DeepCopyInto (x : PostgreSQLMonitoringSpec) : M cell PostgreSQLMonitoringSpec := mret x.
Definition PostgreSQLMonitoringSpec_DeepCopy : ptr PostgreSQLMonitoringSpec -> M cell (ptr PostgreSQLMonitoringSpec) :=
  copyPtr PostgreSQLMonitoringSpec_DeepCopyInto.

Definition MonitoringSpec_DeepCopyInto (x : MonitoringSpec) : M cell MonitoringSpec := mret x.
Definition MonitoringSpec_DeepCopy : ptr MonitoringSpec -> M cell (ptr MonitoringSpec) :=
  copyPtr MonitoringSpec_DeepCopyInto.

Definition ConnectionSecretReference_DeepCopyInto (x : ConnectionSecretReference) : M cell ConnectionSecretReference := mret x.
Definition ConnectionSecretReference_DeepCopy : ptr ConnectionSecretReference -> M cell (ptr ConnectionSecretReference) :=
  copyPtr ConnectionSecretReference_DeepCopyInto.

Definition ServiceReference_DeepCopyInto (x : ServiceReference) : M cell ServiceReference := mret x.
Definition ServiceReference_DeepCopy : ptr ServiceReference -> M cell (ptr ServiceReference) :=
  copyPtr ServiceReference_DeepCopyInto.

Definition LocalSecretReference_DeepCopyInto (x : LocalSecretReference) : M cell LocalSecretReference := mret x.
Definition LocalSecretReference_DeepCopy : ptr LocalSecretReference -> M cell (ptr LocalSecretReference) :=
  copyPtr LocalSecretReference_DeepCopyInto.

Definition SyncedWebhookCounts_DeepCopyInto (x : SyncedWebhookCounts) : M cell SyncedWebhookCounts := mret x.
Definition SyncedWebhookCounts_DeepCopy : ptr SyncedWebhookCounts -> M cell (ptr SyncedWebhookCounts) :=
  copyPtr SyncedWebhookCounts_DeepCopyInto.

Definition APIGroupSpec_DeepCopyInto (x : mAPIGroupSpec) : M cell mAPIGroupSpec :=
  Versions ← copySlice mret (ag_Versions x);
  mret {| ag_Group := ag_Group x; ag_Versions := Versions |}.
Definition APIGroupSpec_DeepCopy : ptr mAPIGroupSpec -> M cell (ptr mAPIGroupSpec) :=
  copyPtr APIGroupSpec_DeepCopyInto.

Definition PersistenceSpec_DeepCopyInto (x : mPersistenceSpec) : M cell mPersistenceSpec :=
  StorageClassName ← copyPtr mret (ps_StorageClassName x);
  Size ← Quantity_DeepCopy (ps_Size x);
  mret {| ps_StorageClassName := StorageClassName; ps_Size := Size |}.
Definition PersistenceSpec_DeepCopy : ptr mPersistenceSpec -> M cell (ptr mPersistenceSpec) :=
  copyPtr PersistenceSpec_DeepCopyInto.

Definition InClusterStorage_DeepCopyInto (x : mInClusterStorage) : M cell mInClusterStorage :=
  Resources ← ResourceRequirements_DeepCopyInto (ic_Resources x);
  Persistence ← copyPtr PersistenceSpec_DeepCopyInto (ic_Persistence x);
  mret {| ic_Resources := Resources; ic_Persistence := Persistence |}.
Definition InClusterStorage_DeepCopy : ptr mInClusterStorage -> M cell (ptr mInClusterStorage) :=
  copyPtr InClusterStorage_DeepCopyInto.

Definition StorageMonitoringSpec_DeepCopyInto (x : mStorageMonitoringSpec) : M cell mStorageMonitoringSpec :=
  CACertSecret ← copyPtr mret (sm_CACertSecret x);
  PostgreSQL ← copyPtr mret (sm_PostgreSQL x);
  mret {| sm_Enabled := sm_Enabled x; sm_CollectionInterval := sm_CollectionInterval x;
           sm_CACertSecret := CACertSecret; sm_PostgreSQL := PostgreSQL |}.
Definition StorageMonitoringSpec_DeepCopy : ptr mStorageMonitoringSpec -> M cell (ptr mStorageMonitoringSpec) :=
  copyPtr StorageMonitoringSpec_DeepCopyInto.

Definition StorageSpec_DeepCopyInto (x : mStorageSpec) : M cell mStorageSpec :=
  ConnectionSecretRef ← copyPtr mret (ss_ConnectionSecretRef x);
  InCluster ← copyPtr InClusterStorage_DeepCopyInto (ss_InCluster x);
  Monitoring ← copyPtr StorageMonitoringSpec_DeepCopyInto (ss_Monitoring x);
  mret {| ss_Type := ss_Type x; ss_ConnectionSecretRef := ConnectionSecretRef; ss_InCluster := InCluster;
           ss_Monitoring := Monitoring |}.
Definition StorageSpec_DeepCopy : ptr mStorageSpec -> M cell (ptr mStorageSpec) :=
  copyPtr StorageSpec_DeepCopyInto.

Definition SecondarySpec_DeepCopyInto (x : mSecondarySpec) : M cell mSecondarySpec :=
  Resources ← ResourceRequirements_DeepCopyInto (se_Resources x);
  NodeSelector ← copyMap (se_NodeSelector x);
  Tolerations ← copySlice Toleration_DeepCopyInto (se_Tolerations x);
  TopologySpreadConstraints ← copySlice TopologySpreadConstraint_DeepCopyInto (se_TopologySpreadConstraints x);
  mret {| se_Replicas := se_Replicas x; se_Image := se_Image x; se_Resources := Resources;
           se_NodeSelector := NodeSelector; se_Tolerations := Tolerations;
           se_TopologySpreadConstraints := TopologySpreadConstraints |}.
Definition SecondarySpec_DeepCopy : ptr mSecondarySpec -> M cell (ptr mSecondarySpec) :=
  copyPtr SecondarySpec_DeepCopyInto.

Definition ConnectionPoolConfig_DeepCopyInto (x : mConnectionPoolConfig) : M cell mConnectionPoolConfig :=
  MaxIdle ← copyPtr mret (cp_MaxIdle x);
  MaxOpen ← copyPtr mret (cp_MaxOpen x);
  MaxLifetime ← copyPtr mret (cp_MaxLifetime x);
  mret {| cp_MaxIdle := MaxIdle; cp_MaxOpen := MaxOpen; cp_MaxLifetime := MaxLifetime |}.
Definition ConnectionPoolConfig_DeepCopy : ptr mConnectionPoolConfig -> M cell (ptr mConnectionPoolConfig) :=
  copyPtr ConnectionPoolConfig_DeepCopyInto.

Definition CompactionConfig_DeepCopyInto (x : mCompactionConfig) : M cell mCompactionConfig :=
  Interval ← copyPtr mret (cc_Interval x);
  MinRetain ← copyPtr mret (cc_MinRetain x);
  BatchSize ← copyPtr mret (cc_BatchSize x);
  Timeout ← copyPtr mret (cc_Timeout x);
  mret {| cc_Interval := Interval; cc_MinRetain := MinRetain; cc_BatchSize := BatchSize;
           cc_Timeout := Timeout |}.
Definition CompactionConfig_DeepCopy : ptr mCompactionConfig -> M cell (ptr mCompactionConfig) :=
  copyPtr CompactionConfig_DeepCopyInto.

Definition KineSpec_DeepCopyInto (x : mKineSpec) : M cell mKineSpec :=
  Resources ← ResourceRequirements_DeepCopyInto (ki_Resources x);
  NodeSelector ← copyMap (ki_NodeSelector x);
  Tolerations ← copySlice Toleration_DeepCopyInto (ki_Tolerations x);
  TopologySpreadConstraints ← copySlice TopologySpreadConstraint_DeepCopyInto (ki_TopologySpreadConstraints x);
  ConnectionPool ← copyPtr ConnectionPoolConfig_DeepCopyInto (ki_ConnectionPool x);
  Compaction ← copyPtr CompactionConfig_DeepCopyInto (ki_Compaction x);
  PollBatchSize ← copyPtr mret (ki_PollBatchSize x);
  WatchProgressNotifyInterval ← copyPtr mret (ki_WatchProgressNotifyInterval x);
  mret {| ki_Replicas := ki_Replicas x; ki_Image := ki_Image x; ki_Resources := Resources;
           ki_NodeSelector := NodeSelector; ki_Tolerations := Tolerations;
           ki_TopologySpreadConstraints := TopologySpreadConstraints; ki_ConnectionPool := ConnectionPool;
           ki_Compaction := Compaction; ki_PollBatchSize := PollBatchSize;
           ki_WatchProgressNotifyInterval := WatchProgressNotifyInterval |}.
Definition KineSpec_DeepCopy : ptr mKineSpec -> M cell (ptr mKineSpec) :=
  copyPtr KineSpec_DeepCopyInto.

Definition NamespaceSyncConfig_DeepCopyInto (x : mNamespaceSyncConfig) : M cell mNamespaceSyncConfig :=
  LabelSelector ← LabelSelector_DeepCopyInto (nc_LabelSelector x);
  mret {| nc_LabelSelector := LabelSelector |}.
Definition NamespaceSyncConfig_DeepCopy : ptr mNamespaceSyncConfig -> M cell (ptr mNamespaceSyncConfig) :=
  copyPtr NamespaceSyncConfig_DeepCopyInto.

Definition APIShardSpec_DeepCopyInto (x : mAPIShardSpec) : M cell mAPIShardSpec :=
  APIGroups ← copySlice APIGroupSpec_DeepCopyInto (sp_APIGroups x);
  Storage ← StorageSpec_DeepCopyInto (sp_Storage x);
  NamespaceSync ← NamespaceSyncConfig_DeepCopyInto (sp_NamespaceSync x);
  Secondary ← SecondarySpec_DeepCopyInto (sp_Secondary x);
  Kine ← KineSpec_DeepCopyInto (sp_Kine x);
  Monitoring ← copyPtr mret (sp_Monitoring x);
  ColocateComponents ← copyPtr mret (sp_ColocateComponents x);
  mret {| sp_TargetNamespace := sp_TargetNamespace x; sp_APIGroups := APIGroups; sp_Storage := Storage;
           sp_NamespaceSync := NamespaceSync; sp_Secondary := Secondary; sp_Kine := Kine;
           sp_Monitoring := Monitoring; sp_ColocateComponents := ColocateComponents |}.
Definition APIShardSpec_DeepCopy : ptr mAPIShardSpec -> M cell (ptr mAPIShardSpec) :=
  copyPtr APIShardSpec_DeepCopyInto.

Definition APIShardStatus_DeepCopyInto (x : mAPIShardStatus) : M cell mAPIShardStatus :=
  ConnectionSecret ← copyPtr mret (ast_ConnectionSecret x);
  RegisteredAPIServices ← copySlice mret (ast_RegisteredAPIServices x);
  Conditions ← copySlice Condition_DeepCopyInto (ast_Conditions x);
  mret {| ast_Phase := ast_Phase x; ast_Message := ast_Message x; ast_ConnectionSecret := ConnectionSecret;
           ast_SecondaryEndpoint := ast_SecondaryEndpoint x;
           ast_RegisteredAPIServices := RegisteredAPIServices; ast_Conditions := Conditions;
           ast_ObservedGeneration := ast_ObservedGeneration x |}.
Definition APIShardStatus_DeepCopy : ptr mAPIShardStatus -> M cell (ptr mAPIShardStatus) :=
  copyPtr APIShardStatus_DeepCopyInto.

Definition APIShard_DeepCopyInto (x : mAPIShard) : M cell mAPIShard :=
  ObjectMeta ← ObjectMeta_DeepCopyInto (sh_ObjectMeta x);
  Spec ← APIShardSpec_DeepCopyInto (sh_Spec x);
  Status ← APIShardStatus_DeepCopyInto (sh_Status x);
  mret {| sh_TypeMeta := sh_TypeMeta x; sh_ObjectMeta := ObjectMeta; sh_Spec := Spec; sh_Status := Status |}.
Definition APIShard_DeepCopy : ptr mAPIShard -> M cell (ptr mAPIShard) :=
  copyPtr APIShard_DeepCopyInto.

Definition APIShardList_DeepCopyInto (x : mAPIShardList) : M cell mAPIShardList :=
  ListMeta ← ListMeta_DeepCopyInto (shl_ListMeta x);
  Items ← copySlice APIShard_DeepCopyInto (shl_Items x);
  mret {| shl_TypeMeta := shl_TypeMeta x; shl_ListMeta := ListMeta; shl_Items := Items |}.
Definition APIShardList_DeepCopy : ptr mAPIShardList -> M cell (ptr mAPIShardList) :=
  copyPtr APIShardList_DeepCopyInto.

Definition SecondaryConnectionSpec_DeepCopyInto (x : mSecondaryConnectionSpec) : M cell mSecondaryConnectionSpec :=
  mret {| sc_ServiceRef := sc_ServiceRef x; sc_AuthSecretRef := sc_AuthSecretRef x;
           sc_CASecretRef := sc_CASecretRef x |}.
Definition SecondaryConnectionSpec_DeepCopy : ptr mSecondaryConnectionSpec -> M cell (ptr mSecondaryConnectionSpec) :=
  copyPtr SecondaryConnectionSpec_DeepCopyInto.

Definition NamespaceSyncSpec_DeepCopyInto (x : mNamespaceSyncSpec) : M cell mNamespaceSyncSpec :=
  SecondaryConnection ← mret (nsp_SecondaryConnection x);
  LabelSelector ← LabelSelector_DeepCopyInto (nsp_LabelSelector x);
  ExcludeNamespaces ← copySlice mret (nsp_ExcludeNamespaces x);
  mret {| nsp_SecondaryConnection := SecondaryConnection; nsp_LabelSelector := LabelSelector;
           nsp_ExcludeNamespaces := ExcludeNamespaces |}.
Definition NamespaceSyncSpec_DeepCopy : ptr mNamespaceSyncSpec -> M cell (ptr mNamespaceSyncSpec) :=
  copyPtr NamespaceSyncSpec_DeepCopyInto.

Definition NamespaceSyncStatus_DeepCopyInto (x : mNamespaceSyncStatus) : M cell mNamespaceSyncStatus :=
  Conditions ← copySlice Condition_DeepCopyInto (nst_Conditions x);
  LastSyncTime ← unlessNil Time_DeepCopy (nst_LastSyncTime x);
  mret {| nst_Conditions := Conditions; nst_SyncedNamespaces := nst_SyncedNamespaces x;
           nst_LastSyncTime := LastSyncTime; nst_ObservedGeneration := nst_ObservedGeneration x |}.
Definition NamespaceSyncStatus_DeepCopy : ptr mNamespaceSyncStatus -> M cell (ptr mNamespaceSyncStatus) :=
  copyPtr NamespaceSyncStatus_DeepCopyInto.

Definition NamespaceSync_DeepCopyInto (x : mNamespaceSync) : M cell mNamespaceSync :=
  ObjectMeta ← ObjectMeta_DeepCopyInto (ns_ObjectMeta x);
  Spec ← NamespaceSyncSpec_DeepCopyInto (ns_Spec x);
  Status ← NamespaceSyncStatus_DeepCopyInto (ns_Status x);
  mret {| ns_TypeMeta := ns_TypeMeta x; ns_ObjectMeta := ObjectMeta; ns_Spec := Spec; ns_Status := Status |}.
Definition NamespaceSync_DeepCopy : ptr mNamespaceSync -> M cell (ptr mNamespaceSync) :=
  copyPtr NamespaceSync_DeepCopyInto.

Definition NamespaceSyncList_DeepCopyInto (x : mNamespaceSyncList) : M cell mNamespaceSyncList :=
  ListMeta ← ListMeta_DeepCopyInto (nsl_ListMeta x);
  Items ← copySlice NamespaceSync_DeepCopyInto (nsl_Items x);
  mret {| nsl_TypeMeta := nsl_TypeMeta x; nsl_ListMeta := ListMeta; nsl_Items := Items |}.
Definition NamespaceSyncList_DeepCopy : ptr mNamespaceSyncList -> M cell (ptr mNamespaceSyncList) :=
  copyPtr NamespaceSyncList_DeepCopyInto.

Definition WebhookSyncSpec_DeepCopyInto (x : mWebhookSyncSpec) : M cell mWebhookSyncSpec :=
  SecondaryConnection ← mret (wsp_SecondaryConnection x);
  APIGroups ← copySlice mret (wsp_APIGroups x);
  mret {| wsp_SecondaryConnection := SecondaryConnection; wsp_APIGroups := APIGroups |}.
Definition WebhookSyncSpec_DeepCopy : ptr mWebhookSyncSpec -> M cell (ptr mWebhookSyncSpec) :=
  copyPtr WebhookSyncSpec_DeepCopyInto.

Definition WebhookSyncStatus_DeepCopyInto (x : mWebhookSyncStatus) : M cell mWebhookSyncStatus :=
  Conditions ← copySlice Condition_DeepCopyInto (wst_Conditions x);
  LastSyncTime ← unlessNil Time_DeepCopy (wst_LastSyncTime x);
  mret {| wst_Conditions := Conditions; wst_SyncedWebhooks := wst_SyncedWebhooks x;
           wst_LastSyncTime := LastSyncTime; wst_ObservedGeneration := wst_ObservedGeneration x |}.
Definition WebhookSyncStatus_DeepCopy : ptr mWebhookSyncStatus -> M cell (ptr mWebhookSyncStatus) :=
  copyPtr WebhookSyncStatus_DeepCopyInto.

Definition WebhookSync_DeepCopyInto (x : mWebhookSync) : M cell mWebhookSync :=
  ObjectMeta ← ObjectMeta_DeepCopyInto (wh_ObjectMeta x);
  Spec ← WebhookSyncSpec_DeepCopyInto (wh_Spec x);
  Status ← WebhookSyncStatus_DeepCopyInto (wh_Status x);
  mret {| wh_TypeMeta := wh_TypeMeta x; wh_ObjectMeta := ObjectMeta; wh_Spec := Spec; wh_Status := Status |}.
Definition WebhookSync_DeepCopy : ptr mWebhookSync -> M cell (ptr mWebhookSync) :=
  copyPtr WebhookSync_DeepCopyInto.

Definition WebhookSyncList_DeepCopyInto (x : mWebhookSyncList) : M cell mWebhookSyncList :=
  ListMeta ← ListMeta_DeepCopyInto (whl_ListMeta x);
  Items ← copySlice WebhookSync_DeepCopyInto (whl_Items x);
  mret {| whl_TypeMeta := whl_TypeMeta x; whl_ListMeta := ListMeta; whl_Items := Items |}.
Definition WebhookSyncList_DeepCopy : ptr mWebhookSyncList -> M cell (ptr mWebhookSyncList) :=
  copyPtr WebhookSyncList_DeepCopyInto.

(** ** DeepCopyObject *)
(** An interface value of type runtime.Object: nil, or a pointer with its type. *)
Inductive Object :=
  | NilObject
  | OAPIShard (p : ptr mAPIShard) | OAPIShardList (p : ptr mAPIShardList)
  | ONamespaceSync (p : ptr mNamespaceSync) | ONamespaceSyncList (p : ptr mNamespaceSyncList)
  | OWebhookSync (p : ptr mWebhookSync) | OWebhookSyncList (p : ptr mWebhookSyncList).

(** A nil pointer becomes the nil interface, not an interface that holds one. *)
Definition toObject {A} (as_ : ptr A -> Object) (c : ptr A) : Object :=
  if addr c is Some _ then as_ c else NilObject.

Definition APIShard_DeepCopyObject (p : ptr mAPIShard) : M cell Object :=
  c ← APIShard_DeepCopy p; mret (toObject OAPIShard c).
Definition APIShardList_DeepCopyObject (p : ptr mAPIShardList) : M cell Object :=
  c ← APIShardList_DeepCopy p; mret (toObject OAPIShardList c).
Definition NamespaceSync_DeepCopyObject (p : ptr mNamespaceSync) : M cell Object :=
  c ← NamespaceSync_DeepCopy p; mret (toObject ONamespaceSync c).
Definition NamespaceSyncList_DeepCopyObject (p : ptr mNamespaceSyncList) : M cell Object :=
  c ← NamespaceSyncList_DeepCopy p; mret (toObject ONamespaceSyncList c).
Definition WebhookSync_DeepCopyObject (p : ptr mWebhookSync) : M cell Object :=
  c ← WebhookSync_DeepCopy p; mret (toObject OWebhookSync c).
Definition WebhookSyncList_DeepCopyObject (p : ptr mWebhookSyncList) : M cell Object :=
  c ← WebhookSyncList_DeepCopy p; mret (toObject OWebhookSyncList c).
End DeepCopies.

(** ** Each function copies *)
Section Correct.
Context {F : ForeignTypes} {D : ForeignCopying F} {L : ForeignLaws F D} {allocator : Allocator cell}.

#[export] Instance copies_SecretKeyReference : Copies SecretKeyReference_DeepCopyInto.
Proof. apply copies_flat. Qed.
#[export] Instance copies_PostgreSQLMonitoringSpec : Copies PostgreSQLMonitoringSpec_DeepCopyInto.
Proof. apply copies_flat. Qed.
#[export] Instance copies_MonitoringSpec : Copies MonitoringSpec_DeepCopyInto.
Proof. apply copies_flat. Qed.
#[export] Instance copies_ConnectionSecretReference : Copies ConnectionSecretReference_DeepCopyInto.
Proof. apply copies_flat. Qed.
#[export] Instance copies_ServiceReference : Copies ServiceReference_DeepCopyInto.
Proof. apply copies_flat. Qed.
#[export] Instance copies_LocalSecretReference : Copies LocalSecretReference_DeepCopyInto.
Proof. apply copies_flat. Qed.
#[export] Instance copies_SyncedWebhookCounts : Copies SyncedWebhookCounts_DeepCopyInto.
Proof. apply copies_flat. Qed.
#[export] Instance copies_APIGroupSpec : Copies APIGroupSpec_DeepCopyInto.
Proof. copies_tac APIGroupSpec_DeepCopyInto data_APIGroupSpec view_APIGroupSpec. Qed.
#[export] Instance copies_PersistenceSpec : Copies PersistenceSpec_DeepCopyInto.
Proof. copies_tac PersistenceSpec_DeepCopyInto data_PersistenceSpec view_PersistenceSpec. Qed.
#[export] Instance copies_InClusterStorage : Copies InClusterStorage_DeepCopyInto.
Proof. copies_tac InClusterStorage_DeepCopyInto data_InClusterStorage view_InClusterStorage. Qed.
#[export] Instance copies_StorageMonitoringSpec : Copies StorageMonitoringSpec_DeepCopyInto.
Proof. copies_tac StorageMonitoringSpec_DeepCopyInto data_StorageMonitoringSpec view_StorageMonitoringSpec. Qed.
#[export] Instance copies_StorageSpec : Copies StorageSpec_DeepCopyInto.
Proof. copies_tac StorageSpec_DeepCopyInto data_StorageSpec view_StorageSpec. Qed.
#[export] Instance copies_SecondarySpec : Copies SecondarySpec_DeepCopyInto.
Proof. copies_tac SecondarySpec_DeepCopyInto data_SecondarySpec view_SecondarySpec. Qed.
#[export] Instance copies_ConnectionPoolConfig : Copies ConnectionPoolConfig_DeepCopyInto.
Proof. copies_tac ConnectionPoolConfig_DeepCopyInto data_ConnectionPoolConfig view_ConnectionPoolConfig. Qed.
#[export] Instance copies_CompactionConfig : Copies CompactionConfig_DeepCopyInto.
Proof. copies_tac CompactionConfig_DeepCopyInto data_CompactionConfig view_CompactionConfig. Qed.
#[export] Instance copies_KineSpec : Copies KineSpec_DeepCopyInto.
Proof. copies_tac KineSpec_DeepCopyInto data_KineSpec view_KineSpec. Qed.
#[export] Instance copies_NamespaceSyncConfig : Copies NamespaceSyncConfig_DeepCopyInto.
Proof. copies_tac NamespaceSyncConfig_DeepCopyInto data_NamespaceSyncConfig view_NamespaceSyncConfig. Qed.
#[export] Instance copies_APIShardSpec : Copies APIShardSpec_DeepCopyInto.
Proof. copies_tac APIShardSpec_DeepCopyInto data_APIShardSpec view_APIShardSpec. Qed.
#[export] Instance copies_APIShardStatus : Copies APIShardStatus_DeepCopyInto.
Proof. copies_tac APIShardStatus_DeepCopyInto data_APIShardStatus view_APIShardStatus. Qed.
#[export] Instance copies_APIShard : Copies APIShard_DeepCopyInto.
Proof. copies_tac APIShard_DeepCopyInto data_APIShard view_APIShard. Qed.
#[export] Instance copies_APIShardList : Copies APIShardList_DeepCopyInto.
Proof. copies_tac APIShardList_DeepCopyInto data_APIShardList view_APIShardList. Qed.
#[export] Instance copies_SecondaryConnectionSpec : Copies SecondaryConnectionSpec_DeepCopyInto.
Proof. copies_tac SecondaryConnectionSpec_DeepCopyInto data_SecondaryConnectionSpec view_SecondaryConnectionSpec. Qed.

(** A connection has no references and is copied by assignment. *)
#[export] Instance copies_assign_SecondaryConnection : Copies (A := mSecondaryConnectionSpec) mret.
Proof. intros h x v Hv. by exists x, h. Qed.

#[export] Instance copies_NamespaceSyncSpec : Copies NamespaceSyncSpec_DeepCopyInto.
Proof. copies_tac NamespaceSyncSpec_DeepCopyInto data_NamespaceSyncSpec view_NamespaceSyncSpec. Qed.
#[export] Instance copies_NamespaceSyncStatus : Copies NamespaceSyncStatus_DeepCopyInto.
Proof. copies_tac NamespaceSyncStatus_DeepCopyInto data_NamespaceSyncStatus view_NamespaceSyncStatus. Qed.
#[export] Instance copies_NamespaceSync : Copies NamespaceSync_DeepCopyInto.
Proof. copies_tac NamespaceSync_DeepCopyInto data_NamespaceSync view_NamespaceSync. Qed.
#[export] Instance copies_NamespaceSyncList : Copies NamespaceSyncList_DeepCopyInto.
Proof. copies_tac NamespaceSyncList_DeepCopyInto data_NamespaceSyncList view_NamespaceSyncList. Qed.
#[export] Instance copies_WebhookSyncSpec : Copies WebhookSyncSpec_DeepCopyInto.
Proof. copies_tac WebhookSyncSpec_DeepCopyInto data_WebhookSyncSpec view_WebhookSyncSpec. Qed.
#[export] Instance copies_WebhookSyncStatus : Copies WebhookSyncStatus_DeepCopyInto.
Proof. copies_tac WebhookSyncStatus_DeepCopyInto data_WebhookSyncStatus view_WebhookSyncStatus. Qed.
#[export] Instance copies_WebhookSync : Copies WebhookSync_DeepCopyInto.
Proof. copies_tac WebhookSync_DeepCopyInto data_WebhookSync view_WebhookSync. Qed.
#[export] Instance copies_WebhookSyncList : Copies WebhookSyncList_DeepCopyInto.
Proof. copies_tac WebhookSyncList_DeepCopyInto data_WebhookSyncList view_WebhookSyncList. Qed.
End Correct.
