(* ===== verification/DeepCopyProps.v ===== *)
(** * Deep copies are deep

    The objects of the API group with their DeepCopy and DeepCopyObject methods: a copy
    shows what its original shows and shares no memory with it, so that a change of
    the one is never seen through the other.  Reconcile relies on it when it keeps a
    copy of a shard as the base of a patch and then changes the shard. *)
From S2P Require Import Prelude KubeTypes APITypes GoHeap DeepCopyTypes DeepCopy.

(** The types that implement runtime.Object. *)
Inductive root := RAPIShard | RAPIShardList | RNamespaceSync | RNamespaceSyncList | RWebhookSync | RWebhookSyncList.

Section Roots.
Context {F : ForeignTypes} {D : ForeignCopying F} {allocator : Allocator cell}.

Definition layout (k : root) : Type :=
  match k with
  | RAPIShard => mAPIShard | RAPIShardList => mAPIShardList
  | RNamespaceSync => mNamespaceSync | RNamespaceSyncList => mNamespaceSyncList
  | RWebhookSync => mWebhookSync | RWebhookSyncList => mWebhookSyncList
  end.

(** The value of an object, and of a list of objects. *)
Definition value (k : root) : Type :=
  match k with
  | RAPIShard => TypeMeta * APIShard | RAPIShardList => TypeMeta * ListMeta * list (TypeMeta * APIShard)
  | RNamespaceSync => TypeMeta * NamespaceSync
  | RNamespaceSyncList => TypeMeta * ListMeta * list (TypeMeta * NamespaceSync)
  | RWebhookSync => TypeMeta * WebhookSync | RWebhookSyncList => TypeMeta * ListMeta * list (TypeMeta * WebhookSync)
  end.

Definition shown (k : root) : gmap loc cell -> ptr (layout k) -> option (option (value k)) :=
  match k with
  | RAPIShard => view | RAPIShardList => view | RNamespaceSync => view
  | RNamespaceSyncList => view | RWebhookSync => view | RWebhookSyncList => view
  end.

Definition root_DeepCopy (k : root) : ptr (layout k) -> M cell (ptr (layout k)) :=
  match k with
  | RAPIShard => APIShard_DeepCopy | RAPIShardList => APIShardList_DeepCopy
  | RNamespaceSync => NamespaceSync_DeepCopy | RNamespaceSyncList => NamespaceSyncList_DeepCopy
  | RWebhookSync => WebhookSync_DeepCopy | RWebhookSyncList => WebhookSyncList_DeepCopy
  end.

Definition root_DeepCopyObject (k : root) : ptr (layout k) -> M cell Object :=
  match k with
  | RAPIShard => APIShard_DeepCopyObject | RAPIShardList => APIShardList_DeepCopyObject
  | RNamespaceSync => NamespaceSync_DeepCopyObject | RNamespaceSyncList => NamespaceSyncList_DeepCopyObject
  | RWebhookSync => WebhookSync_DeepCopyObject | RWebhookSyncList => WebhookSyncList_DeepCopyObject
  end.

Definition object (k : root) : ptr (layout k) -> Object :=
  match k with
  | RAPIShard => OAPIShard | RAPIShardList => OAPIShardList
  | RNamespaceSync => ONamespaceSync | RNamespaceSyncList => ONamespaceSyncList
  | RWebhookSync => OWebhookSync | RWebhookSyncList => OWebhookSyncList
  end.

Lemma shown_mono k h h' p v : h ⊆ h' -> shown k h p = Some v -> shown k h' p = Some v.
Proof. destruct k; apply view_mono. Qed.

Lemma copyPtr_nil {A} `{!Stored cell A} (f : A -> M cell A) p q h h' :
  copyPtr f p h = Some (q, h') -> (addr q = None <-> addr p = None).
Proof.
  unfold copyPtr. destruct (addr p) as [l|]; [|by intros [= <- <-]].
  unfold mbind, M_bind. destruct (load l h) as [[a h1]|]; [|done]. destruct (f a h1) as [[a' h2]|]; [|done].
  by intros [= <- <-].
Qed.

Lemma root_copy_nil k p q h h' : root_DeepCopy k p h = Some (q, h') -> (addr q = None <-> addr p = None).
Proof. destruct k; apply copyPtr_nil. Qed.

Lemma root_object k p q h h' :
  root_DeepCopy k p h = Some (q, h') -> root_DeepCopyObject k p h = Some (toObject (object k) q, h').
Proof.
  destruct k; cbn; unfold APIShard_DeepCopyObject, APIShardList_DeepCopyObject, NamespaceSync_DeepCopyObject,
    NamespaceSyncList_DeepCopyObject, WebhookSync_DeepCopyObject, WebhookSyncList_DeepCopyObject, mbind, M_bind;
    by intros ->.
Qed.

Lemma root_copies {L : ForeignLaws F D} k h p v :
  shown k h p = Some v ->
  exists q h', root_DeepCopy k p h = Some (q, h') /\ h ⊆ h' /\ shown k (h' ∖ h) q = Some v.
Proof. destruct k; intros Hv; exact (copies (Copies := copies_ptr _) h p v Hv). Qed.

(** C15: deep copies of the API objects are deep: copying an object, or a list of
    objects, always returns, changes no memory that was there, and gives a copy that
    shows the same value; whatever is then written to the memory of the original, the
    copy still shows that value, and whatever is written to the memory of the copy, so
    does the original.  A nil pointer is copied to a nil pointer and, as an object, to
    the nil interface; any other to an object of its type. *)
Theorem deep_copies_isolated {L : ForeignLaws F D} (k : root) (p : ptr (layout k)) h v :
  shown k h p = Some v ->
  exists q h', root_DeepCopy k p h = Some (q, h') /\ h ⊆ h' /\ shown k h' q = Some v /\
    (forall later, (forall l c, h !! l = None -> h' !! l = Some c -> later !! l = Some c) -> shown k later q = Some v) /\
    (forall later, (forall l c, h !! l = Some c -> later !! l = Some c) -> shown k later p = Some v) /\
    root_DeepCopyObject k p h =
      Some (match addr p with None => NilObject | Some _ => object k q end, h').
Proof.
  intros Hv. destruct (root_copies k h p v Hv) as (q&h'&Hc&Hs&Hq). exists q, h'.
  split; [exact Hc|]. split; [exact Hs|]. split.
  { eapply shown_mono; [|exact Hq]. apply map_subseteq_difference_l. reflexivity. }
  split; [|split].
  - intros later Hl. eapply shown_mono; [|exact Hq]. apply map_subseteq_spec.
    intros l c [H1 H2]%lookup_difference_Some. by apply Hl.
  - intros later Hl. eapply shown_mono; [|exact Hv]. by apply map_subseteq_spec.
  - rewrite (root_object _ _ _ _ _ Hc). unfold toObject. apply root_copy_nil in Hc.
    destruct (addr q), (addr p); try done; naive_solver.
Qed.
End Roots.

(** ** A concrete memory *)
(** Metadata whose labels are a map in memory; the other types without references. *)
Record memMeta := { dm_Fields : ObjectMeta; dm_Labels : mapref }.

#[local] Instance demoTypes : ForeignTypes :=
  {| mObjectMeta := memMeta; mListMeta := unit; mCondition := Condition; mLabelSelector := LabelSelector;
     mTime := Z; mResourceRequirements := ResourceRequirements; mToleration := Toleration;
     mTopologySpreadConstraint := TopologySpreadConstraint; mQuantity := Quantity; foreignCell := unit;
     ListMeta := unit |}.

Definition with_Labels (labels : gomap) (m : ObjectMeta) : ObjectMeta :=
  {| meta_Name := meta_Name m; meta_Namespace := meta_Namespace m; meta_Labels := labels;
     meta_Annotations := meta_Annotations m; meta_OwnerReferences := meta_OwnerReferences m;
     meta_Finalizers := meta_Finalizers m; meta_Generation := meta_Generation m; meta_UID := meta_UID m;
     meta_ResourceVersion := meta_ResourceVersion m; meta_DeletionTimestamp := meta_DeletionTimestamp m;
     meta_ManagedFields := meta_ManagedFields m |}.

Definition view_memMeta (h : gmap loc cell) (x : memMeta) : option ObjectMeta :=
  labels ← view h (dm_Labels x); Some (with_Labels labels (dm_Fields x)).

Lemma view_memMeta_mono h h' x v : h ⊆ h' -> view_memMeta h x = Some v -> view_memMeta h' x = Some v.
Proof. mono_tac view_memMeta. Qed.

Definition data_memMeta : GoData cell memMeta ObjectMeta :=
  {| view := view_memMeta; view_mono := view_memMeta_mono |}.

#[local] Instance demoAllocator : Allocator cell := bumpAllocator.

Definition memMeta_DeepCopyInto (x : memMeta) : M cell memMeta :=
  Labels ← copyMap (dm_Labels x); mret {| dm_Fields := dm_Fields x; dm_Labels := Labels |}.

Definition plain A : GoData cell A A := @data_flat cell A I.

#[local] Instance demoCopying : ForeignCopying demoTypes :=
  {| data_ObjectMeta := data_memMeta; data_ListMeta := plain unit; data_Condition := plain Condition;
     data_LabelSelector := plain LabelSelector; data_Time := plain Z;
     data_ResourceRequirements := plain ResourceRequirements; data_Toleration := plain Toleration;
     data_TopologySpreadConstraint := plain TopologySpreadConstraint; data_Quantity := plain Quantity;
     ObjectMeta_DeepCopyInto := memMeta_DeepCopyInto; ListMeta_DeepCopyInto := mret;
     Condition_DeepCopyInto := mret; LabelSelector_DeepCopyInto := mret;
     Time_DeepCopy := copyPtr (A := Z) mret; ResourceRequirements_DeepCopyInto := mret;
     Toleration_DeepCopyInto := mret; TopologySpreadConstraint_DeepCopyInto := mret; Quantity_DeepCopy := mret |}.

#[local] Instance demoLaws : ForeignLaws demoTypes demoCopying.
Proof.
  split; cbn; try (intros h a v Hv; by exists a, h).
  - copies_tac memMeta_DeepCopyInto data_memMeta view_memMeta.
  - apply (copies_ptr (V := Z)). intros h a v Hv. by exists a, h.
Qed.

(** A shard with labels, a node selector and a group of its own; the slice of the group's
    versions is the first element of an array of two. *)
Definition demoCells : gmap loc cell :=
  <[2%positive := CMap {["team" := "build"]}]>
  (<[3%positive := CMap {["zone" := "a"]}]>
  (<[4%positive := CStrings ["v1"; "v1beta1"]]>
  (<[5%positive := CAPIGroups [{| ag_Group := "tekton.dev";
      ag_Versions := {| array := Some 4%positive; offset := 0; length_ := 1; capacity_ := 2 |} |}]]>
  (<[6%positive := CBool true]> ∅)))).

Definition noResources : ResourceRequirements := {| Requests := None; Limits := None |}.
Definition noMap : mapref := {| table := None |}.

Definition memShard : mAPIShard :=
  {| sh_TypeMeta := {| APIVersion := "kube-shard.konflux-ci.dev/v1alpha1"; TypeKind := "APIShard" |};
     sh_ObjectMeta := {| dm_Fields := newMeta "demo" "" None; dm_Labels := {| table := Some 2%positive |} |};
     sh_Spec :=
       {| sp_TargetNamespace := "shard-ns";
          sp_APIGroups := {| array := Some 5%positive; offset := 0; length_ := 1; capacity_ := 1 |};
          sp_Storage := {| ss_Type := StorageTypeSQLite; ss_ConnectionSecretRef := nilPtr; ss_InCluster := nilPtr;
                           ss_Monitoring := nilPtr |};
          sp_NamespaceSync := {| nc_LabelSelector := {| MatchLabels := None; MatchExpressions := [] |} |};
          sp_Secondary := {| se_Replicas := 1; se_Image := ""; se_Resources := noResources; se_NodeSelector := noMap;
                             se_Tolerations := nilOf; se_TopologySpreadConstraints := nilOf |};
          sp_Kine := {| ki_Replicas := 1; ki_Image := ""; ki_Resources := noResources;
                        ki_NodeSelector := {| table := Some 3%positive |}; ki_Tolerations := nilOf;
                        ki_TopologySpreadConstraints := nilOf; ki_ConnectionPool := nilPtr; ki_Compaction := nilPtr;
                        ki_PollBatchSize := nilPtr; ki_WatchProgressNotifyInterval := nilPtr |};
          sp_Monitoring := nilPtr; sp_ColocateComponents := {| addr := Some 6%positive |} |};
     sh_Status := {| ast_Phase := ""; ast_Message := ""; ast_ConnectionSecret := nilPtr; ast_SecondaryEndpoint := "";
                     ast_RegisteredAPIServices := nilOf; ast_Conditions := nilOf; ast_ObservedGeneration := 0 |} |}.

Definition memHeap : gmap loc cell := <[1%positive := CAPIShard memShard]> demoCells.
Definition memPtr : ptr (layout RAPIShard) := {| addr := Some 1%positive |}.
Definition memValue : option (value RAPIShard) := default None (shown RAPIShard memHeap memPtr).

(** After the copy every cell of the original is cleared; the copy still shows it. *)
Lemma deep_copies_isolated_witness :
  memValue <> None /\
  exists q h', root_DeepCopy RAPIShard memPtr memHeap = Some (q, h') /\
    shown RAPIShard (h' ∖ memHeap) q = Some memValue.
Proof.
  split; [vm_compute; discriminate|].
  destruct (deep_copies_isolated RAPIShard memPtr memHeap memValue) as (q&h'&Hc&_&_&Hq&_); [vm_compute; reflexivity|].
  exists q, h'. split; [exact Hc|]. apply Hq. intros l c H1 H2. by apply lookup_difference_Some.
Defined.
