(* ===== verification/Manager.v ===== *)
(** * The manager

    What the operator hands to controller-runtime: the options of the manager
    (src/operator/cmd/main.go), the controllers as their builders describe them and
    the calls that set the manager up.  How controller-runtime turns a watch event
    into requests for a controller is the class [ControllerRuntime], with the
    documented behaviour of builders and handlers as its laws. *)
From S2P Require Import Prelude GoStd GoSlice KubeTypes APITypes Kube Aggregation ClientProvider ApiShardSteps ApiShard.
From S2P Require Import Predicates.

(** ** Controllers *)
(** A handler passed to [Watches]: [EnqueueRequestsFromMapFunc], or a handler of the
    repository, whose four methods are one function of the event. *)
Inductive Handler :=
  | MapFunc (f : ObjectMeta -> kprog (list NamespacedName))
  | EventHandler (f : Event -> kprog (list NamespacedName)).

(** A channel source with the function its handler calls, and the runnable of
    NewTickerSource that feeds it. *)
Record Source := { src_List : kprog (list NamespacedName); src_Interval : Z }.

(** What a builder has collected when [Complete] is called. *)
Record Controller := {
  ctl_Name : string;
  ctl_For : Kind;
  ctl_Owns : list (Kind * list (Event -> bool));
  ctl_Watches : list (Kind * Handler);
  ctl_Sources : list Source;
  ctl_Reconcile : clients -> NamespacedName -> kprog outcome }.

(** [certwatcher.CertWatcher] *)
Record CertWatcher := { cw_Cert : string; cw_Key : string }.

(** [manager.Runnable] *)
Inductive Runnable :=
  | RunTicker (src : Source)
  | RunCertWatcher (w : CertWatcher).

(** ** Options *)
(** The functions main.go passes as TLS options. *)
Inductive TLSOpt :=
  | DisableHTTP2
  | ServeCertificateOf (w : CertWatcher).

(** The AddToScheme functions of the packages. *)
Inductive SchemeBuilder :=
  | ClientGoScheme | APIRegistrationV1 | APIExtensionsV1 | KubeShardV1alpha1 | MonitoringV1.

#[export] Instance SchemeBuilder_eq_dec : EqDecision SchemeBuilder.
Proof. solve_decision. Defined.

(** [metricsserver.Options]; [FilterProvider] is nil or
    [filters.WithAuthenticationAndAuthorization]. *)
Record MetricsOptions := {
  mo_BindAddress : string; mo_SecureServing : bool; mo_TLSOpts : slice; mo_Authenticated : bool }.

(** [ctrl.Options]; durations in nanoseconds. *)
Record ManagerOptions := {
  o_Scheme : list SchemeBuilder;
  o_Metrics : MetricsOptions;
  o_WebhookTLSOpts : slice;
  o_HealthProbeBindAddress : string;
  o_LeaderElection : bool;
  o_LeaderElectionID : string;
  o_LeaseDuration : Z; o_RenewDeadline : Z; o_RetryPeriod : Z }.

(** ** Calls *)
(** Calls that report an error or nothing. *)
Inductive setupCall :=
  | NewCertWatcher (cert key : string)
  | NewManager (o : ManagerOptions) (h : heap TLSOpt)
  | NewDiscoveryClientForConfig
  | NewForConfig
  | AddRunnable (r : Runnable)
  | Complete (c : Controller)
  | AddHealthzCheck (name : string)
  | AddReadyzCheck (name : string)
  | StartManager.

Inductive mcall :=
  | KubeCall (c : call)
  | GetConfigOrDie
  | SetupCall (c : setupCall)
  | Exit (code : Z).

(** [os.Exit] does not return. *)
Definition mresp (c : mcall) : Type :=
  match c with
  | KubeCall c => resp c
  | GetConfigOrDie => unit
  | SetupCall _ => option error
  | Exit _ => Empty_set
  end.

Abbreviation mprog := (prog mresp).
Abbreviation mevent := (event mresp).

Definition setup (c : setupCall) : mprog (option error) := @perform mcall mresp (SetupCall c).
Definition setupEvent (c : setupCall) (r : option error) : mevent := @Ev mcall mresp (SetupCall c) r.

(** A program of the operator's clients, run by the start-up code. *)
Fixpoint lift {A} (p : kprog A) : mprog A :=
  match p with
  | Ret a => Ret a
  | Do c k => @Do mcall mresp A (KubeCall c) (fun r => lift (k r))
  end.

Definition liftEvent (e : kevent) : mevent := @Ev mcall mresp (KubeCall (ev_call e)) (ev_resp e).

Lemma run_lift {A} (p : kprog A) tr a : run (lift p) tr a <-> exists tr', tr = liftEvent <$> tr' /\ run p tr' a.
Proof.
  revert tr. induction p as [b|c k IH]; intros tr; cbn.
  - split; [intros [-> ->]; by exists []|]. intros (tr'&->&->&->). done.
  - split.
    + intros (r&tr'&->&H). apply IH in H as (tr2&->&H). exists (Ev c r :: tr2). split; [done|]. eauto.
    + intros (?&->&r&tr2&->&H). exists r, (liftEvent <$> tr2). split; [done|]. apply IH. eauto.
Qed.

Lemma every_lift {A} (P : call -> Prop) (Q : mcall -> Prop) (p : kprog A) :
  every P p -> (forall c, P c -> Q (KubeCall c)) -> every Q (lift p).
Proof. intros HP HQ. induction p as [b|c k IH]; cbn in *; [done|]. destruct HP. split; auto. Qed.

Lemma always_lift {A} (Q : A -> Prop) (p : kprog A) : always Q p -> always Q (lift p).
Proof. induction p as [b|c k IH]; cbn; auto. Qed.

(** A call that exits the process: nothing follows it. *)
Definition exit {A} (code : Z) : mprog A :=
  @Do mcall mresp A (Exit code) (fun r => match r with end).

(** [if err := p; err != nil { ...; os.Exit(1) }; q] *)
Definition orExit {A} (p : mprog (option error)) (q : mprog A) : mprog A :=
  let* e := p in match e with Some _ => exit 1 | None => q end.

(** ** Events *)
Definition eventObjects (e : Event) : list anyObject :=
  match e with
  | CreateEvent o | DeleteEvent o | GenericEvent o => option_list o
  | UpdateEv e => option_list (ObjectOld e) ++ option_list (ObjectNew e)
  end.

(** The object an event is about: the new one of an update. *)
Definition eventObject (e : Event) : option anyObject :=
  match e with
  | CreateEvent o | DeleteEvent o | GenericEvent o => o
  | UpdateEv e => ObjectNew e
  end.

(** All objects of the event are of the kind. *)
Definition eventOf (k : Kind) (e : Event) : Prop := Forall (fun o => projT1 o = k) (eventObjects e).

(** The object names, as its controller, a cluster-scoped resource of the operator's
    API group. *)
Definition controlledBy (kind name : string) (o : anyObject) : Prop :=
  exists r, List.find owner_Controller (meta_OwnerReferences (anyMeta o)) = Some r /\
    owner_APIVersion r = "kube-shard.konflux-ci.dev/v1alpha1" /\ owner_Kind r = kind /\ owner_Name r = name.

(** ** controller-runtime *)
Class ControllerRuntime := {
  (** the requests added to the controller's queue for an event of the cluster *)
  dispatch : Controller -> Event -> kprog (list NamespacedName) }.

(** [For]: an event of a resource of the controller's kind is a request for it; [Owns]:
    an event of an owned object that passes all the predicates is a request for the
    controlling owner; [Watches]: all objects of the event are given to the
    handler, and what it answers is requested. *)
Class ControllerRuntimeLaws (R : ControllerRuntime) : Prop := {
  dispatch_for C e o tr reqs :
    eventOf (ctl_For C) e -> o ∈ eventObjects e -> run (dispatch C e) tr reqs ->
    {| nn_Namespace := meta_Namespace (anyMeta o); nn_Name := meta_Name (anyMeta o) |} ∈ reqs;
  dispatch_owned C e k preds o name tr reqs :
    (k, preds) ∈ ctl_Owns C -> ctl_For C = KAPIShard -> eventOf k e -> Forall (fun p => p e = true) preds ->
    o ∈ eventObjects e -> controlledBy "APIShard" name o ->
    run (dispatch C e) tr reqs -> {| nn_Namespace := ""; nn_Name := name |} ∈ reqs;
  dispatch_mapped C e k f o tr reqs :
    (k, MapFunc f) ∈ ctl_Watches C -> eventOf k e -> o ∈ eventObjects e ->
    run (dispatch C e) tr reqs -> exists tr' reqs', run (f (anyMeta o)) tr' reqs' /\ tr' ⊆ tr /\ reqs' ⊆ reqs;
  dispatch_handled C e k f tr reqs :
    (k, EventHandler f) ∈ ctl_Watches C -> eventOf k e -> eventObjects e <> [] ->
    run (dispatch C e) tr reqs -> exists tr' reqs', run (f e) tr' reqs' /\ tr' ⊆ tr /\ reqs' ⊆ reqs }.
