(* ===== verification/Setup.v ===== *)
(** * Registration of the controllers and start of the operator

    SetupWithManager of the three controllers, the event handlers of handler.go, and
    the main function of src/operator/cmd/main.go with its options. *)
From S2P Require Import Prelude GoStd GoFmt NetUrl GoJson GoSlice KubeTypes APITypes Kube Aggregation ClientProvider.
From S2P Require Import ApiShardSteps ApiShard NamespaceSync WebhookSync Predicates Discovery Manager.

(** ** Event handlers *)
(** crdEventHandler: an object that is not a CRD is ignored. *)
Definition crdEventHandler (e : Event) : kprog (list NamespacedName) :=
  match eventObject e with
  | Some (existT KCRD crd) => enqueueForCRD crd
  | _ => Ret []
  end.

Definition namespaceEventHandler (e : Event) : kprog (list NamespacedName) := enqueueAll.
Definition webhookEventHandler (e : Event) : kprog (list NamespacedName) := enqueueAllWebhookSyncs.

(** ** SetupWithManager *)
Definition Minute : Z := 60 * Second.
Definition namespaceSyncPeriodicInterval : Z := 5 * Minute.
Definition webhookSyncPeriodicInterval : Z := 5 * Minute.

(** The source and the runnable of NewTickerSource. *)
Definition tickerSource (interval : Z) (listFunc : kprog (list NamespacedName)) : Source :=
  {| src_List := listFunc; src_Interval := interval |}.

Section Controllers.
Context {T : ThirdParty}.

Definition apishardController (r : Reconciler) : Controller :=
  {| ctl_Name := "apishard";
     ctl_For := KAPIShard;
     ctl_Owns :=
       [ (KDeployment, [DeploymentReadinessPredicate]);
         (KStatefulSet, [StatefulSetReadinessPredicate]);
         (KService, []); (KSecret, []); (KConfigMap, []); (KNamespaceSync, []); (KWebhookSync, []);
         (KAPIService, [APIServiceAvailabilityPredicate]);
         (KClusterRoleBinding, []) ] ++
       (if ServiceMonitorAvailable r then [(KServiceMonitor, [])] else []);
     ctl_Watches :=
       [ (KCRD, EventHandler crdEventHandler);
         (KConfigMap, MapFunc requestHeaderCAMapper);
         (KSecret, MapFunc connectionSecretMapper) ];
     ctl_Sources := [];
     ctl_Reconcile := ApiShard.Reconcile r |}.

Definition SetupAPIShard (r : Reconciler) : mprog (option error) :=
  setup (Complete (apishardController r)).

Definition namespaceSyncSource : Source := tickerSource namespaceSyncPeriodicInterval enqueueAll.

Definition namespaceSyncController : Controller :=
  {| ctl_Name := "namespacesync";
     ctl_For := KNamespaceSync;
     ctl_Owns := [];
     ctl_Watches :=
       [ (KNamespace, EventHandler namespaceEventHandler);
         (KSecret, MapFunc secretToNamespaceSyncMapper) ];
     ctl_Sources := [namespaceSyncSource];
     ctl_Reconcile := NamespaceSync.Reconcile |}.

Definition SetupNamespaceSync : mprog (option error) :=
  let* e := setup (AddRunnable (RunTicker namespaceSyncSource)) in
  match e with
  | Some err => Ret (Some err)
  | None => setup (Complete namespaceSyncController)
  end.

Definition webhookSyncSource : Source := tickerSource webhookSyncPeriodicInterval enqueueAllWebhookSyncs.

Definition webhookSyncController : Controller :=
  {| ctl_Name := "webhooksync";
     ctl_For := KWebhookSync;
     ctl_Owns := [];
     ctl_Watches :=
       [ (KMWHC, EventHandler webhookEventHandler);
         (KVWHC, EventHandler webhookEventHandler);
         (KSecret, MapFunc secretToWebhookSyncMapper) ];
     ctl_Sources := [webhookSyncSource];
     ctl_Reconcile := WebhookSync.Reconcile |}.

Definition SetupWebhookSync : mprog (option error) :=
  let* e := setup (AddRunnable (RunTicker webhookSyncSource)) in
  match e with
  | Some err => Ret (Some err)
  | None => setup (Complete webhookSyncController)
  end.
End Controllers.

(** ** path/filepath *)
(** One step of the lexical processing of Clean: the components kept so far, last
    first. *)
Definition cleanStep (rooted : bool) (out : list string) (c : string) : list string :=
  if bool_decide (c = "") || bool_decide (c = ".") then out
  else if bool_decide (c = "..")
       then match out with
            | x :: out' => if bool_decide (x = "..") then c :: out else out'
            | [] => if rooted then [] else [c]
            end
       else c :: out.

Definition filepath_Clean (path : string) : string :=
  let rooted := HasPrefix path "/" in
  let out := Join_strings (rev (foldl (cleanStep rooted) [] (Split "/"%char path))) "/" in
  if rooted then "/" +:+ out else if decide (out = "") then "." else out.

(** Leading empty elements are dropped. *)
Fixpoint filepath_Join (elem : list string) : string :=
  match elem with
  | [] => ""
  | e :: l => if decide (e = "") then filepath_Join l else filepath_Clean (Join_strings elem "/")
  end.

Example filepath_1 : filepath_Join ["/certs/"; "../tls//./tls.crt"] = "/tls/tls.crt".
Proof. reflexivity. Qed.
Example filepath_2 : filepath_Join ["certs/.."; ""] = ".".
Proof. reflexivity. Qed.

(** ** main *)
(** The command line. *)
Record Flags := {
  metricsAddr : string; probeAddr : string; enableLeaderElection : bool; secureMetrics : bool;
  webhookCertPath : string; webhookCertName : string; webhookCertKey : string;
  metricsCertPath : string; metricsCertName : string; metricsCertKey : string;
  enableHTTP2 : bool }.

Definition defaultFlags : Flags :=
  {| metricsAddr := "0"; probeAddr := ":8081"; enableLeaderElection := false; secureMetrics := true;
     webhookCertPath := ""; webhookCertName := "tls.crt"; webhookCertKey := "tls.key";
     metricsCertPath := ""; metricsCertName := "tls.crt"; metricsCertKey := "tls.key";
     enableHTTP2 := false |}.

(** What init registers. *)
Definition scheme : list SchemeBuilder :=
  [ClientGoScheme; APIRegistrationV1; APIExtensionsV1; KubeShardV1alpha1; MonitoringV1].

(** The certificate watcher of a server, if a directory is given, and the TLS options
    with its certificate. *)
Definition withCertWatcher {A} (path cert key : string) (h : heap TLSOpt) (opts : slice)
  (k : option CertWatcher -> heap TLSOpt -> slice -> mprog A) : mprog A :=
  if decide (path = "") then k None h opts
  else
    let w := {| cw_Cert := filepath_Join [path; cert]; cw_Key := filepath_Join [path; key] |} in
    orExit (setup (NewCertWatcher (cw_Cert w) (cw_Key w)))
      (let '(h, opts) := append h opts (ServeCertificateOf w) in k (Some w) h opts).

Definition managerOptions (f : Flags) (webhookTLSOpts metricsTLSOpts : slice) : ManagerOptions :=
  {| o_Scheme := scheme;
     o_Metrics := {| mo_BindAddress := metricsAddr f; mo_SecureServing := secureMetrics f;
                     mo_TLSOpts := metricsTLSOpts; mo_Authenticated := secureMetrics f |};
     o_WebhookTLSOpts := webhookTLSOpts;
     o_HealthProbeBindAddress := probeAddr f;
     o_LeaderElection := enableLeaderElection f;
     o_LeaderElectionID := "5f84582e.konflux-ci.dev";
     o_LeaseDuration := 30 * Second; o_RenewDeadline := 20 * Second; o_RetryPeriod := 5 * Second |}.

(** [if w != nil { if err := mgr.Add(w); err != nil { exit } }] *)
Definition addWatcher {A} (w : option CertWatcher) (q : mprog A) : mprog A :=
  match w with
  | None => q
  | Some w => orExit (setup (AddRunnable (RunCertWatcher w))) q
  end.

(** A discovery that failed counts as not available. *)
Definition availableOr (r : result bool) : bool := match r with Ok b => b | Err _ => false end.

Section Main.
Context {T : ThirdParty}.

(** Discovery of the cluster's features. *)
Definition discoverAll {A} (k : Reconciler -> mprog A) : mprog A :=
  orExit (setup NewDiscoveryClientForConfig)
    (let* sm := lift DiscoverServiceMonitor in
     let* scc := lift DiscoverSCC in
     let* e := setup NewForConfig in
     let* issuer := lift (DiscoverPrimaryIssuer e) in
     match issuer with
     | Err _ => exit 1
     | Ok issuer =>
         k {| ServiceMonitorAvailable := availableOr sm; SCCAvailable := availableOr scc; PrimaryIssuer := issuer |}
     end).

(** From the registration of the controllers to the end. *)
Definition registerAndStart (metricsCertWatcher webhookCertWatcher : option CertWatcher) (r : Reconciler) : mprog unit :=
  orExit (SetupAPIShard r)
  (orExit SetupNamespaceSync
  (orExit SetupWebhookSync
  (addWatcher metricsCertWatcher
  (addWatcher webhookCertWatcher
  (orExit (setup (AddHealthzCheck "healthz"))
  (orExit (setup (AddReadyzCheck "readyz"))
  (orExit (setup StartManager) (Ret tt)))))))).

Definition main (f : Flags) : mprog unit :=
  let '(h, tlsOpts) := if enableHTTP2 f then ([], nilSlice) else append [] nilSlice DisableHTTP2 in
  withCertWatcher (webhookCertPath f) (webhookCertName f) (webhookCertKey f) h tlsOpts
    (fun webhookCertWatcher h webhookTLSOpts =>
  withCertWatcher (metricsCertPath f) (metricsCertName f) (metricsCertKey f) h tlsOpts
    (fun metricsCertWatcher h metricsTLSOpts =>
  let* _ := @perform mcall mresp GetConfigOrDie in
  orExit (setup (NewManager (managerOptions f webhookTLSOpts metricsTLSOpts) h))
  (discoverAll (registerAndStart metricsCertWatcher webhookCertWatcher)))).
End Main.
