(* ===== verification/Scheme.v ===== *)
(** * The scheme

    src/operator/api/v1alpha1/groupversion_info.go and the init function of
    src/operator/cmd/main.go: which Go types the scheme of the manager knows, and as
    which kinds.  A client can read and write objects of Go types of its scheme only. *)
From S2P Require Import Prelude GoStd KubeTypes APITypes Kube ApiShardSteps Tracking Manager Setup.
From S2P Require Import GoHeap DeepCopyTypes DeepCopy DeepCopyProps.

Definition GroupVersion : string * string := ("kube-shard.konflux-ci.dev", "v1alpha1").

(** The types given to AddKnownTypes; each is registered under the name of its Go type. *)
Definition knownTypes : list root :=
  [RAPIShard; RAPIShardList; RNamespaceSync; RNamespaceSyncList; RWebhookSync; RWebhookSyncList].

Definition typeName (k : root) : string :=
  match k with
  | RAPIShard => "APIShard" | RAPIShardList => "APIShardList"
  | RNamespaceSync => "NamespaceSync" | RNamespaceSyncList => "NamespaceSyncList"
  | RWebhookSync => "WebhookSync" | RWebhookSyncList => "WebhookSyncList"
  end.

Section Scheme.
(** What the AddToScheme functions of other packages, and metav1.AddToGroupVersion for
    a group version, register. *)
Context (foreignTypes : SchemeBuilder -> list GroupVersionKind) (AddToGroupVersion : string * string -> list GroupVersionKind).

Definition SchemeBuilder_kubeshard : list GroupVersionKind :=
  ((fun k => GVK GroupVersion.1 GroupVersion.2 (typeName k)) <$> knownTypes) ++ AddToGroupVersion GroupVersion.

Definition AddToScheme (b : SchemeBuilder) : list GroupVersionKind :=
  match b with KubeShardV1alpha1 => SchemeBuilder_kubeshard | _ => foreignTypes b end.

(** The kinds of the manager's scheme. *)
Definition registered : list GroupVersionKind := scheme ≫= AddToScheme.

(** The packages register the kinds of their group versions. *)
Definition packagesRegister : Prop :=
  [ GVK "apps" "v1" "Deployment"; GVK "apps" "v1" "StatefulSet"; GVK "" "v1" "Service"; GVK "" "v1" "Secret";
    GVK "" "v1" "ConfigMap"; GVK "" "v1" "ServiceAccount"; GVK "" "v1" "Namespace";
    GVK "rbac.authorization.k8s.io" "v1" "ClusterRole"; GVK "rbac.authorization.k8s.io" "v1" "Role";
    GVK "rbac.authorization.k8s.io" "v1" "ClusterRoleBinding"; GVK "rbac.authorization.k8s.io" "v1" "RoleBinding";
    GVK "policy" "v1" "PodDisruptionBudget";
    GVK "admissionregistration.k8s.io" "v1" "ValidatingWebhookConfiguration";
    GVK "admissionregistration.k8s.io" "v1" "MutatingWebhookConfiguration" ] ⊆ foreignTypes ClientGoScheme /\
  [ GVK "apiregistration.k8s.io" "v1" "APIService" ] ⊆ foreignTypes APIRegistrationV1 /\
  [ GVK "apiextensions.k8s.io" "v1" "CustomResourceDefinition" ] ⊆ foreignTypes APIExtensionsV1 /\
  [ GVK "monitoring.coreos.com" "v1" "ServiceMonitor" ] ⊆ foreignTypes MonitoringV1.

(** Every typed object that the controllers read or write, and every list of their own
    resources, is of a registered kind. *)
Theorem scheme_complete :
  packagesRegister ->
  (forall k, k <> KUnstructured -> kind_gvk k ∈ registered) /\
  (forall t, GVK GroupVersion.1 GroupVersion.2 (typeName t) ∈ registered).
Proof.
  intros (H1&H2&H3&H4).
  assert (Hin : forall b g, b ∈ scheme -> g ∈ AddToScheme b -> g ∈ registered)
    by (intros b g Hb Hg; apply list_elem_of_bind; eauto).
  assert (Hown : forall t, GVK GroupVersion.1 GroupVersion.2 (typeName t) ∈ registered).
  { intros t. apply (Hin KubeShardV1alpha1); [unfold scheme; set_solver|]. apply elem_of_app. left.
    apply list_elem_of_fmap. exists t. split; [done|]. destruct t; unfold knownTypes; set_solver. }
  split; [|exact Hown]. intros k Hk. destruct k; try done.
  all: try first [exact (Hown RAPIShard)|exact (Hown RNamespaceSync)|exact (Hown RWebhookSync)].
  all: let mem := (apply list_elem_of_In; cbn; tauto) in
       first [solve [apply (Hin ClientGoScheme); [mem|apply H1; mem]]
             |solve [apply (Hin APIRegistrationV1); [mem|apply H2; mem]]
             |solve [apply (Hin APIExtensionsV1); [mem|apply H3; mem]]
             |apply (Hin MonitoringV1); [mem|apply H4; mem]].
Qed.
End Scheme.
