(* ===== verification/Startup.v ===== *)
(** * Start-up of the operator

    The main function fails fast: each step is taken only if all before it
    succeeded, a failed one ends the process with status 1, and the manager is
    started only when everything it needs is registered. *)
From S2P Require Import Prelude GoStd GoFmt NetUrl GoJson GoSlice KubeTypes APITypes Kube Reference Aggregation ClientProvider.
From S2P Require Import ApiShardSteps ApiShard NamespaceSync WebhookSync Predicates Discovery Manager Setup.

(** ** Fatal events *)
(** What the start-up must not survive: an error of a set-up call, and a primary whose
    issuer cannot be found out.  The discoveries of optional APIs are not in it. *)
Definition fatalKube (c : call) : resp c -> Prop :=
  match c return resp c -> Prop with
  | OIDCDiscovery => fun answer =>
      match answer with Err _ => True | Ok body => ~ exists issuer, namesIssuer body issuer end
  | _ => fun _ => False
  end.

Definition fatalResp (c : mcall) : mresp c -> Prop :=
  match c return mresp c -> Prop with
  | KubeCall c => fatalKube c
  | SetupCall _ => fun r => r <> None
  | _ => fun _ => False
  end.

Definition fatal (e : mevent) : Prop := fatalResp (ev_call e) (ev_resp e).

Definition unharmed (tr : list mevent) : Prop := Forall (fun e => ~ fatal e) tr.

(** ** What the start needs *)
(** The answer to a discovery of a kind is in the flag. *)
Definition discoveredBy (gv kind : string) (flag : bool) (tr : list mevent) : Prop :=
  exists answer, liftEvent (Ev (ServerResourcesForGroupVersion gv) answer) ∈ tr /\
    (flag = true <-> exists kinds, answer = Ok kinds /\ kind ∈ kinds).

(** The reconciler knows the cluster: optional APIs are used exactly if they are
    served, and the issuer is the one the primary names. *)
Definition informed (r : Reconciler) (tr : list mevent) : Prop :=
  discoveredBy "monitoring.coreos.com/v1" "ServiceMonitor" (ServiceMonitorAvailable r) tr /\
  discoveredBy "security.openshift.io/v1" "SecurityContextConstraints" (SCCAvailable r) tr /\
  exists body, liftEvent (Ev OIDCDiscovery (Ok body)) ∈ tr /\ namesIssuer body (PrimaryIssuer r).

Definition watcherAdded (w : option CertWatcher) (tr : list mevent) : Prop :=
  match w with
  | None => True
  | Some w => setupEvent (AddRunnable (RunCertWatcher w)) None ∈ tr
  end.

(** The certificate watcher of a directory, if one is given. *)
Definition watcherOf (path cert key : string) : option CertWatcher :=
  if decide (path = "") then None
  else Some {| cw_Cert := filepath_Join [path; cert]; cw_Key := filepath_Join [path; key] |}.
Definition webhookWatcher (f : Flags) : option CertWatcher :=
  watcherOf (webhookCertPath f) (webhookCertName f) (webhookCertKey f).
Definition metricsWatcher (f : Flags) : option CertWatcher :=
  watcherOf (metricsCertPath f) (metricsCertName f) (metricsCertKey f).

Section Startup.
Context {T : ThirdParty}.

Definition prepared (f : Flags) (tr : list mevent) : Prop :=
  (exists r, informed r tr /\ setupEvent (Complete (apishardController r)) None ∈ tr) /\
  setupEvent (AddRunnable (RunTicker namespaceSyncSource)) None ∈ tr /\
  setupEvent (Complete namespaceSyncController) None ∈ tr /\
  setupEvent (AddRunnable (RunTicker webhookSyncSource)) None ∈ tr /\
  setupEvent (Complete webhookSyncController) None ∈ tr /\
  watcherAdded (webhookWatcher f) tr /\ watcherAdded (metricsWatcher f) tr /\
  setupEvent (AddHealthzCheck "healthz") None ∈ tr /\ setupEvent (AddReadyzCheck "readyz") None ∈ tr.

(** ** TLS options *)
(** The options a server must have: HTTP/2 off unless it is asked for, and the
    certificate of its own directory, if there is one. *)
Definition serverOptions (f : Flags) (w : option CertWatcher) : list (option TLSOpt) :=
  (if enableHTTP2 f then [] else [Some DisableHTTP2]) ++
  match w with None => [] | Some w => [Some (ServeCertificateOf w)] end.

Definition goodOptions (f : Flags) (o : ManagerOptions) (h : heap TLSOpt) : Prop :=
  elements h (o_WebhookTLSOpts o) = serverOptions f (webhookWatcher f) /\
  elements h (mo_TLSOpts (o_Metrics o)) = serverOptions f (metricsWatcher f) /\
  mo_Authenticated (o_Metrics o) = mo_SecureServing (o_Metrics o) /\
  (o_RetryPeriod o < o_RenewDeadline o < o_LeaseDuration o)%Z.

(** ** The monitor *)
Definition record (tr : list mevent) (c : mcall) (r : mresp c) : list mevent := tr ++ [Ev c r].

Definition permitted (f : Flags) (tr : list mevent) (c : mcall) : Prop :=
  match c with
  | Exit code => code = 1%Z /\ exists tr0 e, tr = tr0 ++ [e] /\ fatal e /\ unharmed tr0
  | SetupCall StartManager => unharmed tr /\ prepared f tr
  | SetupCall (NewManager o h) => unharmed tr /\ goodOptions f o h
  | _ => unharmed tr
  end.

Abbreviation wpm f := (wp (@any_env mcall mresp) record (permitted f)).

Lemma ghost_record s tr : ghost record s tr = s ++ tr.
Proof.
  revert s. induction tr as [|[c r] tr IH]; intros s; cbn; [by rewrite app_nil_r|].
  rewrite IH. unfold record. by rewrite <- app_assoc.
Qed.

Lemma unharmed_snoc tr e : unharmed tr -> ~ fatal e -> unharmed (tr ++ [e]).
Proof. intros H1 H2. apply Forall_app. split; [done|]. by constructor. Qed.

(** What holds after a call that went well. *)
Definition extends (s s' : list mevent) (e : mevent) : Prop := s ⊆ s' /\ unharmed s' /\ e ∈ s'.

Lemma extends_snoc s e : unharmed s -> ~ fatal e -> extends s (s ++ [e]) e.
Proof.
  intros Hs He. split; [intros x Hx; apply elem_of_app; by left|]. split; [by apply unharmed_snoc|].
  apply elem_of_app. right. left.
Qed.

Lemma wp_exit {A} f s e (Q : A -> list mevent -> Prop) : unharmed s -> fatal e -> wpm f (exit 1) (s ++ [e]) Q.
Proof. intros Hs He. cbn [wp exit]. split; [|by intros []]. split; [done|]. eexists _, _. done. Qed.

Lemma wp_setup f c s (Q : option error -> list mevent -> Prop) :
  permitted f s (SetupCall c) -> unharmed s ->
  (forall err, Q (Some err) (s ++ [setupEvent c (Some err)])) ->
  (forall s', extends s s' (setupEvent c None) -> Q None s') ->
  wpm f (setup c) s Q.
Proof.
  intros Hp Hs Hq1 Hq2. cbn [wp setup perform]. split; [done|]. intros [err|] _; [apply Hq1|].
  apply Hq2, extends_snoc; [done|]. cbn. naive_solver.
Qed.

(** A set-up step: the rest runs only if it succeeds. *)
Lemma wp_orExit {A} f c (q : mprog A) s Q :
  permitted f s (SetupCall c) -> unharmed s ->
  (forall s', extends s s' (setupEvent c None) -> wpm f q s' Q) ->
  wpm f (orExit (setup c) q) s Q.
Proof. intros Hp Hs Hq. apply wp_bind, wp_setup; [done|done| |done]. intros err. by apply wp_exit. Qed.

(** A ticker and its controller. *)
Lemma wp_periodic {A} f src C (q : mprog A) s Q :
  unharmed s ->
  (forall s', s ⊆ s' -> unharmed s' -> setupEvent (AddRunnable (RunTicker src)) None ∈ s' ->
     setupEvent (Complete C) None ∈ s' -> wpm f q s' Q) ->
  wpm f (orExit (let* e := setup (AddRunnable (RunTicker src)) in
                 match e with Some err => Ret (Some err) | None => setup (Complete C) end) q) s Q.
Proof.
  intros Hs Hq. apply wp_bind, wp_bind, wp_setup; [done|done| |].
  - intros err. cbn [wp]. by apply wp_exit.
  - intros s1 (H1&H2&H3). apply wp_setup; [done|done| |].
    + intros err. by apply wp_exit.
    + intros s2 (H4&H5&H6). apply Hq; set_solver.
Qed.

(** Discovery of a kind: one query, whose answer is in the result. *)
Lemma wp_discoverKind {A} f gv kind (q : result bool -> mprog A) s Q :
  unharmed s ->
  (forall res s', s ⊆ s' -> unharmed s' -> discoveredBy gv kind (availableOr res) s' -> wpm f (q res) s' Q) ->
  wpm f (bind (lift (discoverKind gv kind)) q) s Q.
Proof.
  intros Hs Hq. apply wp_bind. unfold discoverKind, perform. cbn [bind lift wp]. split; [done|].
  intros answer _. unfold record. cbn [mresp] in answer.
  pose proof (extends_snoc s (liftEvent (Ev (ServerResourcesForGroupVersion gv) answer)) Hs) as He.
  destruct He as (H1&H2&H3); [by intros []|].
  destruct answer as [kinds|e]; [|destruct (_ || _)]; cbn [lift wp].
  all: apply Hq; [done|done|]; eexists; (split; [exact H3|]); cbn.
  - rewrite existsb_exists. setoid_rewrite bool_decide_eq_true. setoid_rewrite <- list_elem_of_In. naive_solver.
  - naive_solver.
  - naive_solver.
Qed.

(** Discovery of everything: the reconciler is informed. *)
Lemma wp_discoverAll {A} f (q : Reconciler -> mprog A) s Q :
  unharmed s ->
  (forall r s', s ⊆ s' -> unharmed s' -> informed r s' -> wpm f (q r) s' Q) ->
  wpm f (discoverAll q) s Q.
Proof.
  intros Hs Hq. apply wp_orExit; [done|done|]. intros s1 (H1&H2&_).
  apply wp_discoverKind; [done|]. intros sm s2 H3 H4 (a1&H5&H6).
  apply wp_discoverKind; [done|]. intros scc s3 H7 H8 (a2&H9&H10).
  apply wp_bind, wp_setup; [done|done| |].
  - intros err. cbn. by apply wp_exit.
  - intros s4 (H11&H12&_). apply wp_bind. unfold DiscoverPrimaryIssuer, perform. cbn [bind lift wp].
    split; [done|]. intros answer _. unfold record. cbn [mresp resp] in answer.
    destruct answer as [body|e]; [|by apply wp_exit].
    pose proof (Unmarshal_issuer body) as HU. unfold DiscoverPrimaryIssuer, perform.
    destruct (Unmarshal_field JSONDiagnostic "issuer" body) as [issuer|e] eqn:E; [case_decide as Hd|]; cbn [lift wp].
    + apply wp_exit; [done|]. cbn. intros (i&Hi). apply HU in Hi as [[= ->] Hne]. done.
    + assert (Hn : namesIssuer body issuer) by by apply HU.
      destruct (extends_snoc s4 (liftEvent (Ev OIDCDiscovery (Ok body))) H12) as (H13&H14&H15); [cbn; naive_solver|].
      apply Hq; [set_solver|done|]. split; [exists a1; set_solver|]. split; [exists a2; set_solver|].
      exists body. done.
    + apply wp_exit; [done|]. cbn. intros (i&Hi). apply HU in Hi as [[=] _].
Qed.
(** The watcher of a server: its certificate is appended to the common options, which
    have no spare capacity, so that no other slice changes. *)
Lemma wp_withCertWatcher {A} f path cert key h opts (k : option CertWatcher -> heap TLSOpt -> slice -> mprog A) s Q :
  unharmed s -> slice_ok h opts -> sl_len opts = sl_cap opts ->
  (forall h' opts' s', unharmed s' -> slice_ok h' opts' ->
     elements h' opts' = elements h opts ++
       match watcherOf path cert key with None => [] | Some w => [Some (ServeCertificateOf w)] end ->
     (forall t, slice_ok h t -> slice_ok h' t /\ elements h' t = elements h t) ->
     wpm f (k (watcherOf path cert key) h' opts') s' Q) ->
  wpm f (withCertWatcher path cert key h opts k) s Q.
Proof.
  intros Hs Hok Hfull Hk. unfold withCertWatcher, watcherOf in *. cbv zeta. case_decide.
  - apply Hk; [done|done|by rewrite app_nil_r|done].
  - apply wp_orExit; [done|done|]. intros s' (_&Hs'&_).
    destruct (append h opts _) as [h' opts'] eqn:E.
    destruct (slice_ok_append_full _ _ _ _ _ Hfull Hok E) as [H1 H2].
    apply Hk; [done|done|by eapply elements_append|]. intros t Ht. split; [by apply H2|].
    by eapply elements_append_full.
Qed.

Lemma wp_addWatcher {A} f w (q : mprog A) s Q :
  unharmed s -> (forall s', s ⊆ s' -> unharmed s' -> watcherAdded w s' -> wpm f q s' Q) ->
  wpm f (addWatcher w q) s Q.
Proof.
  intros Hs Hq. destruct w as [w|]; cbn [addWatcher]; [|by apply Hq].
  apply wp_orExit; [done|done|]. intros s' (H1&H2&H3). by apply Hq.
Qed.

Lemma watcherAdded_mono w s s' : s ⊆ s' -> watcherAdded w s -> watcherAdded w s'.
Proof. destruct w; cbn; auto. Qed.

(** The end of main, from the registration of the controllers on. *)
Lemma wp_register f r s (Q : unit -> list mevent -> Prop) :
  unharmed s -> informed r s ->
  (forall s', unharmed s' -> setupEvent StartManager None ∈ s' -> Q tt s') ->
  wpm f (registerAndStart (metricsWatcher f) (webhookWatcher f) r) s Q.
Proof.
  intros Hs ((a1&Ha1&Ha1')&(a2&Ha2&Ha2')&body&Hb&Hb') HQ.
  apply wp_orExit; [done|done|]. intros s1 (H1&H2&H3).
  apply wp_periodic; [done|]. intros s2 H4 H5 H6 H7.
  apply wp_periodic; [done|]. intros s3 H8 H9 H10 H11.
  apply wp_addWatcher; [done|]. intros s4 H12 H13 H14.
  apply wp_addWatcher; [done|]. intros s5 H15 H16 H17.
  apply wp_orExit; [done|done|]. intros s6 (H18&H19&H20).
  apply wp_orExit; [done|done|]. intros s7 (H21&H22&H23).
  assert (s5 ⊆ s7) by by etrans. assert (s4 ⊆ s7) by by etrans. assert (s3 ⊆ s7) by by etrans.
  assert (s2 ⊆ s7) by by etrans. assert (s1 ⊆ s7) by by etrans. assert (s ⊆ s7) by by etrans.
  apply wp_orExit; [|done|intros s8 (_&?&?); by apply HQ].
  split; [done|]. split.
  { exists r. split; [|auto]. split; [exists a1; auto|]. split; [exists a2; auto|]. exists body. auto. }
  repeat split; eauto using watcherAdded_mono.
Qed.

Lemma wp_main f : wpm f (main f) [] (fun _ s => unharmed s /\ setupEvent StartManager None ∈ s).
Proof.
  unfold main.
  assert (exists h opts, (if enableHTTP2 f then ([], nilSlice) else append [] nilSlice DisableHTTP2) = (h, opts) /\
    slice_ok h opts /\ sl_len opts = sl_cap opts /\
    elements h opts = if enableHTTP2 f then [] else [Some DisableHTTP2]) as (h&opts&->&Hok&Hfull&Hel).
  { destruct (enableHTTP2 f); [by eexists _, _; split; [done|]; split; [apply slice_ok_nil|]|].
    eexists _, _. split; [reflexivity|]. split; [|done]. split; [done|]. right. by split; [cbn; lia|]. }
  apply wp_withCertWatcher; [constructor|done|done|]. intros h1 o1 s1 Hs1 Hok1 Hel1 Hfr1.
  destruct (Hfr1 _ Hok) as [Hok' Hel'].
  apply wp_withCertWatcher; [done|done|done|]. intros h2 o2 s2 Hs2 Hok2 Hel2 Hfr2.
  apply wp_bind. cbn [wp perform]. split; [done|]. intros [] _.
  destruct (extends_snoc s2 (@Ev mcall mresp GetConfigOrDie tt) Hs2) as (_&Hs3&_); [by intros []|].
  apply wp_orExit; [|done|].
  - split; [done|]. unfold goodOptions, serverOptions. cbn [o_WebhookTLSOpts mo_TLSOpts o_Metrics managerOptions].
    destruct (Hfr2 _ Hok1) as [_ ->]. rewrite Hel1, Hel2, Hel', Hel. by repeat split.
  - intros s4 (_&Hs4&_). apply wp_discoverAll; [done|]. intros r s5 _ Hs5 Hr.
    apply wp_register; [done|done|]. auto.
Qed.

(** C14: in every environment and with every command line, the start-up of the operator
    fails fast and in order.  The process exits only right after a fatal event, the
    first one, and with status 1, and no other call follows one.  The manager is
    created with exactly the TLS options its two servers should have, HTTP/2 off
    unless it is asked for and each with its own certificate although their slices
    are appended to a common one, with authentication of the metrics endpoint when it
    is secure, and with deadlines of leader election that are in order.  It is started
    only when the three controllers and the tickers of two of them, the certificate
    watchers of both servers and both probes are registered, and the reconciler of
    shards knows which optional APIs the cluster serves and the issuer it names.
    main returns only if the manager ran and stopped without an error. *)
Theorem startup_fails_fast f tr :
  (forall c, reaches (main f) tr c ->
    match c with
    | Exit code => code = 1%Z /\ exists tr0 e, tr = tr0 ++ [e] /\ fatal e /\ unharmed tr0
    | SetupCall StartManager => unharmed tr /\ prepared f tr
    | SetupCall (NewManager o h) => unharmed tr /\ goodOptions f o h
    | _ => unharmed tr
    end) /\
  (run (main f) tr tt -> unharmed tr /\ setupEvent StartManager None ∈ tr).
Proof.
  split.
  - intros c Hc. destruct (wp_reaches _ _ _ _ _ _ _ _ (wp_main f) (relied_any tr) Hc) as [_ H].
    by rewrite ghost_record in H.
  - intros Hr. destruct (wp_sound _ _ _ _ _ _ _ _ (wp_main f) (relied_any tr) Hr) as [_ H].
    by rewrite ghost_record in H.
Qed.
End Startup.

(** ** A start-up that succeeds *)
(** The run in an environment without state that need not answer every call. *)
Fixpoint drive {A} (h : forall c, option (mresp c)) (p : mprog A) : list mevent * option A :=
  match p with
  | Ret a => ([], Some a)
  | Do c k =>
      match h c with
      | None => ([], None)
      | Some r => let '(tr, a) := drive h (k r) in (Ev c r :: tr, a)
      end
  end.

Lemma drive_run {A} h (p : mprog A) a : (drive h p).2 = Some a -> run p (drive h p).1 a.
Proof.
  induction p as [b|c k IH]; cbn; [by intros [= ->]|].
  destruct (h c) as [r|]; [|done]. specialize (IH r). destruct (drive h (k r)) as [tr o]. cbn in *. eauto.
Qed.

Definition issuerDocument : string :=
  "{" +:+ dquote +:+ "issuer" +:+ dquote +:+ ":" +:+ dquote +:+ "https://issuer" +:+ dquote +:+ "}".

(** A cluster with neither ServiceMonitors nor OpenShift. *)
Definition plainCluster (c : mcall) : option (mresp c) :=
  match c return option (mresp c) with
  | KubeCall OIDCDiscovery => Some (Ok issuerDocument)
  | KubeCall (ServerResourcesForGroupVersion _) => Some (Err (mkError "not found" ClassNotFound))
  | KubeCall _ => None
  | GetConfigOrDie => Some tt
  | SetupCall _ => Some None
  | Exit _ => None
  end.

Definition servingFlags : Flags :=
  {| metricsAddr := ":8443"; probeAddr := ":8081"; enableLeaderElection := true; secureMetrics := true;
     webhookCertPath := "/webhook/"; webhookCertName := "tls.crt"; webhookCertKey := "tls.key";
     metricsCertPath := "/metrics"; metricsCertName := "tls.crt"; metricsCertKey := "tls.key";
     enableHTTP2 := false |}.

Example startup_succeeds : run (main servingFlags) (drive plainCluster (main servingFlags)).1 tt.
Proof. apply drive_run. vm_compute. reflexivity. Qed.
