(* ===== verification/Volumes.v ===== *)
(** * Volume claims of the in-cluster PostgreSQL

    The claim templates of a StatefulSet are immutable.  AlignPostgreSQLVolumeClaims
    (PostgresRes) keeps the live ones whatever the spec asks for, and
    preservePostgreSQLVolumeClaimTemplates (ApiShardSteps) reports the difference in
    the StorageReady condition. *)
From S2P Require Import Prelude GoStd KubeTypes APITypes Kube Reference ResCommon KineRes PostgresRes.
From S2P Require Import SecondaryRes MetricsRes OtelRes ApiShardSteps.

Definition sts_pod (s : StatefulSet) : PodSpec := tmpl_Spec (sts_Template (s_Spec s)).
Definition claim_names (s : StatefulSet) : list string := pvc_Name <$> sts_claims s.

(** The StatefulSet the operator wants for a shard, before alignment. *)
Definition desiredStatefulSet {T : ThirdParty} (scc : bool) (shard : APIShard) : StatefulSet :=
  if scc then BuildPostgreSQLStatefulSet shard
  else with_sts_template (with_pod_security (fun p => set_FSGroup 999 (set_RunAsUser 999 p)))
         (BuildPostgreSQLStatefulSet shard).

(** The StatefulSet applied by each of a sequence of reconciliations, each of
    which finds the one applied before. *)
Definition appliedAfter {T : ThirdParty} (scc : bool) (first : APIShard) (later : list APIShard) : StatefulSet :=
  foldl (fun live shard => AlignPostgreSQLVolumeClaims (desiredStatefulSet scc shard) live)
    (desiredStatefulSet scc first) later.

(** A StatefulSet whose data volume is a claim or an emptyDir. *)
Definition dataBacked (s : StatefulSet) : Prop :=
  NoDup (vol_names (sts_volumes s)) /\
  (claim_names s = [dataVolumeName] \/
   claim_names s = [] /\
   Exists (fun v => vol_Name v = dataVolumeName /\ is_emptyDir v = true) (sts_volumes s)).

(** The pods of a StatefulSet are all those of the desired one, its volumes apart. *)
Definition stsMounts : list string := [dataVolumeName; "tmp"; postgresqlTLSVolumeName; "init-scripts"].

Section Align.
Context {T : ThirdParty}.

Lemma desired_volumes scc shard :
  sts_volumes (desiredStatefulSet scc shard) = postgresVolumes shard /\
  sts_claims (desiredStatefulSet scc shard) = postgresClaimTemplates shard /\
  pod_Containers (sts_pod (desiredStatefulSet scc shard)) = [postgresContainer shard].
Proof. by destruct scc. Qed.

Lemma vol_names_desired shard :
  vol_names (postgresVolumes shard) =
  match persistenceFromShard shard with Some _ => [] | None => [dataVolumeName] end ++
  ["tmp"; postgresqlTLSVolumeName; "init-scripts"].
Proof. unfold postgresVolumes. by destruct (persistenceFromShard shard). Qed.

Lemma desired_dataBacked scc shard : dataBacked (desiredStatefulSet scc shard).
Proof.
  destruct (desired_volumes scc shard) as (Hv&Hc&_). unfold dataBacked, claim_names. rewrite Hv, Hc, vol_names_desired.
  unfold postgresClaimTemplates, postgresVolumes. destruct (persistenceFromShard shard) as [p|].
  - split; [|by left]. apply (bool_decide_eq_true_1 _). by vm_compute.
  - split; [apply (bool_decide_eq_true_1 _); by vm_compute|]. right. split; [done|]. by left.
Qed.

Lemma align_claims d l : sts_claims (AlignPostgreSQLVolumeClaims d l) = sts_claims l.
Proof. unfold AlignPostgreSQLVolumeClaims. by case_decide. Qed.

Lemma align_containers d l :
  pod_Containers (sts_pod (AlignPostgreSQLVolumeClaims d l)) = pod_Containers (sts_pod d).
Proof. unfold AlignPostgreSQLVolumeClaims. by case_decide. Qed.

(** Volume names after alignment with a claim for the data volume. *)
Lemma align_volumes_claim d l :
  claim_names l = [dataVolumeName] ->
  vol_names (sts_volumes (AlignPostgreSQLVolumeClaims d l)) =
  List.filter (fun n => negb (bool_decide (n = dataVolumeName))) (vol_names (sts_volumes d)).
Proof.
  intros Hc. unfold AlignPostgreSQLVolumeClaims, volumeClaimTemplateNames.
  change (pvc_Name <$> sts_claims l) with (claim_names l). rewrite Hc. cbn -[size].
  rewrite (decide_True (P := 0 < _)) by (rewrite union_empty_r_L, size_singleton; lia).
  cbn. unfold sts_volumes. cbn. generalize (pod_Volumes (tmpl_Spec (sts_Template (s_Spec d)))) as vs.
  induction vs as [|v vs IH]; cbn; [done|].
  assert (bool_decide (vol_Name v ∈ ({[dataVolumeName]} ∪ ∅ : gset string)) = bool_decide (vol_Name v = dataVolumeName)) as ->
    by (apply bool_decide_ext; set_solver).
  destruct (bool_decide _); cbn; [done|]. by f_equal.
Qed.

(** ... and without claims. *)
Lemma align_volumes_empty d l :
  claim_names l = [] ->
  sts_volumes (AlignPostgreSQLVolumeClaims d l) =
  sts_volumes d ++ List.filter (fun v => is_emptyDir v && negb (bool_decide (vol_Name v ∈ vol_names (sts_volumes d))))
                     (sts_volumes l).
Proof.
  intros Hc. unfold AlignPostgreSQLVolumeClaims, volumeClaimTemplateNames.
  change (pvc_Name <$> sts_claims l) with (claim_names l). rewrite Hc. cbn -[size].
  rewrite (decide_False (P := 0 < _)) by (rewrite size_empty; lia). cbn. f_equal.
  apply List.filter_ext. intros v. do 2 f_equal. apply bool_decide_ext.
  unfold volumeNames, vol_names, sts_volumes. cbn. by rewrite elem_of_list_to_set.
Qed.
End Align.

Lemma NoDup_filter_names (P : Volume -> bool) vs : NoDup (vol_names vs) -> NoDup (vol_names (List.filter P vs)).
Proof.
  induction vs as [|v vs IH]; cbn; [done|]. intros [H1 H2]%NoDup_cons. destruct (P v); cbn; [|auto].
  apply NoDup_cons. split; [|auto]. intros (w&Hw&Hin)%list_elem_of_fmap. apply H1, list_elem_of_fmap. exists w.
  split; [done|]. apply list_elem_of_In, filter_In in Hin as [Hin _]. by apply list_elem_of_In.
Qed.

Lemma pod_wf_single claims p c :
  pod_Containers p = [c] -> NoDup (claims ++ vol_names (pod_Volumes p)) ->
  mount_names c ⊆ claims ++ vol_names (pod_Volumes p) -> NoDup (mount_paths c) -> pod_wf claims p.
Proof. intros Hc H1 H2 H3. split; [done|]. rewrite Hc. by constructor. Qed.

Section Step.
Context {T : ThirdParty}.

Lemma postgres_mounts shard : mount_names (postgresContainer shard) = stsMounts.
Proof. done. Qed.

Lemma postgres_paths shard : NoDup (mount_paths (postgresContainer shard)).
Proof. apply (bool_decide_eq_true_1 _). by vm_compute. Qed.

(** The volumes left after alignment with a claim are the three that do not hold
    data. *)
Lemma align_claim_names scc shard l :
  claim_names l = [dataVolumeName] ->
  vol_names (sts_volumes (AlignPostgreSQLVolumeClaims (desiredStatefulSet scc shard) l)) =
  ["tmp"; postgresqlTLSVolumeName; "init-scripts"].
Proof.
  intros Hc. rewrite (align_volumes_claim _ _ Hc).
  destruct (desired_volumes scc shard) as (->&_&_). rewrite vol_names_desired.
  by destruct (persistenceFromShard shard).
Qed.

Lemma filtered_disjoint (P : Volume -> bool) (names : list string) vs :
  NoDup names -> NoDup (vol_names vs) ->
  NoDup (names ++ vol_names (List.filter (fun v => P v && negb (bool_decide (vol_Name v ∈ names))) vs)).
Proof.
  intros Hn Hv. apply NoDup_app. split; [done|]. split; [|by apply NoDup_filter_names].
  intros x Hx (v&->&Hin)%list_elem_of_fmap.
  apply list_elem_of_In, filter_In in Hin as [_ [_ H]%andb_true_iff].
  by apply negb_true_iff, bool_decide_eq_false in H.
Qed.

Lemma align_step scc shard l :
  dataBacked l ->
  let s := AlignPostgreSQLVolumeClaims (desiredStatefulSet scc shard) l in
  dataBacked s /\ pod_wf (claim_names s) (sts_pod s).
Proof.
  intros [Hnd Hd] s. destruct (desired_volumes scc shard) as (Hv&_&Hcs).
  assert (Hcn : claim_names s = claim_names l) by (unfold claim_names, s; by rewrite align_claims).
  assert (Hc1 : pod_Containers (sts_pod s) = [postgresContainer shard]) by (unfold s; by rewrite align_containers).
  destruct Hd as [Hc|[Hc Hex]].
  - pose proof (align_claim_names scc shard l Hc) as Hn. split.
    + split; [|left; congruence]. unfold s. rewrite Hn. apply (bool_decide_eq_true_1 _). by vm_compute.
    + apply (pod_wf_single _ _ _ Hc1); [..|apply postgres_paths].
      all: rewrite Hcn, Hc; change (pod_Volumes (sts_pod s)) with (sts_volumes s); unfold s; rewrite Hn.
      * apply (bool_decide_eq_true_1 _). by vm_compute.
      * rewrite postgres_mounts. by unfold stsMounts.
  - pose proof (align_volumes_empty (desiredStatefulSet scc shard) l Hc) as Hs. fold s in Hs. rewrite Hv in Hs.
    assert (Hnd' : NoDup (vol_names (sts_volumes s))).
    { rewrite Hs. unfold vol_names at 1. rewrite fmap_app. apply filtered_disjoint; [|done].
      destruct (desired_dataBacked scc shard) as [H _]. by rewrite Hv in H. }
    assert (Hdata : Exists (fun v => vol_Name v = dataVolumeName /\ is_emptyDir v = true) (sts_volumes s)).
    { rewrite Hs. apply Exists_app. unfold postgresVolumes. destruct (persistenceFromShard shard) eqn:E; [|by left; left].
      right. apply Exists_exists in Hex as (v&Hin&Hn&He). apply Exists_exists. exists v. split; [|done].
      apply list_elem_of_In, filter_In. split; [by apply list_elem_of_In|]. rewrite He, Hn. by vm_compute. }
    split; [split; [done|right; split; [congruence|done]]|].
    apply (pod_wf_single _ _ _ Hc1); [..|apply postgres_paths].
    all: rewrite Hcn, Hc; change (pod_Volumes (sts_pod s)) with (sts_volumes s); cbn [app].
    { done. }
    rewrite postgres_mounts. intros x. unfold stsMounts. rewrite elem_of_cons. intros [->|Hx].
    + apply Exists_exists in Hdata as (v&Hin&Hn&_). apply list_elem_of_fmap. by exists v.
    + rewrite Hs. unfold vol_names. rewrite fmap_app. apply elem_of_app. left.
      change (vol_Name <$> postgresVolumes shard) with (vol_names (postgresVolumes shard)).
      rewrite vol_names_desired. apply elem_of_app. by right.
Qed.

(** The invariant of a sequence of reconciliations. *)
Definition keepsClaims (first : APIShard) (s : StatefulSet) : Prop :=
  sts_claims s = postgresClaimTemplates first /\ dataBacked s /\ pod_wf (claim_names s) (sts_pod s).

Lemma desired_keepsClaims scc first : keepsClaims first (desiredStatefulSet scc first).
Proof.
  split; [apply desired_volumes|]. split; [apply desired_dataBacked|].
  destruct (desired_volumes scc first) as (Hv&Hc&Hcs). unfold claim_names.
  apply (pod_wf_single _ _ _ Hcs); [..|apply postgres_paths].
  all: change (pod_Volumes (sts_pod (desiredStatefulSet scc first))) with (sts_volumes (desiredStatefulSet scc first)).
  all: rewrite Hv, Hc, vol_names_desired; unfold postgresClaimTemplates.
  - destruct (persistenceFromShard first); apply (bool_decide_eq_true_1 _); by vm_compute.
  - rewrite postgres_mounts. by destruct (persistenceFromShard first).
Qed.

Lemma applied_keepsClaims scc first later : keepsClaims first (appliedAfter scc first later).
Proof.
  unfold appliedAfter. generalize (desired_keepsClaims scc first). generalize (desiredStatefulSet scc first) as s.
  induction later as [|sh later IH]; intros s Hs; [done|].
  apply IH. destruct Hs as (H1&H2&_). split; [by rewrite align_claims|]. by apply align_step.
Qed.

(** C24: a claim template, once applied, is never changed and never dropped: after
    any sequence of changes of the spec, persistence added, removed, resized or of
    another class, the StatefulSet that is applied has the claim templates of the
    first one, and its pods are well formed, so the data volume they mount is still
    the one of the first StatefulSet, a claim if and only if it was one. *)
Theorem volume_claims_survive scc first later :
  let s := appliedAfter scc first later in
  sts_claims s = postgresClaimTemplates first /\ pod_wf (claim_names s) (sts_pod s) /\
  (dataVolumeName ∈ claim_names s <-> is_Some (persistenceFromShard first)) /\
  (dataVolumeName ∈ vol_names (sts_volumes s) <-> persistenceFromShard first = None).
Proof.
  destruct (applied_keepsClaims scc first later) as (H1&[H2 H3]&H4). split; [done|]. split; [done|].
  unfold claim_names in *. rewrite H1 in *. destruct H4 as [Hnd _].
  unfold postgresClaimTemplates in *. destruct (persistenceFromShard first) as [p|]; cbn in *.
  - split; [split; [by eexists|by left]|]. split; [|done]. intros Hin.
    apply NoDup_cons in Hnd as [Hnd _]. by destruct Hnd.
  - split; [split; [by intros ?%elem_of_nil|by intros []]|]. split; [done|]. intros _.
    destruct H3 as [H3|[_ H3]]; [done|]. apply Exists_exists in H3 as (v&Hin&Hn&_).
    apply list_elem_of_fmap. by exists v.
Qed.
End Step.
