(* ===== verification/StorageProps.v ===== *)
(** * The storage step

    What the storage steps of ApiShardSteps do on every branch: the StorageReady
    condition, the credentials of the in-cluster PostgreSQL, the StatefulSet that is
    applied, the validation of an external connection secret and the fallback of the
    Kine service. *)
From S2P Require Import Prelude GoStd KubeTypes APITypes Kube Reference ResCommon KineRes PostgresRes.
From S2P Require Import SecondaryRes MetricsRes OtelRes ApiShardSteps Volumes.

(** ** Compatible claim templates *)
Definition claimCompatible (requested live : PersistentVolumeClaim) : Prop :=
  pvc_Name requested = pvc_Name live /\
  q_Value (resource_get (pvc_Requests requested) "storage") = q_Value (resource_get (pvc_Requests live) "storage") /\
  match pvc_StorageClassName requested with
  | Some c => pvc_StorageClassName live = Some c
  | None => pvc_StorageClassName live <> Some ""
  end.

Lemma claimMatches_spec a b : claimMatches a b = true <-> claimCompatible a b.
Proof.
  unfold claimMatches, claimCompatible, storageClassNamesMatch, QuantityCmp.
  rewrite !andb_true_iff, bool_decide_eq_true.
  assert (Hq : forall x y, (match (x ?= y)%Z with Eq => true | _ => false end) = true <-> x = y).
  { intros x y. destruct (Z.compare_spec x y); split; (lia || done). }
  rewrite Hq, Logic.and_assoc. do 2 (apply and_iff_compat_l).
  destruct (pvc_StorageClassName a) as [x|], (pvc_StorageClassName b) as [y|].
  - rewrite bool_decide_eq_true. naive_solver.
  - naive_solver.
  - rewrite negb_true_iff, bool_decide_eq_false. naive_solver.
  - naive_solver.
Qed.

Lemma VolumeClaimTemplatesMatch_spec requested live :
  VolumeClaimTemplatesMatch requested live = true <-> Forall2 claimCompatible requested live.
Proof.
  revert live. induction requested as [|a requested IH]; intros [|b live]; cbn.
  - split; [constructor|done].
  - split; [done|]. by intros ?%Forall2_nil_cons_inv.
  - split; [done|]. by intros ?%Forall2_cons_nil_inv.
  - by rewrite andb_true_iff, claimMatches_spec, IH, Forall2_cons.
Qed.

(** The condition of a shard that concerns its current generation. *)
Definition reports {T : ThirdParty} (t : string) (s : APIShard) (g : Z) (st : ConditionStatus) : Prop :=
  exists c, find_condition t s = Some c /\ cond_Status c = st /\ cond_ObservedGeneration c = g.

(** The outcome of aligning with the live StatefulSet, by the answer to the Get. *)
Definition alignedWith {T : ThirdParty} (shard : APIShard) (desired : StatefulSet)
    (answer : result StatefulSet) (out : option error * APIShard * StatefulSet) : Prop :=
  let '(e, shard', s) := out in
  match answer with
  | Ok live =>
      e = None /\ s = AlignPostgreSQLVolumeClaims desired live /\
      exists st, reports ConditionStorageReady shard' (shardGeneration shard) st /\ st <> ConditionUnknown /\
                 (st = ConditionTrue <-> Forall2 claimCompatible (sts_claims desired) (sts_claims live))
  | Err err =>
      s = desired /\
      if IsNotFound err then e = None /\ reports ConditionStorageReady shard' (shardGeneration shard) ConditionTrue
      else is_Some e /\ shard' = shard
  end.

(** The branch of the external secret that was taken: status, reason and whether
    the step fails. *)
Definition secretVerdict (ref : option SecretKeyReference) (answer : result Secret) : ConditionStatus * string * bool :=
  match ref, answer with
  | None, _ => (ConditionFalse, "MissingConnectionSecretRef", true)
  | Some ref, Err e => (ConditionFalse, (if IsNotFound e then "SecretNotFound" else "SecretReadError"), true)
  | Some ref, Ok secret =>
      if mok (sec_Data secret) (skr_Key ref) then (ConditionTrue, "SecretValid", false)
      else (ConditionFalse, "KeyNotFound", true)
  end.

Section Conditions.
Context {T : ThirdParty} {L : ThirdPartyLaws T}.

Lemma reports_storageReady shard st reason message :
  reports ConditionStorageReady (storageReady shard st reason message) (shardGeneration shard) st.
Proof. unfold reports, storageReady. eexists. rewrite find_set_condition, decide_True by done. done. Qed.

Lemma preserve_alignedWith shard desired tr out :
  run (preservePostgreSQLVolumeClaimTemplates shard desired) tr out ->
  exists answer, tr = [Ev (Get PrimaryC KStatefulSet (obj_key KStatefulSet desired)) answer] /\
                 alignedWith shard desired answer out.
Proof.
  unfold preservePostgreSQLVolumeClaimTemplates. intros H. destruct H as (answer&tr'&->&H).
  exists answer. destruct answer as [live|err]; cbn in H.
  - destruct (VolumeClaimTemplatesMatch _ _) eqn:E; destruct H as [-> ->].
    all: split; [done|]; split; [done|]; split; [done|].
    all: eexists; split; [apply reports_storageReady|]; split; [done|].
    + split; [intros _; by apply VolumeClaimTemplatesMatch_spec|done].
    + split; [done|]. intros H%VolumeClaimTemplatesMatch_spec. congruence.
  - destruct (IsNotFound err) eqn:E; destruct H as [-> ->]; cbn; rewrite E.
    + split; [done|]. split; [done|]. split; [done|]. apply reports_storageReady.
    + split; [done|]. split; [done|]. split; [by eexists|done].
Qed.

Lemma preserve_service shard desired tr e sh s :
  run (preservePostgreSQLVolumeClaimTemplates shard desired) tr (e, sh, s) ->
  BuildPostgreSQLService sh = BuildPostgreSQLService shard.
Proof.
  intros ([live|err]&tr'&->&H); cbn in H.
  - by destruct (VolumeClaimTemplatesMatch _ _); destruct H as [_ [= -> -> ->]].
  - by destruct (IsNotFound err); destruct H as [_ [= -> -> ->]].
Qed.

(** C22: the volume claims are checked against the live StatefulSet with one read,
    and StorageReady tells the truth about them: it is True for the current
    generation exactly if the requested templates agree with the live ones in
    number, name and size, and in storage class unless none is requested and the
    live class is not the empty one; without a live StatefulSet it is True and
    the desired StatefulSet is left alone, and a failed read fails the step
    without touching the status. *)
Theorem storage_ready_exact shard desired tr out :
  run (preservePostgreSQLVolumeClaimTemplates shard desired) tr out ->
  exists answer, tr = [Ev (Get PrimaryC KStatefulSet (obj_key KStatefulSet desired)) answer] /\
                 alignedWith shard desired answer out.
Proof. apply preserve_alignedWith. Qed.

(** An external connection secret is read at most once; the step fails exactly
    if the reference is missing, the secret cannot be read or lacks the key, and
    in each case StorageReady carries the status and reason of that case for the
    current generation. *)
Theorem external_secret_verdict shard tr e shard' :
  run (validateExternalPostgreSQLSecret shard) tr (e, shard') ->
  exists answer st reason fails,
    secretVerdict (ConnectionSecretRef (Storage (Spec shard))) answer = (st, reason, fails) /\
    match ConnectionSecretRef (Storage (Spec shard)) with
    | None => tr = []
    | Some ref => tr = [Ev (Get PrimaryC KSecret {| nn_Namespace := shardNS shard; nn_Name := skr_Name ref |}) answer]
    end /\
    (is_Some e <-> fails = true) /\
    exists c, find_condition ConditionStorageReady shard' = Some c /\ cond_Status c = st /\
              cond_Reason c = reason /\ cond_ObservedGeneration c = shardGeneration shard.
Proof.
  assert (Hc : forall st reason msg, exists c,
    find_condition ConditionStorageReady (storageReady shard st reason msg) = Some c /\ cond_Status c = st /\
    cond_Reason c = reason /\ cond_ObservedGeneration c = shardGeneration shard).
  { intros. unfold storageReady. eexists. rewrite find_set_condition, decide_True by done. done. }
  unfold validateExternalPostgreSQLSecret, secretVerdict.
  destruct (ConnectionSecretRef _) as [ref|]; intros H.
  - destruct H as ([secret|err]&tr'&->&H); cbn in H.
    + exists (Ok secret). destruct (mok _ _); destruct H as [-> [= -> ->]]; do 3 eexists; (split; [reflexivity|]).
      all: split; [done|]; split; [|apply Hc]; split; [by intros []|done] || by eexists.
    + exists (Err err). destruct (IsNotFound err); destruct H as [-> [= -> ->]]; do 3 eexists; (split; [reflexivity|]).
      all: split; [done|]; split; [|apply Hc]; split; by eexists.
  - destruct H as [-> [= -> ->]]. exists (Err (Errorf "")). do 3 eexists. split; [reflexivity|].
    split; [done|]. split; [|apply Hc]. split; [done|by eexists].
Qed.
End Conditions.

(** ** What reconcileInClusterPostgreSQL applies *)
Section Applies.
Context {T : ThirdParty} {L : ThirdPartyLaws T}.
Variable r : Reconciler.

(** A trace whose every event satisfies [P]. *)
Definition allEvents (P : kevent -> Prop) (tr : list kevent) : Prop := Forall P tr.

Lemma run_apply_or what tc k o tr e :
  run (apply_or what tc k o) tr e <->
  exists answer, tr = [Ev (ApplyOwned tc k o) answer] /\ e = Wrapf what <$> answer.2.
Proof.
  unfold apply_or, apply_owned. cbn. split.
  - intros (a&tr'&->&->&->). by exists a.
  - intros (a&->&->). exists a, []. done.
Qed.

(** The password step: the Get, and the random bytes if there is no password yet. *)
Definition passwordTrace (shard : APIShard) (tr : list kevent) (pw : result string) : Prop :=
  exists answer,
    let key := {| nn_Namespace := shardNS shard; nn_Name := PostgreSQLSecretName shard |} in
    let existing := match answer with Ok s => mget (sec_Data s) "POSTGRES_PASSWORD" | Err _ => "" end in
    if decide (existing = "")
    then exists bytes, tr = [Ev (Get PrimaryC KSecret key) answer; Ev (RandRead 16) bytes] /\
           match bytes with
           | Ok b => pw = Ok (hex_EncodeToString b)
           | Err _ => exists e, pw = Err e
           end
    else tr = [Ev (Get PrimaryC KSecret key) answer] /\ pw = Ok existing.

Lemma run_password shard tr pw :
  run (getOrGeneratePostgresPassword shard) tr pw -> passwordTrace shard tr pw.
Proof.
  unfold getOrGeneratePostgresPassword. intros (answer&tr'&->&H). exists answer. cbn zeta.
  assert (Hg : run GeneratePassword tr' pw -> exists bytes, tr' = [Ev (RandRead 16) bytes] /\
    match bytes with Ok b => pw = Ok (hex_EncodeToString b) | Err _ => exists e, pw = Err e end).
  { intros (b&t2&->&Hb). exists b. destruct b; destruct Hb as [-> ->]; eauto. }
  destruct answer as [s|err]; cbn in H.
  - destruct (decide (mget (sec_Data s) "POSTGRES_PASSWORD" = "")) as [E|E].
    + rewrite E, bool_decide_eq_true_2 in H by done. destruct (Hg H) as (b&->&Hb). eauto.
    + rewrite bool_decide_eq_false_2 in H by done. destruct H as [-> ->]. done.
  - rewrite decide_True by done. destruct (Hg H) as (b&->&Hb). eauto.
Qed.

(** The calls of reconcileInClusterPostgreSQL after the password step. *)
Definition postgresCalls (tc : TrackingClient) (shard : APIShard) (pw : string) (tr : list kevent) : Prop :=
  allEvents (fun ev =>
    match ev_call ev with
    | ApplyOwned tc' KSecret o => tc' = tc /\ o = BuildPostgreSQLSecret shard pw
    | ApplyOwned tc' KStatefulSet s =>
        tc' = tc /\ exists answer,
          Ev (Get PrimaryC KStatefulSet (obj_key KStatefulSet (desiredStatefulSet (SCCAvailable r) shard))) answer ∈ tr /\
          match answer with
          | Ok live => s = AlignPostgreSQLVolumeClaims (desiredStatefulSet (SCCAvailable r) shard) live
          | Err e => IsNotFound e = true /\ s = desiredStatefulSet (SCCAvailable r) shard
          end
    | ApplyOwned tc' KConfigMap o => tc' = tc /\ o = BuildPostgreSQLInitConfigMap shard
    | ApplyOwned tc' KService o => tc' = tc /\ o = BuildPostgreSQLService shard
    | Get PrimaryC KStatefulSet _ => True
    | _ => False
    end) tr.

Lemma run_reconcileInClusterPostgreSQL tc shard tr out :
  run (reconcileInClusterPostgreSQL r tc shard) tr out ->
  exists tr1 tr2 pw, tr = tr1 ++ tr2 /\ passwordTrace shard tr1 pw /\
    match pw with
    | Ok pw => postgresCalls tc shard pw tr2
    | Err _ => tr2 = [] /\ is_Some out.1
    end.
Proof.
  unfold reconcileInClusterPostgreSQL. intros H. apply run_bind in H as (tr1&tr2&pw&->&Hp&H).
  exists tr1, tr2, pw. split; [done|]. split; [by apply run_password|].
  destruct pw as [pw|e]; [|destruct H as [-> ->]; split; [done|by eexists]].
  apply run_bind in H as (ta&tb&e1&->&(a1&->&->)%run_apply_or&H).
  destruct (a1.2); [destruct H as [-> ->]; by repeat constructor|]. change (fmap _ None) with (@None error) in H. cbv iota in H.
  apply run_bind in H as (tc2&td&e2&->&(a2&->&->)%run_apply_or&H).
  destruct (a2.2); [destruct H as [-> ->]; by repeat constructor|]. change (fmap _ None) with (@None error) in H. cbv iota zeta in H.
  fold (desiredStatefulSet (SCCAvailable r) shard) in H.
  apply run_bind in H as (te&tf&[[e3 sh] s]&->&Hpr&H).
  pose proof (preserve_service _ _ _ _ _ _ Hpr) as Hsvc. apply preserve_alignedWith in Hpr as (a3&->&Ha).
  destruct e3 as [err|]; [destruct H as [-> ->]; by repeat constructor|].
  rewrite Hsvc in H. apply run_bind in H as (tg&th&e4&->&(a4&->&->)%run_apply_or&H).
  assert (Hs : match a3 with
               | Ok live => s = AlignPostgreSQLVolumeClaims (desiredStatefulSet (SCCAvailable r) shard) live
               | Err e => IsNotFound e = true /\ s = desiredStatefulSet (SCCAvailable r) shard
               end).
  { destruct a3 as [live|err]; cbn in Ha; [by destruct Ha as (_&->&_)|]. destruct Ha as [-> Ha].
    destruct (IsNotFound err); [split; reflexivity|]. by destruct Ha as [[? [=]] _]. }
  assert (Hth : th = [] \/ exists a5, th = [Ev (ApplyOwned tc KService (BuildPostgreSQLService shard)) a5]).
  { destruct (a4.2); [destruct H as [-> _]; by left|]. change (fmap _ None) with (@None error) in H. cbv iota in H.
    apply run_bind in H as (ti&tj&e5&->&(a5&->&->)%run_apply_or&H). right. exists a5.
    by destruct (a5.2); destruct H as [-> _]. }
  unfold postgresCalls, allEvents. cbn [app].
  do 2 (apply Forall_cons; split; [split; reflexivity|]). apply Forall_cons; split; [exact I|].
  apply Forall_cons; split.
  - split; [reflexivity|]. exists a3. split; [|exact Hs]. right. right. left.
  - destruct Hth as [->|[a5 ->]]; [constructor|]. constructor; [split; reflexivity|constructor].
Qed.

Lemma passwordTrace_gets shard tr pw ev :
  passwordTrace shard tr pw -> ev ∈ tr ->
  match ev_call ev with Get PrimaryC KSecret _ => True | RandRead 16 => True | _ => False end.
Proof.
  intros (answer&H) Hin. cbn zeta in H. case_decide.
  - destruct H as (b&->&_). apply elem_of_cons in Hin as [->|Hin]; [done|]. by apply list_elem_of_singleton in Hin as ->.
  - destruct H as [-> _]. by apply list_elem_of_singleton in Hin as ->.
Qed.

(** The claim templates are those of the live StatefulSet, or the requested ones if
    there is none. *)
Definition claimsFrom (shard : APIShard) (tr : list kevent) (s : StatefulSet) : Prop :=
  exists answer,
    Ev (Get PrimaryC KStatefulSet
          {| nn_Namespace := shardNS shard; nn_Name := PostgreSQLStatefulSetName shard |}) answer ∈ tr /\
    match answer with
    | Ok live => sts_claims s = sts_claims live
    | Err e => IsNotFound e = true /\ sts_claims s = postgresClaimTemplates shard
    end.

(** C23: the StatefulSet of the in-cluster PostgreSQL is only ever applied after
    the live one was read: with its claim templates unchanged if there is one, and
    as built from the spec if there is none. *)
Theorem statefulset_applied_with_live_claims tc shard tr out tc' s resp :
  run (reconcileInClusterPostgreSQL r tc shard) tr out -> Ev (ApplyOwned tc' KStatefulSet s) resp ∈ tr ->
  claimsFrom shard tr s.
Proof.
  intros Hrun Hin. apply run_reconcileInClusterPostgreSQL in Hrun as (tr1&tr2&pw&->&Hp&H).
  apply elem_of_app in Hin as [Hin|Hin]; [by apply (passwordTrace_gets _ _ _ _ Hp) in Hin|].
  destruct pw as [pw|e]; [|destruct H as [-> _]; by apply elem_of_nil in Hin].
  unfold postgresCalls, allEvents in H. rewrite Forall_forall in H. apply H in Hin as (_&answer&Hget&Hs). exists answer.
  destruct (desired_volumes (SCCAvailable r) shard) as (_&Hc&_). split.
  - apply elem_of_app. right. by destruct (SCCAvailable r).
  - destruct answer; [by rewrite Hs, align_claims|]. destruct Hs as [? ->]. by rewrite Hc.
Qed.

(** The key of the secret with the credentials of the in-cluster PostgreSQL. *)
Definition credentialsKey (shard : APIShard) : NamespacedName :=
  {| nn_Namespace := TargetNamespace (Spec shard); nn_Name := shardName shard +:+ "-postgresql-credentials" |}.

(** The password that the cluster holds there, if any. *)
Definition passwordStep (key : NamespacedName) (pw : option string) (c : call) : resp c -> option string :=
  match c return resp c -> option string with
  | ApplyOwned _ k o =>
      match k return obj k -> obj k * option error -> option string with
      | KSecret => fun o res =>
          if decide (obj_key KSecret o = key /\ res.2 = None)
          then Some (mget (sec_StringData o) "POSTGRES_PASSWORD") else pw
      | _ => fun _ _ => pw
      end o
  | _ => fun _ => pw
  end.

(** A read of that secret is answered, and with what the cluster holds. *)
Definition answeredRead (key : NamespacedName) (pw : option string) (c : call) : resp c -> Prop :=
  match c return resp c -> Prop with
  | Get PrimaryC k key' =>
      match k return result (obj k) -> Prop with
      | KSecret => fun res =>
          key' = key ->
          match res with
          | Ok s => pw = Some (mget (sec_Data s) "POSTGRES_PASSWORD")
          | Err e => IsNotFound e = true /\ pw = None
          end
      | _ => fun _ => True
      end
  | _ => fun _ => True
  end.

Fixpoint answeredReads (key : NamespacedName) (pw : option string) (tr : list kevent) : Prop :=
  match tr with
  | [] => True
  | e :: tr => answeredRead key pw (ev_call e) (ev_resp e) /\
               answeredReads key (passwordStep key pw (ev_call e) (ev_resp e)) tr
  end.

#[export] Instance answeredReads_dec key pw tr : Decision (answeredReads key pw tr).
Proof.
  revert pw. induction tr as [|[c res] tr IH]; intros pw; [exact True_dec|]. apply and_dec; [|apply IH].
  destruct c as [[] k key'| | | | | | | | | | | | | | |]; try exact True_dec. destruct k; try exact True_dec.
  cbn. apply impl_dec; [apply _|]. destruct res; apply _.
Defined.

Lemma answeredReads_app key pw t1 t2 :
  answeredReads key pw (t1 ++ t2) <-> answeredReads key pw t1 /\ answeredReads key (ghost (passwordStep key) pw t1) t2.
Proof. revert pw. induction t1 as [|e t1 IH]; intros pw; cbn; [tauto|]. rewrite IH. tauto. Qed.

(** A credentials secret with the given password, alone and in the connection string. *)
Definition carries (shard : APIShard) (pw : string) (o : Secret) : Prop :=
  mget (sec_StringData o) "POSTGRES_PASSWORD" = pw /\
  mget (sec_StringData o) "KINE_ENDPOINT" =
    "postgres://kine:" +:+ pw +:+ "@" +:+ shardName shard +:+ "-postgresql." +:+ TargetNamespace (Spec shard) +:+
    ".svc:5432/kine?sslmode=verify-full&sslrootcert=/etc/kine/pg-ca/ca.crt".

(** No random bytes are drawn, and every secret applied carries the password. *)
Definition reuses (shard : APIShard) (pw : string) (tr : list kevent) : Prop :=
  allEvents (fun e => match ev_call e with
                      | RandRead _ => False
                      | ApplyOwned _ KSecret o => carries shard pw o
                      | _ => True
                      end) tr.

Lemma secret_carries shard pw : carries shard pw (BuildPostgreSQLSecret shard pw).
Proof.
  split; [done|]. change (PostgreSQLDSN shard "kine" pw = "postgres://kine:" +:+ pw +:+ "@" +:+ shardName shard +:+
    "-postgresql." +:+ shardNS shard +:+ ".svc:5432/kine?sslmode=verify-full&sslrootcert=/etc/kine/pg-ca/ca.crt").
  unfold PostgreSQLDSN, PostgreSQLServiceName. by rewrite <- (string_app_assoc (shardName shard)).
Qed.

(** The secrets that are applied after the password step. *)
Lemma postgresCalls_secrets tc shard pw tr st :
  postgresCalls tc shard pw tr ->
  reuses shard pw tr /\ (ghost (passwordStep (credentialsKey shard)) st tr = st \/
                         ghost (passwordStep (credentialsKey shard)) st tr = Some pw).
Proof.
  unfold postgresCalls, reuses, allEvents. intros H.
  assert (Hs : Forall (fun e => match ev_call e with
                 | ApplyOwned _ KSecret o => o = BuildPostgreSQLSecret shard pw | RandRead _ => False | _ => True end) tr).
  { eapply Forall_impl; [exact H|]. intros [c res] He. cbn [ev_call] in He |- *.
    destruct c as [| | | | | | | |? k o| | | | | | |]; try done. destruct k; try done. by destruct He as [_ ->]. }
  clear H. split.
  - eapply Forall_impl; [exact Hs|]. intros [c res] He. cbn [ev_call] in He |- *.
    destruct c as [| | | | | | | |? k o| | | | | | |]; try done. destruct k; try done. rewrite He. apply secret_carries.
  - revert st. induction Hs as [|[c res] tr He _ IH]; intros st; cbn [ghost ev_call ev_resp]; [by left|]. cbn [ev_call] in He.
    destruct c as [| | | | | | | |? k o| | | | | | |]; try done; try apply IH. destruct k; try apply IH.
    rewrite He. cbn [passwordStep]. case_decide; [|apply IH]. right. destruct (IH (Some pw)) as [E|E]; exact E.
Qed.

(** One reconciliation in a cluster that holds a password. *)
Lemma run_reuses tc shard tr out pw :
  run (reconcileInClusterPostgreSQL r tc shard) tr out -> pw <> "" ->
  answeredReads (credentialsKey shard) (Some pw) tr ->
  ghost (passwordStep (credentialsKey shard)) (Some pw) tr = Some pw /\ reuses shard pw tr.
Proof.
  intros (tr1&tr2&p&->&(answer&Hp)&H)%run_reconcileInClusterPostgreSQL Hpw Ha.
  apply answeredReads_app in Ha as [Ha _]. cbn zeta in Hp.
  assert (exists s, answer = Ok s /\ mget (sec_Data s) "POSTGRES_PASSWORD" = pw) as (s&->&Es).
  { assert (exists t, tr1 = Ev (Get PrimaryC KSecret (credentialsKey shard)) answer :: t) as (t&->)
      by (case_decide; [destruct Hp as (b&->&_)|destruct Hp as [-> _]]; by eexists).
    destruct Ha as [Ha _]. specialize (Ha eq_refl). destruct answer as [s|e]; [|by destruct Ha].
    exists s. split; [done|]. cbn in Ha. congruence. }
  rewrite Es, decide_False in Hp by done. destruct Hp as [-> ->]. rewrite ghost_app. cbn.
  destruct (postgresCalls_secrets tc shard pw tr2 (Some pw) H) as [Hr Hg].
  split; [by destruct Hg|]. constructor; [done|exact Hr].
Qed.

(** C25: the password of the in-cluster PostgreSQL is stable: once the cluster holds one,
    it holds the same one after any number of reconciliations of the shard, with
    whatever other specification, each of them complete or failed, as long as the reads
    of the credentials secret are answered: no random bytes are drawn, and every
    credentials secret that is applied carries that password, alone and in the
    connection string.  Only when the cluster holds no such secret is a password made,
    and then of 16 random bytes.  A read that fails otherwise than with NotFound is
    excluded: then the code makes a new password as well. *)
Theorem postgres_password_stable shard runs pw :
  let key := credentialsKey shard in
  Forall (fun tr => exists tc shard' out, shardName shard' = shardName shard /\
            TargetNamespace (Spec shard') = TargetNamespace (Spec shard) /\
            run (reconcileInClusterPostgreSQL r tc shard') tr out) runs ->
  answeredReads key pw (concat runs) ->
  match pw with
  | Some pw => pw <> "" ->
      ghost (passwordStep key) (Some pw) (concat runs) = Some pw /\ reuses shard pw (concat runs)
  | None => forall tr, runs = [tr] ->
      ghost (passwordStep key) None tr = None \/
      exists b, Ev (RandRead 16) (Ok b) ∈ tr /\ ghost (passwordStep key) None tr = Some (hex_EncodeToString b)
  end.
Proof.
  cbv zeta. intros HF Ha. destruct pw as [pw|].
  - intros Hpw. induction HF as [|tr runs (tc&shard'&out&Hn&Hns&Hrun) HF IH]; [split; [done|constructor]|].
    cbn [concat] in *. apply answeredReads_app in Ha as [Ha1 Ha2].
    assert (credentialsKey shard' = credentialsKey shard) as Hk by (unfold credentialsKey; by rewrite Hn, Hns).
    rewrite <- Hk in Ha1. destruct (run_reuses tc shard' tr out pw Hrun Hpw Ha1) as [Hg Hr]. rewrite Hk in Hg.
    rewrite Hg in Ha2. rewrite ghost_app, Hg. destruct (IH Ha2) as [Hg' Hr']. split; [done|].
    apply Forall_app. split; [|done]. unfold reuses, carries in Hr. by rewrite Hn, Hns in Hr.
  - intros tr ->. cbn in Ha. rewrite app_nil_r in Ha. apply Forall_cons in HF as [(tc&shard'&out&Hn&Hns&Hrun) _].
    assert (credentialsKey shard' = credentialsKey shard) as Hk by (unfold credentialsKey; by rewrite Hn, Hns).
    rewrite <- Hk in Ha |- *. apply run_reconcileInClusterPostgreSQL in Hrun as (tr1&tr2&p&->&(answer&Hp)&H).
    cbn zeta in Hp. case_decide as E.
    + destruct Hp as (bytes&->&Hb). rewrite ghost_app. cbn. destruct bytes as [b|e].
      * subst p. destruct (postgresCalls_secrets tc shard' _ tr2 None H) as [_ [?|?]]; [by left|]. right.
        exists b. split; [|done]. right. left.
      * destruct Hb as [? ->]. destruct H as [-> _]. by left.
    + destruct Hp as [-> ->]. destruct Ha as [Ha _]. specialize (Ha eq_refl). cbn in Ha.
      destruct answer as [s|e]; [done|]. by destruct E.
Qed.

(** The applies of the Kine service in a trace, and the error that is returned. *)
Definition appliedWithFallback (tc : TrackingClient) (svc : Service) (tr : list kevent) (e : option error) : Prop :=
  exists svc1 e1,
    let first := Ev (ApplyOwned tc KService svc) (svc1, e1) in
    if match e1 with Some err => bool_decide (is_Some (svc_TrafficDistribution svc1)) && isTrafficDistributionUnsupported err
       | None => false end
    then exists answer, tr = [first; Ev (ApplyOwned tc KService (set_TrafficDistribution None svc1)) answer] /\
                        (e = None <-> answer.2 = None)
    else tr = [first] /\ (e = None <-> e1 = None).

(** The Kine service is applied once, and a second time, without its traffic
    distribution and otherwise as the cluster returned it, exactly if it has one
    and the error says that the cluster does not know the field; the step fails
    exactly if the last apply does. *)
Theorem kine_service_fallback tc svc tr e :
  run (applyKineService tc svc) tr e ->
  appliedWithFallback tc svc tr e.
Proof.
  intros ([svc1 e1]&tr'&->&H). exists svc1, e1. cbn zeta. destruct e1 as [err|]; cbn -[apply_or] in H.
  - destruct (bool_decide _ && _).
    + apply run_apply_or in H as (answer&->&->). exists answer. split; [done|]. by destruct (answer.2).
    + by destruct H as [-> ->].
  - by destruct H as [-> ->].
Qed.
End Applies.

(** ** Witnesses *)
Definition demoReconciler : Reconciler :=
  {| ServiceMonitorAvailable := true; SCCAvailable := true; PrimaryIssuer := "https://issuer" |}.

Definition pgShard : APIShard := demoShard inClusterStorage.

(** A live StatefulSet whose claim is larger than the one requested. *)
Definition liveStatefulSet : StatefulSet :=
  with_claim_templates
    [ {| pvc_Name := dataVolumeName; pvc_AccessModes := ["ReadWriteOnce"]; pvc_StorageClassName := Some "gp3";
         pvc_Requests := [("storage", {| q_Value := 20; q_String := "20" |})] |} ]
    (desiredStatefulSet true pgShard).

(** A cluster with the StatefulSet and the credentials of an earlier reconciliation. *)
Definition pgCluster : world :=
  {| w_primary := [ existT KStatefulSet liveStatefulSet;
                    existT KSecret (demoSecret "demo-postgresql-credentials" [("POSTGRES_PASSWORD", "s3cret")]) ];
     w_secondary := []; w_clock := 0 |}.

Definition preserveRun :=
  ref_exec (preservePostgreSQLVolumeClaimTemplates pgShard (desiredStatefulSet true pgShard)) pgCluster.
Definition pgRun := ref_exec (reconcileInClusterPostgreSQL demoReconciler (trackingClient pgShard) pgShard) pgCluster.

Lemma storage_ready_exact_witness :
  result_of preserveRun =
    (None, storageReady pgShard ConditionFalse "VolumeClaimTemplateImmutable"
             (immutableMessage (sts_claims liveStatefulSet) (postgresClaimTemplates pgShard)),
     AlignPostgreSQLVolumeClaims (desiredStatefulSet true pgShard) liveStatefulSet) /\
  exists answer, trace_of preserveRun =
      [Ev (Get PrimaryC KStatefulSet (obj_key KStatefulSet (desiredStatefulSet true pgShard))) answer] /\
    alignedWith pgShard (desiredStatefulSet true pgShard) answer (result_of preserveRun).
Proof.
  split; [reflexivity|].
  exact (storage_ready_exact pgShard (desiredStatefulSet true pgShard) _ _ (exec_run ref_handler _ pgCluster)).
Defined.

Lemma statefulset_applied_with_live_claims_witness :
  claimsFrom pgShard (trace_of pgRun) (AlignPostgreSQLVolumeClaims (desiredStatefulSet true pgShard) liveStatefulSet).
Proof.
  apply (statefulset_applied_with_live_claims demoReconciler (trackingClient pgShard) pgShard (trace_of pgRun) _
    (trackingClient pgShard) (AlignPostgreSQLVolumeClaims (desiredStatefulSet true pgShard) liveStatefulSet)
    (liveStatefulSet, None) (exec_run ref_handler _ pgCluster)).
  apply (list_elem_of_lookup_2 _ 4). reflexivity.
Defined.

(** Two reconciliations of the shard. *)
Lemma postgres_password_stable_witness :
  ghost (passwordStep (credentialsKey pgShard)) (Some "s3cret") (concat [trace_of pgRun; trace_of pgRun]) = Some "s3cret" /\
  reuses pgShard "s3cret" (concat [trace_of pgRun; trace_of pgRun]).
Proof.
  refine (postgres_password_stable demoReconciler pgShard [trace_of pgRun; trace_of pgRun] (Some "s3cret") _ _ _).
  - repeat constructor; exists (trackingClient pgShard), pgShard, (result_of pgRun); repeat split; exact (exec_run ref_handler _ pgCluster).
  - apply (bool_decide_unpack _). vm_compute. exact I.
  - discriminate.
Defined.

Definition externalShard : APIShard :=
  demoShard {| Type_ := StorageTypePostgreSQL;
               ConnectionSecretRef := Some {| skr_Name := "demo-postgresql-credentials"; skr_Key := "dsn" |};
               InCluster := None; StorageMonitoring := None |}.
Definition externalRun := ref_exec (validateExternalPostgreSQLSecret externalShard) pgCluster.

Lemma external_secret_verdict_witness :
  is_Some (result_of externalRun).1 /\
  exists c, find_condition ConditionStorageReady (result_of externalRun).2 = Some c /\ cond_Status c = ConditionFalse.
Proof.
  destruct (external_secret_verdict externalShard (trace_of externalRun) (result_of externalRun).1
    (result_of externalRun).2 (exec_run ref_handler _ pgCluster)) as (answer&st&reason&fails&H1&H2&H3&c&H4&H5&_).
  assert (Hf : is_Some (result_of externalRun).1) by (vm_compute; eexists; reflexivity).
  split; [exact Hf|]. exists c. split; [exact H4|]. rewrite H5. apply H3 in Hf. subst fails. cbn in H1.
  destruct answer as [s|e]; [destruct (mok _ _)|]; congruence.
Defined.

Definition oldAPI (c : call) (w : world) : resp c * world :=
  match c return resp c * world with
  | ApplyOwned _ KService o =>
      match svc_TrafficDistribution o with
      | Some _ => ((o, Some (Errorf "unknown field spec.trafficDistribution")), w)
      | None => ((o, None), w)
      end
  | c => ref_handler c w
  end.
Definition kineSvcRun := exec oldAPI (applyKineService (trackingClient pgShard) (BuildKineService pgShard)) pgCluster.

Lemma kine_service_fallback_witness :
  result_of kineSvcRun = None /\ length (trace_of kineSvcRun) = 2 /\
  exists svc1 e1, trace_of kineSvcRun <> [Ev (ApplyOwned (trackingClient pgShard) KService (BuildKineService pgShard)) (svc1, e1)].
Proof.
  assert (Hl : length (trace_of kineSvcRun) = 2) by reflexivity.
  destruct (kine_service_fallback (trackingClient pgShard) (BuildKineService pgShard) (trace_of kineSvcRun) _
    (exec_run oldAPI _ pgCluster)) as (svc1&e1&H). split; [reflexivity|]. split; [exact Hl|].
  exists svc1, e1. intros E. rewrite E in Hl. discriminate Hl.
Defined.
