(* ===== verification/CertProps.v ===== *)
(** * The certificate chains

    Properties of the cert-manager resources of Certs, as reconcileCertManager
    applies them: which certificates a CA signs, that no two resources collide, and
    that the names and secrets the workloads use are the ones that are issued. *)
From S2P Require Import Prelude GoStd KubeTypes APITypes Kube Reference ResCommon KineRes PostgresRes.
From S2P Require Import SecondaryRes MetricsRes OtelRes Certs ApiShardSteps.

(** ** Reading the resources *)
Definition specString (u : Unstructured) (path : list string) : option string :=
  match jfield (u_Content u) "spec" ≫= fun v => jpath v path with
  | Some (JString s) => Some s
  | _ => None
  end.

(** The issuer of a Certificate, the secret it is stored in, and the CA secret an
    Issuer signs with.  The issuer is one of the certificate's namespace only if the
    reference says that it is an Issuer (not a ClusterIssuer) of cert-manager. *)
Definition issuedBy (u : Unstructured) : option string :=
  if decide (specString u ["issuerRef"; "kind"] = Some "Issuer" /\
             specString u ["issuerRef"; "group"] = Some "cert-manager.io")
  then specString u ["issuerRef"; "name"] else None.
Definition storedIn (u : Unstructured) : option string := specString u ["secretName"].
Definition signsWith (u : Unstructured) : option string := specString u ["ca"; "secretName"].

Definition specStrings (u : Unstructured) (path : list string) : list string :=
  match jfield (u_Content u) "spec" ≫= fun v => jpath v path with
  | Some (JList l) => omap (fun v => match v with JString s => Some s | _ => None end) l
  | _ => []
  end.

(** What a certificate may be used for, and whether it may sign others. *)
Definition usages (u : Unstructured) : list string := specStrings u ["usages"].
Definition isCA (u : Unstructured) : bool :=
  match jfield (u_Content u) "spec" ≫= fun v => jpath v ["isCA"] with
  | Some (JBool b) => b
  | _ => false
  end.

Definition certDNSNames (u : Unstructured) : list string := specStrings u ["dnsNames"].

(** The certificates of a namespace signed with the CA in a secret of it: those of the
    namespace's issuers that sign with that secret. *)
Definition issuersWith (ns caSecret : string) (us : list Unstructured) : list string :=
  omap (fun u => if decide (meta_Namespace (u_Meta u) = ns /\ signsWith u = Some caSecret)
                 then Some (meta_Name (u_Meta u)) else None) us.

Definition signedWith (ns caSecret : string) (us : list Unstructured) : list Unstructured :=
  let issuers := issuersWith ns caSecret us in
  List.filter (fun u => bool_decide (meta_Namespace (u_Meta u) = ns) &&
                        match issuedBy u with Some i => bool_decide (i ∈ issuers) | None => false end) us.

(** The name of a certificate, whether it is a CA, and its usages. *)
Definition certUse (u : Unstructured) : string * bool * list string := (meta_Name (u_Meta u), isCA u, usages u).

Definition certKey (u : Unstructured) : string * string * string :=
  (meta_Namespace (u_Meta u), gvk_Kind (u_GVK u), meta_Name (u_Meta u)).
Definition secretKey (u : Unstructured) : option (string * string) := pair (meta_Namespace (u_Meta u)) <$> storedIn u.

(** ** Strings with a common prefix *)
(** Two names that end in a suffix starting with a dash are the same only if one of
    the shards' names is the other's, or the other's followed by a dash. *)
Lemma dashed_inj a b s t :
  a +:+ "-" +:+ s = b +:+ "-" +:+ t ->
  a = b \/ (exists r, b = a +:+ "-" +:+ r) \/ exists r, a = b +:+ "-" +:+ r.
Proof.
  revert b. induction a as [|x a IH]; intros [|y b]; rewrite ?app_cons.
  - by left.
  - intros [= <- _]. right; left. by exists b.
  - intros [= -> _]. right; right. by exists a.
  - intros [= -> H]. destruct (IH b H) as [->|[[r ->]|[r ->]]]; [by left|right; left|right; right].
    all: exists r; by rewrite app_cons.
Qed.

(** ** Suffixes: every name of the resources starts with the shard's name *)
Record suffixed := { sx_Kind : string; sx_Name : string; sx_IssuedBy : option string; sx_SignsWith : option string;
                     sx_StoredIn : option string; sx_CA : bool; sx_Usages : list string }.

Definition describes (shard : APIShard) (x : suffixed) (u : Unstructured) : Prop :=
  let p := fun s => shardName shard +:+ "-" +:+ s in
  meta_Namespace (u_Meta u) = shardNS shard /\
  gvk_Kind (u_GVK u) = sx_Kind x /\ meta_Name (u_Meta u) = p (sx_Name x) /\ issuedBy u = p <$> sx_IssuedBy x /\
  signsWith u = p <$> sx_SignsWith x /\ storedIn u = p <$> sx_StoredIn x /\ isCA u = sx_CA x /\ usages u = sx_Usages x.

Definition certRow (ca : bool) (use : list string) (name issuer secret : string) : suffixed :=
  {| sx_Kind := "Certificate"; sx_Name := name; sx_IssuedBy := Some issuer; sx_SignsWith := None;
     sx_StoredIn := Some secret; sx_CA := ca; sx_Usages := use |}.
Definition root := certRow true [].
Definition server := certRow false [].
Definition client := certRow false ["client auth"].
Definition issuer (name : string) (ca : option string) : suffixed :=
  {| sx_Kind := "Issuer"; sx_Name := name; sx_IssuedBy := None; sx_SignsWith := ca; sx_StoredIn := None;
     sx_CA := false; sx_Usages := [] |}.

Definition certTable (postgres : bool) : list suffixed :=
  [ issuer "selfsigned" None; root "front-proxy-ca" "selfsigned" "ca-keypair"; issuer "ca-issuer" (Some "ca-keypair");
    server "serving-cert" "ca-issuer" "pki"; client "admin-client" "ca-issuer" "admin-client-cert";
    issuer "kine-selfsigned" None; root "kine-ca" "kine-selfsigned" "kine-ca-keypair";
    issuer "kine-ca-issuer" (Some "kine-ca-keypair"); server "kine-serving" "kine-ca-issuer" "kine-serving-cert";
    client "etcd-client" "kine-ca-issuer" "etcd-client-cert" ] ++
  if postgres then
    [ issuer "postgresql-selfsigned" None; root "postgresql-ca" "postgresql-selfsigned" "postgresql-ca-keypair";
      issuer "postgresql-ca-issuer" (Some "postgresql-ca-keypair");
      server "postgresql-serving" "postgresql-ca-issuer" "postgresql-serving-cert" ]
  else [].

Lemma cert_table shard :
  Forall2 (describes shard) (certTable (bool_decide (storageType shard = StorageTypeInClusterPostgreSQL)))
    (buildCertResources shard).
Proof.
  unfold buildCertResources.
  destruct (decide _); [rewrite bool_decide_eq_true_2 by done|rewrite bool_decide_eq_false_2 by done]; cbn [certTable app].
  all: repeat (apply Forall2_cons; split; [repeat split|]); apply Forall2_nil; exact I.
Qed.

Definition sxSigned (ca : string) (t : list suffixed) : list suffixed :=
  let issuers := omap (fun x => if decide (sx_SignsWith x = Some ca) then Some (sx_Name x) else None) t in
  List.filter (fun x => match sx_IssuedBy x with Some i => bool_decide (i ∈ issuers) | None => false end) t.

Section Table.
Context (shard : APIShard) (t : list suffixed) (us : list Unstructured).
Hypothesis described : Forall2 (describes shard) t us.
Let p (s : string) : string := shardName shard +:+ "-" +:+ s.
Let ns : string := shardNS shard.

Lemma p_inj a b : p a = p b -> a = b.
Proof. unfold p. intros H%app_string_inj_l%app_string_inj_l. done. Qed.

Lemma table_issuers ca :
  issuersWith ns (p ca) us = p <$> omap (fun x => if decide (sx_SignsWith x = Some ca) then Some (sx_Name x) else None) t.
Proof.
  unfold issuersWith. revert described. induction 1 as [|x u t' us' (Hns&_&Hn&_&Hs&_) _ IH]; [done|]. cbn. rewrite Hns, Hs.
  destruct (sx_SignsWith x) as [s|]; cbn.
  - destruct (decide (s = ca)) as [->|E].
    + rewrite decide_True by done. rewrite (decide_True (P := Some ca = Some ca)) by done. cbn. by rewrite Hn, IH.
    + rewrite decide_False by (intros [_ [= H%p_inj]]; done).
      rewrite (decide_False (P := Some s = Some ca)) by congruence. apply IH.
  - rewrite decide_False by (by intros [_ ?]). apply IH.
Qed.

Lemma bool_decide_p a (l : list string) : bool_decide (p a ∈ p <$> l) = bool_decide (a ∈ l).
Proof.
  apply bool_decide_ext. rewrite list_elem_of_fmap. split.
  - intros (x&H%p_inj&Hx). by subst.
  - intros H. by exists a.
Qed.

Lemma table_signed ca :
  Forall2 (describes shard) (sxSigned ca t) (signedWith ns (p ca) us).
Proof.
  unfold signedWith, sxSigned. cbv zeta. rewrite table_issuers. set (is_ := omap _ t). clearbody is_.
  revert described. induction 1 as [|x u t' us' Hd _ IH]; [constructor|]. cbn.
  pose proof Hd as (Hns&_&_&Hi&_). rewrite Hns, bool_decide_eq_true_2, Hi by done.
  destruct (sx_IssuedBy x) as [i|]; cbn; [|done].
  rewrite (bool_decide_p i). destruct (bool_decide _); cbn; [|done]. by constructor.
Qed.

Lemma table_uses : certUse <$> us = (fun x => (p (sx_Name x), sx_CA x, sx_Usages x)) <$> t.
Proof.
  revert described. induction 1 as [|x u t' us' (_&_&Hn&_&_&_&Hc&Hu) _ IH]; [done|]. cbn. unfold certUse at 1.
  by rewrite Hn, Hc, Hu, IH.
Qed.

Lemma table_keys : certKey <$> us = (fun x => (ns, sx_Kind x, p (sx_Name x))) <$> t.
Proof.
  revert described. induction 1 as [|x u t' us' (Hns&Hk&Hn&_) _ IH]; [done|]. cbn. unfold certKey at 1.
  by rewrite Hns, Hk, Hn, IH.
Qed.

Lemma table_secrets : omap storedIn us = p <$> omap sx_StoredIn t.
Proof.
  revert described. induction 1 as [|x u t' us' (_&_&_&_&_&Hs&_) _ IH]; [done|]. cbn. rewrite Hs.
  destruct (sx_StoredIn x); cbn; by rewrite IH.
Qed.

Lemma table_secretKeys : omap secretKey us = pair ns ∘ p <$> omap sx_StoredIn t.
Proof.
  revert described. induction 1 as [|x u t' us' (Hns&_&_&_&_&Hs&_) _ IH]; [done|]. cbn. unfold secretKey at 1.
  rewrite Hns, Hs. destruct (sx_StoredIn x); cbn; by rewrite IH.
Qed.

(** A resource of which no name is one of the shard's namespace and prefix is not
    part of the shard's chains. *)
Definition foreign (u : Unstructured) : Prop :=
  meta_Namespace (u_Meta u) = ns -> forall s, signsWith u <> Some (p s) /\ issuedBy u <> Some (p s).

Lemma signedWith_own l1 l2 ca :
  Forall foreign l1 -> Forall foreign l2 -> signedWith ns (p ca) (l1 ++ us ++ l2) = signedWith ns (p ca) us.
Proof.
  intros H1 H2. unfold signedWith. cbv zeta.
  assert (Hi : forall l, Forall foreign l -> issuersWith ns (p ca) l = []).
  { induction 1 as [|u l Hu _ IH]; [done|]. cbn. rewrite decide_False; [exact IH|]. intros [E Es]. by destruct (Hu E ca). }
  assert (E : issuersWith ns (p ca) (l1 ++ us ++ l2) = issuersWith ns (p ca) us).
  { unfold issuersWith. rewrite !omap_app. fold (issuersWith ns (p ca) l1) (issuersWith ns (p ca) l2).
    rewrite (Hi l1), (Hi l2) by done. by rewrite app_nil_r. }
  rewrite E, table_issuers. set (is_ := omap _ t). clearbody is_.
  assert (Hf : forall l, Forall foreign l ->
    List.filter (fun u => bool_decide (meta_Namespace (u_Meta u) = ns) &&
      match issuedBy u with Some i => bool_decide (i ∈ p <$> is_) | None => false end) l = []).
  { induction 1 as [|u l Hu _ IH]; [done|]. cbn. rewrite IH.
    destruct (bool_decide_reflect (meta_Namespace (u_Meta u) = ns)) as [En|]; [|done]. cbn.
    destruct (issuedBy u) as [i|] eqn:Ei; [|done]. rewrite bool_decide_eq_false_2; [done|].
    rewrite list_elem_of_fmap. intros (s&->&_). by destruct (Hu En s). }
  rewrite !List.filter_app, (Hf l1), (Hf l2) by done. by rewrite app_nil_r.
Qed.
End Table.

(** ** Several shards *)
(** No shard is called like another one of its namespace followed by a dash and more. *)
Definition unrelated (shards : list APIShard) : Prop :=
  forall a b s, a ∈ shards -> b ∈ shards -> shardNS a = shardNS b -> shardName b <> shardName a +:+ "-" +:+ s.

Section Shards.
Context (shards : list APIShard).
Hypothesis distinct : NoDup (shardName <$> shards).
Hypothesis apart : unrelated shards.

Lemma same_shard a b s t :
  a ∈ shards -> b ∈ shards -> shardNS a = shardNS b ->
  shardName a +:+ "-" +:+ s = shardName b +:+ "-" +:+ t -> a = b.
Proof.
  intros Ha Hb En H. destruct (dashed_inj _ _ _ _ H) as [E|[[r E]|[r E]]].
  - apply list_elem_of_lookup in Ha as [i Hi], Hb as [j Hj].
    assert (i = j) as ->; [|congruence].
    apply (NoDup_lookup _ i j (shardName a) distinct); rewrite list_lookup_fmap, ?Hi, ?Hj; cbn; congruence.
  - by apply apart in E.
  - by apply apart in E.
Qed.

Lemma other_foreign a b u :
  a ∈ shards -> b ∈ shards -> a <> b -> u ∈ buildCertResources b -> foreign a u.
Proof.
  intros Ha Hb Hab Hu Hns s. apply list_elem_of_lookup in Hu as [i Hi].
  destruct (Forall2_lookup_r _ _ _ _ _ (cert_table b) Hi) as (x&_&Hd). destruct Hd as (En&_&_&Ei&Es&_).
  rewrite Es, Ei. split.
  - destruct (sx_SignsWith x) as [c|]; cbn; [|done]. intros [= E]. apply Hab. symmetry.
    eapply same_shard; [done..|congruence|exact E].
  - destruct (sx_IssuedBy x) as [c|]; cbn; [|done]. intros [= E]. apply Hab. symmetry.
    eapply same_shard; [done..|congruence|exact E].
Qed.

(** What is signed with a CA of a shard are resources of that shard. *)
Lemma signedWith_shard shard ca :
  shard ∈ shards ->
  signedWith (shardNS shard) (shardName shard +:+ "-" +:+ ca) (shards ≫= buildCertResources) =
  signedWith (shardNS shard) (shardName shard +:+ "-" +:+ ca) (buildCertResources shard).
Proof.
  intros Hs. pose proof Hs as Hs'. apply list_elem_of_split in Hs' as (l1&l2&E).
  assert (Hf : forall l, l ⊆ shards -> shard ∉ l -> Forall (foreign shard) (l ≫= buildCertResources)).
  { intros l Hl Hn. apply Forall_forall. intros u (b&Hu&Hb)%list_elem_of_bind.
    apply (other_foreign shard b); [done|by apply Hl|by intros ->|done]. }
  assert (Hnd : NoDup shards) by (by apply (NoDup_fmap_1 shardName)).
  rewrite E in Hnd. apply NoDup_app in Hnd as (_&H1&Hnd%NoDup_cons). destruct Hnd as [H2 _].
  rewrite E, bind_app, bind_cons.
  apply (signedWith_own shard _ _ (cert_table shard)); apply Hf.
  1, 3: rewrite E; set_solver.
  - intros Hin. apply (H1 _ Hin). left.
  - exact H2.
Qed.

Lemma resources_fmap {A} (f : Unstructured -> A) :
  f <$> (shards ≫= buildCertResources) = shards ≫= fun a => f <$> buildCertResources a.
Proof. clear. induction shards as [|a l IH]; [done|]. rewrite !bind_cons, fmap_app. by rewrite IH. Qed.

Lemma resources_distinct : NoDup (certKey <$> (shards ≫= buildCertResources)).
Proof.
  rewrite resources_fmap. apply NoDup_bind.
  - intros a b k Ha Hb. rewrite (table_keys _ _ _ (cert_table a)), (table_keys _ _ _ (cert_table b)).
    intros (x&->&_)%list_elem_of_fmap (y&H&_)%list_elem_of_fmap. injection H as En _ E.
    by apply (same_shard a b (sx_Name x) (sx_Name y)).
  - intros a _. rewrite (table_keys _ _ _ (cert_table a)).
    rewrite (list_fmap_compose (fun x => (sx_Kind x, sx_Name x))
               (fun x => (shardNS a, x.1, shardName a +:+ "-" +:+ x.2))).
    apply NoDup_fmap_2; [intros [] [] [= -> Hx%app_string_inj_l%app_string_inj_l]; cbn in *; congruence|].
    destruct (bool_decide _); apply (bool_decide_eq_true_1 _); by vm_compute.
  - by apply (NoDup_fmap_1 shardName).
Qed.

Lemma secrets_distinct : NoDup (omap secretKey (shards ≫= buildCertResources)).
Proof.
  assert (E : omap secretKey (shards ≫= buildCertResources) = shards ≫= fun a => omap secretKey (buildCertResources a)).
  { clear. induction shards as [|a l IH]; [done|]. rewrite !bind_cons, omap_app. by rewrite IH. }
  rewrite E. apply NoDup_bind.
  - intros a b k Ha Hb. rewrite (table_secretKeys _ _ _ (cert_table a)), (table_secretKeys _ _ _ (cert_table b)).
    intros (x&->&_)%list_elem_of_fmap (y&H&_)%list_elem_of_fmap. injection H as En E'.
    by apply (same_shard a b x y).
  - intros a _. rewrite (table_secretKeys _ _ _ (cert_table a)).
    apply NoDup_fmap_2; [intros x y [= H%app_string_inj_l%app_string_inj_l]; done|].
    destruct (bool_decide _); apply (bool_decide_eq_true_1 _); by vm_compute.
  - by apply (NoDup_fmap_1 shardName).
Qed.
End Shards.

(** A container sees all keys of a secret in a directory. *)
Definition mountsAt (p : PodSpec) (c : Container) (dir secret : string) : Prop :=
  exists m v, m ∈ c_VolumeMounts c /\ vm_MountPath m = dir /\ v ∈ pod_Volumes p /\ vol_Name v = vm_Name m /\
    vol_Source v = SecretVolume secret [].

(** Kine verifies its clients against the CA of the certificate in a secret; the
    secondary presents the certificate in a secret to Kine. *)
Definition kineTrusts (shard : APIShard) (secret : string) : Prop :=
  let p := tmpl_Spec (dep_Template (d_Spec (BuildKineDeployment shard))) in
  exists c before after, c ∈ pod_Containers p /\ mountsAt p c "/etc/kine/tls" secret /\
    c_Args c = before ++ ["--trusted-ca-file"; "/etc/kine/tls/ca.crt"] ++ after.

Definition secondaryPresents (shard : APIShard) (allowed issuers : list string) (secret : string) : Prop :=
  let p := tmpl_Spec (dep_Template (d_Spec (BuildSecondaryDeployment shard allowed issuers))) in
  exists c, c ∈ pod_Containers p /\ mountsAt p c "/etc/kubernetes/etcd-client" secret /\
    "--etcd-certfile=/etc/kubernetes/etcd-client/tls.crt" ∈ c_Args c.

Lemma kine_trusts shard : kineTrusts shard (shardName shard +:+ "-kine-serving-cert").
Proof.
  exists (kineContainer shard), (take 10 (kineArgs shard)). eexists. split; [left|]. split; [|reflexivity].
  eexists _, _. split; [apply list_elem_of_further, list_elem_of_here|]. split; [done|].
  split; [apply list_elem_of_further, list_elem_of_here|]. done.
Qed.

Lemma secondary_presents shard allowed issuers :
  secondaryPresents shard allowed issuers (shardName shard +:+ "-etcd-client-cert").
Proof.
  eexists. split; [left|]. split; [|right; left].
  eexists _, _. split; [do 3 right; left|]. split; [done|].
  split; [do 3 right; left|]. done.
Qed.

(** C28: each shard has chains of trust of its own, among the resources of all shards
    of a cluster (their names are different, and no shard is called like another one
    of its target namespace followed by a dash and more: such names can collide).
    With the Kine CA of a shard exactly its Kine serving certificate, which declares
    no usage, and its etcd client certificate, which is for client authentication
    only, are signed; with the shard CA exactly its serving certificate and its admin
    client certificate; with the PostgreSQL CA exactly the serving certificate of an
    in-cluster PostgreSQL; none of these is a CA itself.  Kine verifies its clients
    against the CA of its own serving certificate, the Kine CA, and the secondary
    presents to it the one client certificate signed with that CA.  No two resources
    of the cluster have the same namespace, kind and name, and no two certificates
    are stored in the same secret. *)
Theorem chains_separate {T : ThirdParty} shards shard allowed issuers :
  shard ∈ shards -> NoDup (shardName <$> shards) -> unrelated shards ->
  let us := shards ≫= buildCertResources in
  let ns := TargetNamespace (Spec shard) in
  let kine := signedWith ns (shardName shard +:+ "-kine-ca-keypair") us in
  certUse <$> kine =
    [ (shardName shard +:+ "-kine-serving", false, []);
      (shardName shard +:+ "-etcd-client", false, ["client auth"]) ] /\
  certUse <$> signedWith ns (shardName shard +:+ "-ca-keypair") us =
    [ (shardName shard +:+ "-serving-cert", false, []);
      (shardName shard +:+ "-admin-client", false, ["client auth"]) ] /\
  certUse <$> signedWith ns (shardName shard +:+ "-postgresql-ca-keypair") us =
    (if decide (storageType shard = StorageTypeInClusterPostgreSQL)
     then [(shardName shard +:+ "-postgresql-serving", false, [])] else []) /\
  (exists serving client servingSecret clientSecret, kine = [serving; client] /\
     storedIn serving = Some servingSecret /\ kineTrusts shard servingSecret /\
     storedIn client = Some clientSecret /\ secondaryPresents shard allowed issuers clientSecret) /\
  NoDup (certKey <$> us) /\ NoDup (omap secretKey us).
Proof.
  intros Hin Hnd Hun us ns kine. unfold kine, us, ns.
  change (TargetNamespace (Spec shard)) with (shardNS shard).
  change (shardName shard +:+ "-kine-ca-keypair") with (shardName shard +:+ "-" +:+ "kine-ca-keypair").
  change (shardName shard +:+ "-ca-keypair") with (shardName shard +:+ "-" +:+ "ca-keypair").
  change (shardName shard +:+ "-postgresql-ca-keypair") with (shardName shard +:+ "-" +:+ "postgresql-ca-keypair").
  rewrite !(signedWith_shard shards Hnd Hun shard) by done.
  pose proof (table_signed _ _ _ (cert_table shard)) as Hs.
  split; [|split; [|split; [|split; [|split]]]].
  - rewrite (table_uses _ _ _ (Hs _)). by destruct (bool_decide _).
  - rewrite (table_uses _ _ _ (Hs _)). by destruct (bool_decide _).
  - rewrite (table_uses _ _ _ (Hs _)). destruct (decide _) as [E|E]; [by rewrite E|]. by rewrite bool_decide_eq_false_2.
  - specialize (Hs "kine-ca-keypair").
    assert (E : forall b, sxSigned "kine-ca-keypair" (certTable b) =
              [server "kine-serving" "kine-ca-issuer" "kine-serving-cert"; client "etcd-client" "kine-ca-issuer" "etcd-client-cert"])
      by (by intros []).
    rewrite E in Hs. apply Forall2_cons_inv_l in Hs as (u1&l1&D1&Hs&->). apply Forall2_cons_inv_l in Hs as (u2&l2&D2&Hs&->).
    apply Forall2_nil_inv_l in Hs as ->. destruct D1 as (_&_&_&_&_&D1&_), D2 as (_&_&_&_&_&D2&_).
    do 4 eexists. split; [reflexivity|]. split; [exact D1|]. split; [apply kine_trusts|].
    split; [exact D2|]. apply secondary_presents.
  - by apply resources_distinct.
  - by apply secrets_distinct.
Qed.

Lemma chains_separate_witness :
  let a := demoShard inClusterStorage in
  let b := with_meta (fun m => newMeta "other" (meta_Namespace m) (meta_Labels m)) (demoShard sqliteStorage) in
  shardNS a = shardNS b /\ NoDup (certKey <$> ([a; b] ≫= buildCertResources)).
Proof.
  intros a b. split; [reflexivity|].
  destruct (chains_separate [a; b] a [] []) as (_&_&_&_&H&_).
  - left.
  - apply (bool_decide_eq_true_1 _). vm_compute. reflexivity.
  - intros x y s Hx Hy _. set_unfold in Hx. set_unfold in Hy. destruct Hx as [->|[->|[]]], Hy as [->|[->|[]]]; intros H; vm_compute in H; discriminate H.
  - exact H.
Defined.

(** ** What the workloads use *)
Definition hostOf (url : string) (port : string) (host : string) : Prop := url = "https://" +:+ host +:+ port.

(** Secrets mounted by a pod. *)
Definition mountedSecrets (p : PodSpec) : list string :=
  omap (fun v => match vol_Source v with SecretVolume n _ => Some n | _ => None end) (pod_Volumes p).

Definition tlsServerNames (m : ServiceMonitor) : list (string * string) :=
  omap (fun e => (fun t => (sks_Name (tls_CA t), tls_ServerName t)) <$> ep_TLSConfig e) (sm_Endpoints m).

(** A client that verifies [host] against a CA that signs [c] accepts the server. *)
Definition servesHost (c : Unstructured) (host : string) : Prop := host ∈ certDNSNames c.

(** C29: every TLS client of a shard names its server by a name of that server's
    certificate: the secondary names Kine by one of the Kine serving certificate,
    Kine and the metrics collector name PostgreSQL by one of the PostgreSQL serving
    certificate, the published endpoint and Prometheus name the secondary by one of
    its serving certificate, and Prometheus names Kine by one of Kine's; Prometheus
    takes the CA from the secret that certificate is stored in. *)
Theorem servers_verifiable shard user password :
  (exists h, servesHost (BuildKineServingCertificate shard) h /\ hostOf (etcdServers shard) (":" +:+ itoa KinePort) h) /\
  (exists h, servesHost (BuildPostgreSQLServingCertificate shard) h /\
     op_Host (InClusterPostgreSQLConnectionParams shard) = h /\
     PostgreSQLDSN shard user password =
       "postgres://" +:+ user +:+ ":" +:+ password +:+ "@" +:+ h +:+ ":" +:+ itoa PostgreSQLPort +:+
       "/kine?sslmode=verify-full&sslrootcert=/etc/kine/pg-ca/ca.crt") /\
  (exists h, servesHost (BuildServingCertificate shard) h /\ hostOf (SecondaryEndpoint shard) "" h) /\
  (forall ca h, (ca, h) ∈ tlsServerNames (BuildKineServiceMonitor shard) ->
     servesHost (BuildKineServingCertificate shard) h /\ storedIn (BuildKineServingCertificate shard) = Some ca) /\
  (forall ca h, (ca, h) ∈ tlsServerNames (BuildSecondaryServiceMonitor shard) ->
     servesHost (BuildServingCertificate shard) h /\ storedIn (BuildServingCertificate shard) = Some ca).
Proof.
  assert (Hd : forall name secret svc iss i h, servingDNSNames shard svc !! i = Some h ->
    servesHost (buildServingCert shard name secret svc iss) h).
  { intros name secret svc iss i h H. apply list_elem_of_lookup_2 in H. exact H. }
  assert (Hp : forall h, h +:+ "" = h) by (intros h; apply app_nil_string_r).
  split; [|split; [|split; [|split]]].
  - eexists. split; [apply (Hd _ _ _ _ 3); reflexivity|]. unfold hostOf, etcdServers. by rewrite <- !string_app_assoc.
  - eexists. split; [apply (Hd _ _ _ _ 2); reflexivity|]. split; [reflexivity|].
    unfold PostgreSQLDSN. by rewrite <- !string_app_assoc.
  - eexists. split; [apply (Hd _ _ _ _ 2); reflexivity|]. unfold hostOf, SecondaryEndpoint.
    by rewrite Hp.
  - intros ca h [= -> ->]%list_elem_of_singleton. split; [apply (Hd _ _ _ _ 2); reflexivity|reflexivity].
  - intros ca h [= -> ->]%list_elem_of_singleton. split; [apply (Hd _ _ _ _ 2); reflexivity|reflexivity].
Qed.

(** C30: every secret a pod of Kine, the secondary or PostgreSQL mounts is one that a
    certificate of the shard is stored in, for each storage type: a pod never waits
    for a secret that nothing issues. *)
Theorem mounted_secrets_issued {T : ThirdParty} shard allowed issuers secret :
  let issued := omap storedIn (buildCertResources shard) in
  (secret ∈ mountedSecrets (tmpl_Spec (dep_Template (d_Spec (BuildKineDeployment shard)))) \/
   secret ∈ mountedSecrets (tmpl_Spec (dep_Template (d_Spec (BuildSecondaryDeployment shard allowed issuers)))) \/
   storageType shard = StorageTypeInClusterPostgreSQL /\
   secret ∈ mountedSecrets (tmpl_Spec (sts_Template (s_Spec (BuildPostgreSQLStatefulSet shard))))) ->
  secret ∈ issued.
Proof.
  intros issued. unfold issued. rewrite (table_secrets _ _ _ (cert_table shard)). intros H.
  assert (Hs : exists s, s ∈ omap sx_StoredIn (certTable (bool_decide (storageType shard = StorageTypeInClusterPostgreSQL))) /\
                         secret = shardName shard +:+ "-" +:+ s).
  { destruct H as [H|[H|[E H]]]; cbn in H; unfold kineVolumes, postgresVolumes in H.
    - destruct (storageType shard); cbn in H; set_unfold in H; destruct_or?; subst; try done.
      all: eexists; (split; [|reflexivity]); set_solver.
    - destruct (bool_decide _); cbn in H; set_unfold in H; destruct_or?; subst; try done.
      all: eexists; (split; [|reflexivity]); set_solver.
    - rewrite E. destruct (persistenceFromShard shard); cbn in H; set_unfold in H; destruct_or?; subst; try done.
      all: eexists; (split; [|reflexivity]); set_solver. }
  destruct Hs as (s&Hs&->). by apply (list_elem_of_fmap_2 (fun s => shardName shard +:+ "-" +:+ s)).
Qed.

Lemma mounted_secrets_issued_witness :
  "demo-postgresql-serving-cert" ∈ omap storedIn (buildCertResources (demoShard inClusterStorage)).
Proof.
  apply (mounted_secrets_issued (demoShard inClusterStorage) [] []). right. right. split; [reflexivity|].
  apply (bool_decide_eq_true_1 _). vm_compute. reflexivity.
Defined.
