(* ===== verification/DSNProps.v ===== *)
(** * Connection strings and the collector configuration

    The parser of connection strings (OtelRes, on NetUrl) inverts the printer of the
    in-cluster one (PostgresRes), and what it accepts cannot add lines to the
    configuration text of the metrics collector. *)
From S2P Require Import Prelude GoStd NetUrl KubeTypes APITypes Kube Reference ResCommon KineRes.
From S2P Require Import PostgresRes MetricsRes OtelRes ApiShardSteps.

(** ** Strings of letters, digits, dots and dashes *)
Definition plain_char (a : ascii) : bool := is_alnum a || one_of "-." a.
Definition plain (s : string) : bool := all_chars plain_char s.

Lemma all_chars_app P a b : all_chars P (a +:+ b) = all_chars P a && all_chars P b.
Proof. induction a as [|x a IH]; [done|]. rewrite app_cons. cbn. by rewrite IH, andb_assoc. Qed.

Lemma all_chars_impl (P Q : ascii -> bool) s :
  (forall a, P a = true -> Q a = true) -> all_chars P s = true -> all_chars Q s = true.
Proof.
  intros H. induction s as [|a s IH]; cbn; [done|]. rewrite !andb_true_iff. intros [H1 H2]. auto.
Qed.

(** A property of bytes, checked on all 256 of them. *)
Definition all_bytes : list ascii := ascii_of_nat <$> seq 0 256.

Lemma all_bytes_spec (P : ascii -> bool) a : forallb P all_bytes = true -> P a = true.
Proof.
  rewrite forallb_forall. intros H. apply H. apply list_elem_of_In, list_elem_of_fmap.
  exists (nat_of_ascii a). rewrite ascii_nat_embedding. split; [done|]. apply elem_of_seq.
  pose proof (nat_ascii_bounded a). lia.
Qed.

Lemma implb_bytes (P Q : ascii -> bool) :
  forallb (fun a => implb (P a) (Q a)) all_bytes = true -> forall a, P a = true -> Q a = true.
Proof. intros H a. apply (all_bytes_spec _ a) in H. cbn in H. by destruct (P a), (Q a). Qed.

Lemma plain_lacks c s : plain_char c = false -> plain s = true -> has_char c s = false.
Proof.
  intros Hc. induction s as [|a s IH]; cbn; [done|]. rewrite andb_true_iff. intros [H1 H2].
  destruct (Ascii.eqb_spec a c) as [->|]; [congruence|]. by apply IH.
Qed.

(** ** Cutting at a byte *)
Lemma Cut_at c a b : has_char c a = false -> Cut c (a +:+ String c b) = Some (a, b).
Proof.
  induction a as [|x a IH]; [rewrite app_nil_string_l; cbn; by rewrite Ascii.eqb_refl|].
  cbn [has_char]. destruct (Ascii.eqb x c) eqn:E; [done|]. intros H. rewrite app_cons. cbn. by rewrite E, IH.
Qed.

Lemma Cut_none c a : has_char c a = false -> Cut c a = None.
Proof. induction a as [|x a IH]; cbn; [done|]. destruct (Ascii.eqb x c); [done|]. intros H. by rewrite IH. Qed.

Lemma CutLast_none c a : has_char c a = false -> CutLast c a = None.
Proof. induction a as [|x a IH]; cbn; [done|]. destruct (Ascii.eqb x c); [done|]. intros H. by rewrite IH. Qed.

Lemma CutLast_at c a b : has_char c b = false -> CutLast c (a +:+ String c b) = Some (a, b).
Proof.
  intros H. induction a as [|x a IH]; [|rewrite app_cons; cbn; by rewrite IH].
  rewrite app_nil_string_l. cbn. by rewrite CutLast_none, Ascii.eqb_refl.
Qed.

Lemma unescape_id m s :
  all_chars (fun a => negb (Ascii.eqb a "%"%char) && host_char a) s = true -> unescape m s = Ok s.
Proof.
  induction s as [|a s IH]; cbn; [done|]. rewrite !andb_true_iff, negb_true_iff. intros [[-> H1] H2].
  rewrite H1, andb_false_r, IH by done. done.
Qed.

Lemma plain_unescape m s : plain s = true -> unescape m s = Ok s.
Proof. intros H. apply unescape_id. revert H. apply all_chars_impl, implb_bytes. by vm_compute. Qed.

(** ** TrimSpace leaves text alone that neither starts nor ends with white space *)
Lemma TrimLeft_id ps s : drop_any ps s = None -> TrimLeft ps s = s.
Proof. unfold TrimLeft. intros H. destruct (String.length s); cbn; [done|]. by rewrite H. Qed.

Lemma TrimSpace_id s :
  drop_any space_runes s = None -> drop_any (rev_bytes <$> space_runes) (rev_bytes s) = None -> TrimSpace s = s.
Proof. intros H1 H2. unfold TrimSpace. by rewrite (TrimLeft_id _ _ H1), (TrimLeft_id _ _ H2), rev_bytes_involutive. Qed.

(** ** Parsing a plain connection string *)
Section Plain.
Variable ValidIPv6 : string -> bool.
Context (u p h : string) (Hu : plain u = true) (Hp : plain p = true) (Hh : plain h = true).

Let hostPort : string := h +:+ ":5432".
Let info : string := u +:+ ":" +:+ p.
Let query : string := "sslmode=verify-full&sslrootcert=/etc/kine/pg-ca/ca.crt".

Lemma plain_parseHost : parseHost ValidIPv6 hostPort = Ok hostPort.
Proof.
  unfold parseHost, hostPort.
  rewrite (CutLast_none "["%char) by (rewrite has_char_app, (plain_lacks _ h) by done; done).
  change ":5432" with (String ":"%char "5432"). rewrite CutLast_at by done.
  change (validOptionalPort (":" +:+ "5432")) with true. cbv iota.
  apply unescape_id. rewrite all_chars_app. apply andb_true_iff. split; [|done].
  revert Hh. apply all_chars_impl, implb_bytes. by vm_compute.
Qed.

Lemma plain_parseUserinfo : parseUserinfo info = Ok (u, Some p).
Proof.
  unfold parseUserinfo, info, validUserinfo.
  assert (Hv : forall s, plain s = true -> all_chars (fun a => is_alnum a || one_of "-._:~!$&'()*+,;=%@" a) s = true).
  { intros s. apply all_chars_impl, implb_bytes. by vm_compute. }
  rewrite !all_chars_app, (Hv u Hu), (Hv p Hp). cbn -[Cut unescape].
  change (":" +:+ p) with (String ":"%char p). rewrite Cut_at by by apply plain_lacks.
  by rewrite !plain_unescape.
Qed.

Lemma plain_parseAuthority : parseAuthority ValidIPv6 (info +:+ "@" +:+ hostPort) = Ok (Some (u, Some p), hostPort).
Proof.
  unfold parseAuthority. change ("@" +:+ hostPort) with (String "@"%char hostPort).
  rewrite CutLast_at; [by rewrite plain_parseHost, plain_parseUserinfo|].
  unfold hostPort. by rewrite has_char_app, (plain_lacks _ h).
Qed.

Let rest : string := "//" +:+ info +:+ "@" +:+ hostPort +:+ "/kine".

Lemma rest_lacks c :
  plain_char c = false -> has_char c "//:@:5432/kine" = false -> has_char c rest = false.
Proof.
  intros H1 H2. change "//:@:5432/kine" with ("//" +:+ ":" +:+ "@" +:+ ":5432" +:+ "/kine") in H2.
  unfold rest, info, hostPort. rewrite !has_char_app, !orb_false_iff in *.
  rewrite (plain_lacks c u), (plain_lacks c p), (plain_lacks c h) by done. tauto.
Qed.

Lemma plain_parseRest :
  parseRest ValidIPv6 "postgres" query rest =
  Ok {| Scheme := "postgres"; Opaque := ""; User := Some (u, Some p); Host := hostPort; Path := "/kine";
        RawQuery := query |}.
Proof.
  unfold parseRest. change (HasPrefix rest "//") with (String.prefix "" (info +:+ "@" +:+ hostPort +:+ "/kine")).
  assert (Hpre : forall s, String.prefix "" s = true) by by intros [].
  rewrite Hpre. change (TrimPrefix rest "//") with (info +:+ "@" +:+ hostPort +:+ "/kine").
  replace (info +:+ "@" +:+ hostPort +:+ "/kine") with ((info +:+ "@" +:+ hostPort) +:+ String "/"%char "kine")
    by by rewrite <- !string_app_assoc.
  rewrite Cut_at; [by rewrite plain_parseAuthority|].
  unfold info, hostPort. by rewrite !has_char_app, (plain_lacks _ u), (plain_lacks _ p), (plain_lacks _ h).
Qed.

Lemma plain_url_Parse :
  url_Parse ValidIPv6 ("postgres:" +:+ rest +:+ "?" +:+ query) =
  Ok {| Scheme := "postgres"; Opaque := ""; User := Some (u, Some p); Host := hostPort; Path := "/kine";
        RawQuery := query |}.
Proof.
  unfold url_Parse. rewrite Cut_none by (rewrite !has_char_app, rest_lacks by done; done).
  unfold parse. cbn [default].
  assert (Hc : all_chars (fun a => negb (is_ctl a)) ("postgres:" +:+ rest +:+ "?" +:+ query) = true).
  { assert (Hv : forall s, plain s = true -> all_chars (fun a => negb (is_ctl a)) s = true).
    { intros s. apply all_chars_impl, implb_bytes. by vm_compute. }
    unfold rest, info, hostPort. by rewrite !all_chars_app, (Hv u Hu), (Hv p Hp), (Hv h Hh). }
  rewrite Hc. cbv [negb]. rewrite decide_False by done.
  change (getScheme ("postgres:" +:+ rest +:+ "?" +:+ query)) with (Ok ("postgres", rest +:+ "?" +:+ query)).
  cbv iota beta zeta. change (ToLower "postgres") with "postgres". unfold cutQuery.
  change ("?" +:+ query) with (String "?"%char query). rewrite Cut_at by by apply rest_lacks. cbv iota beta.
  change (default _ (Some (rest, query))) with (rest, query). cbv iota beta.
  change (HasPrefix rest "/") with true. cbv iota. rewrite plain_parseRest. done.
Qed.
End Plain.

Lemma splitHostPort_plain h : plain h = true -> splitHostPort (h +:+ ":5432") = (h, "5432").
Proof.
  intros Hh. unfold splitHostPort. change ":5432" with (String ":"%char "5432"). rewrite CutLast_at by done.
  change (all_chars is_digit "5432") with true. cbv iota beta.
  destruct (drop_prefix "[" h) as [r|] eqn:E; [|done].
  apply drop_prefix_Some in E as ->. discriminate Hh.
Qed.

Lemma plain_no_newlines s : plain s = true -> ContainsAny s newlines = false.
Proof.
  intros H. unfold ContainsAny, newlines. cbn -[has_char]. by rewrite !(plain_lacks _ s) by done.
Qed.

Lemma newlineField_plain p :
  plain (op_Host p) = true -> plain (op_DBName p) = true -> plain (op_User p) = true -> newlineField p = None.
Proof.
  intros H1 H2 H3. unfold newlineField, List.find. cbn [snd].
  by rewrite (plain_no_newlines _ H1), (plain_no_newlines _ H2), (plain_no_newlines _ H3).
Qed.

(** C31: the parser inverts the printer: from the connection string of an in-cluster
    PostgreSQL the parser gets back the host, port, user, password and database it
    was printed from, whenever user and password, the shard's name and its namespace
    consist of letters, digits, dots and dashes, as Kubernetes names and generated
    passwords do. *)
Theorem dsn_roundtrip V shard user password :
  plain (shardName shard) = true -> plain (shardNS shard) = true -> plain user = true -> plain password = true ->
  user <> "" ->
  ParsePostgreSQLDSN V (PostgreSQLDSN shard user password) =
  Ok {| op_Host := op_Host (InClusterPostgreSQLConnectionParams shard);
        op_Port := op_Port (InClusterPostgreSQLConnectionParams shard);
        op_User := user; op_Password := password;
        op_DBName := op_DBName (InClusterPostgreSQLConnectionParams shard);
        op_CACertSecretName := ""; op_CACertSecretKey := "" |}.
Proof.
  intros Hn Hns Hu Hp Hne. set (h := op_Host (InClusterPostgreSQLConnectionParams shard)).
  assert (Hh : plain h = true).
  { unfold h, plain. cbn -[all_chars]. unfold PostgreSQLServiceName. rewrite !all_chars_app.
    unfold plain in Hn, Hns. by rewrite Hn, Hns. }
  set (query := "sslmode=verify-full&sslrootcert=/etc/kine/pg-ca/ca.crt").
  assert (Hd : PostgreSQLDSN shard user password =
    "postgres:" +:+ ("//" +:+ (user +:+ ":" +:+ password) +:+ "@" +:+ (h +:+ ":5432") +:+ "/kine") +:+ "?" +:+ query).
  { unfold PostgreSQLDSN, h. cbn [op_Host InClusterPostgreSQLConnectionParams]. by rewrite <- !string_app_assoc. }
  unfold ParsePostgreSQLDSN. rewrite TrimSpace_id.
  - rewrite Hd. unfold query. rewrite (plain_url_Parse V user password h Hu Hp Hh). unfold Hostname, Port. cbn -[h splitHostPort newlineField].
    rewrite (splitHostPort_plain h Hh). cbn -[h newlineField].
    rewrite (decide_False (P := h = "")) by (unfold h, InClusterPostgreSQLConnectionParams, PostgreSQLServiceName;
      cbn [op_Host]; by destruct (shardName shard)).
    rewrite (decide_False (P := user = "")) by done.
    rewrite newlineField_plain by done. done.
  - by rewrite Hd.
  - rewrite Hd. change query with ("sslmode=verify-full&sslrootcert=/etc/kine/pg-ca/ca.cr" +:+ "t").
    rewrite !string_app_assoc, rev_bytes_app. done.
Qed.

(** ** Lines *)
(** The lines of a text, each ended by a line feed. *)
Definition LFc : ascii := "010"%char.
Fixpoint lines (fuel : nat) (s : string) : list string :=
  match fuel with
  | O => []
  | S fuel => match Cut LFc s with Some (l, r) => l :: lines fuel r | None => [] end
  end.

Lemma lines_unlines l n :
  Forall (fun x => has_char LFc x = false) l -> length l <= n -> lines n (unlines l) = l.
Proof.
  intros H. revert n. induction H as [|x l Hx H IH]; intros n Hn; [by destruct n|].
  cbn [length] in Hn. destruct n as [|n]; [lia|].
  change (unlines (x :: l)) with (x +:+ String LFc (unlines l)). cbn [lines].
  rewrite Cut_at by done. by rewrite IH by lia.
Qed.

Definition hasNewline (s : string) : bool := ContainsAny s newlines.

Lemma hasNewline_LF s : hasNewline s = false -> has_char LFc s = false.
Proof. unfold hasNewline, ContainsAny. intros [H _]%orb_false_iff. exact H. Qed.

Lemma parsed_fields V dsn params :
  ParsePostgreSQLDSN V dsn = Ok params ->
  hasNewline (op_Host params) = false /\ hasNewline (op_DBName params) = false /\ hasNewline (op_User params) = false /\
  all_chars is_digit (op_Port params) = true /\ op_Host params <> "" /\ op_User params <> "".
Proof.
  unfold ParsePostgreSQLDSN. destruct (url_Parse _ _) as [u|]; [|done]. destruct (negb _ && negb _); [done|].
  cbv zeta. set (pr := Build_OTelConnectionParams _ _ _ _ _ _ _). case_decide as Hh; [done|]. case_decide as Hu; [done|].
  destruct (all_chars is_digit (op_Port pr)) eqn:Hport; [|done]. cbv [negb].
  destruct (newlineField pr) eqn:E; [done|]. intros [= <-].
  unfold newlineField in E. cbn [List.find] in E.
  destruct (ContainsAny (op_Host pr) newlines) eqn:E1; cbn in E1, E; rewrite ?E1 in E; [done|].
  destruct (ContainsAny (op_DBName pr) newlines) eqn:E2; cbn in E2, E; rewrite ?E2 in E; [done|].
  destruct (ContainsAny (op_User pr) newlines) eqn:E3; cbn in E3, E; rewrite ?E3 in E; [done|].
  by unfold hasNewline.
Qed.

Lemma all_chars_lacks P c s : P c = false -> all_chars P s = true -> has_char c s = false.
Proof.
  intros Hc. induction s as [|a s IH]; cbn; [done|]. rewrite andb_true_iff. intros [H1 H2].
  destruct (Ascii.eqb_spec a c) as [->|]; [congruence|]. by apply IH.
Qed.

Lemma JoinHostPort_lacks c h p :
  has_char c h = false -> has_char c p = false -> has_char c "[]:" = false -> has_char c (JoinHostPort h p) = false.
Proof.
  intros H1 H2 H3. change "[]:" with ("[" +:+ "]" +:+ ":") in H3. unfold JoinHostPort. destruct (has_char ":"%char h).
  all: change "]:" with ("]" +:+ ":"); rewrite !has_char_app, !orb_false_iff in *; tauto.
Qed.

(** The two lists of constant lines are free of line feeds. *)
Lemma constant_lines : forallb (fun x => negb (has_char LFc x)) (otelQueryLines ++ otelExporterLines) = true.
Proof. vm_compute. reflexivity. Qed.

Lemma receiver_lines shard p :
  has_char LFc (op_Host p) = false -> has_char LFc (op_Port p) = false -> has_char LFc (op_DBName p) = false ->
  has_char LFc (collectionInterval shard) = false -> has_char LFc (bloatInterval shard) = false ->
  Forall (fun x => has_char LFc x = false) (otelReceiverLines shard p).
Proof.
  intros Hh Hp Hd Hc Hb. unfold otelReceiverLines.
  repeat (apply Forall_cons; split); [..|by apply Forall_nil].
  all: first [reflexivity | rewrite !has_char_app, ?Hh, ?Hp, ?Hd, ?Hc, ?Hb, ?JoinHostPort_lacks by done; reflexivity].
Qed.

(** C32: a connection string cannot inject into the collector's configuration: whatever
    string the parser accepts, and for every spec whose intervals have no line feed,
    the configuration text consists of exactly the 63 lines of the template, host,
    port and database staying within the lines they are put in; and neither the user
    nor the password is written into it. *)
Theorem otel_config_no_injection V dsn params shard caName caKey :
  ParsePostgreSQLDSN V dsn = Ok params ->
  hasNewline (collectionInterval shard) = false -> hasNewline (bloatInterval shard) = false ->
  let p := with_CACert caName caKey params in
  (forall n, 63 <= n -> lines n (BuildOTelCollectorConfig shard p) = otelConfigLines shard p) /\
  length (otelConfigLines shard p) = 63 /\
  (forall user password,
     BuildOTelCollectorConfig shard p =
     BuildOTelCollectorConfig shard
       {| op_Host := op_Host p; op_Port := op_Port p; op_User := user; op_Password := password;
          op_DBName := op_DBName p; op_CACertSecretName := caName; op_CACertSecretKey := caKey |}).
Proof.
  intros Hparse Hc Hb p. apply parsed_fields in Hparse as (Hh&Hd&_&Hport&_).
  assert (Hlen : length (otelConfigLines shard p) = 63) by reflexivity.
  split; [|done]. intros n Hn. unfold BuildOTelCollectorConfig. apply lines_unlines; [|by rewrite Hlen].
  unfold otelConfigLines. apply Forall_app. split.
  - apply receiver_lines; [by apply hasNewline_LF|by apply (all_chars_lacks is_digit)|by apply hasNewline_LF..].
  - apply List.Forall_forall. intros x Hx. pose proof constant_lines as H. rewrite forallb_forall in H.
    by apply negb_true_iff, H.
Qed.

(** ** Witnesses *)
Definition injectionDSN : string := "postgres://u:p@db.example:5433/shards?sslmode=require".

Lemma otel_config_no_injection_witness :
  exists params, ParsePostgreSQLDSN (fun _ => true) injectionDSN = Ok params /\
    lines 63 (BuildOTelCollectorConfig (demoShard sqliteStorage) (with_CACert "ca" "ca.crt" params)) =
    otelConfigLines (demoShard sqliteStorage) (with_CACert "ca" "ca.crt" params).
Proof.
  eexists. split; [vm_compute; reflexivity|].
  refine (proj1 (otel_config_no_injection (fun _ => true) injectionDSN _ (demoShard sqliteStorage) "ca" "ca.crt" _ _ _) 63 _).
  - vm_compute. reflexivity.
  - vm_compute. reflexivity.
  - vm_compute. reflexivity.
  - apply Nat.le_refl.
Defined.

Lemma dsn_roundtrip_witness :
  ParsePostgreSQLDSN (fun _ => true)
    (PostgreSQLDSN (demoShard inClusterStorage) "kine" (hex_EncodeToString "0123456789abcdef")) =
  Ok {| op_Host := "demo-postgresql.shard-ns.svc"; op_Port := "5432"; op_User := "kine";
        op_Password := "30313233343536373839616263646566"; op_DBName := "kine";
        op_CACertSecretName := ""; op_CACertSecretKey := "" |}.
Proof.
  apply (dsn_roundtrip (fun _ => true) (demoShard inClusterStorage) "kine" (hex_EncodeToString "0123456789abcdef"));
    [vm_compute; reflexivity..|discriminate].
Defined.
