(* ===== verification/Mappers.v ===== *)
(** * Watch events and CRD copies

    The functions that turn watch events into reconcile requests are exact, and a
    successful copy of CRDs to the secondary copied all of them. *)
From S2P Require Import Prelude GoStd KubeTypes APITypes Kube Reference ResCommon KineRes PostgresRes.
From S2P Require Import SecondaryRes MetricsRes OtelRes Certs Aggregation ClientProvider ApiShardSteps.
From S2P Require Import ApiShard.

(** ** Events *)
Definition allShards : call := ListObjs PrimaryC KAPIShard ListAll.

(** The requests for the shards that satisfy [P], if the shards could be listed. *)
Definition requestsFor (P : APIShard -> Prop) (answer : result (list APIShard)) (reqs : list NamespacedName) : Prop :=
  forall q, q ∈ reqs <-> exists shards s, answer = Ok shards /\ s ∈ shards /\ P s /\ q = requestFor s.

Lemma requestsFor_filter (f : APIShard -> bool) (P : APIShard -> Prop) shards :
  (forall s, f s = true <-> P s) -> requestsFor P (Ok shards) (requestFor <$> List.filter f shards).
Proof.
  intros Hf q. rewrite list_elem_of_fmap. split.
  - intros (s&->&[H1 H2]%list_elem_of_In%filter_In). exists shards, s. rewrite list_elem_of_In, <- Hf. done.
  - intros (l&s&[= <-]&H1&H2&->). exists s. split; [done|]. apply list_elem_of_In, filter_In.
    by rewrite <- list_elem_of_In, Hf.
Qed.

Lemma requestsFor_err P e : requestsFor P (Err e) [].
Proof. intros q. split; [by intros ?%elem_of_nil|]. by intros (?&?&[=]&_). Qed.

Definition isAuthCM (m : ObjectMeta) : Prop :=
  meta_Name m = extensionAPIServerAuthCM /\ meta_Namespace m = kubeSystemNamespace.

Definition usesSecretObject (m : ObjectMeta) (s : APIShard) : Prop :=
  storageType s = StorageTypePostgreSQL /\ shardNS s = meta_Namespace m /\
  exists ref, ConnectionSecretRef (Storage (Spec s)) = Some ref /\ skr_Name ref = meta_Name m.

Lemma usesConnectionSecret_spec m s : usesConnectionSecret m s = true <-> usesSecretObject m s.
Proof.
  unfold usesConnectionSecret, usesSecretObject. rewrite andb_true_iff, bool_decide_eq_true.
  destruct (ConnectionSecretRef _) as [ref|]; [|naive_solver].
  rewrite andb_true_iff, !bool_decide_eq_true. naive_solver.
Qed.

Lemma servesGroup_spec g s : servesGroup g s = true <-> g ∈ Group <$> APIGroups (Spec s).
Proof.
  unfold servesGroup. rewrite existsb_exists, list_elem_of_fmap. setoid_rewrite bool_decide_eq_true.
  setoid_rewrite list_elem_of_In. naive_solver.
Qed.

(** A watch event reconciles exactly the shards it concerns: a change of the
    request-header ConfigMap all of them and any other ConfigMap none; a change of a
    Secret those that use it as the connection secret of an external PostgreSQL in
    their namespace; a change of a CRD those that serve its group.  If the shards
    cannot be listed, the event is dropped. *)
Theorem events_mapped_exactly m crd tr reqs :
  (run (requestHeaderCAMapper m) tr reqs <->
     (isAuthCM m /\ exists answer, tr = [Ev allShards answer] /\
        reqs = match answer with Ok l => requestFor <$> l | Err _ => [] end) \/
     (~ isAuthCM m /\ tr = [] /\ reqs = [])) /\
  (run (connectionSecretMapper m) tr reqs ->
     exists answer, tr = [Ev allShards answer] /\ requestsFor (usesSecretObject m) answer reqs) /\
  (run (enqueueForCRD crd) tr reqs ->
     exists answer, tr = [Ev allShards answer] /\
       requestsFor (fun s => crd_Group crd ∈ Group <$> APIGroups (Spec s)) answer reqs).
Proof.
  split; [|split].
  - unfold requestHeaderCAMapper, isAuthCM. case_bool_decide as H1; case_bool_decide as H2; cbn.
    2-4: split; [intros [-> ->]; right; naive_solver|intros [[[] _]|(_&->&->)]; done].
    split.
    + intros (answer&tr'&->&H). left. split; [done|]. exists answer. by destruct answer; destruct H as [-> ->].
    + intros [(_&answer&->&->)|[[] _]]; [|done]. exists answer, []. split; [done|]. by destruct answer.
  - intros (answer&tr'&->&H). exists answer. destruct answer as [l|e]; destruct H as [-> ->]; (split; [done|]).
    + apply requestsFor_filter, usesConnectionSecret_spec.
    + apply requestsFor_err.
  - intros (answer&tr'&->&H). exists answer. destruct answer as [l|e]; destruct H as [-> ->]; (split; [done|]).
    + apply requestsFor_filter, servesGroup_spec.
    + apply requestsFor_err.
Qed.

Definition demoCM : ObjectMeta := newMeta extensionAPIServerAuthCM kubeSystemNamespace None.
Definition demoConnMeta : ObjectMeta := newMeta "dsn" "shard-ns" None.
Definition dsnShard : APIShard :=
  demoShard {| Type_ := StorageTypePostgreSQL; ConnectionSecretRef := Some {| skr_Name := "dsn"; skr_Key := "url" |};
               InCluster := None; StorageMonitoring := None |}.
Definition dsnRun := ref_exec (connectionSecretMapper demoConnMeta) (runningCluster dsnShard).
Definition tektonCRD : CustomResourceDefinition :=
  {| crd_TypeMeta := {| APIVersion := "apiextensions.k8s.io/v1"; TypeKind := "CustomResourceDefinition" |};
     crd_Meta := newMeta "tasks.tekton.dev" "" None; crd_Group := "tekton.dev";
     crd_Conversion := Some {| cv_Strategy := "Webhook"; cv_Webhook := Some (Some
       {| wcc_URL := None; wcc_Service := Some {| sr_Name := "hook"; sr_Namespace := "tekton"; sr_Port := None;
                                                  sr_Path := Some "/convert" |}; wcc_CABundle := "CA" |}) |};
     crd_Versions := ["v1"] |}.

Lemma events_mapped_exactly_witness :
  result_of dsnRun = [demoKey] /\
  exists answer, trace_of dsnRun = [Ev allShards answer] /\
                 requestsFor (usesSecretObject demoConnMeta) answer (result_of dsnRun).
Proof.
  split; [vm_compute; reflexivity|].
  exact (proj1 (proj2 (events_mapped_exactly demoConnMeta tektonCRD (trace_of dsnRun) (result_of dsnRun)))
           (exec_run ref_handler _ _)).
Defined.

(** ** CRD copies *)
(** The client configuration of the conversion webhook, if one is used. *)
Definition conversionConfig (crd : CustomResourceDefinition) : option WebhookClientConfig :=
  match crd_Conversion crd with
  | Some {| cv_Strategy := s; cv_Webhook := Some (Some cc) |} => if decide (s = "Webhook") then Some cc else None
  | _ => None
  end.

(** A copy of a CRD as the secondary can use it: the same but for the conversion
    webhook, which is addressed by URL instead of by service. *)
Definition copyOf (crd copy : CustomResourceDefinition) : Prop :=
  meta_Name (crd_Meta copy) = meta_Name (crd_Meta crd) /\ meta_Labels (crd_Meta copy) = meta_Labels (crd_Meta crd) /\
  meta_Annotations (crd_Meta copy) = meta_Annotations (crd_Meta crd) /\
  crd_Group copy = crd_Group crd /\ crd_Versions copy = crd_Versions crd /\
  match conversionConfig crd with
  | None => crd_Conversion copy = crd_Conversion crd
  | Some cc =>
      exists cc', conversionConfig copy = Some cc' /\ wcc_Service cc' = None /\ wcc_CABundle cc' = wcc_CABundle cc /\
        match wcc_Service cc with
        | None => wcc_URL cc' = wcc_URL cc
        | Some ref => wcc_URL cc' = Some ("https://" +:+ sr_Name ref +:+ "." +:+ sr_Namespace ref +:+ ".svc:" +:+
                                          itoa (default 443%Z (sr_Port ref)) +:+ default "" (sr_Path ref))
        end
  end.

Lemma secondaryCRD_copyOf crd : copyOf crd (secondaryCRD crd).
Proof.
  destruct crd as [tm m g [[strategy [[cc|]|]]|] vs]; try done.
  unfold copyOf, conversionConfig, secondaryCRD, transformCRDConversion. cbn.
  case_decide as E; [|done]. do 5 (split; [done|]).
  exists (urlClientConfig cc). cbn. rewrite decide_True by done. split; [done|].
  unfold urlClientConfig. destruct (wcc_Service cc) eqn:Es; [done|]. by rewrite Es.
Qed.

(** A CRD was read from the primary and its copy stored on the secondary. *)
Definition crdCopied (c : client) (tr : list kevent) (name : string) : Prop :=
  exists crd copy res,
    Ev (Get PrimaryC KCRD {| nn_Namespace := ""; nn_Name := name |}) (Ok crd) ∈ tr /\
    Ev (PatchApply c KCRD copy fieldManager true) (res, None) ∈ tr /\ copyOf crd copy.

Lemma run_copyCRD c name tr :
  run (copyCRD c name) tr None -> crdCopied c tr name.
Proof.
  unfold copyCRD. intros ([crd|e]&tr'&->&H); cbn in H; [|by destruct H].
  destruct H as ([res [e|]]&tr2&->&->&H); [done|]. exists crd, (secondaryCRD crd), res.
  split; [by left|]. split; [right; by left|apply secondaryCRD_copyOf].
Qed.

Lemma crdCopied_mono c tr tr' name : crdCopied c tr name -> tr ⊆ tr' -> crdCopied c tr' name.
Proof. intros (crd&copy&res&H1&H2&H3) Hs. exists crd, copy, res. auto. Qed.

Lemma Join_None es : Join es = None <-> es = [].
Proof. by destruct es. Qed.

Lemma run_copyAll c names tr :
  run (collect (copyCRD c) names) tr [] -> forall name, name ∈ names -> crdCopied c tr name.
Proof.
  intros (ps&->&Hes&H)%run_collect name Hn. clear -Hes H Hn.
  induction H as [|n [t e] names ps Hr _ IH]; [by apply elem_of_nil in Hn|]. cbn [fst snd] in Hr. cbn in Hes |- *.
  destruct e as [e|]; [done|]. apply elem_of_cons in Hn as [->|Hn].
  - eapply crdCopied_mono; [by apply run_copyCRD|]. intros x Hx. apply elem_of_app. by left.
  - eapply crdCopied_mono; [by apply IH|]. intros x Hx. apply elem_of_app. by right.
Qed.

Section CRDs.
Context {T : ThirdParty}.

(** The client a trace of GetOrCreate returns is not the manager's, if the cache has
    none of those. *)
Definition remoteOnly (p : clients) : Prop := map_Forall (fun _ e => ce_client e <> PrimaryC) p.

Lemma GetOrCreate_remote p key cfg tr c p' :
  remoteOnly p -> run (GetOrCreate SHA256 p key cfg) tr (Ok c, p') -> c <> PrimaryC.
Proof.
  unfold GetOrCreate, createLocked. intros Hp. destruct (cachedClient SHA256 p key cfg) as [c'|] eqn:E.
  - intros [-> [= -> ->]]. unfold cachedClient in E. destruct (p !! key) as [e|] eqn:Ek; [|done].
    destruct (entryMatches _ _ _); [|done]. injection E as <-. exact (Hp _ _ Ek).
  - intros ([e|]&t&->&H); [by destruct H|]. by destruct H as (now&t2&->&->&[= -> ->]).
Qed.

(** C18: when the copy of the conflicting CRDs to the secondary reports success, every
    one of them was read from the primary and its copy, the same CRD with the
    conversion webhook addressed by URL instead of by a service the secondary does
    not have, was stored by one and the same client, which is not the primary's. *)
Theorem crd_sync_complete p shard names tr p' :
  remoteOnly p -> run (syncCRDsToSecondary p shard names) tr (None, p') ->
  exists c, c <> PrimaryC /\ forall name, name ∈ names -> crdCopied c tr name.
Proof.
  intros Hp. unfold syncCRDsToSecondary. case_decide; [by intros []|].
  intros (ta&tb&?&->&(pki&?&->&->&->)&H1)%run_bind. destruct pki as [pki|e]; [|by destruct H1].
  apply run_bind in H1 as (tc&td&?&->&(adm&?&->&->&->)&H2). destruct adm as [adm|e]; [|by destruct H2].
  apply run_bind in H2 as (t3&t4&[[c|e] p2]&->&Hc&H2); [|by destruct H2].
  apply run_bind in H2 as (t5&t6&errs&->&He&H2). destruct H2 as [-> [= Hj ->]].
  symmetry in Hj. apply Join_None in Hj as ->. exists c. split; [by eapply GetOrCreate_remote|].
  intros name Hn. eapply crdCopied_mono; [by apply (run_copyAll _ _ _ He)|]. set_solver.
Qed.
End CRDs.

Definition crdCluster : world :=
  {| w_primary := existT KCRD tektonCRD :: w_primary (runningCluster (demoShard sqliteStorage));
     w_secondary := []; w_clock := 0 |}.
Definition crdRun := ref_exec (syncCRDsToSecondary ∅ (demoShard sqliteStorage) ["tasks.tekton.dev"]) crdCluster.

Lemma crd_sync_complete_witness :
  (result_of crdRun).1 = None /\ exists c, c <> PrimaryC /\ crdCopied c (trace_of crdRun) "tasks.tekton.dev".
Proof.
  split; [vm_compute; reflexivity|].
  destruct (crd_sync_complete ∅ (demoShard sqliteStorage) ["tasks.tekton.dev"] (trace_of crdRun) (result_of crdRun).2
    (map_Forall_empty _) (exec_run ref_handler _ crdCluster)) as (c&H1&H2).
  exists c. split; [exact H1|]. apply H2. left.
Defined.
