(* ===== verification/Watches.v ===== *)
(** * From a change in the cluster to a reconciliation

    The registration of the controllers composed with the predicates and the event
    mappers: a change that matters to a resource is delivered to its controller. *)
From S2P Require Import Prelude GoStd KubeTypes APITypes Kube Reference Aggregation ClientProvider ApiShardSteps.
From S2P Require Import ApiShard NamespaceSync WebhookSync Predicates Mappers Manager Setup.

Definition updateOf (k : Kind) (o n : obj k) : Event :=
  UpdateEv {| ObjectOld := Some (existT k o); ObjectNew := Some (existT k n) |}.

(** The update events that may be left out: those of a Deployment or a StatefulSet in
    which generation, owners, labels, annotations and all four replica counts stay the
    same, and those of an APIService in which these and the status of its condition
    Available stay the same.  Every other event matters, in particular every update of
    a Secret or a ConfigMap, whose data has no generation. *)
Definition sameCounts (a b : WorkloadStatus) : Prop :=
  st_Replicas a = st_Replicas b /\ st_ReadyReplicas a = st_ReadyReplicas b /\
  st_AvailableReplicas a = st_AvailableReplicas b /\ st_UpdatedReplicas a = st_UpdatedReplicas b.

Definition availableCondition (a : APIService) : option string :=
  asc_Status <$> List.find (fun c => bool_decide (asc_Type c = "Available")) (as_Conditions a).

Definition negligible (e : Event) : Prop :=
  match e with
  | UpdateEv {| ObjectOld := Some (existT KDeployment o); ObjectNew := Some (existT KDeployment n) |} =>
      sameMetadata (d_Meta o) (d_Meta n) /\ sameCounts (d_Status o) (d_Status n)
  | UpdateEv {| ObjectOld := Some (existT KStatefulSet o); ObjectNew := Some (existT KStatefulSet n) |} =>
      sameMetadata (s_Meta o) (s_Meta n) /\ sameCounts (s_Status o) (s_Status n)
  | UpdateEv {| ObjectOld := Some (existT KAPIService o); ObjectNew := Some (existT KAPIService n) |} =>
      sameMetadata (as_Meta o) (as_Meta n) /\ default "" (availableCondition o) = default "" (availableCondition n)
  | _ => False
  end.

(** The kinds whose objects are owned by a shard and watched. *)
Definition ownedKinds (r : Reconciler) : list Kind :=
  [KDeployment; KStatefulSet; KService; KSecret; KConfigMap; KNamespaceSync; KWebhookSync; KAPIService;
   KClusterRoleBinding] ++ (if ServiceMonitorAvailable r then [KServiceMonitor] else []).

Definition shardRequest (name : string) : NamespacedName := {| nn_Namespace := ""; nn_Name := name |}.

(** ** Predicates pass what matters *)
Lemma countsOf_same a b : countsOf a = countsOf b <-> sameCounts a b.
Proof. unfold countsOf, sameCounts. split; [by intros [= -> -> -> ->]|]. intros (->&->&->&->). done. Qed.

Lemma available_condition a : apiServiceAvailableStatus (existT KAPIService a) = default "" (availableCondition a).
Proof. unfold availableCondition. cbn. by destruct (List.find _ _). Qed.

(** A predicate that looks at updates passes an event of its kind unless both objects
    are there and it drops the update. *)
Lemma onUpdate_passes f k e :
  eventOf k e -> (forall o n : obj k, f (existT k o) (existT k n) = false -> negligible (updateOf k o n)) ->
  ~ negligible e -> onUpdate f e = true.
Proof.
  intros He Hf Hn. destruct e as [?|[[[k1 o]|] [[k2 n]|]]|?|?]; try done. cbn.
  apply Forall_cons in He as [E1 He]. apply Forall_cons in He as [E2 _]. cbn in E1, E2. subst k1 k2.
  apply not_false_is_true. intros Hd. by apply Hn, Hf.
Qed.

Lemma deployment_passes e : eventOf KDeployment e -> ~ negligible e -> DeploymentReadinessPredicate e = true.
Proof.
  intros He. apply (onUpdate_passes _ _ _ He). intros o n H. cbn. rewrite <- countsOf_same. by apply readiness_filter.
Qed.

Lemma statefulset_passes e : eventOf KStatefulSet e -> ~ negligible e -> StatefulSetReadinessPredicate e = true.
Proof.
  intros He. apply (onUpdate_passes _ _ _ He). intros o n H. cbn. rewrite <- countsOf_same. by apply readiness_filter_sts.
Qed.

Lemma apiservice_passes e : eventOf KAPIService e -> ~ negligible e -> APIServiceAvailabilityPredicate e = true.
Proof.
  intros He. apply (onUpdate_passes _ _ _ He). intros o n H. cbn. rewrite <- !available_condition.
  unfold availabilityChanged in H. destruct (generationOrMetadataChanged _ _) eqn:E; [done|].
  split; [by apply metadata_unchanged in E|]. by rewrite negb_false_iff, bool_decide_eq_true in H.
Qed.
#[local] Hint Resolve deployment_passes statefulset_passes apiservice_passes : kube.

Section Watches.
Context {T : ThirdParty}.

Lemma ownedKinds_owned r k : k ∈ ownedKinds r -> exists preds,
  (k, preds) ∈ ctl_Owns (apishardController r) /\
  forall e, eventOf k e -> ~ negligible e -> Forall (fun p => p e = true) preds.
Proof.
  intros Hk. cbn [ctl_Owns apishardController]. apply elem_of_app in Hk as [Hk|Hk].
  - repeat (apply elem_of_cons in Hk as [->|Hk];
      [eexists; split; [apply elem_of_app; left; solve [repeat first [left | right]]
                       |intros e He Hn; repeat constructor; by eauto with kube]|]); by apply elem_of_nil in Hk.
  - destruct (ServiceMonitorAvailable r); [|by apply elem_of_nil in Hk]. apply list_elem_of_singleton in Hk as ->.
    exists []. split; [|by constructor]. apply elem_of_app. right. left.
Qed.

(** ** Delivery *)
(** The resources of a list that satisfy [P] are all requested. *)
Definition allRequested {A} (c : call) (answerOf : resp c -> option (list A)) (P : A -> Prop) (requestOf : A -> NamespacedName)
  (tr : list kevent) (reqs : list NamespacedName) : Prop :=
  exists answer, Ev c answer ∈ tr /\
    forall l x, answerOf answer = Some l -> x ∈ l -> P x -> requestOf x ∈ reqs.

Definition okList {A} (r : result (list A)) : option (list A) :=
  match r with Ok l => Some l | Err _ => None end.

Context {R : ControllerRuntime} {RL : ControllerRuntimeLaws R}.

(** A change that matters to the shard: any event of the shard itself, and any event of
    an object it controls that is not negligible. *)
Definition concerns (r : Reconciler) (e : Event) (name : string) : Prop :=
  exists o, o ∈ eventObjects e /\
    (eventOf KAPIShard e /\ meta_Namespace (anyMeta o) = "" /\ meta_Name (anyMeta o) = name \/
     controlledBy "APIShard" name o /\ (exists k, k ∈ ownedKinds r /\ eventOf k e) /\ ~ negligible e).

Lemma concerns_delivered r e name tr reqs :
  run (dispatch (apishardController r) e) tr reqs -> concerns r e name -> shardRequest name ∈ reqs.
Proof.
  intros Hr (o&Ho&[(He&Hns&Hn)|(Hc&(k&Hk&He)&Hm)]).
  - pose proof (dispatch_for (apishardController r) e o tr reqs He Ho Hr) as H. by rewrite Hns, Hn in H.
  - destruct (ownedKinds_owned r k Hk) as (preds&Hin&Hp). by eapply dispatch_owned; eauto.
Qed.


Lemma filter_requested {A B} (f : A -> bool) (g : A -> B) l x : x ∈ l -> f x = true -> g x ∈ g <$> List.filter f l.
Proof.
  intros Hx Hf. apply list_elem_of_fmap. exists x. split; [done|]. apply list_elem_of_In, filter_In.
  split; [by apply list_elem_of_In|done].
Qed.

(** A mapper that lists resources and requests some of them. *)
Lemma listed_requested k opts (P : obj k -> Prop) requestOf (pick : list (obj k) -> list NamespacedName) tr' reqs' tr reqs :
  run (let* res := list_objs PrimaryC k opts in Ret (match res with Err _ => [] | Ok l => pick l end)) tr' reqs' ->
  tr' ⊆ tr -> reqs' ⊆ reqs -> (forall l x, x ∈ l -> P x -> requestOf x ∈ pick l) ->
  allRequested (ListObjs PrimaryC k opts) okList P requestOf tr reqs.
Proof.
  intros (answer&t&->&_&->) H2 H3 Hpick. exists answer. split; [apply H2; left|].
  intros l y Hl Hx HP. apply H3. destruct answer; [|done]. injection Hl as ->. by apply Hpick.
Qed.

(** The same for the sync controllers: an event of a namespace reconciles all
    NamespaceSyncs, one of a webhook configuration all WebhookSyncs, and one of a
    Secret the syncs of its namespace that connect with it; on each periodic tick all
    of them are listed. *)
Theorem sync_changes_delivered e o tr reqs :
  o ∈ eventObjects e ->
  (run (dispatch namespaceSyncController e) tr reqs ->
     (eventOf KNamespace e ->
        allRequested (ListObjs PrimaryC KNamespaceSync ListAll) okList (fun _ => True) nsyncRequest tr reqs) /\
     (eventOf KSecret e ->
        allRequested (ListObjs PrimaryC KNamespaceSync (ListInNamespace (meta_Namespace (anyMeta o)))) okList
          (fun n => usesSecret (meta_Name (anyMeta o)) (nss_Connection (nsync_Spec n)) = true) nsyncRequest tr reqs)) /\
  (run (dispatch webhookSyncController e) tr reqs ->
     (eventOf KVWHC e \/ eventOf KMWHC e ->
        allRequested (ListObjs PrimaryC KWebhookSync ListAll) okList (fun _ => True) wsyncRequest tr reqs) /\
     (eventOf KSecret e ->
        allRequested (ListObjs PrimaryC KWebhookSync (ListInNamespace (meta_Namespace (anyMeta o)))) okList
          (fun w => usesSecret (meta_Name (anyMeta o)) (whs_Connection (wsync_Spec w)) = true) wsyncRequest tr reqs)) /\
  src_List <$> ctl_Sources namespaceSyncController = [enqueueAll] /\
  src_List <$> ctl_Sources webhookSyncController = [enqueueAllWebhookSyncs].
Proof.
  intros Ho. assert (Hne : eventObjects e <> []) by (intros E; rewrite E in Ho; by apply elem_of_nil in Ho).
  split; [|split; [|by split]]; intros Hr; split; intros He.
  - edestruct (dispatch_handled namespaceSyncController e KNamespace namespaceEventHandler) as (tr'&reqs'&H1&H2&H3);
      [left|done|done|done|]. eapply listed_requested; [exact H1|done|done|]. intros l x Hx _. apply list_elem_of_fmap. eauto.
  - edestruct (dispatch_mapped namespaceSyncController e KSecret secretToNamespaceSyncMapper o) as (tr'&reqs'&H1&H2&H3);
      [right; left|done|done|done|]. eapply listed_requested; [exact H1|done|done|]. intros l x.
    apply (filter_requested (fun n => usesSecret (meta_Name (anyMeta o)) (nss_Connection (nsync_Spec n)))).
  - assert (exists k, (k, EventHandler webhookEventHandler) ∈ ctl_Watches webhookSyncController /\ eventOf k e) as (k&Hk&Hke).
    { destruct He as [He|He]; [exists KVWHC; split; [right; left|done]|exists KMWHC; split; [left|done]]. }
    edestruct (dispatch_handled webhookSyncController e k webhookEventHandler) as (tr'&reqs'&H1&H2&H3);
      [done|done|done|done|]. eapply listed_requested; [exact H1|done|done|]. intros l x Hx _. apply list_elem_of_fmap. eauto.
  - edestruct (dispatch_mapped webhookSyncController e KSecret secretToWebhookSyncMapper o) as (tr'&reqs'&H1&H2&H3);
      [right; right; left|done|done|done|]. eapply listed_requested; [exact H1|done|done|]. intros l x.
    apply (filter_requested (fun w => usesSecret (meta_Name (anyMeta o)) (whs_Connection (wsync_Spec w)))).
Qed.
End Watches.

(** ** A controller-runtime *)
(** The requests of the watches of a controller, one after the other. *)
Definition ownerRequest (o : anyObject) : list NamespacedName :=
  match List.find owner_Controller (meta_OwnerReferences (anyMeta o)) with
  | Some r => [shardRequest (owner_Name r)]
  | None => []
  end.

Definition selfRequest (o : anyObject) : NamespacedName :=
  {| nn_Namespace := meta_Namespace (anyMeta o); nn_Name := meta_Name (anyMeta o) |}.

Fixpoint gather {X} (f : X -> kprog (list NamespacedName)) (l : list X) : kprog (list NamespacedName) :=
  match l with
  | [] => Ret []
  | x :: l => let* a := f x in let* b := gather f l in Ret (a ++ b)
  end.

Lemma run_gather {X} (f : X -> kprog (list NamespacedName)) l x tr reqs :
  x ∈ l -> run (gather f l) tr reqs -> exists tr' reqs', run (f x) tr' reqs' /\ tr' ⊆ tr /\ reqs' ⊆ reqs.
Proof.
  revert tr reqs. induction l as [|y l IH]; intros tr reqs Hx; [by apply elem_of_nil in Hx|].
  intros (t1&t2&a&->&Ha&(t3&t4&b&->&Hb&->&->)%run_bind)%run_bind. rewrite app_nil_r.
  apply elem_of_cons in Hx as [->|Hx]; [exists t1, a; set_solver|].
  destruct (IH _ _ Hx Hb) as (t'&r'&?&?&?). exists t', r'. set_solver.
Qed.

Definition watchRequests (e : Event) (w : Kind * Handler) : kprog (list NamespacedName) :=
  match w.2 with
  | MapFunc f => gather (fun o => f (anyMeta o)) (eventObjects e)
  | EventHandler f => f e
  end.

#[export] Instance demoRuntime : ControllerRuntime := {
  dispatch C e :=
    let* reqs := gather (watchRequests e)
      (List.filter (fun w => forallb (fun o => bool_decide (projT1 o = w.1)) (eventObjects e)) (ctl_Watches C)) in
    Ret ((if existsb (fun w : Kind * list (Event -> bool) =>
                        forallb (fun o => bool_decide (projT1 o = w.1)) (eventObjects e) && forallb (fun p => p e) w.2)
               (ctl_Owns C)
          then eventObjects e ≫= ownerRequest else []) ++
         (if forallb (fun o => bool_decide (projT1 o = ctl_For C)) (eventObjects e)
          then selfRequest <$> eventObjects e else []) ++ reqs) }.

Lemma forallb_eventOf k e : forallb (fun o => bool_decide (projT1 o = k)) (eventObjects e) = true <-> eventOf k e.
Proof. unfold eventOf. rewrite forallb_forall, Forall_forall. setoid_rewrite bool_decide_eq_true. by setoid_rewrite <- list_elem_of_In. Qed.

#[export] Instance demoRuntimeLaws : ControllerRuntimeLaws demoRuntime.
Proof.
  split.
  - intros C e o tr reqs He Ho (t1&t2&a&->&_&->&->)%run_bind. apply elem_of_app. right. apply elem_of_app. left.
    rewrite (proj2 (forallb_eventOf _ _) He). apply list_elem_of_fmap. by exists o.
  - intros C e k preds o name tr reqs Hin HF He Hp Ho (r&Hf&_&_&<-) (t1&t2&a&->&_&->&->)%run_bind.
    rewrite (proj2 (existsb_exists _ _)).
    + apply elem_of_app. left. apply list_elem_of_bind. exists o. split; [|done]. unfold ownerRequest. rewrite Hf. left.
    + exists (k, preds). split; [by apply list_elem_of_In|]. apply andb_true_iff. split; [by apply forallb_eventOf|].
      apply forallb_forall. intros p Hp'%list_elem_of_In. by eapply Forall_forall in Hp.
  - intros C e k f o tr reqs Hin He Ho (t1&t2&a&->&Ha&->&->)%run_bind. rewrite app_nil_r.
    apply (run_gather _ _ (k, MapFunc f)) in Ha as (t'&r'&H1&H2&H3).
    + apply (run_gather _ _ o) in H1 as (t''&r''&H4&H5&H6); [|done]. exists t'', r''. set_solver.
    + apply list_elem_of_In, filter_In. split; [by apply list_elem_of_In|]. by apply forallb_eventOf.
  - intros C e k f tr reqs Hin He Hne (t1&t2&a&->&Ha&->&->)%run_bind. rewrite app_nil_r.
    apply (run_gather _ _ (k, EventHandler f)) in Ha as (t'&r'&H1&H2&H3).
    + exists t', r'. set_solver.
    + apply list_elem_of_In, filter_In. split; [by apply list_elem_of_In|]. by apply forallb_eventOf.
Qed.

(** The API server of the demo shard, controlled by it, with some of its two replicas
    ready. *)
Definition demoWorkload (ready : Z) : obj KDeployment :=
  let d := readyDeployment "demo-apiserver" in
  {| d_TypeMeta := d_TypeMeta d; d_Meta := (SetControllerReference (demoShard sqliteStorage) (d_Meta d)).1;
     d_Spec := d_Spec d;
     d_Status := {| st_Replicas := 2; st_ReadyReplicas := ready; st_AvailableReplicas := ready; st_UpdatedReplicas := 2 |} |}.

Definition watchingReconciler : Reconciler :=
  {| ServiceMonitorAvailable := false; SCCAvailable := false; PrimaryIssuer := "https://issuer" |}.
Definition unhealthyRun :=
  ref_exec (dispatch (apishardController watchingReconciler) (updateOf KDeployment (demoWorkload 2) (demoWorkload 1)))
    (runningCluster (demoShard sqliteStorage)).

