(* ===== verification/ControlLoop.v ===== *)
(** * The control loop

    A controller as controller-runtime drives it: changes of the cluster are turned into
    requests, requests wait in a queue, a worker takes one at a time for each resource
    and reconciles it, and what Reconcile returns decides whether the request is added
    again.  The queue is client-go's: it is the class [WorkQueue], with its documented
    behaviour as laws. *)
From S2P Require Import Prelude GoStd KubeTypes APITypes Kube Reference Aggregation ClientProvider ApiShardSteps.
From S2P Require Import ApiShard ApiShardLemmas Tracking LiveRule ApiShardProps Lifecycle Predicates Mappers Manager.
From S2P Require Import Setup Watches.

(** ** The queue *)
(** [waiting]: to be processed now or after a delay; [processing]: with a worker. *)
Class WorkQueue (Q : Type) := {
  emptyQueue : Q;
  waiting : Q -> NamespacedName -> Prop;
  processing : Q -> NamespacedName -> Prop;
  enqueue : NamespacedName -> Q -> Q;
  take : NamespacedName -> Q -> Q;
  finish : NamespacedName -> CtrlResult * option error -> Q -> Q }.

(** Reconcile asks for the request to be made again. *)
Definition again (out : CtrlResult * option error) : Prop := is_Some out.2 \/ (0 < RequeueAfter out.1)%Z.

#[export] Instance again_dec out : Decision (again out).
Proof. unfold again. apply _. Defined.

(** An item added while it is processed waits until it is processed again; an item is
    processed again after an error or with a delay when that is asked for. *)
Class WorkQueueLaws (Q : Type) (W : WorkQueue Q) : Prop := {
  empty_waiting k : ~ waiting emptyQueue k;
  empty_processing k : ~ processing emptyQueue k;
  enqueue_waiting k q : waiting (enqueue k q) k;
  enqueue_keeps k k' q : waiting q k' -> waiting (enqueue k q) k';
  enqueue_processing k k' q : processing (enqueue k q) k' <-> processing q k';
  take_keeps k k' q : k <> k' -> waiting q k' -> waiting (take k q) k';
  take_processing k k' q : processing (take k q) k' <-> k = k' \/ processing q k';
  finish_again k out q : again out -> waiting (finish k out q) k;
  finish_keeps k k' out q : waiting q k' -> waiting (finish k out q) k';
  finish_processing k k' out q : processing (finish k out q) k' <-> k <> k' /\ processing q k' }.

(** ** The loop *)
Inductive entry :=
  | Changed (e : Event) (reqs : list NamespacedName)
  | Resynced (reqs : list NamespacedName)
  | Began (k : NamespacedName)
  | Ended (k : NamespacedName) (tr : list kevent) (out : CtrlResult * option error).

(** What an entry of the history has to do with a resource. *)
Definition mentions (k : NamespacedName) (x : entry) : Prop :=
  match x with
  | Changed _ reqs | Resynced reqs => k ∈ reqs
  | Began k' | Ended k' _ _ => k' = k
  end.

Definition quiet (k : NamespacedName) (l : list entry) : Prop := Forall (fun x => ~ mentions k x) l.

Section Loop.
Context {T : ThirdParty} {R : ControllerRuntime} {Q : Type} {W : WorkQueue Q}.

(** The queue and the history, the latest entry first. *)
Record loop := { lp_queue : Q; lp_log : list entry }.

Definition started : loop := {| lp_queue := emptyQueue; lp_log := [] |}.

Variable C : Controller.

Definition enqueueEach (reqs : list NamespacedName) (q : Q) : Q := foldr enqueue q reqs.

Inductive loop_step : loop -> loop -> Prop :=
  | step_change s e tr reqs :
      run (dispatch C e) tr reqs ->
      loop_step s {| lp_queue := enqueueEach reqs (lp_queue s); lp_log := Changed e reqs :: lp_log s |}
  | step_resync s src tr reqs :
      src ∈ ctl_Sources C -> run (src_List src) tr reqs ->
      loop_step s {| lp_queue := enqueueEach reqs (lp_queue s); lp_log := Resynced reqs :: lp_log s |}
  | step_begin s k :
      waiting (lp_queue s) k -> ~ processing (lp_queue s) k ->
      loop_step s {| lp_queue := take k (lp_queue s); lp_log := Began k :: lp_log s |}
  | step_end s k p p' tr out :
      processing (lp_queue s) k -> run (ctl_Reconcile C p k) tr (out, p') ->
      loop_step s {| lp_queue := finish k out (lp_queue s); lp_log := Ended k tr out :: lp_log s |}.

(** The last thing that happened to the resource, if anything, is a reconciliation that
    ended well, and nothing requested another one since it began. *)
Definition settled (k : NamespacedName) (log : list entry) : Prop :=
  quiet k log \/
  exists a b c tr out p p', log = a ++ Ended k tr out :: b ++ Began k :: c /\ quiet k a /\ quiet k b /\
    run (ctl_Reconcile C p k) tr (out, p') /\ ~ again out.

(** A reconciliation is under way, and nothing requested another one since it began. *)
Definition underway (k : NamespacedName) (log : list entry) : Prop :=
  exists b c, log = b ++ Began k :: c /\ quiet k b.

Definition loopInv (k : NamespacedName) (s : loop) : Prop :=
  waiting (lp_queue s) k \/
  processing (lp_queue s) k /\ underway k (lp_log s) \/
  ~ processing (lp_queue s) k /\ settled k (lp_log s).

Lemma quiet_cons k x l : ~ mentions k x -> quiet k l -> quiet k (x :: l).
Proof. by constructor. Qed.

Lemma settled_cons k x log : ~ mentions k x -> settled k log -> settled k (x :: log).
Proof.
  intros Hx [Hq|(a&b&c&tr&out&p&p'&->&Ha&Hrest)]; [left; by apply quiet_cons|].
  right. exists (x :: a), b, c, tr, out, p, p'. split; [done|]. split; [by apply quiet_cons|done].
Qed.

Lemma underway_cons k x log : ~ mentions k x -> underway k log -> underway k (x :: log).
Proof. intros Hx (b&c&->&Hb). exists (x :: b), c. split; [done|by apply quiet_cons]. Qed.

Context {WL : WorkQueueLaws Q W}.

Lemma enqueueEach_waiting reqs q k : k ∈ reqs \/ waiting q k -> waiting (enqueueEach reqs q) k.
Proof.
  unfold enqueueEach. induction reqs as [|k' reqs IH]; cbn; [by intros [?%elem_of_nil|?]|].
  intros [[->|H]%elem_of_cons|H]; [apply enqueue_waiting|apply enqueue_keeps, IH; by left|apply enqueue_keeps, IH; by right].
Qed.

Lemma enqueueEach_processing reqs q k : processing (enqueueEach reqs q) k <-> processing q k.
Proof. unfold enqueueEach. induction reqs as [|k' reqs IH]; cbn; [done|]. by rewrite enqueue_processing. Qed.

(** Requests that are added, for the resource or for others. *)
Lemma loopInv_enqueue k s x reqs :
  (mentions k x <-> k ∈ reqs) -> loopInv k s ->
  loopInv k {| lp_queue := enqueueEach reqs (lp_queue s); lp_log := x :: lp_log s |}.
Proof.
  intros Hx Hi. destruct (decide (k ∈ reqs)) as [Hk|Hk]; [left; apply enqueueEach_waiting; by left|].
  rewrite <- Hx in Hk. destruct Hi as [Hw|[[Hp Hu]|[Hp Hs]]].
  - left. apply enqueueEach_waiting. by right.
  - right. left. cbn. rewrite enqueueEach_processing. split; [done|by apply underway_cons].
  - right. right. cbn. rewrite enqueueEach_processing. split; [done|by apply settled_cons].
Qed.

Lemma loopInv_step k s s' : loopInv k s -> loop_step s s' -> loopInv k s'.
Proof.
  intros Hi Hs. destruct Hs as [s e tr reqs _|s src tr reqs _ _|s k' Hw Hp|s k' p p' tr out Hp Hr].
  - by apply loopInv_enqueue.
  - by apply loopInv_enqueue.
  - destruct (decide (k' = k)) as [->|Hne].
    + right. left. cbn. rewrite take_processing. split; [by left|]. exists [], (lp_log s). split; [done|constructor].
    + destruct Hi as [Hw'|[[Hp' Hu]|[Hp' Hs]]]; [left; by apply take_keeps|right; left|right; right];
        cbn; rewrite take_processing; split; try tauto; [by apply underway_cons|by apply settled_cons].
  - destruct (decide (k' = k)) as [->|Hne].
    + destruct (decide (again out)) as [Ha|Ha]; [left; by apply finish_again|].
      destruct Hi as [Hw'|[[_ (b&c&E&Hb)]|[Hp' _]]]; [left; by apply finish_keeps| |done].
      right. right. cbn. rewrite finish_processing. split; [tauto|]. right.
      exists [], b, c, tr, out, p, p'. rewrite E. repeat split; try done. constructor.
    + destruct Hi as [Hw'|[[Hp' Hu]|[Hp' Hs]]]; [left; by apply finish_keeps|right; left|right; right];
        cbn; rewrite finish_processing; split; try tauto; [by apply underway_cons|by apply settled_cons].
Qed.

Lemma loopInv_reachable k s : rtc loop_step started s -> loopInv k s.
Proof.
  intros Hr. assert (loopInv k started) as Hi
    by (right; right; split; [apply empty_processing|left; constructor]).
  revert Hi. induction Hr; eauto using loopInv_step.
Qed.

(** A resource whose request neither waits nor is processed is settled. *)
Lemma idle_settled k s :
  rtc loop_step started s -> ~ waiting (lp_queue s) k -> ~ processing (lp_queue s) k -> settled k (lp_log s).
Proof. intros Hr Hw Hp. destruct (loopInv_reachable k s Hr) as [?|[[? _]|[_ ?]]]; done. Qed.
End Loop.

Section Shards.
Context {T : ThirdParty} {L : ThirdPartyLaws T} {R : ControllerRuntime} {RL : ControllerRuntimeLaws R}.
Context {Q : Type} {W : WorkQueue Q} {WL : WorkQueueLaws Q W}.
Variable r : Reconciler.

(** No entry is a change that concerns the shard. *)
Definition unchanged (name : string) (l : list entry) : Prop :=
  Forall (fun x => match x with Changed e _ => ~ concerns r e name | _ => True end) l.

(** The stages of the life cycle in which nothing is left to do. *)
Definition finalStage (s : stage) : Prop := s ∈ [Absent; Freed; Released; Reported PhaseReady].

Lemma concludes_final s out : concludes s out -> ~ again out -> out = (noRequeue, None) /\ finalStage s.
Proof.
  unfold again, finalStage. intros Hc Ha. destruct s; cbn in Hc; try done.
  all: try (subst out; split; [done|set_solver]).
  all: try (destruct Hc as [e ->]; destruct Ha; left; by eexists).
  destruct Hc as [[_ [e ->]]|[[_ ->]|[-> ->]]]; [destruct Ha; left; by eexists|destruct Ha; right; done|].
  split; [done|set_solver].
Qed.

(** The history holds what the watches delivered. *)
Lemma logged_delivered s e reqs :
  rtc (loop_step (apishardController r)) started s -> Changed e reqs ∈ lp_log s ->
  forall name, concerns r e name -> shardRequest name ∈ reqs.
Proof.
  intros Hr. assert (Changed e reqs ∈ lp_log started -> forall name, concerns r e name -> shardRequest name ∈ reqs) as Hi
    by (intros H; by apply elem_of_nil in H).
  revert Hi. induction Hr as [x|x y z Hs Hr IH]; [done|]. intros Hi. apply IH.
  destruct Hs as [x e' tr reqs' Hd|x src tr reqs' _ _|x k _ _|x k p p' tr out _ _]; cbn;
    (intros [H|H]%elem_of_cons; [|by apply Hi]); try done.
  injection H as -> ->. intros name. by apply (concerns_delivered r e' name tr).
Qed.

Lemma quiet_unchanged s name l :
  rtc (loop_step (apishardController r)) started s -> l ⊆ lp_log s -> quiet (shardRequest name) l -> unchanged name l.
Proof.
  intros Hr Hl Hq. apply Forall_forall. intros x Hx. destruct x as [e reqs|reqs|k|k tr out]; try done.
  intros Hc. eapply Forall_forall in Hq; [|exact Hx]. apply Hq. cbn. by eapply logged_delivered; [| |exact Hc]; auto.
Qed.

(** C5: no change is lost in the control loop: in every state that the loop can reach,
    under any interleaving of changes, resynchronisations and reconciliations of any
    resources, a shard whose request neither waits nor is being processed has been
    reconciled since the last change that concerns it, if there was one; that
    reconciliation began after the change, with no further one while it ran or
    since, was the last one, and ended without error or requeue in a stage of the life
    cycle where nothing is left to do: the shard is gone, is released, or was
    reported Ready. *)
Theorem idle_shard_reconciled s name :
  rtc (loop_step (apishardController r)) started s ->
  ~ waiting (lp_queue s) (shardRequest name) -> ~ processing (lp_queue s) (shardRequest name) ->
  unchanged name (lp_log s) \/
  exists a b c tr out p p',
    lp_log s = a ++ Ended (shardRequest name) tr out :: b ++ Began (shardRequest name) :: c /\
    quiet (shardRequest name) (a ++ b) /\ unchanged name (a ++ b) /\
    run (ApiShard.Reconcile r p (shardRequest name)) tr (out, p') /\
    out = (noRequeue, None) /\ finalStage (ghost advance Start tr).
Proof.
  intros Hr Hw Hp. destruct (idle_settled _ _ _ Hr Hw Hp) as [Hq|(a&b&c&tr&out&p&p'&E&Ha&Hb&Hrun&Hout)].
  { left. by eapply quiet_unchanged. }
  right. exists a, b, c, tr, out, p, p'. split; [exact E|].
  assert (quiet (shardRequest name) (a ++ b)) as Hab by (by apply Forall_app).
  split; [exact Hab|]. split; [eapply quiet_unchanged; [exact Hr|rewrite E; set_solver|exact Hab]|].
  split; [exact Hrun|].
  destruct (wp_sound _ _ _ _ _ _ _ _ (W_Reconcile_stage r p (shardRequest name)) (relied_any _) Hrun) as [_ Hends].
  by apply concludes_final.
Qed.
End Shards.

(** ** A queue *)
(** The requests that wait, and those that are processed. *)
Record listQueue := { lq_waiting : list NamespacedName; lq_processing : list NamespacedName }.

Definition without (k : NamespacedName) (l : list NamespacedName) : list NamespacedName :=
  filter (fun k' => k' <> k) l.

#[export] Instance list_queue : WorkQueue listQueue := {
  emptyQueue := {| lq_waiting := []; lq_processing := [] |};
  waiting q k := k ∈ lq_waiting q;
  processing q k := k ∈ lq_processing q;
  enqueue k q := {| lq_waiting := lq_waiting q ++ [k]; lq_processing := lq_processing q |};
  take k q := {| lq_waiting := without k (lq_waiting q); lq_processing := k :: lq_processing q |};
  finish k out q := {| lq_waiting := if decide (again out) then lq_waiting q ++ [k] else lq_waiting q;
                       lq_processing := without k (lq_processing q) |} }.

#[export] Instance list_queue_laws : WorkQueueLaws listQueue list_queue.
Proof.
  split; unfold waiting, processing, enqueue, take, finish, list_queue, without; cbn; intros;
    try case_decide; rewrite ?list_elem_of_filter; set_solver.
Qed.

(** The API server of the demo shard loses a replica; the shard is reconciled once the
    replica is back, and then rests. *)
Definition lossOfReplica : Event := updateOf KDeployment (demoWorkload 2) (demoWorkload 1).
Definition changeRun :=
  ref_exec (dispatch (apishardController demoReconciler) lossOfReplica) (runningCluster (demoShard sqliteStorage)).

Definition changedLoop : loop :=
  {| lp_queue := enqueueEach (result_of changeRun) (lp_queue started);
     lp_log := Changed lossOfReplica (result_of changeRun) :: lp_log started |}.
Definition busyLoop : loop :=
  {| lp_queue := take demoKey (lp_queue changedLoop); lp_log := Began demoKey :: lp_log changedLoop |}.
Definition restingLoop : loop :=
  {| lp_queue := finish demoKey (result_of readyRun).1 (lp_queue busyLoop);
     lp_log := Ended demoKey (trace_of readyRun) (result_of readyRun).1 :: lp_log busyLoop |}.

Lemma demo_loop : rtc (loop_step (apishardController demoReconciler)) started restingLoop.
Proof.
  apply (rtc_l _ _ changedLoop); [apply (step_change _ started _ (trace_of changeRun)), exec_run|].
  apply (rtc_l _ _ busyLoop); [apply step_begin|].
  - apply enqueueEach_waiting. left. apply (bool_decide_unpack _). vm_compute. exact I.
  - intros H. vm_compute in H. by apply elem_of_nil in H.
  - apply rtc_once, (step_end _ busyLoop demoKey ∅ (result_of readyRun).2).
    + left.
    + rewrite <- surjective_pairing. apply exec_run.
Qed.

Lemma idle_shard_reconciled_witness :
  concerns demoReconciler lossOfReplica "demo" /\
  (unchanged demoReconciler "demo" (lp_log restingLoop) \/
   exists a b c tr out, lp_log restingLoop = a ++ Ended demoKey tr out :: b ++ Began demoKey :: c /\
     quiet demoKey (a ++ b) /\ finalStage (ghost advance Start tr)).
Proof.
  split.
  { exists (existT KDeployment (demoWorkload 1)). split; [right; left|]. right.
    split; [eexists; by repeat split|]. split; [exists KDeployment; split; [left|by repeat constructor]|].
    by intros [_ (_&?&_)]. }
  destruct (idle_shard_reconciled demoReconciler restingLoop "demo" demo_loop) as [H|H].
  - intros H. vm_compute in H. by apply elem_of_nil in H.
  - intros H. vm_compute in H. by apply elem_of_nil in H.
  - by left.
  - destruct H as (a&b&c&tr&out&p&p'&E&Hq&_&_&_&Hf). right. by exists a, b, c, tr, out.
Defined.
