(* ===== verification/Health.v ===== *)
(** * Health checks of a secondary

    src/operator/internal/secondary/client.go, HealthChecker: an HTTP client with its
    TLS configuration, and one GET of the health endpoint. *)
From S2P Require Import Prelude GoStd.

(** ** The HTTP client *)
Definition VersionTLS12 : Z := 771.

(** [tls.Config]; the root certificates are the PEM texts appended to the pool, or
    nil for the host's. *)
Record TLSConfig := { tls_MinVersion : Z; tls_RootCAs : option (list string); tls_InsecureSkipVerify : bool }.

Record HealthChecker := { hc_TLS : TLSConfig; hc_Timeout : Z }.

Definition NewHealthChecker (caCert : string) : HealthChecker :=
  {| hc_TLS :=
       if decide (caCert = "")
       then {| tls_MinVersion := VersionTLS12; tls_RootCAs := None; tls_InsecureSkipVerify := true |}
       else {| tls_MinVersion := VersionTLS12; tls_RootCAs := Some [caCert]; tls_InsecureSkipVerify := false |};
     hc_Timeout := 5 * Second |}.

(** ** Calls *)
Inductive hcall :=
  | NewRequest (method url : string)
  | SendRequest (client : HealthChecker) (method url : string)
  | CloseBody.

(** The error of a malformed request; the status code or the error of the transport. *)
Definition hresp (c : hcall) : Type :=
  match c with
  | NewRequest _ _ => option error
  | SendRequest _ _ _ => result Z
  | CloseBody => option error
  end.

Abbreviation hprog := (prog hresp).

(** The (bool, error) pair is kept as it is: an unhealthy server is no error. *)
Definition CheckHealth (h : HealthChecker) (endpoint : string) : hprog (bool * option error) :=
  let url := endpoint +:+ "/healthz" in
  let* e := @perform hcall hresp (NewRequest "GET" url) in
  match e with
  | Some err => Ret (false, Some (Wrapf "creating health check request" err))
  | None =>
      let* res := @perform hcall hresp (SendRequest h "GET" url) in
      match res with
      | Err _ => Ret (false, None)
      | Ok status =>
          let* _ := @perform hcall hresp CloseBody in
          Ret ((status =? 200)%Z, None)
      end
  end.

(** The trust of a client: certificates are checked against the given authority. *)
Definition verifies (h : HealthChecker) (caCert : string) : Prop :=
  tls_InsecureSkipVerify (hc_TLS h) = false /\ tls_RootCAs (hc_TLS h) = Some [caCert] /\
  (VersionTLS12 <= tls_MinVersion (hc_TLS h))%Z.

Abbreviation hev c r := (@Ev hcall hresp c r).

(** A health check sends at most one request, a GET of the endpoint's /healthz, and
    reports healthy exactly if it was answered with status 200; a server that cannot
    be reached or answers anything else is unhealthy without an error, the body of
    every answer is closed, and only a request that could not be made is an error.
    With a CA certificate the server's certificate is verified against that authority
    alone, by TLS 1.2 or later; verification is off exactly without one. *)
Theorem health_check_exact caCert endpoint tr healthy err :
  let h := NewHealthChecker caCert in
  let url := endpoint +:+ "/healthz" in
  (run (CheckHealth h endpoint) tr (healthy, err) <->
     (exists e, tr = [hev (NewRequest "GET" url) (Some e)] /\ healthy = false /\
        err = Some (Wrapf "creating health check request" e)) \/
     (exists e, tr = [hev (NewRequest "GET" url) None; hev (SendRequest h "GET" url) (Err e)] /\
        healthy = false /\ err = None) \/
     (exists status closed, tr = [hev (NewRequest "GET" url) None; hev (SendRequest h "GET" url) (Ok status);
                                  hev CloseBody closed] /\
        (healthy = true <-> status = 200%Z) /\ err = None)) /\
  (verifies h caCert <-> caCert <> "") /\ (tls_InsecureSkipVerify (hc_TLS h) = true <-> caCert = "").
Proof.
  cbv zeta. split; [|split].
  - unfold CheckHealth. cbn [bind perform run]. split.
    + intros ([e|]&tr'&->&H); [destruct H as [-> [= -> ->]]; left; eauto|].
      destruct H as ([status|e]&tr2&->&H); [|destruct H as [-> [= -> ->]]; right; left; eauto].
      destruct H as (closed&tr3&->&->&[= -> ->]). right. right. exists status, closed.
      split; [done|]. split; [apply Z.eqb_eq|done].
    + intros [(e&->&->&->)|[(e&->&->&->)|(status&closed&->&Hh&->)]].
      * by exists (Some e), [].
      * eexists None, _. split; [done|]. by exists (Err e), [].
      * eexists None, _. split; [done|]. eexists (Ok status), _. split; [done|]. exists closed, []. split; [done|].
        split; [done|]. f_equal. apply eq_true_iff_eq. by rewrite Hh, Z.eqb_eq.
  - unfold verifies, NewHealthChecker, VersionTLS12. case_decide; cbn; [naive_solver|]. split; [done|]. by intros _.
  - unfold NewHealthChecker. case_decide; cbn; naive_solver.
Qed.
