(* ===== verification/Tekton.v ===== *)
(** * The environment of the load-test generator

    src/tools/generate-from-pipeline turns a Tekton PipelineRun into one with the
    same shape and storage footprint.  This file has the Tekton objects it reads and
    writes (a record holds the fields the tool touches; what it only carries along is
    an opaque rest), and its calls: entropy, the OCI registry, files and output.
    YAML and the JSON decoding of a Task are third-party code, the operations of the
    class [Codec]. *)
From S2P Require Import Prelude KubeTypes.

(** ** Tekton objects *)
Inductive ParamType := ParamTypeString | ParamTypeArray | ParamTypeObject.

Record ParamValue := {
  pv_Type : ParamType; StringVal : string; ArrayVal : list string; ObjectVal : list (string * string) }.
Record Param := { p_Name : string; p_Value : ParamValue }.
Record IncludeParams := { inc_Name : string; inc_Params : list Param }.
Record Matrix := { mx_Params : list Param; mx_Include : list IncludeParams }.

(** [corev1.ResourceRequirements], with the claims a step may have. *)
Record StepResources := {
  sr_Requests : option ResourceList; sr_Limits : option ResourceList; sr_Claims : list (string * string) }.
Definition noResources : StepResources := {| sr_Requests := None; sr_Limits := None; sr_Claims := [] |}.

Record Step := {
  step_Name : string; step_Image : string; step_ImagePullPolicy : string; step_Script : string;
  step_ComputeResources : StepResources; step_Rest : string }.

Record ParamSpec := { ps_Name : string; ps_Type : ParamType }.

(** [pipelinev1.EmbeddedTask] *)
Record TaskSpec := { ts_Steps : list Step; ts_Params : list ParamSpec; ts_Rest : string }.

Record TaskRef := { tr_Resolver : string; tr_Params : list Param }.

Record PipelineTask := {
  pt_Name : string; pt_TaskRef : option TaskRef; pt_TaskSpec : option TaskSpec;
  pt_RunAfter : list string; pt_Matrix : option Matrix }.

Record TaskRunStepSpec := { trss_Name : string; trss_ComputeResources : StepResources }.
Record PipelineTaskRunSpec := {
  trs_PipelineTaskName : string; trs_ComputeResources : option StepResources;
  trs_StepSpecs : list TaskRunStepSpec; trs_Rest : string }.

Record PipelineSpec := { Tasks : list PipelineTask; Finally : list PipelineTask }.

Record PipelineRun := {
  pr_APIVersion : string; pr_Kind : string; pr_GenerateName : string; pr_Namespace : string;
  pr_PipelineSpec : option PipelineSpec; pr_Params : list Param;
  pr_TaskRunSpecs : list PipelineTaskRunSpec }.

(** [pipelinev1.Task], decoded from a bundle. *)
Record Task := { task_Kind : string; task_Steps : list Step }.
Definition zeroTask : Task := {| task_Kind := ""; task_Steps := [] |}.

(** ** OCI images *)
Definition ImageRef := string.
Definition Image := nat.
Definition Layer := nat.
Record Descriptor := { desc_Annotations : gomap; desc_Size : Z }.

(** What [tar.Reader] gives for a layer: the contents of its entries in order,
    each with the error of reading it, and how the archive ends, at its end or
    with an error.  A layer is a finite file. *)
Record Tarball := { tar_Entries : list (result string); tar_End : option error }.

(** ** Calls *)
Inductive tcall :=
  | RandBytes (n : nat)
  | RandInt (max : Z)
  | Panic (message : string)
  | ParseReference (s : string)
  | RemoteImage (ref : ImageRef)
  | ImageManifest (img : Image)
  | ImageLayers (img : Image)
  | Uncompressed (layer : Layer)
  | ReadFile (path : string)
  | WriteFile (path data : string)
  | Stdout (text : string)
  | Stderr (text : string)
  | Exit (code : Z).

(** [rand.Read(buf)] fills a buffer that is as long as it was made: the response
    is the byte at each index.  A panic and an exit do not return. *)
Definition tresp (c : tcall) : Type :=
  match c with
  | RandBytes _ => nat -> ascii
  | RandInt _ => result Z
  | Panic _ | Exit _ => Empty_set
  | ParseReference _ => result ImageRef
  | RemoteImage _ => result Image
  | ImageManifest _ => result (list Descriptor)
  | ImageLayers _ => result (list Layer)
  | Uncompressed _ => result Tarball
  | ReadFile _ => result string
  | WriteFile _ _ => option error
  | Stdout _ | Stderr _ => unit
  end.

Abbreviation tprog := (prog tresp).
Abbreviation tevent := (event tresp).

(** Runtime panics and [os.Exit]. *)
Definition panic {A} (message : string) : tprog A :=
  Do (Panic message) (fun r => match r : Empty_set with end).
Definition exit {A} (code : Z) : tprog A :=
  Do (Exit code) (fun r => match r : Empty_set with end).

(** What is documented of the responses: [rand.Int] is uniform in [0, max). *)
Definition documented (c : tcall) : tresp c -> Prop :=
  match c with
  | RandInt max => fun r => match r with Ok n => (0 <= n < max)%Z | Err _ => True end
  | _ => fun _ => True
  end.

(** ** YAML and JSON *)
(** [yaml.Unmarshal] and [json.Unmarshal] decode into the value they are given. *)
Class Codec := {
  yaml_Marshal_TaskSpec : TaskSpec -> string;
  yaml_Marshal_PipelineRun : PipelineRun -> result string;
  yaml_Unmarshal_PipelineRun : string -> result PipelineRun;
  yaml_Unmarshal_Task : string -> Task -> Task * option error;
  json_Unmarshal_Task : string -> Task -> Task * option error }.

(** ** Execution against a handler that may refuse a call *)
Fixpoint simulate {A} (h : forall c, option (tresp c)) (p : tprog A) : option (A * list tevent) :=
  match p with
  | Ret a => Some (a, [])
  | Do c k =>
      match h c with
      | None => None
      | Some r => (fun '(a, tr) => (a, Ev c r :: tr)) <$> simulate h (k r)
      end
  end.

Lemma simulate_run {A} h (p : tprog A) a tr : simulate h p = Some (a, tr) -> run p tr a.
Proof.
  revert a tr. induction p as [b|c k IH]; intros a tr; cbn.
  - by intros [= -> ->].
  - destruct (h c) as [r|]; [|done]. destruct (simulate h (k r)) as [[b t]|] eqn:E; [|done].
    cbn. intros [= -> <-]. eauto.
Qed.

(** A handler whose answers are as documented gives documented traces. *)
Lemma simulate_relied {A} h (p : tprog A) a tr :
  (forall c r, h c = Some r -> documented c r) -> simulate h p = Some (a, tr) -> relied documented tr.
Proof.
  intros Hh. revert a tr. induction p as [b|c k IH]; intros a tr; cbn.
  - intros [= _ <-]. constructor.
  - destruct (h c) as [r|] eqn:Hc; [|done]. destruct (simulate h (k r)) as [[b t]|] eqn:E; [|done].
    cbn. intros [= _ <-]. constructor; [by apply Hh|]. by eapply IH.
Qed.

(** ** A reference environment *)
Definition demoStep (n : string) : Step :=
  {| step_Name := n; step_Image := "img"; step_ImagePullPolicy := ""; step_Script := "make";
     step_ComputeResources := noResources; step_Rest := "" |}.
Definition demoSpec : TaskSpec := {| ts_Steps := [demoStep "compile"; demoStep ""]; ts_Params := []; ts_Rest := "" |}.
Definition strings (l : list string) : ParamValue :=
  {| pv_Type := ParamTypeArray; StringVal := ""; ArrayVal := l; ObjectVal := [] |}.
Definition text (s : string) : ParamValue :=
  {| pv_Type := ParamTypeString; StringVal := s; ArrayVal := []; ObjectVal := [] |}.

(** A pipeline with an inline task that fans out, a bundle task and a finally task. *)
Definition demoRun : PipelineRun :=
  {| pr_APIVersion := "tekton.dev/v1"; pr_Kind := "PipelineRun"; pr_GenerateName := "build-"; pr_Namespace := "ns";
     pr_PipelineSpec := Some
       {| Tasks :=
            [ {| pt_Name := "build"; pt_TaskRef := None; pt_TaskSpec := Some demoSpec; pt_RunAfter := [];
                 pt_Matrix := Some {| mx_Params := [ {| p_Name := "arch"; p_Value := strings ["$(params.platforms)"] |} ];
                                      mx_Include := [] |} |};
              {| pt_Name := "scan"; pt_TaskSpec := None; pt_RunAfter := ["build"]; pt_Matrix := None;
                 pt_TaskRef := Some {| tr_Resolver := "bundles";
                                       tr_Params := [ {| p_Name := "bundle"; p_Value := text "quay.io/t:1" |};
                                                      {| p_Name := "name"; p_Value := text "scan" |} ] |} |} ];
          Finally := [ {| pt_Name := "notify"; pt_TaskRef := None; pt_TaskSpec := None; pt_RunAfter := [];
                          pt_Matrix := None |} ] |};
     pr_Params := [ {| p_Name := "platforms"; p_Value := strings ["amd64"; "arm64"; "s390x"] |} ];
     pr_TaskRunSpecs := [ {| trs_PipelineTaskName := "scan"; trs_ComputeResources := Some noResources;
                             trs_StepSpecs := []; trs_Rest := "" |} ] |}.

#[export] Instance demoCodec : Codec := {
  yaml_Marshal_TaskSpec ts := "steps: []";
  yaml_Marshal_PipelineRun pr := Ok ("metadata: {}" +:+ LF +:+ "kind: " +:+ pr_Kind pr +:+ LF);
  yaml_Unmarshal_PipelineRun data := Ok demoRun;
  yaml_Unmarshal_Task data t :=
    if decide (data = "task") then ({| task_Kind := "Task"; task_Steps := [demoStep "scan"] |}, None)
    else (t, Some (Errorf "not yaml"));
  json_Unmarshal_Task data t := (t, Some (Errorf "not json")) }.

Definition taskLayer : Descriptor :=
  {| desc_Annotations := mlit [("dev.tekton.image.kind", "task"); ("dev.tekton.image.name", "scan")]; desc_Size := 300 |}.

Definition demoHandler (c : tcall) : option (tresp c) :=
  match c return option (tresp c) with
  | RandBytes _ => Some (fun _ => "a"%char)
  | RandInt max => if decide (0 < max)%Z then Some (Ok 0%Z) else None
  | Panic _ => None
  | ParseReference s => Some (Ok s)
  | RemoteImage _ => Some (Ok 0)
  | ImageManifest _ => Some (Ok [taskLayer])
  | ImageLayers _ => Some (Ok [0])
  | Uncompressed _ => Some (Ok {| tar_Entries := [Ok "readme"; Ok "task"]; tar_End := None |})
  | ReadFile _ => Some (Ok "data")
  | WriteFile _ _ => Some None
  | Stdout _ | Stderr _ => Some tt
  | Exit _ => None
  end.

Lemma demoHandler_documented c r : demoHandler c = Some r -> documented c r.
Proof. destruct c; try done. cbn. case_decide; [|done]. intros [= <-]. lia. Qed.
