(* ===== verification/Generator.v ===== *)
(** * Generation of load-test PipelineRuns

    src/tools/generate-from-pipeline/generator.go.  Go's [int] has 64 bits: the
    products that can leave its range are wrapped. *)
From S2P Require Import Prelude GoStd NetUrl GoFmt Tekton.

Record taskInfo := {
  ti_name : string; bundleRef : string; bundleTaskName : string; runAfter : list string;
  matrix : option Matrix; isFinallyTask : bool; inlineSteps : Z; inlineSize : Z;
  inlineStepNames : list string; inlineStepResources : list StepResources }.

Record config := {
  namespace : string; prefix : string; image : string; sleepMin : Z; sleepMax : Z;
  defaultTaskSizeKB : Z; defaultSteps : Z; preserveResources : bool }.

(** bundle.go *)
Record resolvedTask := {
  rt_Name : string; StepNames : list string; rt_StepResources : list StepResources;
  SizeBytes : Z; rt_Err : option error }.

Definition len {A} (l : list A) : Z := Z.of_nat (length l).
Definition slen (s : string) : Z := Z.of_nat (String.length s).

(** ** Extraction *)
(** The bundle resolver's parameters; a later one overwrites an earlier one. *)
Definition bundleParams (ps : list Param) : string * string :=
  foldl (fun acc p =>
    if decide (p_Name p = "bundle") then (StringVal (p_Value p), acc.2)
    else if decide (p_Name p = "name") then (acc.1, StringVal (p_Value p))
    else acc) ("", "") ps.

Section Extract.
Context {Y : Codec}.

Definition extractSingleTaskInfo (pt : PipelineTask) (isFinally : bool) : taskInfo :=
  let '(ref, taskName) :=
    match pt_TaskRef pt with
    | Some r => if decide (tr_Resolver r = "bundles") then bundleParams (tr_Params r) else ("", "")
    | None => ("", "")
    end in
  let '(steps, size, names, resources) :=
    match pt_TaskSpec pt with
    | Some ts => (len (ts_Steps ts), slen (yaml_Marshal_TaskSpec ts),
                  step_Name <$> ts_Steps ts, step_ComputeResources <$> ts_Steps ts)
    | None => (0%Z, 0%Z, [], [])
    end in
  {| ti_name := pt_Name pt; bundleRef := ref; bundleTaskName := taskName; runAfter := pt_RunAfter pt;
     matrix := pt_Matrix pt; isFinallyTask := isFinally; inlineSteps := steps; inlineSize := size;
     inlineStepNames := names; inlineStepResources := resources |}.

Definition extractTaskInfos (pr : PipelineRun) : list taskInfo :=
  match pr_PipelineSpec pr with
  | None => []
  | Some spec =>
      ((fun pt => extractSingleTaskInfo pt false) <$> Tasks spec) ++
      ((fun pt => extractSingleTaskInfo pt true) <$> Finally spec)
  end.
End Extract.

(** ** Matrices *)
(** The array parameters of the run; the last of several of one name counts. *)
Definition arrayParams (prParams : list Param) : gmap string (list string) :=
  foldl (fun m p => match pv_Type (p_Value p) with
                    | ParamTypeArray => <[p_Name p := ArrayVal (p_Value p)]> m
                    | _ => m
                    end) ∅ prParams.

Definition paramsPrefix : string := "$(params.".

Definition resolveParam (paramMap : gmap string (list string)) (mp : Param) : Param :=
  match ArrayVal (p_Value mp) with
  | [ref] =>
      if HasPrefix ref paramsPrefix && HasSuffix ref ")" then
        let paramName := slice ref (String.length paramsPrefix) (String.length ref - 1) in
        match paramMap !! paramName with
        | Some vals =>
            {| p_Name := p_Name mp;
               p_Value := {| pv_Type := ParamTypeArray; StringVal := ""; ArrayVal := vals; ObjectVal := [] |} |}
        | None => mp
        end
      else mp
  | _ => mp
  end.

Definition resolveMatrixValues (m : option Matrix) (prParams : list Param) : option Matrix :=
  match m with
  | None => None
  | Some m =>
      let paramMap := arrayParams prParams in
      Some {| mx_Params := resolveParam paramMap <$> mx_Params m; mx_Include := mx_Include m |}
  end.

Definition matrixExpansionCount (m : option Matrix) : Z :=
  match m with
  | None => 1
  | Some m =>
      let count := foldl (fun count mp =>
        let n := len (ArrayVal (p_Value mp)) in
        if (0 <? n)%Z then int64 (count * n) else count) 1%Z (mx_Params m) in
      if (count =? 1)%Z && (len (mx_Params m) =? 0)%Z && (0 <? len (mx_Include m))%Z
      then len (mx_Include m)
      else count
  end.

(** ** Scripts *)
(** A buffer of [n] bytes filled by the entropy source. *)
Fixpoint fill (n : nat) (f : nat -> ascii) : string :=
  match n with O => "" | S n => String (f 0) (fill n (fun i => f (S i))) end.

Definition scriptBase (sleepSecs : Z) : string :=
  "#!/usr/bin/env sh" +:+ LF +:+ "sleep " +:+ itoa sleepSecs +:+ LF.
Definition paddingPrefix : string := "# padding: ".

Definition padScript (sleepSecs targetBytes : Z) : tprog string :=
  let base := scriptBase sleepSecs in
  let overhead := (slen base + slen paddingPrefix + 1)%Z in
  let needed := int64 (targetBytes - overhead) in
  if (needed <=? 0)%Z then Ret base
  else
    let rawBytes := Z.quot (int64 (needed * 3)) 4 in
    if (rawBytes <=? 0)%Z then Ret base
    else
      let* f := perform (RandBytes (Z.to_nat rawBytes)) in
      let padding := base64_EncodeToString (fill (Z.to_nat rawBytes) f) in
      let padding := if (needed <? slen padding)%Z then slice padding 0 (Z.to_nat needed) else padding in
      Ret (base +:+ paddingPrefix +:+ padding +:+ LF).

(** [rand.Int] panics when its bound is not positive. *)
Definition randomInt (min max : Z) : tprog Z :=
  if (max <=? min)%Z then Ret min
  else
    let bound := int64 (max - min + 1) in
    if (bound <=? 0)%Z then panic "crypto/rand: argument to Int is <= 0"
    else
      let* r := perform (RandInt bound) in
      match r with
      | Err _ => Ret min
      | Ok n => Ret (int64 (min + n))
      end.

(** ** Tasks *)
(** Step count, target size, step names and resources of a generated task. *)
Record shape := { stepCount : Z; targetSize : Z; stepNames : list string; stepResources : list StepResources }.

Definition taskShape (t : taskInfo) (r : option resolvedTask) (cfg : config) : shape :=
  let s := {| stepCount := defaultSteps cfg; targetSize := int64 (defaultTaskSizeKB cfg * 1024);
              stepNames := []; stepResources := [] |} in
  let s :=
    match r with
    | Some r =>
        match rt_Err r with
        | None =>
            let s := if (0 <? len (StepNames r))%Z
                     then {| stepCount := len (StepNames r); targetSize := targetSize s;
                             stepNames := StepNames r; stepResources := rt_StepResources r |}
                     else s in
            if (0 <? SizeBytes r)%Z
            then {| stepCount := stepCount s; targetSize := SizeBytes r;
                    stepNames := stepNames s; stepResources := stepResources s |}
            else s
        | Some _ =>
            if (0 <? SizeBytes r)%Z
            then {| stepCount := stepCount s; targetSize := SizeBytes r;
                    stepNames := stepNames s; stepResources := stepResources s |}
            else s
        end
    | None => s
    end in
  let s :=
    if bool_decide (bundleRef t = "") && (0 <? inlineSteps t)%Z
    then {| stepCount := inlineSteps t;
            targetSize := if (0 <? inlineSize t)%Z then inlineSize t else targetSize s;
            stepNames := inlineStepNames t; stepResources := inlineStepResources t |}
    else s in
  {| stepCount := if (stepCount s <? 1)%Z then 1 else stepCount s;
     targetSize := targetSize s; stepNames := stepNames s; stepResources := stepResources s |}.

Definition perStepSize (s : shape) : Z :=
  let size := Z.quot (targetSize s) (stepCount s) in if (size <? 100)%Z then 100 else size.

Definition stepName (names : list string) (i : nat) : string :=
  match names !! i with
  | Some n => if decide (n = "") then "step-" +:+ itoa (Z.of_nat i) else n
  | None => "step-" +:+ itoa (Z.of_nat i)
  end.

Definition generateStep (cfg : config) (s : shape) (i : nat) : tprog Step :=
  let* secs := randomInt (sleepMin cfg) (sleepMax cfg) in
  let* script := padScript secs (perStepSize s) in
  Ret {| step_Name := stepName (stepNames s) i; step_Image := image cfg;
         step_ImagePullPolicy := "IfNotPresent"; step_Script := script;
         step_ComputeResources :=
           if preserveResources cfg then default noResources (stepResources s !! i) else noResources;
         step_Rest := "" |}.

(** [for i := range steps]: the body for each index from [i] on. *)
Fixpoint generateSteps (cfg : config) (s : shape) (i n : nat) : tprog (list Step) :=
  match n with
  | O => Ret []
  | S n =>
      let* st := generateStep cfg s i in
      let* rest := generateSteps cfg s (S i) n in
      Ret (st :: rest)
  end.

Definition matrixParams (m : option Matrix) : list ParamSpec :=
  match m with
  | Some m => (fun mp => {| ps_Name := p_Name mp; ps_Type := ParamTypeString |}) <$> mx_Params m
  | None => []
  end.

Definition generatePipelineTask (t : taskInfo) (r : option resolvedTask) (prParams : list Param) (cfg : config)
  : tprog PipelineTask :=
  let s := taskShape t r cfg in
  let* steps := generateSteps cfg s 0 (Z.to_nat (stepCount s)) in
  let resolvedMatrix := resolveMatrixValues (matrix t) prParams in
  Ret {| pt_Name := ti_name t; pt_TaskRef := None;
         pt_TaskSpec := Some {| ts_Steps := steps; ts_Params := matrixParams resolvedMatrix; ts_Rest := "" |};
         pt_RunAfter := runAfter t; pt_Matrix := resolvedMatrix |}.

(** ** The run *)
Definition taskRunSpecMap (l : list PipelineTaskRunSpec) : gmap string PipelineTaskRunSpec :=
  foldl (fun m trs => <[trs_PipelineTaskName trs := trs]> m) ∅ l.

(** The forwarded overrides of a task, none when there is nothing to forward. *)
Definition forwardSpec (m : gmap string PipelineTaskRunSpec) (t : taskInfo) : list PipelineTaskRunSpec :=
  match m !! ti_name t with
  | Some trs =>
      let out := {| trs_PipelineTaskName := ti_name t; trs_ComputeResources := trs_ComputeResources trs;
                    trs_StepSpecs := trs_StepSpecs trs; trs_Rest := "" |} in
      if bool_decide (is_Some (trs_ComputeResources out)) || (0 <? len (trs_StepSpecs out))%Z then [out] else []
  | None => []
  end.

(** The lists the loop appends to. *)
Record pipelineAcc := { acc_Tasks : list PipelineTask; acc_Finally : list PipelineTask;
                        acc_TaskRunSpecs : list PipelineTaskRunSpec }.

Definition addTask (cfg : config) (m : gmap string PipelineTaskRunSpec) (t : taskInfo) (pt : PipelineTask)
    (a : pipelineAcc) : pipelineAcc :=
  {| acc_Tasks := if isFinallyTask t then acc_Tasks a else acc_Tasks a ++ [pt];
     acc_Finally := if isFinallyTask t then acc_Finally a ++ [pt] else acc_Finally a;
     acc_TaskRunSpecs :=
       if preserveResources cfg then acc_TaskRunSpecs a ++ forwardSpec m t else acc_TaskRunSpecs a |}.

Fixpoint generateTasks (tasks : list taskInfo) (resolved : gmap string resolvedTask) (prParams : list Param)
    (m : gmap string PipelineTaskRunSpec) (cfg : config) (a : pipelineAcc) : tprog pipelineAcc :=
  match tasks with
  | [] => Ret a
  | t :: tasks =>
      let* pt := generatePipelineTask t (resolved !! ti_name t) prParams cfg in
      generateTasks tasks resolved prParams m cfg (addTask cfg m t pt a)
  end.

Definition generatePipelineRun (tasks : list taskInfo) (resolved : gmap string resolvedTask)
    (prParams : list Param) (taskRunSpecs : list PipelineTaskRunSpec) (cfg : config) : tprog PipelineRun :=
  let* a := generateTasks tasks resolved prParams (taskRunSpecMap taskRunSpecs) cfg
              {| acc_Tasks := []; acc_Finally := []; acc_TaskRunSpecs := [] |} in
  Ret {| pr_APIVersion := "tekton.dev/v1"; pr_Kind := "PipelineRun"; pr_GenerateName := prefix cfg;
         pr_Namespace := namespace cfg;
         pr_PipelineSpec := Some {| Tasks := acc_Tasks a; Finally := acc_Finally a |};
         pr_Params := []; pr_TaskRunSpecs := acc_TaskRunSpecs a |}.
