(* ===== verification/Bundle.v ===== *)
(** * Resolution of Tekton bundles

    src/tools/generate-from-pipeline/bundle.go: reading a Task from a layer of an
    OCI image, finding the layer, and resolving all bundles of a pipeline by one
    goroutine each.  The goroutines are a step relation on the state they share: the
    loop that starts them and waits, each goroutine's calls one by one, and the
    statements of its body, with the mutex, the map (a write of which has a begin and
    an end, so that two writes can overlap) and the WaitGroup.  What the Go runtime
    refuses (overlapping writes, unlocking an unlocked mutex, a negative counter) and
    a panic end the process. *)
From S2P Require Import Prelude GoStd Tekton Generator.

Section Resolve.
Context {Y : Codec}.

(** Both decoders, one after the other, decode into the same variable. *)
Definition decodeTask (data : string) : option Task :=
  let '(task, err) := yaml_Unmarshal_Task data zeroTask in
  if bool_decide (err = None) && bool_decide (task_Kind task = "Task") then Some task
  else
    let '(task, err) := json_Unmarshal_Task data task in
    if bool_decide (err = None) && bool_decide (task_Kind task = "Task") then Some task
    else None.

(** The loop over the entries of the archive: the task with the size of its entry,
    or the error with the size of the last entry read. *)
Fixpoint scanEntries (entries : list (result string)) (last : option error) (lastSize : Z)
  : result (Task * Z) * Z :=
  match entries with
  | [] =>
      match last with
      | Some err => (Err (Wrapf "tar" err), lastSize)
      | None =>
          if (0 <? lastSize)%Z
          then (Err (Errorf ("could not parse " +:+ itoa lastSize +:+ " bytes as Task")), lastSize)
          else (Err (Errorf "empty tar"), 0%Z)
      end
  | Err err :: _ => (Err (Wrapf "read" err), lastSize)
  | Ok data :: entries =>
      match decodeTask data with
      | Some task => (Ok (task, slen data), slen data)
      | None => scanEntries entries last (slen data)
      end
  end.

Definition extractTask (layer : Layer) : tprog (result (Task * Z) * Z) :=
  let* rc := perform (Uncompressed layer) in
  match rc with
  | Err err => Ret (Err (Wrapf "uncompress" err), 0%Z)
  | Ok tar => Ret (scanEntries (tar_Entries tar) (tar_End tar) 0)
  end.

Definition failed (t : taskInfo) (size : Z) (err : error) : resolvedTask :=
  {| rt_Name := ti_name t; StepNames := []; rt_StepResources := []; SizeBytes := size; rt_Err := Some err |}.

Definition isTaskLayer (t : taskInfo) (d : Descriptor) : bool :=
  bool_decide (mget (desc_Annotations d) "dev.tekton.image.kind" = "task") &&
  (bool_decide (bundleTaskName t = "") ||
   bool_decide (mget (desc_Annotations d) "dev.tekton.image.name" = bundleTaskName t)).

(** The loop over the manifest's layers, from index [i] on; [layers[i]] panics
    when the image has fewer layers than its manifest. *)
Fixpoint findTask (t : taskInfo) (layers : list Layer) (i : nat) (descs : list Descriptor) : tprog resolvedTask :=
  match descs with
  | [] => Ret (failed t 0 (Errorf "no task layer found in bundle"))
  | d :: descs =>
      if negb (isTaskLayer t d) then findTask t layers (S i) descs
      else match layers !! i with
           | None => panic "index out of range"
           | Some layer =>
               let* res := extractTask layer in
               match res.1 with
               | Err err => Ret (failed t (desc_Size d) (Wrapf "extract (using compressed layer size)" err))
               | Ok (task, rawSize) =>
                   Ret {| rt_Name := ti_name t; StepNames := step_Name <$> task_Steps task;
                          rt_StepResources := step_ComputeResources <$> task_Steps task;
                          SizeBytes := rawSize; rt_Err := None |}
               end
           end
  end.

Definition resolveBundle (t : taskInfo) : tprog resolvedTask :=
  let* ref := perform (ParseReference (bundleRef t)) in
  match ref with
  | Err err => Ret (failed t 0 (Wrapf ("parse ref " +:+ quote (bundleRef t)) err))
  | Ok ref =>
      let* img := perform (RemoteImage ref) in
      match img with
      | Err err => Ret (failed t 0 (Wrapf ("pull " +:+ quote (bundleRef t)) err))
      | Ok img =>
          let* manifest := perform (ImageManifest img) in
          match manifest with
          | Err err => Ret (failed t 0 (Wrapf "manifest" err))
          | Ok descs =>
              let* layers := perform (ImageLayers img) in
              match layers with
              | Err err => Ret (failed t 0 (Wrapf "layers" err))
              | Ok layers => findTask t layers 0 descs
              end
          end
      end
  end.

(** The tasks a goroutine is started for. *)
Definition hasBundle (t : taskInfo) : bool := negb (bool_decide (bundleRef t = "")).
Definition bundleTasks (tasks : list taskInfo) : list taskInfo := List.filter hasBundle tasks.

(** The goroutines run one after the other, in the order of [tasks]. *)
Fixpoint resolveAll (tasks : list taskInfo) (results : gmap string resolvedTask)
  : tprog (gmap string resolvedTask) :=
  match tasks with
  | [] => Ret results
  | t :: tasks =>
      let* r := resolveBundle t in
      resolveAll tasks (<[ti_name t := r]> results)
  end.

Definition resolveBundles (tasks : list taskInfo) : tprog (gmap string resolvedTask) :=
  resolveAll (bundleTasks tasks) ∅.

(** ** Goroutines *)
(** The statements of the function that starts the goroutines, and of a goroutine
    after resolveBundle has returned; the deferred [wg.Done()] is the last of these. *)
Inductive mainInstr := WgAdd | Go (t : taskInfo) | WgWait.
Inductive instr := MuLock | MapWriteBegin | MapWriteEnd | MuUnlock | WgDone.

Definition mainProgram (tasks : list taskInfo) : list mainInstr :=
  (tasks ≫= fun t => if hasBundle t then [WgAdd; Go t] else []) ++ [WgWait].

Definition body : list instr := [MuLock; MapWriteBegin; MapWriteEnd; MuUnlock; WgDone].

(** A goroutine: what is left of its call of resolveBundle, or of its body. *)
Inductive goroutine :=
  | Resolving (t : taskInfo) (p : tprog resolvedTask)
  | Running (t : taskInfo) (r : resolvedTask) (rest : list instr).

(** [locked]: the mutex is held; [writing]: a write of the map is under way; [wg]: the
    counter of the WaitGroup; [fatal]: why the process has died. *)
Record pool := { pool_main : list mainInstr; pool_workers : list goroutine; pool_results : gmap string resolvedTask;
                 pool_locked : bool; pool_writing : bool; pool_wg : nat; pool_fatal : option string }.

Definition startPool (tasks : list taskInfo) : pool :=
  {| pool_main := mainProgram tasks; pool_workers := []; pool_results := ∅; pool_locked := false;
     pool_writing := false; pool_wg := 0; pool_fatal := None |}.

Definition die (message : string) (p : pool) : pool :=
  {| pool_main := pool_main p; pool_workers := pool_workers p; pool_results := pool_results p;
     pool_locked := pool_locked p; pool_writing := pool_writing p; pool_wg := pool_wg p; pool_fatal := Some message |}.

Definition setWorker (i : nat) (w : goroutine) (p : pool) : pool :=
  {| pool_main := pool_main p; pool_workers := <[i := w]> (pool_workers p); pool_results := pool_results p;
     pool_locked := pool_locked p; pool_writing := pool_writing p; pool_wg := pool_wg p; pool_fatal := pool_fatal p |}.

(** A statement, [None] when it has to wait. *)
Definition execMain (p : pool) : option pool :=
  let next l ws n :=
    Some {| pool_main := l; pool_workers := ws; pool_results := pool_results p; pool_locked := pool_locked p;
            pool_writing := pool_writing p; pool_wg := n; pool_fatal := pool_fatal p |} in
  match pool_main p with
  | [] => None
  | WgAdd :: l => next l (pool_workers p) (S (pool_wg p))
  | Go t :: l => next l (pool_workers p ++ [Resolving t (resolveBundle t)]) (pool_wg p)
  | WgWait :: l => if decide (pool_wg p = 0) then next l (pool_workers p) 0 else None
  end.

Definition execInstr (t : taskInfo) (r : resolvedTask) (i : instr) (p : pool) : option pool :=
  let next m locked writing n :=
    Some {| pool_main := pool_main p; pool_workers := pool_workers p; pool_results := m; pool_locked := locked;
            pool_writing := writing; pool_wg := n; pool_fatal := pool_fatal p |} in
  match i with
  | MuLock => if pool_locked p then None else next (pool_results p) true (pool_writing p) (pool_wg p)
  | MapWriteBegin =>
      if pool_writing p then Some (die "concurrent map writes" p)
      else next (pool_results p) (pool_locked p) true (pool_wg p)
  | MapWriteEnd => next (<[ti_name t := r]> (pool_results p)) (pool_locked p) false (pool_wg p)
  | MuUnlock =>
      if pool_locked p then next (pool_results p) false (pool_writing p) (pool_wg p)
      else Some (die "sync: unlock of unlocked mutex" p)
  | WgDone =>
      match pool_wg p with
      | S n => next (pool_results p) (pool_locked p) (pool_writing p) n
      | O => Some (die "sync: negative WaitGroup counter" p)
      end
  end.

(** The steps the process takes by itself. *)
Inductive local_step : pool -> pool -> Prop :=
  | main_steps p p' : pool_fatal p = None -> execMain p = Some p' -> local_step p p'
  | body_steps p i t r ins rest p' :
      pool_fatal p = None -> pool_workers p !! i = Some (Running t r (ins :: rest)) ->
      execInstr t r ins p = Some p' -> local_step p (setWorker i (Running t r rest) p')
  | call_returns p i t r :
      pool_fatal p = None -> pool_workers p !! i = Some (Resolving t (Ret r)) ->
      local_step p (setWorker i (Running t r body) p)
  | call_panics p i t message k :
      pool_fatal p = None -> pool_workers p !! i = Some (Resolving t (Do (Panic message) k)) ->
      local_step p (die message p).

(** A call of a goroutine gets a response. *)
Inductive reply_step : pool -> pool -> Prop :=
  | replies p i t c k x :
      pool_fatal p = None -> pool_workers p !! i = Some (Resolving t (Do c k)) ->
      reply_step p (setWorker i (Resolving t (k x)) p).

Definition pool_step (p p' : pool) : Prop := local_step p p' \/ reply_step p p'.

(** [wg.Wait] has returned. *)
Definition joined (p : pool) : Prop := pool_main p = [].
End Resolve.
