(* ===== verification/LoadMain.v ===== *)
(** * The command of the load-test generator

    src/tools/generate-from-pipeline/main.go: the command line (already parsed by
    package flag), the report of what the run will store, and the output file.  The
    bundles are resolved one after the other here; Bundle has the goroutines. *)
From S2P Require Import Prelude GoStd NetUrl GoFmt Tekton Generator Bundle.

(** The flags, with the defaults of main. *)
Record flags := {
  fl_input : string; fl_output : string; fl_namespace : string; fl_prefix : string; fl_image : string;
  fl_sleepRange : string; fl_skipResolve : bool; fl_defaultTaskSizeKB : Z; fl_defaultSteps : Z;
  fl_preserveResources : bool }.

Definition defaultFlags (input output : string) : flags :=
  {| fl_input := input; fl_output := output; fl_namespace := "default"; fl_prefix := "load-test-";
     fl_image := "registry.access.redhat.com/hi/core-runtime:2.43"; fl_sleepRange := "1,10";
     fl_skipResolve := false; fl_defaultTaskSizeKB := 17; fl_defaultSteps := 3; fl_preserveResources := false |}.

(** The sleep range: what cannot be scanned keeps its default. *)
Definition sleepRange (s : string) : Z * Z :=
  match SplitN2 ","%char s with
  | [lo; hi] => (Sscanf_d lo 1, Sscanf_d hi 10)
  | _ => (1%Z, 10%Z)
  end.

Definition configOf (f : flags) : config :=
  let '(lo, hi) := sleepRange (fl_sleepRange f) in
  {| namespace := fl_namespace f; prefix := fl_prefix f; image := fl_image f; sleepMin := lo; sleepMax := hi;
     defaultTaskSizeKB := fl_defaultTaskSizeKB f; defaultSteps := fl_defaultSteps f;
     preserveResources := fl_preserveResources f |}.

(** ** Cleaning up the YAML *)
Definition emptyField (line : string) : bool :=
  bool_decide (TrimSpace line ∈
    ["metadata: {}"; "spec: null"; "computeResources: {}"; "status: {}"; "taskRunTemplate: {}"]).

Definition cleanupYAML (data : string) : string :=
  Join_strings (List.filter (fun l => negb (emptyField l)) (Split "010"%char data)) LF.

(** ** The report *)
(** Steps, size and status reported for a task. *)
Definition reportOf (t : taskInfo) (r : option resolvedTask) (cfg : config) : Z * Z * string :=
  let size := int64 (defaultTaskSizeKB cfg * 1024) in
  match r with
  | Some r =>
      match rt_Err r with
      | None => (len (StepNames r), SizeBytes r, "resolved")
      | Some err =>
          if (0 <? SizeBytes r)%Z then (defaultSteps cfg, SizeBytes r, "partial (" +:+ Error err +:+ ")")
          else (defaultSteps cfg, size, "failed (" +:+ Error err +:+ ")")
      end
  | None =>
      if (0 <? inlineSteps t)%Z then (inlineSteps t, inlineSize t, "inline")
      else (defaultSteps cfg, size, "default")
  end.

Definition multiplierOf (prParams : list Param) (t : taskInfo) : Z :=
  matrixExpansionCount (resolveMatrixValues (matrix t) prParams).

Definition reportLine (t : taskInfo) (steps size : Z) (status : string) (multiplier : Z) : string :=
  "  " +:+ pad_right 35 (ti_name t) +:+ " " +:+ pad_left 6 (fmt_KB size) +:+ " KB, " +:+
  pad_left 2 (itoa steps) +:+ " steps  (" +:+ status +:+ ")" +:+
  (if (1 <? multiplier)%Z then " [x" +:+ itoa multiplier +:+ "]" else "") +:+ LF.

Record totals := { totalSteps : Z; totalTaskRuns : Z; totalSize : Z }.

Fixpoint report (tasks : list taskInfo) (resolved : gmap string resolvedTask) (prParams : list Param)
    (cfg : config) (acc : totals) : tprog totals :=
  match tasks with
  | [] => Ret acc
  | t :: tasks =>
      let multiplier := multiplierOf prParams t in
      let '(steps, size, status) := reportOf t (resolved !! ti_name t) cfg in
      let* _ := perform (Stdout (reportLine t steps size status multiplier)) in
      report tasks resolved prParams cfg
        {| totalSteps := int64 (totalSteps acc + int64 (steps * multiplier));
           totalTaskRuns := int64 (totalTaskRuns acc + multiplier);
           totalSize := int64 (totalSize acc + int64 (size * multiplier)) |}
  end.

(** ** main *)
(** [fmt.Fprintf(os.Stderr, ...); os.Exit(1)] *)
Definition fatal {A} (message : string) : tprog A :=
  let* _ := perform (Stderr message) in exit 1.

Section Main.
Context {Y : Codec}.

Definition resolveStep (f : flags) (tasks : list taskInfo) (prParams : list Param)
  : tprog (gmap string resolvedTask) :=
  if fl_skipResolve f then Ret ∅
  else
    let bundleCount := len (bundleTasks tasks) in
    if (0 <? bundleCount)%Z then
      let totalTaskRuns := foldl (fun n t => int64 (n + multiplierOf prParams t)) 0%Z tasks in
      let* _ := perform (Stdout ("Resolving " +:+ itoa bundleCount +:+ " task bundles (" +:+
                                 itoa totalTaskRuns +:+ " TaskRuns with matrix expansion)..." +:+ LF)) in
      resolveBundles tasks
    else Ret ∅.

Definition writeOutput (f : flags) (tasks : list taskInfo) (t : totals) (outPR : PipelineRun) : tprog unit :=
  match yaml_Marshal_PipelineRun outPR with
  | Err err => fatal ("Error marshaling output: " +:+ Error err +:+ LF)
  | Ok outData =>
      let outData := cleanupYAML outData in
      let* e := perform (WriteFile (fl_output f) outData) in
      match e with
      | Some err => fatal ("Error writing output: " +:+ Error err +:+ LF)
      | None =>
          let* _ := perform (Stdout (LF +:+ "Written " +:+ fl_output f +:+ LF)) in
          let* _ := perform (Stdout ("  " +:+ itoa (len tasks) +:+ " tasks, " +:+ itoa (totalTaskRuns t) +:+
                                     " TaskRuns (with matrix), " +:+ itoa (totalSteps t) +:+ " total steps" +:+ LF)) in
          let* _ := perform (Stdout ("  PipelineRun YAML size: " +:+ fmt_KB (slen outData) +:+ " KB" +:+ LF)) in
          let* _ := perform (Stdout ("  Expected per-build storage: ~" +:+ itoa (Z.quot (totalSize t) 1024) +:+
                                     " KB (organic, via controller-created TaskRuns)" +:+ LF)) in
          Ret tt
      end
  end.

(** [usage] is what flag.PrintDefaults writes. *)
Definition main (usage : string) (f : flags) : tprog unit :=
  if bool_decide (fl_input f = "") || bool_decide (fl_output f = "") then
    let* _ := perform (Stderr ("Usage: generate-from-pipeline -input <file> -output <file>" +:+ LF +:+ LF)) in
    fatal usage
  else
    let cfg := configOf f in
    let* data := perform (ReadFile (fl_input f)) in
    match data with
    | Err err => fatal ("Error reading input: " +:+ Error err +:+ LF)
    | Ok data =>
        match yaml_Unmarshal_PipelineRun data with
        | Err err => fatal ("Error parsing PipelineRun YAML: " +:+ Error err +:+ LF)
        | Ok pr =>
            match pr_PipelineSpec pr with
            | None => fatal ("Error: PipelineRun has no inline pipelineSpec" +:+ LF)
            | Some _ =>
                let tasks := extractTaskInfos pr in
                if (len tasks =? 0)%Z then fatal ("No tasks found in PipelineRun" +:+ LF)
                else
                  let prParams := pr_Params pr in
                  let* resolved := resolveStep f tasks prParams in
                  let* t := report tasks resolved prParams cfg
                              {| totalSteps := 0; totalTaskRuns := 0; totalSize := 0 |} in
                  let* outPR := generatePipelineRun tasks resolved prParams (pr_TaskRunSpecs pr) cfg in
                  writeOutput f tasks t outPR
            end
        end
    end.
End Main.
