(* ===== verification/ScriptProps.v ===== *)
(** * The size of generated scripts

    padScript and generateSteps (Generator): the scripts of a generated task sleep
    within the configured range, their padding is one comment line, and together
    they have the size of the task they stand for, up to two bytes per step. *)
From S2P Require Import Prelude GoStd NetUrl GoFmt Tekton Generator.

(** ** Strings *)
Lemma length_string_app a b : String.length (a +:+ b) = String.length a + String.length b.
Proof. induction a as [|x a IH]; [done|]. rewrite app_cons. cbn. by rewrite IH. Qed.

Lemma slen_app a b : slen (a +:+ b) = (slen a + slen b)%Z.
Proof. unfold slen. rewrite length_string_app. lia. Qed.

Lemma length_fill n f : String.length (fill n f) = n.
Proof. revert f. induction n as [|n IH]; intros f; cbn; [done|]. by rewrite IH. Qed.

Lemma length_slice s n : n <= String.length s -> String.length (slice s 0 n) = n.
Proof.
  unfold slice. rewrite Nat.sub_0_r. revert n. induction s as [|a s IH]; intros [|n]; cbn; [done|lia|done|].
  intros H. by rewrite IH by lia.
Qed.

Lemma has_char_slice c s n : has_char c s = false -> has_char c (slice s 0 n) = false.
Proof.
  unfold slice. rewrite Nat.sub_0_r. revert n. induction s as [|a s IH]; intros [|n]; cbn; try done.
  intros H. apply orb_false_iff in H as [-> H]. by apply IH.
Qed.

(** Three bytes at a time. *)
Lemma string_ind3 (P : string -> Prop) :
  P "" -> (forall a, P (String a "")) -> (forall a b, P (String a (String b ""))) ->
  (forall a b c s, P s -> P (String a (String b (String c s)))) -> forall s, P s.
Proof.
  intros H0 H1 H2 H3 s. enough (P s /\ (forall a, P (String a s)) /\ (forall a b, P (String a (String b s)))) by tauto.
  induction s as [|c s (I1&I2&I3)]; auto.
Qed.

Lemma length_base64 s : String.length (base64_EncodeToString s) = 4 * ((String.length s + 2) / 3).
Proof.
  induction s as [| | |a b c s IH] using string_ind3; try done. cbn [base64_EncodeToString String.length].
  rewrite IH. replace (S (S (S (String.length s))) + 2) with (String.length s + 2 + 1 * 3) by lia.
  rewrite Nat.div_add by lia. lia.
Qed.

(** No character of the alphabet is a line feed. *)
Lemma b64_char_no_LF z : (0 <= z < 64)%Z -> Ascii.eqb (b64_char z) "010"%char = false.
Proof.
  intros Hz. unfold b64_char.
  assert (Hb : forall v, (10 < v < 256)%Z -> Ascii.eqb (byte_of v) "010"%char = false).
  { intros v Hv. apply Ascii.eqb_neq. intros H. apply (f_equal N_of_ascii) in H. unfold byte_of in H.
    rewrite N_ascii_embedding in H by lia. cbn in H. lia. }
  repeat case_decide; try (apply Hb; lia); done.
Qed.

Lemma base64_no_LF s : has_char "010"%char (base64_EncodeToString s) = false.
Proof.
  induction s as [|a|a b|a b c s IH] using string_ind3; [done|..]; cbn [base64_EncodeToString has_char];
    pose proof (byte_val_range a); try pose proof (byte_val_range b); try pose proof (byte_val_range c);
    rewrite ?IH, !b64_char_no_LF; try done; Z.to_euclidean_division_equations; lia.
Qed.

(** ** Decimal numbers *)
Lemma length_pretty_N_go k : forall x s, (x < 10 ^ N.of_nat k)%N ->
  String.length (pretty_N_go x s) <= k + String.length s.
Proof.
  induction k as [|k IH]; intros x s Hx.
  - replace x with 0%N by (cbn in Hx; lia). rewrite pretty_N_go_0. lia.
  - destruct (N.eq_dec x 0) as [->|Hx0]; [rewrite pretty_N_go_0; lia|].
    rewrite pretty_N_go_step by lia. etrans; [apply IH|cbn; lia].
    rewrite Nat2N.inj_succ, N.pow_succ_r' in Hx. apply N.Div0.div_lt_upper_bound. lia.
Qed.

Lemma slen_itoa z : (- 2 ^ 63 <= z < 2 ^ 63)%Z -> (slen (itoa z) <= 20)%Z.
Proof.
  assert (HN : forall n, (n <= 2 ^ 63)%N -> String.length (pretty n) <= 19).
  { intros n Hn. unfold pretty, pretty_N. case_decide; [cbn; lia|].
    etrans; [apply (length_pretty_N_go 19)|cbn; lia]. change (10 ^ N.of_nat 19)%N with 10000000000000000000%N. change (2 ^ 63)%N with 9223372036854775808%N in Hn. lia. }
  intros Hz. unfold itoa, slen. destruct z as [|p|p].
  - done.
  - change (pretty (Z.pos p)) with (pretty (N.pos p)). pose proof (HN (N.pos p)). lia.
  - change (pretty (Z.neg p)) with (String "-"%char (pretty (N.pos p))). cbn [String.length].
    pose proof (HN (N.pos p)). lia.
Qed.

Lemma slen_scriptBase z : (- 2 ^ 63 <= z < 2 ^ 63)%Z -> (slen (scriptBase z) <= 45)%Z.
Proof.
  intros Hz. unfold scriptBase. rewrite !slen_app. pose proof (slen_itoa z Hz).
  change (slen "#!/usr/bin/env sh") with 17%Z. change (slen LF) with 1%Z. change (slen "sleep ") with 6%Z. lia.
Qed.

(** ** One script *)
(** The script of a step: the base, or the base with one comment line. *)
Definition sleepsFor (secs : Z) (s : string) : Prop :=
  s = scriptBase secs \/
  exists padding, s = scriptBase secs +:+ paddingPrefix +:+ padding +:+ LF /\ has_char "010"%char padding = false.

Lemma run_padScript secs target tr s :
  (- 2 ^ 63 <= secs < 2 ^ 63)%Z -> (Z.abs target < 2 ^ 60)%Z ->
  run (padScript secs target) tr s ->
  let needed := (target - slen (scriptBase secs) - 12)%Z in
  sleepsFor secs s /\ ((needed <= 1)%Z -> s = scriptBase secs) /\
  ((1 < needed)%Z -> slen s = (target - if needed `mod` 4 =? 1 then 1 else 0)%Z).
Proof.
  intros Hsecs Ht. pose proof (slen_scriptBase secs Hsecs) as Hb. unfold padScript.
  assert (0 <= slen (scriptBase secs))%Z by (unfold slen; lia).
  change (slen paddingPrefix) with 11%Z. set (b := slen (scriptBase secs)) in *.
  rewrite int64_id by lia. replace (target - (b + 11 + 1))%Z with (target - b - 12)%Z by lia.
  cbv zeta. set (needed := (target - b - 12)%Z).
  destruct (Z.leb_spec needed 0) as [Hn|Hn].
  { intros [-> ->]. split; [by left|]. split; [done|lia]. }
  rewrite int64_id by lia. rewrite Z.quot_div_nonneg by lia.
  destruct (Z.leb_spec (needed * 3 / 4) 0) as [Hr|Hr].
  { intros [-> ->]. assert (needed <= 1)%Z by (Z.to_euclidean_division_equations; lia).
    split; [by left|]. split; [done|lia]. }
  assert (1 < needed)%Z by (Z.to_euclidean_division_equations; lia).
  intros (f&tr'&->&->&->). set (raw := fill _ f).
  assert (Hraw : Z.of_nat (String.length raw) = (needed * 3 / 4)%Z)
    by (unfold raw; rewrite length_fill; lia).
  assert (Hlen : slen (base64_EncodeToString raw) = (4 * ((needed * 3 / 4 + 2) / 3))%Z).
  { unfold slen. rewrite length_base64, Nat2Z.inj_mul, Nat2Z.inj_div, Nat2Z.inj_add, Hraw. done. }
  set (pad := if (needed <? _)%Z then _ else _).
  assert (Hpad : has_char "010"%char pad = false /\ slen pad = (needed - if needed `mod` 4 =? 1 then 1 else 0)%Z).
  { unfold pad. destruct (Z.ltb_spec needed (slen (base64_EncodeToString raw))) as [Hlt|Hge].
    - split; [apply has_char_slice, base64_no_LF|]. unfold slen at 1. rewrite length_slice by (unfold slen in *; lia).
      destruct (Z.eqb_spec (needed `mod` 4) 1); Z.to_euclidean_division_equations; lia.
    - split; [apply base64_no_LF|]. rewrite Hlen in *.
      destruct (Z.eqb_spec (needed `mod` 4) 1); Z.to_euclidean_division_equations; lia. }
  destruct Hpad as [Hp1 Hp2]. split; [by right; exists pad|]. split; [lia|]. intros _.
  rewrite !slen_app. change (slen paddingPrefix) with 11%Z. change (slen LF) with 1%Z. fold b. lia.
Qed.

(** ** Random numbers *)
Definition goInt (z : Z) : Prop := (- 2 ^ 63 <= z < 2 ^ 63)%Z.

Lemma run_randomInt lo hi tr n :
  goInt lo -> goInt hi -> relied documented tr -> run (randomInt lo hi) tr n ->
  (lo <= n <= Z.max lo hi)%Z /\ goInt n.
Proof.
  unfold goInt, randomInt. intros Hlo Hhi He. destruct (Z.leb_spec hi lo); [intros [_ ->]; lia|].
  destruct (Z.leb_spec (int64 (hi - lo + 1)) 0) as [Hb|Hb]; [intros ([]&_)|].
  intros (r&tr'&->&Hr). apply Forall_cons in He as [He _]. cbn in He.
  assert (Hw : int64 (hi - lo + 1) = (hi - lo + 1)%Z).
  { unfold int64 in *. Z.to_euclidean_division_equations. lia. }
  destruct r as [k|e]; cbn in Hr; destruct Hr as [_ ->]; [|lia].
  rewrite Hw in He. rewrite int64_id by lia. lia.
Qed.

(** The entropy source is asked for a positive bound, unless the range has more
    values than a Go integer can count. *)
Lemma randomInt_no_panic lo hi :
  (hi - lo + 1 < 2 ^ 63)%Z -> every (fun c => match c with Panic _ => False | _ => True end) (randomInt lo hi).
Proof.
  intros H. unfold randomInt. destruct (Z.leb_spec hi lo); [done|].
  rewrite int64_id by lia. destruct (Z.leb_spec (hi - lo + 1) 0); [lia|].
  cbn. split; [done|]. by intros [].
Qed.

(** ** The steps of a task *)
Definition scriptSize (steps : list Step) : Z := foldr (fun st n => (slen (step_Script st) + n)%Z) 0%Z steps.

Definition withinRange (cfg : config) (st : Step) : Prop :=
  exists secs, (sleepMin cfg <= secs <= Z.max (sleepMin cfg) (sleepMax cfg))%Z /\ sleepsFor secs (step_Script st).

Section Steps.
Variable cfg : config.
Variable s : shape.
Hypothesis Hlo : goInt (sleepMin cfg).
Hypothesis Hhi : goInt (sleepMax cfg).
Hypothesis Hsize : (perStepSize s < 2 ^ 60)%Z.

Lemma perStepSize_100 : (100 <= perStepSize s)%Z.
Proof. unfold perStepSize. destruct (Z.ltb_spec (Z.quot (targetSize s) (stepCount s)) 100); lia. Qed.

Lemma run_generateStep i tr st :
  relied documented tr -> run (generateStep cfg s i) tr st ->
  withinRange cfg st /\ (perStepSize s - 1 <= slen (step_Script st) <= perStepSize s)%Z /\
  step_Name st = stepName (stepNames s) i /\
  step_ComputeResources st =
    (if preserveResources cfg then default noResources (stepResources s !! i) else noResources).
Proof.
  unfold generateStep. rewrite run_bind. intros He (t1&t2&secs&->&H1&H2).
  apply run_bind in H2 as (t3&t4&script&->&H2&->&->). cbn.
  apply Forall_app in He as [He1 He2]. apply run_randomInt in H1 as [Hr Hg]; [|done..].
  pose proof perStepSize_100. apply run_padScript in H2 as (Hs&_&Hl); [|done|lia].
  pose proof (slen_scriptBase secs Hg). split; [by exists secs|]. split; [|done].
  rewrite Hl by lia. case_match; lia.
Qed.

Lemma run_generateSteps n : forall i tr steps,
  relied documented tr -> run (generateSteps cfg s i n) tr steps ->
  length steps = n /\ Forall (withinRange cfg) steps /\
  (Z.of_nat n * (perStepSize s - 1) <= scriptSize steps <= Z.of_nat n * perStepSize s)%Z /\
  forall j st, steps !! j = Some st -> step_Name st = stepName (stepNames s) (i + j) /\
    step_ComputeResources st =
      (if preserveResources cfg then default noResources (stepResources s !! (i + j)) else noResources).
Proof.
  induction n as [|n IH]; intros i tr steps He; cbn [generateSteps].
  - intros [_ ->]. split; [done|]. split; [constructor|]. split; [cbn; lia|]. by intros j st.
  - rewrite run_bind. intros (t1&t2&st&->&H1&H2). apply run_bind in H2 as (t3&t4&rest&->&H2&->&->).
    apply Forall_app in He as [He1 He2]. rewrite app_nil_r in He2.
    apply run_generateStep in H1 as (H1&H1s&H1n&H1r); [|done].
    apply IH in H2 as (L&F&S&N); [|done]. split; [cbn; lia|]. split; [by constructor|].
    split; [cbn [scriptSize foldr]; fold (scriptSize rest); lia|].
    intros [|j] x; cbn; [intros [= <-]; by rewrite Nat.add_0_r|]. intros Hx.
    rewrite Nat.add_succ_r, <- Nat.add_succ_l. by apply N.
Qed.
End Steps.

Lemma stepCount_pos t r cfg : (1 <= stepCount (taskShape t r cfg))%Z.
Proof.
  unfold taskShape. cbv zeta. cbn [stepCount].
  match goal with |- context [if (?x <? 1)%Z then _ else _] => destruct (Z.ltb_spec x 1) end; lia.
Qed.

(** The bytes the steps of a task share: its target size, but at least 100 each. *)
Definition footprint (s : shape) : Z := Z.max (targetSize s) (100 * stepCount s).

Lemma perStep_footprint s :
  (1 <= stepCount s)%Z ->
  (footprint s - stepCount s < stepCount s * perStepSize s <= footprint s)%Z.
Proof.
  intros Hn. unfold footprint, perStepSize. destruct (Z.neg_nonneg_cases (targetSize s)) as [Ht|Ht].
  - assert (Z.quot (targetSize s) (stepCount s) <= 0)%Z by (Z.to_euclidean_division_equations; nia).
    destruct (Z.ltb_spec (Z.quot (targetSize s) (stepCount s)) 100); lia.
  - rewrite Z.quot_div_nonneg by lia.
    destruct (Z.ltb_spec (targetSize s / stepCount s) 100) as [H|H].
    + assert (targetSize s < 100 * stepCount s)%Z by (Z.to_euclidean_division_equations; nia). lia.
    + assert (100 * stepCount s <= targetSize s)%Z by (Z.to_euclidean_division_equations; nia).
      rewrite Z.max_l by lia. pose proof (Z.div_mod (targetSize s) (stepCount s)).
      pose proof (Z.mod_pos_bound (targetSize s) (stepCount s)). lia.
Qed.

(** C35: a generated task stands for the size of the original: it has at least one step,
    and as many as its shape says, every script only sleeps, for a number of seconds
    in the configured range, and has its padding in one comment line, and the
    scripts together have the target size of the task, or 100 bytes per step if that
    is more, short of it by at most two bytes per step. *)
Theorem generated_task_size t r prParams cfg tr pt :
  goInt (sleepMin cfg) -> goInt (sleepMax cfg) -> (targetSize (taskShape t r cfg) < 2 ^ 60)%Z ->
  relied documented tr -> run (generatePipelineTask t r prParams cfg) tr pt ->
  let s := taskShape t r cfg in
  exists spec, pt_TaskSpec pt = Some spec /\
    (1 <= stepCount s)%Z /\ len (ts_Steps spec) = stepCount s /\ Forall (withinRange cfg) (ts_Steps spec) /\
    (footprint s - 2 * stepCount s < scriptSize (ts_Steps spec) <= footprint s)%Z.
Proof.
  intros Hlo Hhi Ht He. cbv zeta. unfold generatePipelineTask. rewrite run_bind.
  intros (t1&t2&steps&->&H1&->&->). apply Forall_app in He as [He _]. eexists. split; [done|]. cbn [ts_Steps].
  pose proof (stepCount_pos t r cfg) as Hn. set (s := taskShape t r cfg) in *.
  pose proof (perStep_footprint s Hn) as Hf.
  assert (Hp : (perStepSize s < 2 ^ 60)%Z).
  { unfold perStepSize. case_match; [lia|].
    assert (Z.quot (targetSize s) (stepCount s) <= Z.max 0 (targetSize s))%Z; [|lia].
    Z.to_euclidean_division_equations; nia. }
  apply (run_generateSteps cfg s Hlo Hhi Hp) in H1 as (L&F&S&_); [|done].
  split; [done|]. split; [unfold len; lia|]. split; [done|]. lia.
Qed.

(** ** An example *)
Definition demoConfig : config :=
  {| namespace := "load"; prefix := "load-"; image := "img"; sleepMin := 1; sleepMax := 5; defaultTaskSizeKB := 1;
     defaultSteps := 2; preserveResources := true |}.

(** The inline task of the demo pipeline. *)
Definition demoTask : taskInfo := default {| ti_name := ""; bundleRef := ""; bundleTaskName := ""; runAfter := [];
  matrix := None; isFinallyTask := false; inlineSteps := 0; inlineSize := 0; inlineStepNames := [];
  inlineStepResources := [] |} (extractTaskInfos demoRun !! 0).

Lemma generated_task_size_witness :
  exists pt tr spec, simulate demoHandler (generatePipelineTask demoTask None (pr_Params demoRun) demoConfig) = Some (pt, tr) /\
    pt_TaskSpec pt = Some spec /\ len (ts_Steps spec) = 2%Z.
Proof.
  assert (exists x, simulate demoHandler (generatePipelineTask demoTask None (pr_Params demoRun) demoConfig) = Some x)
    as ([pt tr]&E) by (eexists; vm_compute; reflexivity).
  destruct (generated_task_size demoTask None (pr_Params demoRun) demoConfig tr pt) as (spec&H1&_&H2&_).
  - split; vm_compute; congruence.
  - split; vm_compute; congruence.
  - vm_compute. reflexivity.
  - eapply (simulate_relied demoHandler); [|exact E]. apply demoHandler_documented.
  - exact (simulate_run _ _ _ _ E).
  - exists pt, tr, spec. split; [exact E|]. split; [exact H1|]. exact H2.
Defined.
