(* ===== verification/BundleProps.v ===== *)
(** * Bundles are resolved alike in every schedule

    The goroutines of resolveBundles (Bundle): the mutex keeps their writes apart and
    the WaitGroup counts them, so that every schedule ends, after a bounded number of
    steps and without a deadlock, with a map the sequential program can produce; and a
    resolved task is what the first fitting entry of the first fitting layer says. *)
From S2P Require Import Prelude GoStd Tekton Generator Bundle.

Section Pool.
Context {Y : Codec}.

(** ** The sequential program *)
Definition resolvesTo (t : taskInfo) (r : resolvedTask) : Prop := exists tr, run (resolveBundle t) tr r.

Definition store (m : gmap string resolvedTask) (l : list (taskInfo * resolvedTask)) : gmap string resolvedTask :=
  foldl (fun m x => <[ti_name x.1 := x.2]> m) m l.

Lemma run_resolveAll ts m m' :
  (exists tr, run (resolveAll ts m) tr m') <->
  exists rs, Forall2 resolvesTo ts rs /\ m' = store m (zip ts rs).
Proof.
  revert m. induction ts as [|t ts IH]; intros m; cbn [resolveAll].
  - split; [intros (tr&->&->); by exists []|]. intros (rs&H&->). exists []. by inversion H.
  - split.
    + intros (tr&H). apply run_bind in H as (t1&t2&r&->&H1&H2).
      destruct (IH (<[ti_name t:=r]> m)) as [IH1 _]. destruct IH1 as (rs&HF&->); [by exists t2|].
      exists (r :: rs). split; [constructor; [by exists t1|done]|done].
    + intros (rs&HF&->). inversion HF as [|? r ? rs' (t1&H1) H2]; subst.
      destruct (IH (<[ti_name t:=r]> m)) as [_ IH2]. destruct IH2 as (t2&H3); [by exists rs'|].
      exists (t1 ++ t2). apply run_bind. by exists t1, t2, r.
Qed.

(** The order of stores under different names does not matter. *)
Lemma store_spec l m :
  NoDup (ti_name ∘ fst <$> l) ->
  store m l = list_to_map ((fun x => (ti_name x.1, x.2)) <$> l) ∪ m.
Proof.
  revert m. induction l as [|[t r] l IH]; intros m Hnd; cbn; [by rewrite (left_id_L ∅ (∪))|].
  apply NoDup_cons in Hnd as [Hn Hnd]. rewrite IH by done. cbn in *.
  rewrite <- insert_union_r; [by rewrite insert_union_l|].
  apply not_elem_of_list_to_map_1. rewrite <- list_fmap_compose. exact Hn.
Qed.

Lemma store_perm l l' m :
  l ≡ₚ l' -> NoDup (ti_name ∘ fst <$> l) -> store m l = store m l'.
Proof.
  intros Hp Hnd. rewrite !store_spec; [|by rewrite <- Hp|done]. f_equal.
  apply list_to_map_proper; [|by rewrite Hp]. rewrite <- list_fmap_compose. exact Hnd.
Qed.

Lemma store_app m l x : store m (l ++ [x]) = <[ti_name x.1 := x.2]> (store m l).
Proof. unfold store. by rewrite foldl_app. Qed.

Lemma store_lookup l t : t ∈ fst <$> l -> is_Some (store ∅ l !! ti_name t).
Proof.
  induction l as [|x l IH] using rev_ind; [by intros ?%elem_of_nil|]. rewrite fmap_app, store_app. intros Ht.
  destruct (decide (ti_name x.1 = ti_name t)) as [->|Hne]; [by rewrite lookup_insert_eq|].
  rewrite lookup_insert_ne by done. apply IH. apply elem_of_app in Ht as [Ht|Ht]; [done|].
  apply list_elem_of_singleton in Ht. congruence.
Qed.

(** ** The invariant of the goroutines *)
(** The statements a goroutine has left, and what they say of it: that it holds the
    mutex, that it is writing the map, that [wg.Done()] is to come, and that its result
    is to be stored. *)
Definition left_ (w : goroutine) : list instr := match w with Resolving _ _ => body | Running _ _ rest => rest end.
Definition taskOf (w : goroutine) : taskInfo := match w with Resolving t _ | Running t _ _ => t end.

Definition holds (w : goroutine) : nat := match length (left_ w) with 2 | 3 | 4 => 1 | _ => 0 end.
Definition writes (w : goroutine) : nat := match length (left_ w) with 3 => 1 | _ => 0 end.
Definition live (w : goroutine) : nat := match length (left_ w) with 0 => 0 | _ => 1 end.
Definition pending (w : goroutine) : option taskInfo :=
  match length (left_ w) with 0 | 1 | 2 => None | _ => Some (taskOf w) end.

(** How many goroutines of a list have a property. *)
Definition total (f : goroutine -> nat) (ws : list goroutine) : nat := sum_list_with f ws.
Arguments total : simpl never.

(** The calls resolveBundle may still make: no exit, and no panic but that of [layers[i]]. *)
Definition safeCall (c : tcall) : Prop :=
  match c with Panic m => m = "index out of range" | Exit _ => False | _ => True end.

Definition workOk (w : goroutine) : Prop :=
  match w with
  | Resolving t p => every safeCall p /\ forall tr r, run p tr r -> resolvesTo t r
  | Running t r rest => resolvesTo t r /\ exists k, rest = drop k body
  end.

(** The tasks whose goroutine is still to be started. *)
Definition unstarted (l : list mainInstr) : list taskInfo :=
  omap (fun i => match i with Go t => Some t | _ => None end) l.

(** The loop is before an iteration, between [wg.Add(1)] and [go], or has waited for
    all; [n] is the number of goroutines not finished. *)
Definition mainOk (l : list mainInstr) (wg n : nat) : Prop :=
  (exists ts, l = mainProgram ts /\ wg = n) \/
  (exists t ts, l = Go t :: mainProgram ts /\ wg = S n) \/
  (l = [] /\ wg = 0 /\ n = 0).

(** [l] are the results that were stored, in the order of the stores. *)
Record poolInv (tasks : list taskInfo) (p : pool) : Prop := {
  inv_fatal : pool_fatal p = None \/ pool_fatal p = Some "index out of range";
  inv_work : Forall workOk (pool_workers p);
  inv_mutex : total holds (pool_workers p) = if pool_locked p then 1 else 0;
  inv_map : total writes (pool_workers p) = if pool_writing p then 1 else 0;
  inv_main : mainOk (pool_main p) (pool_wg p) (total live (pool_workers p));
  inv_stored : exists l, pool_results p = store ∅ l /\ Forall (fun x => resolvesTo x.1 x.2) l /\
    (fst <$> l) ++ omap pending (pool_workers p) ++ unstarted (pool_main p) ≡ₚ bundleTasks tasks }.

Lemma insert_middle {A} (l : list A) i x y :
  l !! i = Some x -> exists l1 l2, l = l1 ++ x :: l2 /\ <[i:=y]> l = l1 ++ y :: l2.
Proof.
  intros Hi. pose proof (take_drop_middle l i x Hi) as E. exists (take i l), (drop (S i) l). split; [done|].
  rewrite <- E at 1. assert (Hl : length (take i l) = i) by (apply length_take_le; apply lookup_lt_Some in Hi; lia).
  rewrite insert_app_r_alt by lia. by rewrite Hl, Nat.sub_diag.
Qed.

Lemma total_insert f ws i w w' :
  ws !! i = Some w -> total f (<[i:=w']> ws) + f w = total f ws + f w'.
Proof.
  intros (l1&l2&->&->)%(insert_middle _ _ _ w'). unfold total. rewrite !sum_list_with_app. cbn. lia.
Qed.

Lemma total_app f ws ws' : total f (ws ++ ws') = total f ws + total f ws'.
Proof. apply sum_list_with_app. Qed.

Lemma total_snoc f ws w : total f (ws ++ [w]) = total f ws + f w.
Proof. rewrite total_app. f_equal. unfold total. cbn. lia. Qed.

Lemma total_in f ws i w : ws !! i = Some w -> f w <= total f ws.
Proof. intros H%list_elem_of_lookup_2. by apply sum_list_with_in. Qed.

Lemma pending_insert ws i w w' :
  ws !! i = Some w ->
  option_list (pending w) ++ omap pending (<[i:=w']> ws) ≡ₚ option_list (pending w') ++ omap pending ws.
Proof.
  intros (l1&l2&->&->)%(insert_middle _ _ _ w'). rewrite !omap_app. cbn.
  destruct (pending w), (pending w'); cbn; rewrite <- ?Permutation_middle; try done. apply perm_swap.
Qed.

Lemma work_insert (P : goroutine -> Prop) ws i w : Forall P ws -> P w -> Forall P (<[i:=w]> ws).
Proof. intros H1 H2. by apply Forall_insert. Qed.

Lemma safe_resolveBundle t : every safeCall (resolveBundle t).
Proof.
  assert (Hf : forall layers descs i, every safeCall (findTask t layers i descs)).
  { intros layers descs. induction descs as [|d descs IH]; intros i; cbn; [done|].
    destruct (negb _); [apply IH|]. destruct (layers !! i); [|by cbn].
    cbn. split; [done|]. intros [tar|e]; cbn; [|done]. by destruct (scanEntries _ _ _).1 as [[]|]. }
  unfold resolveBundle. cbn. split; [done|]. intros [ref|e]; cbn; [|done]. split; [done|].
  intros [img|e]; cbn; [|done]. split; [done|]. intros [descs|e]; cbn; [|done]. split; [done|].
  intros [layers|e]; cbn; [|done]. apply Hf.
Qed.

Lemma mainProgram_cons t ts :
  mainProgram (t :: ts) = if hasBundle t then WgAdd :: Go t :: mainProgram ts else mainProgram ts.
Proof. unfold mainProgram. rewrite bind_cons. by destruct (hasBundle t). Qed.

Lemma unstarted_program ts : unstarted (mainProgram ts) = bundleTasks ts.
Proof.
  induction ts as [|t ts IH]; [done|]. rewrite mainProgram_cons. unfold bundleTasks. cbn [List.filter].
  destruct (hasBundle t); [|exact IH].
  change (unstarted (WgAdd :: Go t :: mainProgram ts)) with (t :: unstarted (mainProgram ts)). by rewrite IH.
Qed.

(** The next statement of the loop. *)
Lemma mainProgram_next ts :
  (mainProgram ts = [WgWait]) \/ exists t ts', mainProgram ts = WgAdd :: Go t :: mainProgram ts'.
Proof.
  induction ts as [|t ts IH]; [by left|]. rewrite mainProgram_cons.
  destruct (hasBundle t); [right; by exists t, ts|exact IH].
Qed.

Lemma poolInv_start tasks : poolInv tasks (startPool tasks).
Proof.
  split; cbn; try done; [by left|left; by exists tasks|].
  exists []. split; [done|]. split; [constructor|]. apply reflexive_eq, unstarted_program.
Qed.

Lemma poolInv_main tasks p p' : poolInv tasks p -> pool_fatal p = None -> execMain p = Some p' -> poolInv tasks p'.
Proof.
  intros [Hf Hw Hm Hr Hmain (l&Hs&Hl&Hp)] _. unfold execMain.
  destruct Hmain as [(ts&E&Ewg)|[(t&ts&E&Ewg)|(E&_)]]; rewrite E in *; [|intros [= <-]|done].
  - destruct (mainProgram_next ts) as [E'|(t&ts'&E')]; rewrite E' in *.
    + destruct (decide (pool_wg p = 0)) as [E0|]; [|done]. intros [= <-]. split; cbn; try done.
      * right; right. split; [done|]. split; [done|]. lia.
      * exists l. rewrite app_nil_r in Hp. cbn in Hp. by rewrite app_nil_r.
    + intros [= <-]. split; cbn; try done; [right; left; exists t, ts'; by rewrite Ewg|]. by exists l.
  - split; cbn; try done.
    + apply Forall_app. split; [done|]. repeat constructor; [apply safe_resolveBundle|]. intros tr r H. by exists tr.
    + by rewrite total_snoc, Nat.add_0_r.
    + by rewrite total_snoc, Nat.add_0_r.
    + left. exists ts. split; [done|]. rewrite total_snoc, Ewg. cbn. lia.
    + exists l. split; [done|]. split; [done|]. rewrite omap_app. cbn. rewrite <- Hp. cbn. by rewrite <- app_assoc.
Qed.

(** A step of one goroutine that leaves the loop and the WaitGroup's waiter alone. *)
Lemma mainOk_mono l wg wg' n n' : mainOk l wg n -> n' <= n -> wg' + n = wg + n' -> mainOk l wg' n'.
Proof.
  intros [(ts&->&->)|[(t&ts&->&->)|(->&->&->)]] H1 H2; [left|right; left|right; right].
  - exists ts. split; [done|lia].
  - exists t, ts. split; [done|lia].
  - split; [done|]. lia.
Qed.

(** Who writes holds the mutex. *)
Lemma holds_writes ws : total writes ws <= total holds ws.
Proof.
  unfold total. induction ws as [|w ws IH]; [done|]. cbn. unfold writes at 1, holds at 1.
  destruct (length (left_ w)) as [|[|[|[|[|]]]]]; lia.
Qed.

Lemma holder_alone ws i w :
  ws !! i = Some w -> total holds ws <= 1 -> holds w = 1 -> total writes ws = writes w.
Proof.
  intros (l1&l2&->&_)%(insert_middle _ _ _ w). rewrite !total_app. unfold total at 2 4. cbn.
  fold (total writes l2) (total holds l2). pose proof (holds_writes l1). pose proof (holds_writes l2). lia.
Qed.

Section Instr.
Context (tasks : list taskInfo) (p : pool) (i : nat) (t : taskInfo) (r : resolvedTask).

(** One statement of the body of a goroutine, from the [k]-th on. *)
Lemma poolInv_body ins rest p' :
  poolInv tasks p -> pool_fatal p = None -> pool_workers p !! i = Some (Running t r (ins :: rest)) ->
  execInstr t r ins p = Some p' -> poolInv tasks (setWorker i (Running t r rest) p').
Proof.
  intros [Hf Hw Hm Hr Hmain (l&Hs&Hl&Hp)] Ef Hi He.
  assert (Hwi : workOk (Running t r (ins :: rest))) by (by eapply Forall_lookup_1).
  destruct Hwi as (Hres&k&Hk).
  assert (Hw' : Forall workOk (<[i:=Running t r rest]> (pool_workers p))).
  { apply Forall_insert; [done|]. split; [done|]. exists (S k). rewrite <- Nat.add_1_r, <- drop_drop, <- Hk. done. }
  pose proof (total_insert holds _ _ _ (Running t r rest) Hi) as Th. pose proof (total_in holds _ _ _ Hi) as Ih.
  pose proof (total_insert writes _ _ _ (Running t r rest) Hi) as Tw.
  pose proof (total_insert live _ _ _ (Running t r rest) Hi) as Tl. pose proof (total_in live _ _ _ Hi) as Il.
  pose proof (pending_insert _ _ _ (Running t r rest) Hi) as Tp.
  assert (Ha : holds (Running t r (ins :: rest)) = 1 ->
               total writes (pool_workers p) = writes (Running t r (ins :: rest))).
  { apply (holder_alone _ _ _ Hi). rewrite Hm. destruct (pool_locked p); lia. }
  destruct k as [|[|[|[|[|k]]]]]; [injection Hk as -> ->..|by destruct k].
  all: cbn in Th, Ih, Tw, Tl, Il, Tp, Ha, He.
  - destruct (pool_locked p) eqn:El; [done|]. injection He as <-. split; cbn; try done; try lia.
    + eapply mainOk_mono; [exact Hmain|lia..].
    + exists l. split; [done|]. split; [done|]. apply Permutation_cons_inv in Tp. by rewrite <- Hp, Tp.
  - destruct (pool_writing p) eqn:Ew; [lia|]. injection He as <-. split; cbn; try done; try lia.
    + eapply mainOk_mono; [exact Hmain|lia..].
    + exists l. split; [done|]. split; [done|]. apply Permutation_cons_inv in Tp. by rewrite <- Hp, Tp.
  - injection He as <-. split; cbn; try done; try lia.
    + eapply mainOk_mono; [exact Hmain|lia..].
    + exists (l ++ [(t, r)]). split; [by rewrite store_app, <- Hs|].
      split; [apply Forall_app; by repeat constructor|]. rewrite <- Hp, fmap_app, <- Tp. cbn. by rewrite <- !app_assoc.
  - destruct (pool_locked p) eqn:El; [|lia]. injection He as <-. split; cbn; try done; try lia.
    + eapply mainOk_mono; [exact Hmain|lia..].
    + exists l. split; [done|]. split; [done|]. by rewrite <- Hp, <- Tp.
  - destruct (pool_wg p) as [|n] eqn:En.
    { destruct Hmain as [(?&_&?)|[(?&?&_&?)|(_&_&?)]]; lia. }
    injection He as <-. split; cbn; try done; try lia.
    + eapply mainOk_mono; [exact Hmain|lia..].
    + exists l. split; [done|]. split; [done|]. by rewrite <- Hp, <- Tp.
Qed.
End Instr.

(** A goroutine that is resolving goes on, or begins its body. *)
Lemma poolInv_resolving tasks p i t q w :
  poolInv tasks p -> pool_workers p !! i = Some (Resolving t q) -> workOk w -> left_ w = body -> taskOf w = t ->
  poolInv tasks (setWorker i w p).
Proof.
  intros [Hf Hw Hm Hr Hmain (l&Hs&Hl&Hp)] Hi Hok El Et.
  pose proof (total_insert holds _ _ _ w Hi) as Th. pose proof (total_insert writes _ _ _ w Hi) as Tw.
  pose proof (total_insert live _ _ _ w Hi) as Tl. pose proof (pending_insert _ _ _ w Hi) as Tp.
  unfold holds at 2 4 in Th. unfold writes at 2 4 in Tw. unfold live at 2 4 in Tl. unfold pending at 1 3 in Tp.
  rewrite El in Th, Tw, Tl, Tp. rewrite Et in Tp. cbn in Th, Tw, Tl, Tp. split; cbn; try done; try lia.
  - by apply Forall_insert.
  - eapply mainOk_mono; [exact Hmain|lia..].
  - exists l. split; [done|]. split; [done|]. apply Permutation_cons_inv in Tp. by rewrite <- Hp, Tp.
Qed.

Lemma poolInv_step tasks p p' : poolInv tasks p -> pool_step p p' -> poolInv tasks p'.
Proof.
  intros Hi [Hs|Hs].
  - destruct Hs as [p p' Hf He|p i t r ins rest p' Hf Hl He|p i t r Hf Hl|p i t m k Hf Hl].
    + by eapply poolInv_main.
    + by eapply poolInv_body.
    + pose proof (Forall_lookup_1 _ _ _ _ (inv_work _ _ Hi) Hl) as (_&Hr).
      eapply poolInv_resolving; [done|exact Hl| |done..]. split; [by apply (Hr [])|by exists 0].
    + pose proof (Forall_lookup_1 _ _ _ _ (inv_work _ _ Hi) Hl) as ((E&_)&_). cbn in E. subst m.
      destruct Hi. split; try done. by right.
  - destruct Hs as [p i t c k x Hf Hl].
    pose proof (Forall_lookup_1 _ _ _ _ (inv_work _ _ Hi) Hl) as ((_&He)&Hr).
    eapply poolInv_resolving; [done|exact Hl| |done..]. split; [apply He|]. intros tr r H. apply (Hr (Ev c x :: tr)).
    cbn. by exists x, tr.
Qed.

(** The goroutines started for [tasks] reach the state [p] in [n] steps. *)
Definition schedule (tasks : list taskInfo) (n : nat) (p : pool) : Prop :=
  nsteps pool_step n (startPool tasks) p.

Lemma schedule_inv tasks n p : schedule tasks n p -> poolInv tasks p.
Proof.
  intros H. assert (Hr : rtc pool_step (startPool tasks) p) by (apply rtc_nsteps; by exists n).
  pose proof (poolInv_start tasks) as Hi. clear H. induction Hr; eauto using poolInv_step.
Qed.

(** What holds when the waiting is over. *)
Lemma joined_stored tasks p :
  poolInv tasks p -> joined p ->
  total live (pool_workers p) = 0 /\
  exists l, pool_results p = store ∅ l /\ Forall (fun x => resolvesTo x.1 x.2) l /\ fst <$> l ≡ₚ bundleTasks tasks.
Proof.
  intros [_ _ _ _ Hmain (l&Hs&Hl&Hp)] Hj. unfold joined in Hj. rewrite Hj in *.
  destruct Hmain as [(ts&E&_)|[(?&?&[=]&_)|(_&_&H0)]].
  { exfalso. destruct (mainProgram_next ts) as [E'|(?&?&E')]; congruence. }
  split; [done|]. exists l. split; [done|]. split; [done|]. rewrite <- Hp. cbn. rewrite app_nil_r.
  assert (E : omap pending (pool_workers p) = []); [|by rewrite E, app_nil_r].
  clear -H0. unfold total in H0. induction (pool_workers p) as [|w ws IH]; [done|]. cbn in *.
  unfold live at 1 in H0. destruct (length (left_ w)) eqn:E; [|lia]. unfold pending at 1.
  rewrite E. apply IH. lia.
Qed.

(** ** Termination *)
(** A program that makes at most [k] calls, whatever the responses. *)
Fixpoint atMost {A} (k : nat) (p : tprog A) : Prop :=
  match p, k with
  | Ret _, _ => True
  | Do _ _, O => False
  | Do c f, S k => forall x, atMost k (f x)
  end.

Lemma atMost_resolveBundle t : atMost 5 (resolveBundle t).
Proof.
  assert (Hf : forall layers descs i, atMost 1 (findTask t layers i descs)).
  { intros layers descs. induction descs as [|d descs IH]; intros i; cbn; [done|].
    destruct (negb _); [apply IH|]. destruct (layers !! i); [|by intros []].
    cbn. intros [tar|e]; cbn; [|done]. by destruct (scanEntries _ _ _).1 as [[]|]. }
  unfold resolveBundle. cbn -[atMost]. intros [ref|e]; cbn -[atMost]; [|done]. intros [img|e]; cbn -[atMost]; [|done].
  intros [descs|e]; cbn -[atMost]; [|done]. intros [layers|e]; cbn -[atMost]; [|done]. apply Hf.
Qed.

(** The steps a goroutine may still take: its calls, the return of resolveBundle, and
    the statements of its body. *)
Definition budget (w : goroutine) (b : nat) : Prop :=
  match w with
  | Resolving _ p => exists k, atMost k p /\ b = k + 6
  | Running _ _ rest => b = length rest
  end.

Definition mainBudget (i : mainInstr) : nat := match i with Go _ => 12 | _ => 1 end.

(** At most [n] steps are left. *)
Definition within (n : nat) (p : pool) : Prop :=
  pool_fatal p = None ->
  exists bs, Forall2 budget (pool_workers p) bs /\ sum_list bs + sum_list_with mainBudget (pool_main p) <= n.

Lemma sum_insert (bs : list nat) i b b' : bs !! i = Some b -> sum_list (<[i:=b']> bs) + b = sum_list bs + b'.
Proof. intros (l1&l2&->&->)%(insert_middle _ _ _ b'). rewrite !sum_list_with_app. cbn. lia. Qed.

(** A step of one goroutine uses up a part of its budget. *)
Lemma within_worker n p i w w' p' :
  pool_workers p !! i = Some w -> pool_fatal p = None -> within n p ->
  pool_main p' = pool_main p -> pool_workers p' = <[i:=w']> (pool_workers p) ->
  (forall b, budget w b -> exists b', budget w' b' /\ b' < b) -> exists m, n = S m /\ within m p'.
Proof.
  intros Hi Hf Hn Em Ew Hb. destruct (Hn Hf) as (bs&HF&Hs).
  destruct (Forall2_lookup_l _ _ _ _ _ HF Hi) as (b&Hbi&Hbw). destruct (Hb b Hbw) as (b'&Hb'&Hlt).
  pose proof (sum_insert bs i b b' Hbi). exists (n - 1). split; [lia|]. intros _. exists (<[i:=b']> bs).
  rewrite Em, Ew. split; [by apply Forall2_insert|lia].
Qed.

Lemma within_step n p p' : within n p -> pool_step p p' -> exists m, n = S m /\ within m p'.
Proof.
  intros Hn [Hs|Hs].
  - destruct Hs as [p p' Hf He|p i t r ins rest p' Hf Hl He|p i t r Hf Hl|p i t m k Hf Hl].
    + destruct (Hn Hf) as (bs&HF&Hs). unfold execMain in He.
      destruct (pool_main p) as [|[|t|] l] eqn:E; [done|..]; cbn in Hs.
      * injection He as <-. exists (n - 1). split; [lia|]. intros _. exists bs. split; [done|]. cbn. lia.
      * injection He as <-. exists (n - 1). split; [lia|]. intros _. exists (bs ++ [11]). split.
        { apply Forall2_app; [done|]. repeat constructor. exists 5. split; [apply atMost_resolveBundle|done]. }
        rewrite sum_list_with_app. cbn. lia.
      * destruct (decide _); [|done]. injection He as <-. exists (n - 1). split; [lia|]. intros _. exists bs.
        split; [done|]. cbn. lia.
    + eapply (within_worker n p i); [done..| | |].
      * cbn. unfold execInstr in He. by repeat case_match; simplify_eq/=.
      * cbn. unfold execInstr in He. by repeat case_match; simplify_eq/=.
      * intros b ->. eexists. split; [done|]. cbn. lia.
    + eapply (within_worker n p i); [done..|]. intros b (k&_&->). eexists. split; [done|]. cbn. lia.
    + destruct (within_worker n p i _ (Running t (failed t 0 (Errorf "")) []) (setWorker i (Running t (failed t 0 (Errorf "")) []) p) Hl Hf Hn)
        as (m'&->&_); [done..| |].
      { intros b (k'&_&->). exists 0. split; [done|lia]. }
      exists m'. split; [done|]. by intros [=].
  - destruct Hs as [p i t c k x Hf Hl]. eapply (within_worker n p i); [done..|].
    intros b (j&Hj&->). destruct j as [|j]; [done|]. exists (j + 6). split; [|lia]. exists j. split; [apply Hj|done].
Qed.

Lemma within_nsteps n m p q : within n p -> nsteps pool_step m p q -> m <= n /\ within (n - m) q.
Proof.
  intros Hn Hs. revert n Hn. induction Hs as [p|m p p' q Hs _ IH]; intros n Hn; [by rewrite Nat.sub_0_r; split; [lia|]|].
  destruct (within_step n p p' Hn Hs) as (n'&->&Hn'). destruct (IH n' Hn') as [H1 H2]. split; [lia|done].
Qed.

Lemma within_start tasks : within (13 * length (bundleTasks tasks) + 1) (startPool tasks).
Proof.
  intros _. exists []. split; [constructor|]. cbn [startPool pool_main]. induction tasks as [|t ts IH]; [cbn; lia|].
  rewrite mainProgram_cons. unfold bundleTasks in *. cbn [List.filter]. destruct (hasBundle t); [|exact IH]. cbn in *. lia.
Qed.

Lemma bounded_Acc {A} (R : A -> A -> Prop) n x : (forall m y, nsteps R m x y -> m <= n) -> Acc (flip R) x.
Proof.
  revert x. induction n as [|n IH]; intros x H; constructor; intros y Hy; cbn in Hy.
  - specialize (H 1 y (nsteps_once _ _ Hy)). lia.
  - apply IH. intros m z Hz. specialize (H (S m) z (nsteps_l _ _ _ _ _ Hy Hz)). lia.
Qed.

(** ** No deadlock *)
(** A goroutine waits for the response to a call, and goes on with any. *)
Definition awaits (p : pool) : Prop :=
  exists i t c k, pool_workers p !! i = Some (Resolving t (Do c k)) /\ inhabited (tresp c) /\
    forall x, pool_step p (setWorker i (Resolving t (k x)) p).

Lemma body_enabled p i t r ins rest :
  pool_fatal p = None -> pool_workers p !! i = Some (Running t r (ins :: rest)) ->
  ins <> MuLock \/ pool_locked p = false -> exists p', local_step p p'.
Proof.
  intros Hf Hi H. assert (exists p', execInstr t r ins p = Some p') as (p'&He).
  { destruct ins; cbn; repeat case_match; try by eexists. by destruct H. }
  eexists. by eapply body_steps.
Qed.

Lemma pick_worker f ws : total f ws <> 0 -> exists i w, ws !! i = Some w /\ f w <> 0.
Proof.
  unfold total. induction ws as [|w ws IH]; cbn; [done|]. intros H.
  destruct (decide (f w = 0)) as [E|E]; [|by exists 0, w]. destruct IH as (i&v&?&?); [lia|]. by exists (S i), v.
Qed.

Lemma worker_progress tasks p :
  poolInv tasks p -> pool_fatal p = None -> total live (pool_workers p) <> 0 ->
  (exists p', local_step p p') \/ awaits p.
Proof.
  intros Hi Hf Hl. destruct (pick_worker live _ Hl) as (i&w&Hw&Hlw).
  pose proof (Forall_lookup_1 _ _ _ _ (inv_work _ _ Hi) Hw) as Hok.
  destruct w as [t [r|c k]|t r [|ins rest]]; [| | done|].
  - left. eexists. by eapply call_returns.
  - destruct Hok as ((Hc&_)&_).
    assert (Hd : (exists m, c = Panic m) \/ inhabited (tresp c)).
    { destruct c; cbn in *; try (right; repeat constructor; try exact (Err (Errorf "")); try exact None; exact (fun _ => "000"%char)); [by left; eexists|done]. }
    destruct Hd as [(m&->)|Hd]; [left; eexists; by eapply call_panics|]. right. exists i, t, c, k.
    split; [done|]. split; [done|]. intros x. right. by eapply replies.
  - destruct (pool_locked p) eqn:El; [|left; eapply body_enabled; [done|exact Hw|by right]].
    assert (Hh : total holds (pool_workers p) <> 0) by (rewrite (inv_mutex _ _ Hi), El; done).
    destruct (pick_worker holds _ Hh) as (j&v&Hv&Hhv). left.
    pose proof (Forall_lookup_1 _ _ _ _ (inv_work _ _ Hi) Hv) as Hok'.
    destruct v as [t' q|t' r' rest']; [done|]. destruct Hok' as (_&n&->).
    destruct n as [|[|[|[|n]]]]; [done| | | |by destruct n as [|[]]].
    all: eapply body_enabled; [done|exact Hv|by left].
Qed.

(** C38: resolving all bundles ends, whatever the schedule and the responses: a schedule
    has at most thirteen steps per bundle and one more, so that none goes on forever.
    The only thing the process can die of is the index panic of [layers[i]]: writes of
    the map never overlap, the mutex is never unlocked by one that does not hold it and
    the counter never becomes negative.  There is no deadlock: until [wg.Wait] has
    returned or the process has died, the process can take a step by itself, or a
    goroutine waits for a response and goes on with any.  When [wg.Wait] has returned,
    the mutex is free, no write is under way, and there is a result for every bundle. *)
Theorem bundles_terminate tasks n p :
  schedule tasks n p ->
  n <= 13 * length (bundleTasks tasks) + 1 /\ Acc (flip pool_step) p /\
  (pool_fatal p = None \/ pool_fatal p = Some "index out of range") /\
  (joined p \/ pool_fatal p <> None \/ (exists p', local_step p p') \/ awaits p) /\
  (joined p -> pool_locked p = false /\ pool_writing p = false /\
     forall t, t ∈ bundleTasks tasks -> is_Some (pool_results p !! ti_name t)).
Proof.
  intros Hn. pose proof (schedule_inv _ _ _ Hn) as Hi.
  destruct (within_nsteps _ _ _ _ (within_start tasks) Hn) as [Hb Hw]. split; [done|].
  split; [by eapply bounded_Acc; intros m y Hy; apply (within_nsteps _ _ _ _ Hw Hy)|].
  split; [apply Hi|]. split.
  - destruct (pool_fatal p) eqn:Ef; [by right; left|].
    destruct (decide (total live (pool_workers p) = 0)) as [E0|E0]; [|right; right; by eapply worker_progress].
    destruct (execMain p) as [p'|] eqn:Em; [right; right; left; exists p'; by apply main_steps|].
    left. unfold joined. destruct (inv_main _ _ Hi) as [(ts&E&Ewg)|[(t&ts&E&Ewg)|(E&_)]]; [| |done].
    all: unfold execMain in Em; rewrite E in Em.
    2: done.
    destruct (mainProgram_next ts) as [E'|(?&?&E')]; rewrite E' in Em; [|done]. rewrite decide_True in Em by lia. done.
  - intros Hj. destruct (joined_stored _ _ Hi Hj) as (E0&l&->&_&Hp).
    assert (Hz : forall f, (forall w, f w <= live w) -> total f (pool_workers p) = 0).
    { intros f Hf. clear -E0 Hf. unfold total in *. induction (pool_workers p) as [|w ws IH]; [done|]. cbn in *.
      specialize (Hf w). rewrite IH; lia. }
    pose proof (inv_mutex _ _ Hi) as Hm. pose proof (inv_map _ _ Hi) as Hr.
    rewrite Hz in Hm, Hr; [| |]; try (intros w; unfold holds, writes, live; destruct (length (left_ w)) as [|[|[|[|[|]]]]]; lia).
    split; [by destruct (pool_locked p)|]. split; [by destruct (pool_writing p)|].
    intros t Ht. rewrite <- Hp in Ht. by apply store_lookup.
Qed.

(** C37: the goroutines refine the sequential program: whatever the schedule, the map
    that is returned after all have finished is one that resolving the bundles one
    after the other in some order returns, and, since the tasks of a pipeline have
    different names, one that resolving them in the order of the pipeline returns. *)
Theorem bundles_sequential tasks n p :
  schedule tasks n p -> joined p ->
  (exists order tr, order ≡ₚ bundleTasks tasks /\ run (resolveAll order ∅) tr (pool_results p)) /\
  (NoDup (ti_name <$> bundleTasks tasks) -> exists tr, run (resolveBundles tasks) tr (pool_results p)).
Proof.
  intros Hr%schedule_inv Hj. destruct (joined_stored _ _ Hr Hj) as (_&l&Hm&Hl&Hp).
  assert (Hseq : forall l', l' ≡ₚ l -> store ∅ l' = store ∅ l ->
            exists tr, run (resolveAll (fst <$> l') ∅) tr (pool_results p)).
  { intros l' Hl' Heq. apply run_resolveAll. exists (snd <$> l'). split.
    - rewrite <- Hl' in Hl. clear -Hl. induction Hl as [|[t r] l' H Hl IH]; by constructor.
    - rewrite Hm, <- Heq. f_equal. clear. induction l' as [|[t r] l' IH]; cbn; by rewrite <- ?IH. }
  split; [exists (fst <$> l); destruct (Hseq l) as (tr&Htr); [done..|]; by exists tr|].
  intros Hnd. unfold resolveBundles.
  symmetry in Hp. apply Permutation_map_inv in Hp as (l'&El&Hl'). rewrite El in Hnd |- *.
  symmetry in Hl'. apply Hseq; [done|]. apply store_perm; [done|]. by rewrite list_fmap_compose.
Qed.

(** ** One bundle *)
(** The layer a task is taken from: the first of the manifest that is annotated as a
    task, and with the wanted name if there is one. *)
Definition annotated (t : taskInfo) (d : Descriptor) : Prop :=
  mget (desc_Annotations d) "dev.tekton.image.kind" = "task" /\
  (bundleTaskName t = "" \/ mget (desc_Annotations d) "dev.tekton.image.name" = bundleTaskName t).

Definition firstTaskLayer (t : taskInfo) (descs : list Descriptor) (i : nat) (d : Descriptor) : Prop :=
  descs !! i = Some d /\ annotated t d /\ forall j d', j < i -> descs !! j = Some d' -> ~ annotated t d'.

(** An entry is read as YAML, or else as JSON into what that left. *)
Definition readsTask (data : string) (task : Task) : Prop :=
  task_Kind task = "Task" /\
  (yaml_Unmarshal_Task data zeroTask = (task, None) \/
   exists task0 err, yaml_Unmarshal_Task data zeroTask = (task0, err) /\ (err <> None \/ task_Kind task0 <> "Task") /\
     json_Unmarshal_Task data task0 = (task, None)).

(** The task of a layer: the first entry of the archive that can be read as one. *)
Definition taskOfLayer (tar : Tarball) (task : Task) (size : Z) : Prop :=
  exists before data after, tar_Entries tar = (Ok <$> before) ++ Ok data :: after /\
    Forall (fun d => forall task, ~ readsTask d task) before /\ readsTask data task /\ size = slen data.

(** The calls up to the layers of the image. *)
Definition pulled (t : taskInfo) (descs : list Descriptor) (layers : list Layer) (tr : list tevent) : Prop :=
  exists ref img, tr = [Ev (ParseReference (bundleRef t)) (Ok ref); Ev (RemoteImage ref) (Ok img);
                        Ev (ImageManifest img) (Ok descs); Ev (ImageLayers img) (Ok layers)].

(** Why a bundle is not resolved, and the size that is then reported. *)
Inductive unresolved (t : taskInfo) : list tevent -> Z -> Prop :=
  | badReference e : unresolved t [Ev (ParseReference (bundleRef t)) (Err e)] 0
  | noImage ref e :
      unresolved t [Ev (ParseReference (bundleRef t)) (Ok ref); Ev (RemoteImage ref) (Err e)] 0
  | noManifest ref img e :
      unresolved t [Ev (ParseReference (bundleRef t)) (Ok ref); Ev (RemoteImage ref) (Ok img);
                    Ev (ImageManifest img) (Err e)] 0
  | noLayers ref img descs e :
      unresolved t [Ev (ParseReference (bundleRef t)) (Ok ref); Ev (RemoteImage ref) (Ok img);
                    Ev (ImageManifest img) (Ok descs); Ev (ImageLayers img) (Err e)] 0
  | noTaskLayer descs layers tr : pulled t descs layers tr -> Forall (fun d => ~ annotated t d) descs -> unresolved t tr 0
  | badLayer descs layers k d layer tr e :
      pulled t descs layers tr -> firstTaskLayer t descs k d -> layers !! k = Some layer ->
      unresolved t (tr ++ [Ev (Uncompressed layer) (Err e)]) (desc_Size d)
  | noTask descs layers k d layer tr tar :
      pulled t descs layers tr -> firstTaskLayer t descs k d -> layers !! k = Some layer ->
      (forall task size, ~ taskOfLayer tar task size) ->
      unresolved t (tr ++ [Ev (Uncompressed layer) (Ok tar)]) (desc_Size d).

Lemma isTaskLayer_annotated t d : isTaskLayer t d = true <-> annotated t d.
Proof. unfold isTaskLayer, annotated. by rewrite andb_true_iff, orb_true_iff, !bool_decide_eq_true. Qed.

Lemma decodeTask_reads data task : decodeTask data = Some task <-> readsTask data task.
Proof.
  unfold decodeTask, readsTask. destruct (yaml_Unmarshal_Task data zeroTask) as [task0 err].
  destruct (json_Unmarshal_Task data task0) as [task1 err1] eqn:Ej.
  destruct (bool_decide (err = None) && bool_decide (task_Kind task0 = "Task")) eqn:E0.
  - apply andb_true_iff in E0 as [->%bool_decide_eq_true Hk%bool_decide_eq_true]. split; [intros [= <-]; auto|].
    intros (_&[[= ->]|(?&?&[= <- <-]&[?|?]&_)]); done.
  - rewrite andb_false_iff, !bool_decide_eq_false in E0.
    destruct (bool_decide (err1 = None) && bool_decide (task_Kind task1 = "Task")) eqn:E1.
    + apply andb_true_iff in E1 as [->%bool_decide_eq_true Hk%bool_decide_eq_true].
      split; [intros [= <-]; split; [done|]; right; by exists task0, err|].
      intros (Ht&[[= -> ->]|(?&?&[= <- <-]&_&Hj)]); [by destruct E0|]. congruence.
    + rewrite andb_false_iff, !bool_decide_eq_false in E1. split; [done|].
      intros (Ht&[[= -> ->]|(?&?&[= <- <-]&_&Hj)]); [by destruct E0|].
      rewrite Ej in Hj. injection Hj as -> ->. by destruct E1.
Qed.

Lemma decodeTask_none data : decodeTask data = None <-> forall task, ~ readsTask data task.
Proof.
  split.
  - intros H task Hr%decodeTask_reads. congruence.
  - intros H. destruct (decodeTask data) as [task|] eqn:E; [|done]. by apply decodeTask_reads, H in E.
Qed.

(** The loop over the entries finds the task of the layer if there is one. *)
Lemma scanEntries_spec entries last n :
  match (scanEntries entries last n).1 with
  | Ok (task, size) => taskOfLayer {| tar_Entries := entries; tar_End := last |} task size
  | Err _ => forall task size, ~ taskOfLayer {| tar_Entries := entries; tar_End := last |} task size
  end.
Proof.
  unfold taskOfLayer. cbn. revert n. induction entries as [|[data|e] entries IH]; intros n; cbn.
  - assert (H : forall task size, ~ exists before data after, [] = (Ok <$> before) ++ Ok data :: after /\
        Forall (fun d => forall task, ~ readsTask d task) before /\ readsTask data task /\ size = slen data).
    { intros task size ([|? ?]&?&?&[=]&_). }
    destruct last; cbn; [done|]. by destruct (0 <? n)%Z.
  - destruct (decodeTask data) as [task|] eqn:E; cbn.
    + exists [], data, entries. split; [done|]. split; [constructor|]. by rewrite <- decodeTask_reads.
    + rewrite decodeTask_none in E. specialize (IH (slen data)).
      destruct (scanEntries entries last (slen data)).1 as [[task size]|err].
      * destruct IH as (before&d&after&->&HF&?&?). exists (data :: before), d, after. split; [done|]. split; [by constructor|done].
      * intros task size ([|d before]&data'&after&[= -> E']&HF&Hr&->); [by apply E in Hr|].
        apply (IH task (slen data')). exists before, data', after. apply Forall_cons in HF as [_ HF]. done.
  - intros task size ([|d before]&data'&after&[=]&_).
Qed.

Lemma run_findTask t layers descs0 tr0 : forall descs i tr r,
  pulled t descs0 layers tr0 -> drop i descs0 = descs ->
  (forall j d', j < i -> descs0 !! j = Some d' -> ~ annotated t d') ->
  run (findTask t layers i descs) tr r ->
  rt_Name r = ti_name t /\
  match rt_Err r with
  | None => exists k d layer tar task, firstTaskLayer t descs0 k d /\ layers !! k = Some layer /\
      tr = [Ev (Uncompressed layer) (Ok tar)] /\ taskOfLayer tar task (SizeBytes r) /\
      StepNames r = step_Name <$> task_Steps task /\ rt_StepResources r = step_ComputeResources <$> task_Steps task
  | Some _ => StepNames r = [] /\ rt_StepResources r = [] /\ unresolved t (tr0 ++ tr) (SizeBytes r)
  end.
Proof.
  induction descs as [|d descs IH]; intros i tr r Hpl Hd Hbefore; cbn [findTask].
  - intros [-> ->]. cbn. split; [done|]. split; [done|]. split; [done|]. rewrite app_nil_r.
    apply (noTaskLayer t descs0 layers); [done|]. apply Forall_lookup. intros j d Hj. apply (Hbefore j d); [|done].
    apply lookup_lt_Some in Hj. apply (f_equal length) in Hd. rewrite length_drop in Hd. cbn in Hd. lia.
  - assert (Hi : descs0 !! i = Some d) by (rewrite <- (Nat.add_0_r i), <- lookup_drop, Hd; done).
    assert (Hd' : drop (S i) descs0 = descs) by (rewrite <- Nat.add_1_r, <- drop_drop, Hd; done).
    destruct (isTaskLayer t d) eqn:El; cbn [negb].
    + apply isTaskLayer_annotated in El. assert (Hf : firstTaskLayer t descs0 i d) by done.
      destruct (layers !! i) as [layer|] eqn:Ely; [|by intros ([]&_)].
      unfold extractTask. cbn. intros (rc&tr'&->&H). destruct rc as [tar|e]; cbn in H.
      * pose proof (scanEntries_spec (tar_Entries tar) (tar_End tar) 0) as Hs. destruct tar as [es last]. cbn in *.
        destruct (scanEntries es last 0).1 as [[task size]|e]; destruct H as [-> ->]; cbn.
        -- split; [done|]. by exists i, d, layer, {| tar_Entries := es; tar_End := last |}, task.
        -- split; [done|]. split; [done|]. split; [done|]. by eapply noTask.
      * destruct H as [-> ->]. cbn. split; [done|]. split; [done|]. split; [done|]. by eapply badLayer.
    + apply IH; [done|done|]. intros j d' Hj Hd''. destruct (decide (j = i)) as [->|].
      * rewrite Hi in Hd''. injection Hd'' as <-. rewrite <- isTaskLayer_annotated. by rewrite El.
      * eapply Hbefore; [|exact Hd'']. lia.
Qed.

(** C39: what resolving a bundle gives, on every branch: the result has the name of the
    task; without an error it has the steps, with their resources, and the size of
    the first entry that can be read as a Task, as YAML or else as JSON, in the first
    layer of the manifest that is annotated as a task, with the wanted name if there
    is one; with an error it has no steps, a call failed, no layer of the manifest is
    so annotated, or no entry of the first such layer can be read as a Task, and the
    size is the compressed size of that layer if there is one and zero otherwise. *)
Theorem bundle_resolved_exactly t tr r :
  run (resolveBundle t) tr r ->
  rt_Name r = ti_name t /\
  match rt_Err r with
  | None => exists descs layers tr0 k d layer tar task,
      pulled t descs layers tr0 /\ tr = tr0 ++ [Ev (Uncompressed layer) (Ok tar)] /\
      firstTaskLayer t descs k d /\ layers !! k = Some layer /\ taskOfLayer tar task (SizeBytes r) /\
      StepNames r = step_Name <$> task_Steps task /\ rt_StepResources r = step_ComputeResources <$> task_Steps task
  | Some _ => StepNames r = [] /\ rt_StepResources r = [] /\ unresolved t tr (SizeBytes r)
  end.
Proof.
  unfold resolveBundle. cbn. intros ([ref|e]&t1&->&H); [|destruct H as [-> ->]; cbn; by repeat constructor].
  destruct H as ([img|e]&t2&->&H); [|destruct H as [-> ->]; cbn; by repeat constructor].
  destruct H as ([descs|e]&t3&->&H); [|destruct H as [-> ->]; cbn; by repeat constructor].
  destruct H as ([layers|e]&t4&->&H); [|destruct H as [-> ->]; cbn; by repeat constructor].
  assert (Hpl : pulled t descs layers _) by (by exists ref, img).
  apply (run_findTask t layers descs _ _ _ _ _ Hpl) in H as [Hn H]; [|done|lia]. split; [done|].
  destruct (rt_Err r); [exact H|]. destruct H as (k&d&layer&tar&task&Hf&Hl&->&Ht&Hs&Hc).
  eexists descs, layers, _, k, d, layer, tar, task. split; [exact Hpl|]. done.
Qed.
End Pool.

(** ** An example *)
Definition demoTasks : list taskInfo := extractTaskInfos demoRun.
Definition scanTask : taskInfo := match bundleTasks demoTasks with
  | t :: _ => t
  | [] => extractSingleTaskInfo {| pt_Name := ""; pt_TaskRef := None; pt_TaskSpec := None; pt_RunAfter := [];
                                   pt_Matrix := None |} false
  end.

Definition scanResult : resolvedTask :=
  {| rt_Name := "scan"; StepNames := ["scan"]; rt_StepResources := [noResources]; SizeBytes := 4; rt_Err := None |}.

Definition scanTrace : list tevent :=
  [Ev (ParseReference "quay.io/t:1") (Ok "quay.io/t:1"); Ev (RemoteImage "quay.io/t:1") (Ok 0);
   Ev (ImageManifest 0) (Ok [taskLayer]); Ev (ImageLayers 0) (Ok [0]);
   Ev (Uncompressed 0) (Ok {| tar_Entries := [Ok "readme"; Ok "task"]; tar_End := None |})].

Lemma scanned : run (resolveBundle scanTask) scanTrace scanResult.
Proof. apply (simulate_run demoHandler). vm_compute. reflexivity. Qed.

(** One bundle: two statements of the loop, five calls and the return of
    resolveBundle, five statements of the body, and the end of the waiting. *)
Definition demoPool (l : list mainInstr) (w : goroutine) (m : gmap string resolvedTask) (locked writing : bool) (n : nat) : pool :=
  {| pool_main := l; pool_workers := [w]; pool_results := m; pool_locked := locked; pool_writing := writing;
     pool_wg := n; pool_fatal := None |}.

Definition scanMap : gmap string resolvedTask := <[ti_name scanTask := scanResult]> ∅.
Definition storedPool : pool := demoPool [] (Running scanTask scanResult []) scanMap false false 0.

Lemma demo_resolving (p q : tprog resolvedTask) c k x :
  p = Do c k -> q = k x ->
  pool_step (demoPool [WgWait] (Resolving scanTask p) ∅ false false 1) (demoPool [WgWait] (Resolving scanTask q) ∅ false false 1).
Proof. intros -> ->. right. exact (replies (demoPool _ _ _ _ _ _) 0 scanTask c k x eq_refl eq_refl). Qed.

Lemma demo_calls : forall (p : tprog resolvedTask) tr r, run p tr r ->
  nsteps pool_step (length tr) (demoPool [WgWait] (Resolving scanTask p) ∅ false false 1)
    (demoPool [WgWait] (Resolving scanTask (Ret r)) ∅ false false 1).
Proof.
  induction p as [a|c k IH]; intros tr r; cbn.
  - intros [-> ->]. apply nsteps_O.
  - intros (x&tr'&->&H). eapply nsteps_l; [by eapply demo_resolving|]. by apply IH.
Qed.

Lemma demo_body l m locked writing n m' locked' writing' n' ins rest :
  execInstr scanTask scanResult ins (demoPool l (Running scanTask scanResult (ins :: rest)) m locked writing n) =
    Some (demoPool l (Running scanTask scanResult (ins :: rest)) m' locked' writing' n') ->
  pool_step (demoPool l (Running scanTask scanResult (ins :: rest)) m locked writing n)
            (demoPool l (Running scanTask scanResult rest) m' locked' writing' n').
Proof. intros H. left. exact (body_steps (demoPool _ _ _ _ _ _) 0 scanTask scanResult ins rest (demoPool _ _ _ _ _ _) eq_refl eq_refl H). Qed.

Lemma demo_program : mainProgram demoTasks = [WgAdd; Go scanTask; WgWait].
Proof. vm_compute. reflexivity. Qed.

Lemma demo_schedule : schedule demoTasks 14 storedPool.
Proof.
  unfold schedule, startPool. rewrite demo_program.
  do 2 (eapply nsteps_l; [left; by apply main_steps|]).
  apply (nsteps_trans 5 7 _ (demoPool [WgWait] (Resolving scanTask (Ret scanResult)) ∅ false false 1)).
  { exact (demo_calls _ scanTrace scanResult scanned). }
  eapply nsteps_l; [left; exact (call_returns (demoPool _ _ _ _ _ _) 0 scanTask scanResult eq_refl eq_refl)|].
  do 5 (eapply nsteps_l; [by apply demo_body|]).
  eapply nsteps_l; [left; by apply main_steps|]. apply nsteps_O.
Qed.

Lemma bundles_terminate_witness : joined storedPool /\ Acc (flip pool_step) storedPool.
Proof.
  split; [reflexivity|]. exact (proj1 (proj2 (bundles_terminate demoTasks 14 storedPool demo_schedule))).
Defined.

Lemma bundles_sequential_witness : exists tr, run (resolveBundles demoTasks) tr scanMap.
Proof.
  refine (proj2 (bundles_sequential demoTasks 14 storedPool demo_schedule eq_refl) _).
  vm_compute. repeat constructor. by intros ?%elem_of_nil.
Defined.

Lemma bundle_resolved_exactly_witness : rt_Err scanResult = None /\ rt_Name scanResult = ti_name scanTask.
Proof.
  split; [reflexivity|]. exact (proj1 (bundle_resolved_exactly scanTask scanTrace scanResult scanned)).
Defined.
