(* ===== verification/LoadProps.v ===== *)
(** * Properties of the load-test generator

    The generated PipelineRun has the shape of the input, matrices are counted as
    they fan out, the report is of what is generated, the cleanup of the YAML removes
    whole lines only, and the command writes one file. *)
From S2P Require Import Prelude GoStd NetUrl GoFmt Tekton Generator Bundle LoadMain ScriptProps.

(** ** Matrices *)
(** The combinations a matrix stands for, enumerated. *)
Fixpoint combinations (ls : list (list string)) : list (list string) :=
  match ls with
  | [] => [[]]
  | l :: ls => concat ((fun x => cons x <$> combinations ls) <$> l)
  end.

Definition nonEmpty (l : list string) : bool := match l with [] => false | _ => true end.

(** The TaskRuns of a task: one without a matrix; one per include entry of a matrix
    that has no parameters; else one per combination of the parameters' values,
    parameters without values left aside. *)
Definition fanOut (m : option Matrix) : nat :=
  match m with
  | None => 1
  | Some m =>
      match mx_Params m, mx_Include m with
      | [], _ :: _ => length (mx_Include m)
      | ps, _ => length (combinations (List.filter nonEmpty ((fun mp => ArrayVal (p_Value mp)) <$> ps)))
      end
  end.

Lemma length_combinations l ls : length (combinations (l :: ls)) = length l * length (combinations ls).
Proof.
  cbn. induction l as [|x l IH]; cbn; [done|]. by rewrite length_app, length_fmap, IH.
Qed.

Definition expansionStep (count : Z) (mp : Param) : Z :=
  let n := len (ArrayVal (p_Value mp)) in if (0 <? n)%Z then int64 (count * n) else count.

Lemma foldl_expansion ps c :
  foldl expansionStep (int64 c) ps =
  int64 (c * Z.of_nat (length (combinations (List.filter nonEmpty ((fun mp => ArrayVal (p_Value mp)) <$> ps))))).
Proof.
  revert c. induction ps as [|mp ps IH]; intros c; [cbn; f_equal; lia|].
  assert (Hs : expansionStep (int64 c) mp = int64 (if nonEmpty (ArrayVal (p_Value mp)) then c * len (ArrayVal (p_Value mp)) else c)).
  { unfold expansionStep, len. destruct (ArrayVal (p_Value mp)) as [|x l]; cbn [nonEmpty]; [done|].
    destruct (Z.ltb_spec 0 (Z.of_nat (length (x :: l)))); [apply int64_mul_l|cbn in *; lia]. }
  cbn [foldl fmap list_fmap List.filter]. rewrite Hs, IH. f_equal.
  destruct (nonEmpty (ArrayVal (p_Value mp))); [|done]. rewrite length_combinations. unfold len. lia.
Qed.

(** C34: counting the expansion of a matrix agrees with enumerating it: modulo the width
    of a Go integer in general, and exactly when the number of TaskRuns fits. *)
Theorem expansion_count_exact m :
  ((forall mx, m = Some mx -> mx_Params mx <> []) -> matrixExpansionCount m = int64 (Z.of_nat (fanOut m))) /\
  ((Z.of_nat (fanOut m) < 2 ^ 63)%Z -> matrixExpansionCount m = Z.of_nat (fanOut m)).
Proof.
  destruct m as [m|]; [|done]. unfold matrixExpansionCount. fold expansionStep.
  pose proof (foldl_expansion (mx_Params m) 1) as Hf. change (int64 1) with 1%Z in Hf. rewrite Z.mul_1_l in Hf.
  rewrite Hf. clear Hf.
  assert (H : forall ps, mx_Params m = ps -> ps <> [] -> (len ps =? 0)%Z = false).
  { intros [|p ps] _ Hne; [done|]. apply Z.eqb_neq. unfold len. cbn. lia. }
  unfold fanOut. destruct (mx_Params m) as [|p ps] eqn:Ep.
  - split; [intros Hne; by destruct (Hne m)|]. destruct (mx_Include m) as [|i il]; cbn; [done|].
    intros _. destruct (Z.ltb_spec 0 (len (i :: il))); [done|]. unfold len in *. cbn in *. lia.
  - rewrite (H (p :: ps)) by done. rewrite andb_false_r. cbn [andb]. cbv iota. split; [done|].
    intros Hlt. apply int64_id. lia.
Qed.

(** ** Shape *)
Section Shape.
Context {Y : Codec}.

(** The last entry of a list that has the name [n]: of several that counts. *)
Definition lastNamed {A} (name : A -> string) (n : string) (l : list A) (x : A) : Prop :=
  exists before after, l = before ++ x :: after /\ name x = n /\ Forall (fun y => name y <> n) after.

(** The values of the run's array parameter [n]. *)
Definition arrayNamed (prParams : list Param) (n : string) (vals : list string) : Prop :=
  exists p, lastNamed p_Name n (List.filter (fun p => match pv_Type (p_Value p) with ParamTypeArray => true | _ => false end)
                                  prParams) p /\ vals = ArrayVal (p_Value p).

(** A matrix parameter whose only value is a reference to an array parameter of the
    run has the values of that parameter; every other one keeps its value. *)
Definition refersTo (prParams : list Param) (mp : Param) (vals : list string) : Prop :=
  exists n, ArrayVal (p_Value mp) = ["$(params." +:+ n +:+ ")"] /\ arrayNamed prParams n vals.

Definition resolvedAs (prParams : list Param) (mp mp' : Param) : Prop :=
  p_Name mp' = p_Name mp /\
  ((exists vals, refersTo prParams mp vals /\
      p_Value mp' = {| pv_Type := ParamTypeArray; StringVal := ""; ArrayVal := vals; ObjectVal := [] |}) \/
   ((forall vals, ~ refersTo prParams mp vals) /\ p_Value mp' = p_Value mp)).

Definition resolvedMatrix (prParams : list Param) (m m' : Matrix) : Prop :=
  mx_Include m' = mx_Include m /\ Forall2 (resolvedAs prParams) (mx_Params m) (mx_Params m').

(** What a generated task keeps of the task it stands for. *)
Definition standsFor (prParams : list Param) (pt pt' : PipelineTask) : Prop :=
  pt_Name pt' = pt_Name pt /\ pt_RunAfter pt' = pt_RunAfter pt /\ pt_TaskRef pt' = None /\
  option_Forall2 (resolvedMatrix prParams) (pt_Matrix pt) (pt_Matrix pt') /\
  exists spec, pt_TaskSpec pt' = Some spec /\ ts_Steps spec <> [] /\
    ts_Params spec = (match pt_Matrix pt with
                      | Some m => (fun mp => {| ps_Name := p_Name mp; ps_Type := ParamTypeString |}) <$> mx_Params m
                      | None => []
                      end).

(** The overrides forwarded for a task: the last ones of its name, if they have
    resources or steps, with nothing but these. *)
Definition forwards (specs : list PipelineTaskRunSpec) (pt : PipelineTask) (out : list PipelineTaskRunSpec) : Prop :=
  (exists o, lastNamed trs_PipelineTaskName (pt_Name pt) specs o /\
     (trs_ComputeResources o <> None \/ trs_StepSpecs o <> []) /\
     out = [ {| trs_PipelineTaskName := pt_Name pt; trs_ComputeResources := trs_ComputeResources o;
                trs_StepSpecs := trs_StepSpecs o; trs_Rest := "" |} ]) \/
  ((forall o, lastNamed trs_PipelineTaskName (pt_Name pt) specs o ->
      trs_ComputeResources o = None /\ trs_StepSpecs o = []) /\ out = []).

(** ** A map filled by a loop holds the last entry of a name *)
Lemma lastNamed_unique {A} (name : A -> string) n l x y : lastNamed name n l x -> lastNamed name n l y -> x = y.
Proof.
  intros (b1&a1&->&Hx&Hf). revert b1. induction a1 as [|z a1 IH] using rev_ind; intros b1 (b2&a2&E&Hy&Hg).
  - destruct a2 as [|z a2 _] using rev_ind.
    + by apply app_inj_tail in E as [_ ->].
    + rewrite app_comm_cons, app_assoc in E. apply app_inj_tail in E as [_ ->].
      apply Forall_app in Hg as [_ Hg]. by inversion Hg.
  - apply Forall_app in Hf as [Hf Hz]. inversion Hz; subst.
    destruct a2 as [|z' a2 _] using rev_ind.
    + rewrite app_comm_cons, app_assoc in E. apply app_inj_tail in E as [_ ->]. done.
    + rewrite !app_comm_cons, !app_assoc in E. apply app_inj_tail in E as [E ->].
      apply Forall_app in Hg as [Hg _]. apply (IH Hf b1). by exists b2, a2.
Qed.

Lemma foldl_last {A B} (name : A -> string) (f : A -> B) (l : list A) (n : string) :
  match foldl (fun m x => <[name x := f x]> m) (∅ : gmap string B) l !! n with
  | Some v => exists x, lastNamed name n l x /\ v = f x
  | None => Forall (fun x => name x <> n) l
  end.
Proof.
  induction l as [|x l IH] using rev_ind; [constructor|]. rewrite foldl_app. cbn.
  destruct (decide (name x = n)) as [E|E].
  - rewrite E, lookup_insert_eq. exists x. split; [|done]. exists l, []. done.
  - rewrite lookup_insert_ne by done. destruct (_ !! n) as [v|].
    + destruct IH as (y&(b&a&->&Hy&Ha)&->). exists y. split; [|done]. exists b, (a ++ [x]).
      split; [by rewrite <- app_assoc|]. split; [done|]. apply Forall_app. by repeat constructor.
    + apply Forall_app. by repeat constructor.
Qed.

Lemma lastNamed_in {A} (name : A -> string) n l x : lastNamed name n l x -> x ∈ l /\ name x = n.
Proof. intros (b&a&->&E&_). split; [set_solver|done]. Qed.

Lemma forwardSpec_forwards specs pt fin :
  forwards specs pt (forwardSpec (taskRunSpecMap specs) (extractSingleTaskInfo pt fin)).
Proof.
  assert (E : ti_name (extractSingleTaskInfo pt fin) = pt_Name pt)
    by (unfold extractSingleTaskInfo; cbv zeta; repeat case_match; done).
  unfold forwardSpec, taskRunSpecMap. rewrite E. cbn [trs_ComputeResources trs_StepSpecs].
  pose proof (foldl_last trs_PipelineTaskName id specs (pt_Name pt)) as H. cbn [id] in H.
  destruct (_ !! _) as [o|].
  - destruct H as (?&Hl&->). cbn [id].
    destruct (trs_ComputeResources x) as [c|] eqn:Ec; [left; exists x; split; [done|]; rewrite Ec; split; [by left|done]|].
    destruct (trs_StepSpecs x) as [|st l] eqn:Es.
    + right. split; [|done]. intros o Ho. by rewrite (lastNamed_unique _ _ _ _ _ Ho Hl).
    + left. exists x. rewrite Es, Ec. split; [done|]. split; [by right|]. rewrite bool_decide_eq_false_2 by (by intros []).
      destruct (Z.ltb_spec 0 (len (st :: l))); [done|]. unfold len in *. cbn in *. lia.
  - right. split; [|done]. intros o [Hin Hn]%lastNamed_in. rewrite Forall_forall in H. by destruct (H o Hin).
Qed.

Lemma arrayParams_named prParams n :
  match arrayParams prParams !! n with
  | Some vals => arrayNamed prParams n vals
  | None => forall vals, ~ arrayNamed prParams n vals
  end.
Proof.
  assert (E : arrayParams prParams = foldl (fun m p => <[p_Name p := ArrayVal (p_Value p)]> m) ∅
    (List.filter (fun p => match pv_Type (p_Value p) with ParamTypeArray => true | _ => false end) prParams)).
  { unfold arrayParams. generalize (∅ : gmap string (list string)). induction prParams as [|p ps IH]; intros m; [done|].
    cbn. by destruct (pv_Type (p_Value p)). }
  rewrite E. pose proof (foldl_last p_Name (fun p => ArrayVal (p_Value p))
    (List.filter (fun p => match pv_Type (p_Value p) with ParamTypeArray => true | _ => false end) prParams) n) as H.
  destruct (_ !! n) as [v|]; [exact H|]. intros vals (p&[Hin Hn]%lastNamed_in&_). rewrite Forall_forall in H.
  by destruct (H p Hin).
Qed.

(** A reference is recognised by its two ends. *)
Lemma reference_name ref :
  if HasPrefix ref paramsPrefix && HasSuffix ref ")"
  then ref = "$(params." +:+ slice ref (String.length paramsPrefix) (String.length ref - 1) +:+ ")"
  else forall n, ref <> "$(params." +:+ n +:+ ")".
Proof.
  destruct (HasPrefix ref paramsPrefix) eqn:Ep; cbn [andb].
  2: { intros n ->. assert (H : HasPrefix ("$(params." +:+ n +:+ ")") paramsPrefix = true); [|congruence].
       apply HasPrefix_true. by eexists. }
  destruct (HasSuffix ref ")") eqn:Es.
  - apply HasPrefix_true in Ep as (r&->). apply HasSuffix_true in Es as (r'&Es).
    assert (exists n, r = n +:+ ")") as (n&->).
    { clear -Es. apply (f_equal rev_bytes) in Es. rewrite !rev_bytes_app in Es.
      destruct (rev_bytes r) as [|x q] eqn:Er; [discriminate Es|]. injection Es as -> _.
      exists (rev_bytes q). rewrite <- (rev_bytes_involutive r), Er.
      change (String ")" q) with (")" +:+ q). by rewrite rev_bytes_app. }
    f_equal. f_equal.
    replace (String.length (paramsPrefix +:+ n +:+ ")") - 1) with (String.length (paramsPrefix +:+ n)).
    + by rewrite slice_between.
    + rewrite string_app_assoc, (length_string_app _ ")"). cbn [String.length]. lia.
  - intros n ->. assert (H : HasSuffix ("$(params." +:+ n +:+ ")") ")" = true); [|congruence].
    apply HasSuffix_true. exists ("$(params." +:+ n). by rewrite string_app_assoc.
Qed.

Lemma resolveParam_resolvedAs prParams mp : resolvedAs prParams mp (resolveParam (arrayParams prParams) mp).
Proof.
  unfold resolvedAs, resolveParam, refersTo. destruct (ArrayVal (p_Value mp)) as [|ref [|x l]] eqn:Ea.
  - split; [done|]. right. split; [|done]. by intros vals (n&[=]&_).
  - pose proof (reference_name ref) as Hr. destruct (_ && _).
    + set (n := slice _ _ _) in *. clearbody n. subst ref.
      pose proof (arrayParams_named prParams n) as Hn. destruct (_ !! n) as [vals|]; (split; [done|]).
      * left. exists vals. split; [|done]. by exists n.
      * right. split; [|done]. intros vals (n'&[= E]&Hn').
        assert (n' = n) as ->; [|by apply (Hn vals)]. by apply (proj1 (app_string_inj_r n' n ")")).
    + split; [done|]. right. split; [|done]. intros vals (n&[= E]&_). by apply (Hr n).
  - split; [done|]. right. split; [|done]. by intros vals (n&[=]&_).
Qed.

Lemma resolveMatrixValues_resolved m prParams :
  option_Forall2 (resolvedMatrix prParams) m (resolveMatrixValues m prParams).
Proof.
  destruct m as [m|]; constructor. split; [done|]. cbn. induction (mx_Params m) as [|mp l IH]; constructor; [|done].
  apply resolveParam_resolvedAs.
Qed.

Lemma matrixParams_specs m prParams :
  matrixParams (resolveMatrixValues m prParams) =
  match m with
  | Some m => (fun mp => {| ps_Name := p_Name mp; ps_Type := ParamTypeString |}) <$> mx_Params m
  | None => []
  end.
Proof.
  destruct m as [m|]; [|done]. cbn. rewrite <- list_fmap_compose. apply list_fmap_ext. intros i mp _. cbn.
  by destruct (resolveParam_resolvedAs prParams mp) as [-> _].
Qed.

Lemma length_generateSteps cfg s n : forall i tr steps, run (generateSteps cfg s i n) tr steps -> length steps = n.
Proof.
  induction n as [|n IH]; intros i tr steps; cbn [generateSteps]; [by intros [_ ->]|].
  rewrite run_bind. intros (t1&t2&st&->&_&H). apply run_bind in H as (t3&t4&rest&->&H&->&->). cbn. by erewrite IH.
Qed.

Lemma run_generateTask_shape pt fin r prParams cfg tr pt' :
  run (generatePipelineTask (extractSingleTaskInfo pt fin) r prParams cfg) tr pt' -> standsFor prParams pt pt'.
Proof.
  assert (Hi : let t := extractSingleTaskInfo pt fin in
    ti_name t = pt_Name pt /\ runAfter t = pt_RunAfter pt /\ matrix t = pt_Matrix pt).
  { unfold extractSingleTaskInfo. cbv zeta. repeat case_match; done. }
  destruct Hi as (H1&H2&H3). unfold generatePipelineTask. rewrite run_bind. intros (t1&t2&steps&->&Hs&->&->).
  split; [done|]. split; [done|]. split; [done|]. split; [cbn; rewrite H3; apply resolveMatrixValues_resolved|].
  eexists. split; [done|]. cbn [ts_Steps ts_Params]. rewrite matrixParams_specs, H3. split; [|done].
  apply length_generateSteps in Hs. pose proof (stepCount_pos (extractSingleTaskInfo pt fin) r cfg).
  intros ->. cbn [length] in Hs. lia.
Qed.

(** One pass of the loop over a list of tasks of one kind. *)
Lemma run_generateTasks fin resolved prParams m cfg pts : forall rest a tr out,
  run (generateTasks (((fun pt => extractSingleTaskInfo pt fin) <$> pts) ++ rest) resolved prParams m cfg a) tr out ->
  exists pts' t2, Forall2 (standsFor prParams) pts pts' /\
    run (generateTasks rest resolved prParams m cfg
      {| acc_Tasks := acc_Tasks a ++ (if fin then [] else pts');
         acc_Finally := acc_Finally a ++ (if fin then pts' else []);
         acc_TaskRunSpecs := acc_TaskRunSpecs a ++
           (if preserveResources cfg then concat (forwardSpec m <$> ((fun pt => extractSingleTaskInfo pt fin) <$> pts)) else []) |}) t2 out.
Proof.
  induction pts as [|pt pts IH]; intros rest a tr out; cbn [fmap list_fmap app generateTasks].
  - intros H. exists [], tr. split; [constructor|]. destruct fin, (preserveResources cfg); cbn; rewrite !app_nil_r; by destruct a.
  - rewrite run_bind. intros (t1&t2&pt'&->&H1&H2). apply run_generateTask_shape in H1.
    apply IH in H2 as (pts'&t3&HF&H2). exists (pt' :: pts'), t3. split; [by constructor|].
    assert (Hfin : isFinallyTask (extractSingleTaskInfo pt fin) = fin)
      by (unfold extractSingleTaskInfo; repeat case_match; done).
    unfold addTask in H2. rewrite Hfin in H2. cbn [acc_Tasks acc_Finally acc_TaskRunSpecs] in H2.
    destruct fin, (preserveResources cfg); cbn [concat] in *; rewrite ?app_nil_r in *; rewrite <- ?app_assoc in *; exact H2.
Qed.

(** C36: the generated run has the shape of the input: for every regular and every
    finally task, in the order of the pipeline, one task of the same name with the
    same runAfter, at least one inline step, the matrix, in which a parameter whose
    only value is a reference to an array parameter of the run has the values of the
    last array parameter of that name and every other one its own, and one string
    parameter per matrix parameter.  Exactly when resources are preserved the last
    overrides of the input for each task are forwarded, if they have resources or
    steps, with these and under the task's name, in the order of the tasks. *)
Theorem generated_run_shape pr spec resolved cfg tr out :
  pr_PipelineSpec pr = Some spec ->
  run (generatePipelineRun (extractTaskInfos pr) resolved (pr_Params pr) (pr_TaskRunSpecs pr) cfg) tr out ->
  exists spec', pr_PipelineSpec out = Some spec' /\ pr_GenerateName out = prefix cfg /\ pr_Namespace out = namespace cfg /\
    Forall2 (standsFor (pr_Params pr)) (Tasks spec) (Tasks spec') /\
    Forall2 (standsFor (pr_Params pr)) (Finally spec) (Finally spec') /\
    exists outs, Forall2 (forwards (pr_TaskRunSpecs pr)) (Tasks spec ++ Finally spec) outs /\
      pr_TaskRunSpecs out = (if preserveResources cfg then concat outs else []).
Proof.
  intros Hspec. unfold generatePipelineRun, extractTaskInfos. rewrite Hspec, run_bind.
  intros (t1&t2&a&->&H&->&->). apply run_generateTasks in H as (pts&t3&HT&H).
  rewrite <- (app_nil_r ((fun pt => extractSingleTaskInfo pt true) <$> Finally spec)) in H.
  apply run_generateTasks in H as (fins&t4&HF&[-> ->]). eexists. split; [done|]. cbn.
  rewrite !app_nil_r. do 4 (split; [done|]).
  exists ((forwardSpec (taskRunSpecMap (pr_TaskRunSpecs pr)) <$> ((fun pt => extractSingleTaskInfo pt false) <$> Tasks spec)) ++
          (forwardSpec (taskRunSpecMap (pr_TaskRunSpecs pr)) <$> ((fun pt => extractSingleTaskInfo pt true) <$> Finally spec))).
  split; [|destruct (preserveResources cfg); [by rewrite concat_app|done]].
  rewrite <- !list_fmap_compose.
  apply Forall2_app; apply Forall2_fmap_r, Forall_Forall2_diag, Forall_forall; intros pt _; apply forwardSpec_forwards.
Qed.
End Shape.

(** ** The report *)
(** The inputs for which the report is about what is generated: a resolved bundle
    has steps and a size, a default has at least one step, and a task that is not a
    bundle is not resolved. *)
Definition consistent (t : taskInfo) (r : option resolvedTask) (cfg : config) : Prop :=
  match r with
  | Some r => bundleRef t <> "" /\
      match rt_Err r with None => StepNames r <> [] /\ (0 < SizeBytes r)%Z | Some _ => (1 <= defaultSteps cfg)%Z end
  | None => (1 <= defaultSteps cfg)%Z /\ ((0 < inlineSteps t)%Z -> bundleRef t = "" /\ (0 < inlineSize t)%Z)
  end.

(** The report agrees with the generator: steps and size reported for a task are
    the number of steps and the target size of the generated task. *)
Theorem report_exact t r cfg :
  consistent t r cfg ->
  (reportOf t r cfg).1 = (stepCount (taskShape t r cfg), targetSize (taskShape t r cfg)).
Proof.
  unfold consistent, reportOf, taskShape. cbv zeta. destruct r as [r|].
  - intros [Hb H]. rewrite bool_decide_eq_false_2 by done. cbn [andb].
    destruct (rt_Err r) as [e|].
    + destruct (0 <? SizeBytes r)%Z; cbn; destruct (Z.ltb_spec (defaultSteps cfg) 1); (lia || done).
    + destruct H as [Hs Hz]. replace (0 <? SizeBytes r)%Z with true by (symmetry; by apply Z.ltb_lt).
      assert (Hl : (0 < len (StepNames r))%Z) by (destruct (StepNames r); [done|unfold len; cbn; lia]).
      replace (0 <? len (StepNames r))%Z with true by (symmetry; by apply Z.ltb_lt). cbn.
      destruct (Z.ltb_spec (len (StepNames r)) 1); [lia|done].
  - intros [Hd Hi]. destruct (Z.ltb_spec 0 (inlineSteps t)) as [H|H].
    + destruct (Hi H) as [-> Hz]. rewrite bool_decide_eq_true_2 by done. cbn.
      replace (0 <? inlineSize t)%Z with true by (symmetry; by apply Z.ltb_lt).
      destruct (Z.ltb_spec (inlineSteps t) 1); [lia|done].
    + rewrite andb_false_r. cbn. destruct (Z.ltb_spec (defaultSteps cfg) 1); [lia|done].
Qed.

(** ** Cleaning up *)
Definition keptLines (data : string) : list string :=
  List.filter (fun l => negb (emptyField l)) (Split "010"%char data).

(** Cleaning up removes whole lines and nothing else: the lines of the result are
    the lines of the input without those that are an empty field, in their order;
    doing it again changes nothing. *)
Theorem cleanup_removes_lines data :
  (keptLines data <> [] -> Split "010"%char (cleanupYAML data) = keptLines data) /\
  (keptLines data = [] -> cleanupYAML data = "") /\
  cleanupYAML (cleanupYAML data) = cleanupYAML data.
Proof.
  assert (H1 : keptLines data <> [] -> Split "010"%char (cleanupYAML data) = keptLines data).
  { intros Hne. unfold cleanupYAML. fold (keptLines data). apply Split_Join; [done|].
    apply Forall_forall. intros x Hx. apply list_elem_of_In, filter_In in Hx as [Hx _].
    pose proof (Split_no_sep "010"%char data) as HF. rewrite Forall_forall in HF. by apply HF, list_elem_of_In. }
  assert (H2 : keptLines data = [] -> cleanupYAML data = "").
  { intros He. unfold cleanupYAML. fold (keptLines data). by rewrite He. }
  split; [done|]. split; [done|]. destruct (decide (keptLines data = [])) as [He|Hne].
  - rewrite (H2 He). vm_compute. reflexivity.
  - assert (Hk : keptLines (cleanupYAML data) = keptLines data).
    { unfold keptLines at 1. rewrite (H1 Hne). unfold keptLines. generalize (Split "010"%char data). intros l.
      induction l as [|x l IH]; cbn; [done|]. destruct (negb (emptyField x)) eqn:E; cbn; rewrite ?E, IH; done. }
    unfold cleanupYAML at 1. fold (keptLines (cleanupYAML data)). rewrite Hk. done.
Qed.

(** ** The command *)
(** Calls that touch neither files nor the exit code. *)
Definition quiet (c : tcall) : Prop :=
  match c with ReadFile _ | WriteFile _ _ | Exit _ => False | _ => True end.

Definition disciplined (f : flags) (c : tcall) : Prop :=
  match c with
  | ReadFile path => path = fl_input f
  | WriteFile path _ => path = fl_output f
  | Exit code => code = 1%Z
  | _ => True
  end.

(** The files written, with their contents. *)
Definition written (tr : list tevent) : list (string * string) :=
  omap (fun e => match ev_call e as c return tresp c -> option (string * string) with
                 | WriteFile path data => fun err => match err with None => Some (path, data) | Some _ => None end
                 | _ => fun _ => None
                 end (ev_resp e)) tr.

Lemma written_quiet tr : Forall (fun e => quiet (ev_call e)) tr -> written tr = [].
Proof.
  induction 1 as [|[c r] tr H _ IH]; [done|]. unfold written in *. cbn in *. rewrite IH. by destruct c.
Qed.

Lemma written_app t1 t2 : written (t1 ++ t2) = written t1 ++ written t2.
Proof. apply omap_app. Qed.

Section Command.
Context {Y : Codec}.

Lemma quiet_generateTasks tasks resolved ps m cfg : forall a, every quiet (generateTasks tasks resolved ps m cfg a).
Proof.
  assert (Hr : forall lo hi, every quiet (randomInt lo hi)).
  { intros lo hi. unfold randomInt. destruct (hi <=? lo)%Z; [done|].
    destruct (int64 (hi - lo + 1) <=? 0)%Z; cbn; (split; [done|]); by intros []. }
  assert (Hp : forall s t, every quiet (padScript s t)).
  { intros s t. unfold padScript. destruct (_ <=? 0)%Z; [done|]. destruct (_ <=? 0)%Z; [done|]. done. }
  assert (Hs : forall s n i, every quiet (generateSteps cfg s i n)).
  { intros s n. induction n as [|n IH]; intros i; cbn [generateSteps]; [done|].
    apply every_bind; [|intros st; apply every_bind; [apply IH|done]].
    unfold generateStep. apply every_bind; [apply Hr|]. intros secs. apply every_bind; [apply Hp|done]. }
  induction tasks as [|t tasks IH]; intros a; cbn [generateTasks]; [done|].
  apply every_bind; [|intros pt; apply IH]. unfold generatePipelineTask. apply every_bind; [apply Hs|done].
Qed.

Lemma quiet_generate tasks resolved ps trs cfg : every quiet (generatePipelineRun tasks resolved ps trs cfg).
Proof. unfold generatePipelineRun. apply every_bind; [apply quiet_generateTasks|done]. Qed.

Lemma quiet_resolveBundle t : every quiet (resolveBundle t).
Proof.
  assert (Hf : forall layers descs i, every quiet (findTask t layers i descs)).
  { intros layers descs. induction descs as [|d descs IH]; intros i; cbn [findTask]; [done|].
    destruct (negb (isTaskLayer t d)); [apply IH|]. destruct (layers !! i) as [layer|]; [|by split; [done|intros []]].
    unfold extractTask. cbn. split; [done|]. intros [tar|e]; cbn; [|done].
    by destruct (scanEntries (tar_Entries tar) (tar_End tar) 0).1 as [[]|]. }
  unfold resolveBundle. cbn. split; [done|]. intros [ref|e]; [|done]. cbn. split; [done|].
  intros [img|e]; [|done]. cbn. split; [done|]. intros [descs|e]; [|done]. cbn. split; [done|].
  intros [layers|e]; [apply Hf|done].
Qed.

Lemma quiet_resolveStep f tasks ps : every quiet (resolveStep f tasks ps).
Proof.
  assert (H : forall l m, every quiet (resolveAll l m)).
  { intros l. induction l as [|t l IH]; intros m; cbn [resolveAll]; [done|].
    apply every_bind; [apply quiet_resolveBundle|intros r; apply IH]. }
  unfold resolveStep. destruct (fl_skipResolve f); [done|]. destruct (0 <? _)%Z; [|done].
  apply every_bind; [done|]. intros _. apply H.
Qed.

Lemma quiet_report tasks resolved ps cfg : forall acc, every quiet (report tasks resolved ps cfg acc).
Proof.
  induction tasks as [|t tasks IH]; intros acc; cbn [report]; [done|].
  destruct (reportOf t (resolved !! ti_name t) cfg) as [[steps size] status].
  apply every_bind; [done|]. intros _. apply IH.
Qed.

Lemma run_writeOutput f tasks t out tr u :
  run (writeOutput f tasks t out) tr u ->
  exists yaml, yaml_Marshal_PipelineRun out = Ok yaml /\ written tr = [(fl_output f, cleanupYAML yaml)].
Proof.
  unfold writeOutput. destruct (yaml_Marshal_PipelineRun out) as [yaml|e].
  - cbn. intros ([e|]&t1&->&H); [by destruct H as ([]&?&_&([]&_))|]. exists yaml. split; [done|].
    destruct H as ([]&?&->&H). destruct H as ([]&?&->&H). destruct H as ([]&?&->&H). destruct H as ([]&?&->&->&_). done.
  - by intros ([]&?&_&([]&_)).
Qed.

Lemma disciplined_main usage f : every (disciplined f) (main usage f).
Proof.
  assert (Hq : forall c, quiet c -> disciplined f c) by (intros []; done).
  assert (Hfatal : forall A m, every (disciplined f) (fatal (A := A) m)).
  { intros A m. cbn. split; [done|]. intros _. split; [done|]. intros []. }
  unfold main. destruct (_ || _); [apply every_bind; [done|intros _; apply Hfatal]|].
  apply every_bind; [done|]. intros [data|e]; [|apply Hfatal].
  destruct (yaml_Unmarshal_PipelineRun data) as [pr|e]; [|apply Hfatal].
  destruct (pr_PipelineSpec pr); [|apply Hfatal]. destruct (_ =? 0)%Z; [apply Hfatal|].
  apply every_bind; [eapply every_mono; [exact Hq|apply quiet_resolveStep]|]. intros resolved.
  apply every_bind; [eapply every_mono; [exact Hq|apply quiet_report]|]. intros t.
  apply every_bind; [eapply every_mono; [exact Hq|apply quiet_generate]|]. intros out.
  unfold writeOutput. destruct (yaml_Marshal_PipelineRun out) as [yaml|e]; [|apply Hfatal].
  apply every_bind; [done|]. intros [e|]; [apply Hfatal|]. done.
Qed.

(** C40: the command reads its input and writes its output only, and exits only with
    code 1; when it returns, it wrote exactly one file, the cleaned-up YAML of a run
    generated from the PipelineRun that was read. *)
Theorem command_writes_once usage f :
  every (disciplined f) (main usage f) /\
  forall tr u, run (main usage f) tr u ->
    exists data pr spec resolved out trg yaml,
      Ev (ReadFile (fl_input f)) (Ok data) ∈ tr /\ yaml_Unmarshal_PipelineRun data = Ok pr /\
      pr_PipelineSpec pr = Some spec /\ extractTaskInfos pr <> [] /\
      run (generatePipelineRun (extractTaskInfos pr) resolved (pr_Params pr) (pr_TaskRunSpecs pr) (configOf f)) trg out /\
      yaml_Marshal_PipelineRun out = Ok yaml /\ written tr = [(fl_output f, cleanupYAML yaml)].
Proof.
  split; [apply disciplined_main|]. intros tr u. unfold main.
  destruct (_ || _); [by intros ([]&?&_&[]&?&_&([]&_))|]. rewrite run_bind.
  intros (t1&t2&res&->&(r1&t1'&->&->&->)&H).
  destruct r1 as [data|e]; [|by destruct H as ([]&?&_&([]&_))].
  destruct (yaml_Unmarshal_PipelineRun data) as [pr|e] eqn:Ey; [|by destruct H as ([]&?&_&([]&_))].
  destruct (pr_PipelineSpec pr) as [spec|] eqn:Es; [|by destruct H as ([]&?&_&([]&_))].
  destruct (Z.eqb_spec (len (extractTaskInfos pr)) 0) as [|Hne]; [by destruct H as ([]&?&_&([]&_))|].
  apply run_bind in H as (t3&t4&resolved&->&H1&H). apply run_bind in H as (t5&t6&t&->&H2&H).
  apply run_bind in H as (t7&t8&out&->&H3&H). apply run_writeOutput in H as (yaml&Hy&Hw).
  exists data, pr, spec, resolved, out, t7, yaml. split; [set_solver|]. split; [done|]. split; [done|].
  split; [intros E; rewrite E in Hne; done|]. split; [done|]. split; [done|].
  pose proof (every_run _ _ _ _ (quiet_resolveStep f (extractTaskInfos pr) (pr_Params pr)) H1) as Q1.
  pose proof (every_run _ _ _ _ (quiet_report _ _ _ _ _) H2) as Q2.
  pose proof (every_run _ _ _ _ (quiet_generate _ _ _ _ _) H3) as Q3.
  change (written (?e :: ?l)) with (written ([e] ++ l)). rewrite !written_app, (written_quiet t3), (written_quiet t5), (written_quiet t7) by done.
  done.
Qed.
End Command.

(** ** An example *)
Lemma generated_run_shape_witness :
  exists out tr spec', simulate demoHandler (generatePipelineRun (extractTaskInfos demoRun) ∅ (pr_Params demoRun)
      (pr_TaskRunSpecs demoRun) demoConfig) = Some (out, tr) /\
    pr_PipelineSpec out = Some spec' /\ length (Tasks spec') = 2.
Proof.
  assert (exists x, simulate demoHandler (generatePipelineRun (extractTaskInfos demoRun) ∅ (pr_Params demoRun)
    (pr_TaskRunSpecs demoRun) demoConfig) = Some x) as ([out tr]&E) by (eexists; vm_compute; reflexivity).
  destruct (pr_PipelineSpec demoRun) as [spec|] eqn:Es; [|discriminate Es].
  destruct (generated_run_shape demoRun spec ∅ demoConfig tr out Es (simulate_run _ _ _ _ E)) as (spec'&H1&_&_&H2&_).
  exists out, tr, spec'. split; [exact E|]. split; [exact H1|]. apply Forall2_length in H2. rewrite <- H2.
  injection Es as <-. reflexivity.
Defined.
