(* ===== verification/LoadDivergences.v ===== *)
(** * Where the report of the load-test tool and the generator part

    main.go of the tool prints, for every task, the steps and the size it will have;
    the theorem report_exact says when the generator agrees. *)
From S2P Require Import Prelude GoStd NetUrl GoFmt Tekton Generator Bundle LoadMain ScriptProps BundleProps LoadProps.

(** ** A bundle task without steps (main.go, printReport)

    A bundle whose Task has no steps is resolved without an error: the report counts
    no steps for it, and the generator makes the default number of them. *)
Definition emptyBundle : resolvedTask :=
  {| rt_Name := "scan"; StepNames := []; rt_StepResources := []; SizeBytes := 300; rt_Err := None |}.

Lemma stepless_bundle_misreported :
  (reportOf scanTask (Some emptyBundle) demoConfig).1 = (0%Z, 300%Z) /\
  stepCount (taskShape scanTask (Some emptyBundle) demoConfig) = 2%Z.
Proof. split; reflexivity. Qed.
