(* ===== verification/Divergences.v ===== *)
(** * Where the code and its documentation part

    Executions of the model in which the code does something else than a comment or
    a document of the repository says.  Each lemma is about the definitions the
    other files prove correct. *)
From S2P Require Import Prelude GoStd NetUrl KubeTypes APITypes Kube Reference ResCommon KineRes.
From S2P Require Import NamespaceSync WebhookSync.
From S2P Require Import PostgresRes SecondaryRes MetricsRes OtelRes Certs Aggregation ClientProvider.
From S2P Require Import ApiShardSteps ApiShard DSNProps.

(** ** The PostgreSQL password (reconciler.go, getOrGeneratePostgresPassword)

    The comment promises the existing password and password stability across
    reconciliations.  Any error of the read, a timeout of the API server as well as
    NotFound, makes the step generate a password: the existing one is then replaced
    in the credentials secret although the database keeps the old one. *)
Lemma password_replaced_on_any_error shard err b :
  run (getOrGeneratePostgresPassword shard)
    [Ev (Get PrimaryC KSecret {| nn_Namespace := shardNS shard; nn_Name := PostgreSQLSecretName shard |}) (Err err);
     Ev (RandRead 16) (Ok b)]
    (Ok (hex_EncodeToString b)).
Proof.
  unfold getOrGeneratePostgresPassword. cbn. eexists _, _. split; [reflexivity|]. cbn.
  eexists _, _. split; [reflexivity|]. split; reflexivity.
Qed.

(** ** APIServices of a failed registration (aggregation/apiservice.go, Reconcile)

    The finalizer deletes the APIServices that the status names.  When the second of
    two APIServices cannot be applied, the first exists on the cluster but the status
    does not name it: a shard deleted in this state is released by the finalizer while
    that APIService still routes to it, and only garbage collection, which removes the
    backend at the same time, deletes it.  This is the window the comment on the
    finalizer in Reconcile says it closes. *)
Definition secondFails (c : call) (w : world) : resp c * world :=
  match c return resp c * world with
  | PatchApply c0 KAPIService o owner force =>
      if decide (meta_Name (as_Meta o) = "v1beta1.tekton.dev")
      then ((o, Some (Errorf "etcdserver: request timed out")), w)
      else ref_handler (PatchApply c0 KAPIService o owner force) w
  | c => ref_handler c w
  end.

Definition registration :=
  exec secondFails (reconcileAPIServices (demoShard sqliteStorage)) (runningCluster (demoShard sqliteStorage)).

Lemma failed_registration_unrecorded :
  is_Some (result_of registration).1 /\
  RegisteredAPIServices (Status (result_of registration).2) = [] /\
  is_Some (store_get KAPIService {| nn_Namespace := ""; nn_Name := "v1.tekton.dev" |} (w_primary (world_of registration))).
Proof. vm_compute. split; [by eexists|]. split; [done|by eexists]. Qed.

(** ** Orphan cleanup (reconciler.go, Reconcile)

    The comment says that cleanup runs only after all apply steps have completed, so
    that the tracked set is complete.  The metrics collector's applies may fail
    without stopping the reconciliation: cleanup then runs while the collector's
    Deployment, which may be running, is not in the tracked set. *)
Definition monitoredStorage : StorageSpec :=
  {| Type_ := StorageTypeInClusterPostgreSQL; ConnectionSecretRef := None; InCluster := None;
     StorageMonitoring := Some {| Enabled := true; CollectionInterval := ""; CACertSecret := None; PostgreSQL := None |} |}.

Definition collectorFails (c : call) (w : world) : resp c * world :=
  match c return resp c * world with
  | ApplyOwned tc KConfigMap o =>
      if decide (meta_Labels (cm_Meta o) = mlit [(LabelOTelConfig, "true")])
      then ((o, Some (Errorf "etcdserver: request timed out")), w)
      else ref_handler (ApplyOwned tc KConfigMap o) w
  | c => ref_handler c w
  end.

Definition isCollectorDeployment (c : call) : bool :=
  match c with
  | ApplyOwned _ KDeployment d => bool_decide (meta_Name (d_Meta d) = "demo-postgresql-metrics")
  | _ => false
  end.
Definition isCleanupCall (c : call) : bool := match c with CleanupOrphans _ _ _ _ => true | _ => false end.

Definition partialRun :=
  exec collectorFails
    (provision {| ServiceMonitorAvailable := true; SCCAvailable := true; PrimaryIssuer := "https://issuer" |} ∅
       (demoShard monitoredStorage)) (runningCluster (demoShard monitoredStorage)).

Lemma cleanup_with_incomplete_set :
  performs isCleanupCall (trace_of partialRun) = true /\
  performs isCollectorDeployment (trace_of partialRun) = false.
Proof. vm_compute. split; reflexivity. Qed.

(** ** Names of two shards in one namespace (certs/certmanager.go)

    A shard may be called like another one followed by [-kine] and share its target
    namespace.  The CA of the one is then stored in the secret of the Kine CA of the
    other, so that certificates of the first authenticate to the Kine of the
    second, which the dedicated Kine CA is there to prevent. *)
Definition renamed (n : string) (shard : APIShard) : APIShard :=
  with_meta (fun m => newMeta n (meta_Namespace m) (meta_Labels m)) shard.

Lemma shard_names_collide shard n :
  let a := renamed n shard in let b := renamed (n +:+ "-kine") shard in
  KineCASecretName a = shardName b +:+ "-ca-keypair" /\ KineCAIssuerName a = IssuerName b /\
  meta_Name (u_Meta (BuildKineSelfSignedIssuer a)) = meta_Name (u_Meta (BuildSelfSignedIssuer b)).
Proof.
  cbn. unfold KineCASecretName, KineCAIssuerName, IssuerName, shardName. cbn. by rewrite <- !string_app_assoc.
Qed.

(** ** Values that could inject YAML (otel_collector.go, ParsePostgreSQLDSN)

    The comment says that values that could inject YAML are rejected.  Only line
    breaks are: a database name may close the quotes and the bracket it is put in. *)
Definition quotedDSN : string := "postgres://u:p@db/kine%22%5D".

Lemma quotes_not_rejected :
  exists params, ParsePostgreSQLDSN (fun _ => true) quotedDSN = Ok params /\
    ("    databases: [kine" +:+ dquote +:+ "]]") ∈ otelConfigLines (demoShard sqliteStorage) params.
Proof.
  eexists. split; [vm_compute; reflexivity|]. apply (bool_decide_eq_true_1 _). vm_compute. reflexivity.
Qed.

(** ** A webhook whose update fails (webhooksync/reconciler.go, Reconcile)

    The comment on deletion says that it removes webhooks that no longer match.  A
    configuration that the primary still has and that is still selected is deleted
    from the secondary when writing its copy fails: with an API server that answers
    every update with a conflict, the pass ends with the deletion of the copy. *)
Definition conflictHandler (c : call) (w : world) : resp c * world :=
  match c return resp c * world with
  | Update c k o => ((o, Some (mkError "the object has been modified" ClassConflict)), w)
  | c => ref_handler c w
  end.

Lemma webhook_failed_update_deletes :
  exists tr out, run (syncWebhooks ∅ demoRemote demoWsync) tr out /\
    demoWc "tekton-hook" ["tekton.dev"] ∈ selected {["tekton.dev"]} demoWcs /\
    performs (deletesHook "tekton-hook") tr = true /\
    out.1 = (noRequeue, None).
Proof.
  exists (trace_of (exec conflictHandler (syncWebhooks ∅ demoRemote demoWsync) whCluster)),
         (result_of (exec conflictHandler (syncWebhooks ∅ demoRemote demoWsync) whCluster)).
  split; [apply exec_run|]. split; [|split; vm_compute; reflexivity].
  apply list_elem_of_In. cbn. by left.
Qed.
